(** * jxmlease: node tree, replacement protocol, path matcher, serializer

    A shallow embedding of the Python package [jxmlease] (modules
    [_basenode], [cdatanode], [dictnode], [listnode], [_parsehandler] and
    [xmlparser]).  Python objects live in an explicit store; every method
    becomes a computation over that store which may return, raise a Python
    exception, or be undefined (dangling reference, exhausted loop budget).

    A Python [str] is a [string] whose characters are the code points of
    the text; the strings covered are those whose code points lie below
    256. *)

From Stdlib Require Import String Ascii List Bool Arith ZArith Lia.
From stdpp Require Import base list strings.

Open Scope string_scope.
Open Scope list_scope.

(** ** Python primitives *)

Module Py.

(** [str.split(sep)] for a one-character separator. *)
Fixpoint split (sep : ascii) (s : string) : list string :=
  match s with
  | EmptyString => [EmptyString]
  | String c s' =>
      if Ascii.eqb c sep then EmptyString :: split sep s'
      else match split sep s' with
           | [] => [String c EmptyString]
           | w :: ws => String c w :: ws
           end
  end.

(** [sep.join(l)]. *)
Definition join (sep : string) (l : list string) : string := String.concat sep l.

(** [s.startswith(p)]. *)
Definition startswith (p s : string) : bool := String.prefix p s.

(** [l[-d:]] for a non-negative [d]: [-0] is [0], so the whole list comes
    back; otherwise the start is clamped at the front of the list. *)
Definition slice_last {A} (d : nat) (l : list A) : list A :=
  match d with
  | 0 => l
  | S _ => drop (length l - d) l
  end.

(** Characters removed by [str.strip()] without argument: those for which
    [str.isspace()] holds.  A character of a string is its code point, and
    the strings of the model are those over the code points below 256;
    there the white space is U+0009 to U+000D, U+001C to U+0020, U+0085
    and U+00A0. *)
Definition is_space (c : ascii) : bool :=
  let n := nat_of_ascii c in
  (Nat.leb 9 n && Nat.leb n 13) || (Nat.leb 28 n && Nat.leb n 32)
  || Nat.eqb n 133 || Nat.eqb n 160.

Fixpoint mem_char (c : ascii) (s : string) : bool :=
  match s with
  | EmptyString => false
  | String d s' => Ascii.eqb c d || mem_char c s'
  end.

Fixpoint lstrip (drop : ascii -> bool) (s : string) : string :=
  match s with
  | EmptyString => EmptyString
  | String c s' => if drop c then lstrip drop s' else s
  end.

Fixpoint rstrip (drop : ascii -> bool) (s : string) : string :=
  match s with
  | EmptyString => EmptyString
  | String c s' =>
      match rstrip drop s' with
      | EmptyString => if drop c then EmptyString else String c EmptyString
      | t => String c t
      end
  end.

(** [str.strip(s, chars)]; [chars = None] strips white space. *)
Definition strip (chars : option string) (s : string) : string :=
  let drop := match chars with
              | None => is_space
              | Some cs => fun c => mem_char c cs
              end in
  rstrip drop (lstrip drop s).

(** [s * n] (string repetition). *)
Fixpoint repeat_str (n : nat) (s : string) : string :=
  match n with
  | 0 => EmptyString
  | S n' => String.append s (repeat_str n' s)
  end.

(** [s.rfind(sep)]: start of the last occurrence of [sep], if any. *)
Fixpoint rfind_from (sep s : string) (i : nat) : option nat :=
  match s with
  | EmptyString => if String.prefix sep EmptyString then Some i else None
  | String _ s' =>
      match rfind_from sep s' (S i) with
      | Some j => Some j
      | None => if String.prefix sep s then Some i else None
      end
  end.
Definition rfind (sep s : string) : option nat := rfind_from sep s 0.

(** Exceptions raised by the modelled code. *)
Inductive exn :=
| AttributeError
| KeyError
| TypeError
| ValueError
| IndexError
| Warning
| RecursionError
| AssertionError
| ExpatError (msg : string).

(** Dictionary keys: [None], a string, or a tuple of strings. *)
Inductive key := KNone | KStr (s : string) | KTuple (t : list string).

Definition key_truthy (k : key) : bool :=
  match k with
  | KNone => false
  | KStr s => negb (String.eqb s "")
  | KTuple t => negb (match t with [] => true | _ => false end)
  end.

(** The key a tag stands for ([key = tag]). *)
Definition key_of_tag (tag : option string) : key :=
  match tag with
  | None => KNone
  | Some s => KStr s
  end.

End Py.

#[global] Instance key_eq_dec : EqDecision Py.key.
Proof. solve_decision. Defined.

(** ** OrderedDict *)

Module OrderedDict.
Section Ops.
Context {K V : Type} `{EqDecision K}.

Definition t := list (K * V).

Fixpoint get (k : K) (d : list (K * V)) : option V :=
  match d with
  | [] => None
  | (k', v) :: d' => if decide (k' = k) then Some v else get k d'
  end.

Definition contains (k : K) (d : list (K * V)) : bool :=
  match get k d with Some _ => true | None => false end.

(** [d[k] = v]: an existing key keeps its position, a new one goes last. *)
Fixpoint set (k : K) (v : V) (d : list (K * V)) : list (K * V) :=
  match d with
  | [] => [(k, v)]
  | (k', v') :: d' =>
      if decide (k' = k) then (k', v) :: d' else (k', v') :: set k v d'
  end.

(** [del d[k]] for a key that is present. *)
Fixpoint del (k : K) (d : list (K * V)) : list (K * V) :=
  match d with
  | [] => []
  | (k', v') :: d' => if decide (k' = k) then d' else (k', v') :: del k d'
  end.

Definition keys (d : list (K * V)) : list K := map fst d.
End Ops.
End OrderedDict.

(** ** The object store *)

Abbreviation ref := nat (only parsing).

(** What a reference held in [_replacement_node] may designate: a node of
    the store, or a foreign object that has no [_replacement_node]
    attribute (only its truth value matters). *)
Inductive pyval := VRef (r : ref) | VForeign (truthy : bool).

#[global] Instance pyval_eq_dec : EqDecision pyval.
Proof. solve_decision. Defined.

Abbreviation attrs := (list (string * string)) (only parsing).

(** The built-in value a node class inherits from: [XMLCDATANode] is a
    string, [XMLDictNode] an ordered dictionary (with its [_ignore_level]
    flag), [XMLListNode] a list. *)
Inductive body :=
| CDATA (s : string)
| DICT (items : list (Py.key * ref)) (_ignore_level : bool)
| LIST (items : list ref).

Module Node.
Record t := mk {
  tag : option string;
  key : Py.key;
  xml_attrs : attrs;
  text : string;
  parent : option ref;
  _replacement_node : option pyval;
  value : body
}.

Definition set_tag (x : option string) (n : t) : t :=
  mk x (key n) (xml_attrs n) (text n) (parent n) (_replacement_node n) (value n).
Definition set_key (x : Py.key) (n : t) : t :=
  mk (tag n) x (xml_attrs n) (text n) (parent n) (_replacement_node n) (value n).
Definition set_xml_attrs (x : attrs) (n : t) : t :=
  mk (tag n) (key n) x (text n) (parent n) (_replacement_node n) (value n).
Definition set_text (x : string) (n : t) : t :=
  mk (tag n) (key n) (xml_attrs n) x (parent n) (_replacement_node n) (value n).
Definition set_parent (x : option ref) (n : t) : t :=
  mk (tag n) (key n) (xml_attrs n) (text n) x (_replacement_node n) (value n).
Definition set_replacement (x : option pyval) (n : t) : t :=
  mk (tag n) (key n) (xml_attrs n) (text n) (parent n) x (value n).
Definition set_value (x : body) (n : t) : t :=
  mk (tag n) (key n) (xml_attrs n) (text n) (parent n) (_replacement_node n) x.

(** Truth value of a node: that of the string, dictionary or list it is. *)
Definition truthy (n : t) : bool :=
  match value n with
  | CDATA s => negb (String.eqb s "")
  | DICT items _ => match items with [] => false | _ => true end
  | LIST items => match items with [] => false | _ => true end
  end.

(** [len(node)]. *)
Definition len (n : t) : nat :=
  match value n with
  | CDATA s => String.length s
  | DICT items _ => length items
  | LIST items => length items
  end.
End Node.

Abbreviation heap := (list Node.t) (only parsing).

(** ** Computations over the store *)

Inductive outcome (A : Type) :=
| Ok (a : A) (h : heap)
| Raise (e : Py.exn) (h : heap)
| Undef.
Arguments Ok {A} a h.
Arguments Raise {A} e h.
Arguments Undef {A}.

Definition M (A : Type) : Type := heap -> outcome A.

Definition ret {A} (a : A) : M A := fun h => Ok a h.

Definition bind {A B} (m : M A) (f : A -> M B) : M B := fun h =>
  match m h with
  | Ok a h' => f a h'
  | Raise e h' => Raise e h'
  | Undef => Undef
  end.

Declare Scope py_scope.
Delimit Scope py_scope with py.
Bind Scope py_scope with M.
Notation "x ← y ; z" := (bind y (fun x => z))
  (at level 20, y at level 100, z at level 200, only parsing) : py_scope.
Notation "x ;; z" := (bind x (fun _ => z))
  (at level 100, z at level 200, only parsing, right associativity) : py_scope.
Open Scope py_scope.

Definition raise {A} (e : Py.exn) : M A := fun h => Raise e h.
Definition undef {A} : M A := fun _ => Undef.

(** [try: m except: handler] with a bare [except]. *)
Definition try_except {A} (m : M A) (handler : Py.exn -> M A) : M A := fun h =>
  match m h with
  | Raise e h' => handler e h'
  | o => o
  end.

Definition when (b : bool) (m : M unit) : M unit := if b then m else ret tt.

(** Attribute read, attribute write, object creation. *)
Definition rd {A} (r : ref) (f : Node.t -> A) : M A := fun h =>
  match h !! r with
  | Some n => Ok (f n) h
  | None => Undef
  end.

Definition wr (r : ref) (f : Node.t -> Node.t) : M unit := fun h =>
  match h !! r with
  | Some _ => Ok tt (alter f r h)
  | None => Undef
  end.

Definition alloc (n : Node.t) : M ref := fun h => Ok (length h) (h ++ [n]).

(** ** Value equality ([==]) between nodes

    The node classes inherit [__eq__] from [str], [OrderedDict] and [list]:
    two leaves are equal when their strings are, two lists or two
    dictionaries when they agree entry by entry, nodes of different classes
    never.  Members are compared with the identity shortcut of the
    interpreter.  The recursion consumes interpreter stack; [None] stands
    for the [RecursionError] of an exhausted budget.

    [recursion_limit] is the number of nested comparisons there is room
    for.  The interpreter's default limit is taken for it: an upper bound
    of the room a caller leaves, exact only up to the frames of the
    caller.  Comparisons that do not descend into children (with a leaf,
    between nodes of different classes or lengths, of a node with itself)
    do not depend on it. *)

Definition recursion_limit : nat := 1000.

Fixpoint all2 {A} (f : A -> A -> option bool) (l1 l2 : list A) : option bool :=
  match l1, l2 with
  | [], [] => Some true
  | x :: l1', y :: l2' =>
      match f x y with
      | Some true => all2 f l1' l2'
      | r => r
      end
  | _, _ => Some false
  end.

Fixpoint node_eq (fuel : nat) (h : heap) (a b : ref) : option bool :=
  match fuel with
  | 0 => None
  | S fuel' =>
      let member x y := if Nat.eqb x y then Some true else node_eq fuel' h x y in
      match h !! a, h !! b with
      | Some na, Some nb =>
          match Node.value na, Node.value nb with
          | CDATA s1, CDATA s2 => Some (String.eqb s1 s2)
          | LIST l1, LIST l2 =>
              if Nat.eqb (length l1) (length l2) then all2 member l1 l2
              else Some false
          | DICT d1 _, DICT d2 _ =>
              if Nat.eqb (length d1) (length d2) then
                all2 (fun e1 e2 =>
                        if bool_decide (fst e1 = fst e2)
                        then member (snd e1) (snd e2) else Some false) d1 d2
              else Some false
          | _, _ => Some false
          end
      | _, _ => None
      end
  end.

Definition py_eq (a b : ref) : M bool := fun h =>
  match node_eq recursion_limit h a b with
  | Some r => Ok r h
  | None => Raise Py.RecursionError h
  end.

(** ** [_basenode.py]: class [XMLNodeBase] *)

Module XMLNodeBase.

(** [__init__]: a fresh object with the given attributes; the attribute
    dictionary is copied and [_replacement_node] starts as [None]. *)
Definition __init__ (value : body) (tag : option string) (key : Py.key)
    (parent : option ref) (xml_attrs : attrs) (text : string) : M ref :=
  alloc (Node.mk tag key xml_attrs text parent None value).

Definition has_xml_attrs (self : ref) : M bool :=
  a ← rd self Node.xml_attrs;
  ret (if Nat.ltb 0 (length a) then true else false).

(** Truth value of an object, as taken by [if obj:]. *)
Definition truth (v : pyval) : M bool :=
  match v with
  | VRef r => rd r Node.truthy
  | VForeign b => ret b
  end.

Definition _check_replacement (self : ref) : M unit :=
  r ← rd self Node._replacement_node;
  match r with
  | None => ret tt
  | Some v =>
      b ← truth v;
      if b then raise Py.AttributeError else ret tt
  end.

Definition set_xml_attr (self : ref) (attr val : string) : M unit :=
  _check_replacement self;;
  wr self (fun n => Node.set_xml_attrs (OrderedDict.set attr val (Node.xml_attrs n)) n).

Definition get_xml_attr (self : ref) (attr : string) (defval : option string)
    : M string :=
  a ← rd self Node.xml_attrs;
  match OrderedDict.get attr a with
  | Some v => ret v
  | None =>
      match defval with
      | Some d => ret d
      | None => raise Py.KeyError
      end
  end.

Definition get_xml_attrs (self : ref) : M attrs := rd self Node.xml_attrs.

Definition delete_xml_attr (self : ref) (attr : string) : M unit :=
  _check_replacement self;;
  a ← rd self Node.xml_attrs;
  if OrderedDict.contains attr a
  then wr self (Node.set_xml_attrs (OrderedDict.del attr a))
  else raise Py.KeyError.

Definition set_cdata (self : ref) (cdata : string) (return_node : bool)
    : M (option ref) :=
  _check_replacement self;;
  wr self (Node.set_text cdata);;
  ret (if return_node then Some self else None).

Definition append_cdata (self : ref) (cdata : string) (return_node : bool)
    : M (option ref) :=
  _check_replacement self;;
  wr self (fun n => Node.set_text (String.append (Node.text n) cdata) n);;
  ret (if return_node then Some self else None).

Definition get_cdata (self : ref) : M string := rd self Node.text.

(** The [while] loop of [get_current_node], run inside its [try]: reading
    [_replacement_node] of [None] or of a foreign object raises. *)
Fixpoint follow (budget : nat) (self : ref) : M unit :=
  match budget with
  | 0 => undef
  | S budget' =>
      r ← rd self Node._replacement_node;
      match r with
      | Some (VRef m) =>
          r' ← rd m Node._replacement_node;
          match r' with
          | None => ret tt
          | Some v =>
              wr self (Node.set_replacement (Some v));;
              follow budget' self
          end
      | _ => raise Py.AttributeError
      end
  end.

(** [get_current_node]; the loop budget is the size of the store, which
    no chain of distinct nodes exceeds. *)
Definition get_current_node (self : ref) : M pyval := fun h =>
  (r ← rd self Node._replacement_node;
   match r with
   | Some _ =>
       try_except (follow (length h) self) (fun _ => ret tt);;
       r' ← rd self Node._replacement_node;
       match r' with
       | Some v => ret v
       | None => undef
       end
   | None => ret (VRef self)
   end) h.

(** Item assignment, deletion and list operations on the built-in value
    of a node. *)
Definition dict_setitem (d : ref) (k : Py.key) (v : ref) : M unit :=
  wr d (fun n =>
    match Node.value n with
    | DICT items ign => Node.set_value (DICT (OrderedDict.set k v items) ign) n
    | _ => n
    end).

Definition dict_delitem (d : ref) (k : Py.key) : M unit :=
  wr d (fun n =>
    match Node.value n with
    | DICT items ign => Node.set_value (DICT (OrderedDict.del k items) ign) n
    | _ => n
    end).

Definition list_setitem (l : ref) (i : nat) (v : ref) : M unit :=
  wr l (fun n =>
    match Node.value n with
    | LIST items => Node.set_value (LIST (<[i := v]> items)) n
    | _ => n
    end).

Definition list_delitem (l : ref) (i : nat) : M unit :=
  wr l (fun n =>
    match Node.value n with
    | LIST items => Node.set_value (LIST (delete i items)) n
    | _ => n
    end).

Definition list_append (l : ref) (v : ref) : M unit :=
  wr l (fun n =>
    match Node.value n with
    | LIST items => Node.set_value (LIST (items ++ [v])) n
    | _ => n
    end).

Section ReplaceNode.
(** The recursive call [x._replace_node(None)]. *)
Variable recur : ref -> M unit.
Variables (self : ref) (newnode : option ref).

(** [for i in range(0, len(val)): if val[i] == self: ...] in a list
    found among the parent's values (plan B). *)
Fixpoint scan_nested (key : Py.key) (val : ref) (elems : list ref) (i : nat)
    : M bool :=
  match elems with
  | [] => ret false
  | x :: rest =>
      e ← py_eq x self;
      if e then
        match newnode with
        | Some nn =>
            wr nn (Node.set_key key);;
            wr nn (Node.set_parent (Some val));;
            list_setitem val i nn;;
            ret true
        | None =>
            list_delitem val i;;
            n ← rd val Node.len;
            (if Nat.eqb n 0 then recur val else ret tt);;
            ret true
        end
      else scan_nested key val rest (S i)
  end.

(** [for key, val in myiter: ...] over the parent dictionary (plan B). *)
Fixpoint scan_items (parent : ref) (items : list (Py.key * ref)) : M bool :=
  match items with
  | [] => ret false
  | (key, val) :: rest =>
      e ← py_eq val self;
      if e then
        match newnode with
        | Some nn =>
            wr nn (Node.set_key key);;
            dict_setitem parent key nn;;
            ret true
        | None => dict_delitem parent key;; ret true
        end
      else
        v ← rd val Node.value;
        match v with
        | LIST elems =>
            found ← scan_nested key val elems 0;
            if found then ret true else scan_items parent rest
        | _ => scan_items parent rest
        end
  end.

(** Case 1 (first [try] block).  The result tells whether the method
    returned from inside the block.  When the parent is not a
    dictionary the block always raises: on a list, [self.key in
    self.parent] compares the key with the members and then either
    [self.parent[self.key]] (a [TypeError]) or the missing
    [iteritems]/[items] (an [AttributeError]) fails; on a string the
    same happens with the substring test. *)
Definition case1 (parent : ref) : M bool :=
  pv ← rd parent Node.value;
  key ← rd self Node.key;
  match pv with
  | DICT items _ =>
      a ← match OrderedDict.get key items with
          | Some cur =>
              e ← py_eq cur self;
              if e then
                match newnode with
                | Some nn => dict_setitem parent key nn;; ret true
                | None => dict_delitem parent key;; ret true
                end
              else ret false
          | None => ret false
          end;
      if a then ret true else scan_items parent items
  | LIST _ => raise Py.TypeError
  | CDATA _ => raise Py.TypeError
  end.

(** [for i in range(0, len(self.parent)): if self.parent[i] == self] on
    a list parent (case 2).  The result is [Some true] when the method
    returned from inside the loop, [Some false] when the loop was left
    by [break] after a deletion, [None] when nothing was found. *)
Fixpoint scan_parent (parent : ref) (elems : list ref) (i : nat)
    : M (option bool) :=
  match elems with
  | [] => ret None
  | x :: rest =>
      e ← py_eq x self;
      if e then
        match newnode with
        | Some nn => list_setitem parent i nn;; ret (Some true)
        | None => list_delitem parent i;; ret (Some false)
        end
      else scan_parent parent rest (S i)
  end.

(** Case 2 (second [try] block).  On a dictionary parent
    [self.parent[0]] raises [KeyError] (keys are never integers) unless
    the dictionary is empty; on a string parent a matching character
    leads to an item assignment or deletion on [str], a [TypeError]. *)
Definition case2 (parent : ref) : M bool :=
  pv ← rd parent Node.value;
  match pv with
  | LIST elems =>
      r ← scan_parent parent elems 0;
      match r with
      | Some true => ret true
      | Some false =>
          n ← rd parent Node.len;
          (if Nat.eqb n 0 then recur parent else ret tt);;
          ret true
      | None => ret false
      end
  | DICT items _ =>
      match items with
      | [] => ret false
      | _ => raise Py.KeyError
      end
  | CDATA s =>
      sv ← rd self Node.value;
      match sv with
      | CDATA (String c EmptyString) =>
          if Py.mem_char c s then raise Py.TypeError else ret false
      | _ => ret false
      end
  end.

Definition _replace_node_body : M unit :=
  _check_replacement self;;
  p ← rd self Node.parent;
  match p with
  | None => raise Py.AttributeError
  | Some parent =>
      match newnode with
      | Some nn => wr self (Node.set_replacement (Some (VRef nn)))
      | None => ret tt
      end;;
      done1 ← try_except (case1 parent) (fun _ => ret false);
      if done1 then ret tt else
      done2 ← try_except (case2 parent) (fun _ => ret false);
      if done2 then ret tt else raise Py.AttributeError
  end.
End ReplaceNode.

Fixpoint _replace_node_rec (budget : nat) (self : ref) (newnode : option ref)
    : M unit :=
  match budget with
  | 0 => undef
  | S budget' =>
      _replace_node_body (fun x => _replace_node_rec budget' x None) self newnode
  end.

(** [_replace_node]; every nested call works on a list that the previous
    call has just emptied, so the depth never exceeds the number of
    objects in the store. *)
Definition _replace_node (self : ref) (newnode : option ref) : M unit := fun h =>
  _replace_node_rec (S (length h)) self newnode h.

End XMLNodeBase.

(** ** [listnode.py]: class [XMLListNode] *)

Module XMLListNode.

(** [XMLListNode(initializer, tag=, key=, parent=, convert=False)]. *)
Definition __init__ (initializer : list ref) (tag : option string)
    (key : Py.key) (parent : option ref) : M ref :=
  XMLNodeBase.__init__ (LIST initializer) tag key parent [] "".

Definition add_node (self : ref) : M ref :=
  XMLNodeBase._check_replacement self;;
  raise Py.TypeError.

Definition list (self : ref) (in_place : bool) : M ref := ret self.

End XMLListNode.

(** ** [dictnode.py]: class [XMLDictNode] *)

Module XMLDictNode.

(** [XMLDictNode(tag=, key=, parent=, text=, xml_attrs=)]: an empty
    dictionary node with [_ignore_level = False]. *)
Definition __init__ (tag : option string) (key : Py.key) (parent : option ref)
    (text : string) (xml_attrs : attrs) : M ref :=
  XMLNodeBase.__init__ (DICT [] false) tag key parent xml_attrs text.

(** [self[key]] on a dictionary node. *)
Definition getitem (self : ref) (key : Py.key) : M ref :=
  v ← rd self Node.value;
  match v with
  | DICT items _ =>
      match OrderedDict.get key items with
      | Some x => ret x
      | None => raise Py.KeyError
      end
  | _ => raise Py.TypeError
  end.

Definition is_list (r : ref) : M bool :=
  v ← rd r Node.value;
  ret (match v with LIST _ => true | _ => false end).

(** The first part of [add_node]: the node to add ([new_node], or a new
    leaf built by [XMLCDATANode(text, tag=tag, xml_attrs=...)]) and the key
    to add it under. *)
Definition prepare_new_node (tag : option string) (key : Py.key)
    (text : string) (new_node : option pyval) (update : bool)
    (xml_attrs : attrs) : M (ref * Py.key) :=
  match new_node with
  | None =>
      nn ← XMLNodeBase.__init__ (CDATA text) tag (Py.key_of_tag tag) None
             xml_attrs text;
      if Py.key_truthy key then
        when update (wr nn (Node.set_key key));;
        ret (nn, key)
      else ret (nn, Py.key_of_tag tag)
  | Some (VForeign _) => raise Py.TypeError
  | Some (VRef nn) =>
      k ← (if Py.key_truthy key then
             when update (wr nn (Node.set_key key));;
             ret key
           else
             k' ← rd nn Node.key;
             if Py.key_truthy k' then ret k' else ret (Py.key_of_tag tag));
      when update (wr nn (Node.set_tag tag));;
      ret (nn, k)
  end.

(** [add_node(tag, key, text, new_node, update, xml_attrs=...)]. *)
Definition add_node (self : ref) (tag : option string) (key : Py.key)
    (text : string) (new_node : option pyval) (update : bool)
    (xml_attrs : attrs) : M ref :=
  XMLNodeBase._check_replacement self;;
  nk ← prepare_new_node tag key text new_node update xml_attrs;
  let new_node := fst nk in
  let key := snd nk in
  v ← rd self Node.value;
  match v with
  | DICT items _ =>
      (if OrderedDict.contains key items then
         old_node ← getitem self key;
         l ← is_list old_node;
         (if negb l then
            lst ← XMLListNode.__init__ [old_node] tag key (Some self);
            XMLNodeBase.dict_setitem self key lst;;
            cur ← getitem self key;
            when update (wr old_node (Node.set_parent (Some cur)))
          else ret tt);;
         cur ← getitem self key;
         when update (wr new_node (Node.set_parent (Some cur)));;
         cur' ← getitem self key;
         XMLNodeBase.list_append cur' new_node
       else
         when update (wr new_node (Node.set_parent (Some self)));;
         XMLNodeBase.dict_setitem self key new_node);;
      ret new_node
  | _ => raise Py.TypeError
  end.

End XMLDictNode.

(** ** [cdatanode.py]: class [XMLCDATANode] *)

Module XMLCDATANode.

(** [XMLCDATANode(initializer, tag=, key=, parent=, xml_attrs=)]; the
    node is the string and [self.text = self]. *)
Definition __init__ (initializer : string) (tag : option string)
    (key : Py.key) (parent : option ref) (xml_attrs : attrs) : M ref :=
  XMLNodeBase.__init__ (CDATA initializer) tag key parent xml_attrs initializer.

(** [_unicode(self)]. *)
Definition _unicode (self : ref) : M string :=
  v ← rd self Node.value;
  match v with
  | CDATA s => ret s
  | _ => raise Py.TypeError
  end.

Definition add_node (self : ref) (tag : option string) (key : Py.key)
    (text : string) (new_node : option pyval) (update : bool)
    (xml_attrs : attrs) : M ref :=
  XMLNodeBase._check_replacement self;;
  stag ← rd self Node.tag;
  skey ← rd self Node.key;
  sparent ← rd self Node.parent;
  stext ← _unicode self;
  sattrs ← rd self Node.xml_attrs;
  newnode ← XMLDictNode.__init__ stag skey sparent stext sattrs;
  rv ← XMLDictNode.add_node newnode tag key text new_node update xml_attrs;
  XMLNodeBase._replace_node self (Some newnode);;
  ret rv.

Definition set_cdata (self : ref) (cdata : string) (return_node : bool)
    : M (option ref) :=
  XMLNodeBase._check_replacement self;;
  stag ← rd self Node.tag;
  skey ← rd self Node.key;
  sparent ← rd self Node.parent;
  sattrs ← rd self Node.xml_attrs;
  newnode ← __init__ cdata stag skey sparent sattrs;
  XMLNodeBase._replace_node self (Some newnode);;
  ret (if return_node then Some newnode else None).

Definition append_cdata (self : ref) (cdata : string) (return_node : bool)
    : M (option ref) :=
  XMLNodeBase._check_replacement self;;
  s ← _unicode self;
  set_cdata self (String.append s cdata) return_node.

Definition get_cdata (self : ref) : M string := _unicode self.

End XMLCDATANode.

(** ** Method dispatch on the class of the receiver *)

Inductive class := XMLCDATANode_cls | XMLDictNode_cls | XMLListNode_cls.

Definition class_of (v : body) : class :=
  match v with
  | CDATA _ => XMLCDATANode_cls
  | DICT _ _ => XMLDictNode_cls
  | LIST _ => XMLListNode_cls
  end.

Definition set_cdata (self : ref) (cdata : string) (return_node : bool)
    : M (option ref) :=
  v ← rd self Node.value;
  match class_of v with
  | XMLCDATANode_cls => XMLCDATANode.set_cdata self cdata return_node
  | _ => XMLNodeBase.set_cdata self cdata return_node
  end.

Definition append_cdata (self : ref) (cdata : string) (return_node : bool)
    : M (option ref) :=
  v ← rd self Node.value;
  match class_of v with
  | XMLCDATANode_cls => XMLCDATANode.append_cdata self cdata return_node
  | _ => XMLNodeBase.append_cdata self cdata return_node
  end.

Definition get_cdata (self : ref) : M string :=
  v ← rd self Node.value;
  match class_of v with
  | XMLCDATANode_cls => XMLCDATANode.get_cdata self
  | _ => XMLNodeBase.get_cdata self
  end.

Definition add_node (self : ref) (tag : option string) (key : Py.key)
    (text : string) (new_node : option pyval) (update : bool)
    (xml_attrs : attrs) : M ref :=
  v ← rd self Node.value;
  match class_of v with
  | XMLCDATANode_cls => XMLCDATANode.add_node self tag key text new_node update xml_attrs
  | XMLDictNode_cls => XMLDictNode.add_node self tag key text new_node update xml_attrs
  | XMLListNode_cls => XMLListNode.add_node self
  end.

(** [XMLNodeBase.strip_cdata(chars, return_node)]. *)
Definition strip_cdata (self : ref) (chars : option string) (return_node : bool)
    : M (option ref) :=
  XMLNodeBase._check_replacement self;;
  s ← get_cdata self;
  set_cdata self (Py.strip chars s) return_node.

(** [XMLNodeBase.list(in_place)]: without [in_place] the result is a plain
    Python list holding the node, otherwise the new [XMLListNode]. *)
Definition XMLNodeBase_list (self : ref) (in_place : bool) : M (list ref + ref) :=
  if negb in_place then ret (inl [self]) else
  stag ← rd self Node.tag;
  skey ← rd self Node.key;
  sparent ← rd self Node.parent;
  new_node ← XMLListNode.__init__ [self] stag skey sparent;
  XMLNodeBase._replace_node self (Some new_node);;
  wr self (Node.set_replacement None);;
  nkey ← rd new_node Node.key;
  wr self (Node.set_key nkey);;
  wr self (Node.set_parent (Some new_node));;
  ret (inr new_node).

(** [node.list(in_place)]. *)
Definition node_list (self : ref) (in_place : bool) : M (list ref + ref) :=
  v ← rd self Node.value;
  match class_of v with
  | XMLListNode_cls => r ← XMLListNode.list self in_place; ret (inr r)
  | _ => XMLNodeBase_list self in_place
  end.

(** ** [_parsehandler.py] *)

(** Results of code that does not touch the store. *)
Inductive result (A : Type) :=
| Returns (a : A)
| Raises (e : Py.exn).
Arguments Returns {A} a.
Arguments Raises {A} e.

Definition lift {A} (r : result A) : M A :=
  match r with
  | Returns a => ret a
  | Raises e => raise e
  end.

Module _GeneratorMatch.
Record t := mk {
  rooted : bool;
  elements : list string;
  depth : nat;
  match_string : string
}.
End _GeneratorMatch.

(** A match handed to the caller: [(path, match_string, xml_node)]. *)
Abbreviation match_tuple := (string * string * pyval)%type (only parsing).

Module _DictSAXHandler.

Record t := mk {
  path : list string;
  stack : list pyval;
  matches : list match_tuple;
  root : ref;
  item : pyval;
  xml_attribs : bool;
  strip_whitespace : bool;
  namespace_separator : string;
  namespaces : option (list (string * string));
  strip_namespace : bool;
  match_tests : list _GeneratorMatch.t;
  match_depth : Z;
  in_ignore : bool;
  cdata_separator : string;
  need_cdata_separator : bool;
  processing_started : bool
}.

(** Keyword arguments of the constructor; [generator] is [None], a string
    or a list of strings. *)
Record kwargs := mk_kwargs {
  kw_xml_attribs : bool;
  kw_strip_whitespace : bool;
  kw_namespace_separator : string;
  kw_namespaces : option (list (string * string));
  kw_strip_namespace : bool;
  kw_cdata_separator : string;
  kw_generator : option (string + list string)
}.

Definition defaults : kwargs := mk_kwargs true true ":" None false "" None.

Definition with_generator (g : option (string + list string)) (k : kwargs) : kwargs :=
  mk_kwargs (kw_xml_attribs k) (kw_strip_whitespace k) (kw_namespace_separator k)
    (kw_namespaces k) (kw_strip_namespace k) (kw_cdata_separator k) g.

Definition _parse_generator_matches (match_string : string)
    : result _GeneratorMatch.t :=
  let parsed_match_string := Py.split "/" match_string in
  (* Determine if we had a leading slash *)
  let rp := match parsed_match_string with
            | EmptyString :: rest => (true, rest)
            | _ => (false, parsed_match_string)
            end in
  let rooted := fst rp in
  let parsed_match_string := snd rp in
  (* Pop a single trailing slash *)
  match last parsed_match_string with
  | None => Raises Py.IndexError
  | Some l =>
      let parsed_match_string :=
        if String.eqb l "" then removelast parsed_match_string
        else parsed_match_string in
      (* Verify there are no other empty elements. *)
      if existsb (fun i => String.eqb i "") parsed_match_string
      then Raises Py.Warning
      else Returns (_GeneratorMatch.mk rooted parsed_match_string
                      (length parsed_match_string) match_string)
  end.

Fixpoint parse_all (l : list string) : result (list _GeneratorMatch.t) :=
  match l with
  | [] => Returns []
  | i :: rest =>
      match _parse_generator_matches i with
      | Raises e => Raises e
      | Returns m =>
          match parse_all rest with
          | Raises e => Raises e
          | Returns ms => Returns (m :: ms)
          end
      end
  end.

(** The loop of [__init__] computing [match_depth]. *)
Definition min_depth (tests : list _GeneratorMatch.t) : Z :=
  match tests with
  | [] => (-1)%Z
  | _ =>
      fold_left (fun md m =>
                   if (Z.of_nat (_GeneratorMatch.depth m) <? md)%Z
                   then Z.of_nat (_GeneratorMatch.depth m) else md)
                tests 1000000%Z
  end.

Definition __init__ (kw : kwargs) : M t :=
  root ← XMLDictNode.__init__ None Py.KNone None "" [];
  match_tests ← lift (match kw_generator kw with
                      | None => Returns []
                      | Some (inl s) => parse_all [s]
                      | Some (inr l) => parse_all l
                      end);
  let match_depth := min_depth match_tests in
  ret (mk [] [] [] root (VRef root)
          (kw_xml_attribs kw) (kw_strip_whitespace kw)
          (kw_namespace_separator kw) (kw_namespaces kw) (kw_strip_namespace kw)
          match_tests match_depth (0 <? match_depth)%Z
          (kw_cdata_separator kw) false false).

(** Field updates of the handler object. *)
Definition set_path (x : list string) (s : t) : t :=
  mk x (stack s) (matches s) (root s) (item s) (xml_attribs s)
     (strip_whitespace s) (namespace_separator s) (namespaces s)
     (strip_namespace s) (match_tests s) (match_depth s) (in_ignore s)
     (cdata_separator s) (need_cdata_separator s) (processing_started s).
Definition set_stack (x : list pyval) (s : t) : t :=
  mk (path s) x (matches s) (root s) (item s) (xml_attribs s)
     (strip_whitespace s) (namespace_separator s) (namespaces s)
     (strip_namespace s) (match_tests s) (match_depth s) (in_ignore s)
     (cdata_separator s) (need_cdata_separator s) (processing_started s).
Definition set_matches (x : list match_tuple) (s : t) : t :=
  mk (path s) (stack s) x (root s) (item s) (xml_attribs s)
     (strip_whitespace s) (namespace_separator s) (namespaces s)
     (strip_namespace s) (match_tests s) (match_depth s) (in_ignore s)
     (cdata_separator s) (need_cdata_separator s) (processing_started s).
Definition set_item (x : pyval) (s : t) : t :=
  mk (path s) (stack s) (matches s) (root s) x (xml_attribs s)
     (strip_whitespace s) (namespace_separator s) (namespaces s)
     (strip_namespace s) (match_tests s) (match_depth s) (in_ignore s)
     (cdata_separator s) (need_cdata_separator s) (processing_started s).
Definition set_in_ignore (x : bool) (s : t) : t :=
  mk (path s) (stack s) (matches s) (root s) (item s) (xml_attribs s)
     (strip_whitespace s) (namespace_separator s) (namespaces s)
     (strip_namespace s) (match_tests s) (match_depth s) x
     (cdata_separator s) (need_cdata_separator s) (processing_started s).
Definition set_need_cdata_separator (x : bool) (s : t) : t :=
  mk (path s) (stack s) (matches s) (root s) (item s) (xml_attribs s)
     (strip_whitespace s) (namespace_separator s) (namespaces s)
     (strip_namespace s) (match_tests s) (match_depth s) (in_ignore s)
     (cdata_separator s) x (processing_started s).
Definition set_processing_started (x : bool) (s : t) : t :=
  mk (path s) (stack s) (matches s) (root s) (item s) (xml_attribs s)
     (strip_whitespace s) (namespace_separator s) (namespaces s)
     (strip_namespace s) (match_tests s) (match_depth s) (in_ignore s)
     (cdata_separator s) (need_cdata_separator s) x.

(** [match.elements == self.path[-match.depth:]]. *)
Definition elements_match (m : _GeneratorMatch.t) (path : list string) : bool :=
  bool_decide (_GeneratorMatch.elements m
               = Py.slice_last (_GeneratorMatch.depth m) path).

(** ['/'.join([""] + self.path)], with ["/"] for the empty result. *)
Definition joined_path (path : list string) : string :=
  let p := Py.join "/" ("" :: path) in
  if String.eqb p "" then "/" else p.

(** The [for match in self.match_tests] loop with its [continue]s and its
    [break]. *)
Fixpoint check_loop (tests : list _GeneratorMatch.t) (path : list string)
    (item : pyval) (matches : list match_tuple) : list match_tuple :=
  match tests with
  | [] => matches
  | m :: rest =>
      if _GeneratorMatch.rooted m
         && negb (Nat.eqb (length path) (_GeneratorMatch.depth m))
      then check_loop rest path item matches
      else if negb (_GeneratorMatch.rooted m)
              && Nat.ltb (length path) (_GeneratorMatch.depth m)
      then check_loop rest path item matches
      else if elements_match m path
      then matches ++ [(joined_path path, _GeneratorMatch.match_string m, item)]
      else check_loop rest path item matches
  end.

Definition _check_generator_matches (s : t) : t :=
  if (Z.of_nat (length (path s)) <? match_depth s)%Z then s
  else set_matches (check_loop (match_tests s) (path s) (item s) (matches s)) s.

(** [full_name[:i]] and [full_name[i+1:]]. *)
Definition before (i : nat) (s : string) : string := String.substring 0 i s.
Definition after (i : nat) (s : string) : string :=
  String.substring (S i) (String.length s - S i) s.

Definition _build_name (s : t) (full_name : string) : string :=
  let no_namespaces := match namespaces s with
                       | None | Some [] => true
                       | _ => false
                       end in
  if no_namespaces && negb (strip_namespace s) then full_name else
  match Py.rfind (namespace_separator s) full_name with
  | None => full_name
  | Some i =>
      let namespace := before i full_name in
      let name := after i full_name in
      if strip_namespace s then name else
      let short_namespace :=
        match namespaces s with
        | Some d => match OrderedDict.get namespace d with
                    | Some x => x
                    | None => namespace
                    end
        | None => namespace
        end in
      if String.eqb short_namespace "" then name
      else Py.join (namespace_separator s) [short_namespace; name]
  end.

(** [OrderedDict(zip(attrs[0::2], attrs[1::2]))]. *)
Definition attrs_of_pairs (l : list (string * string)) : attrs :=
  fold_left (fun d kv => OrderedDict.set (fst kv) (snd kv) d) l [].

(** Second loop of [_attrs_to_dict] under [strip_namespace]. *)
Fixpoint strip_attr_namespaces (sep : string) (ks : list string) (rv : attrs)
    : result attrs :=
  match ks with
  | [] => Returns rv
  | k :: rest =>
      match Py.rfind sep k with
      | Some i =>
          let newkey := after i k in
          if OrderedDict.contains newkey rv then Raises Py.ValueError
          else
            match OrderedDict.get k rv with
            | Some v =>
                strip_attr_namespaces sep rest
                  (OrderedDict.del k (OrderedDict.set newkey v rv))
            | None => Raises Py.KeyError
            end
      | None => strip_attr_namespaces sep rest rv
      end
  end.

Definition _attrs_to_dict (s : t) (a : list (string * string)) : result attrs :=
  let rv := attrs_of_pairs a in
  if strip_namespace s then
    let xmlns := String.append "xmlns" (namespace_separator s) in
    let rv := List.filter (fun kv => negb (String.eqb (fst kv) "xmlns"
                                      || Py.startswith xmlns (fst kv))) rv in
    strip_attr_namespaces (namespace_separator s) (OrderedDict.keys rv) rv
  else Returns rv.

(** A method call on [self.item]: a foreign object has none of the node
    methods. *)
Definition on_node {A} (v : pyval) (f : ref -> M A) : M A :=
  match v with
  | VRef r => f r
  | VForeign _ => raise Py.AttributeError
  end.

Definition start_element (s : t) (full_name : string)
    (a : list (string * string)) : M t :=
  let s := set_processing_started true s in
  let name := _build_name s full_name in
  a ← lift (_attrs_to_dict s a);
  let s := set_path (path s ++ [name]) s in
  let a := if xml_attribs s
           then attrs_of_pairs (map (fun kv => (_build_name s (fst kv), snd kv)) a)
           else [] in
  s ← (if in_ignore s && (match_depth s <=? Z.of_nat (length (path s)))%Z then
         fresh ← XMLDictNode.__init__ None Py.KNone None "" [];
         ret (set_in_ignore false (set_item (VRef fresh) s))
       else ret s);
  if negb (in_ignore s) then
    newnode ← on_node (item s) (fun r => add_node r (Some name) Py.KNone "" None true a);
    cur ← on_node (item s) XMLNodeBase.get_current_node;
    ret (set_need_cdata_separator false
           (set_item (VRef newnode) (set_stack (stack s ++ [cur]) s)))
  else ret s.

Definition end_element (s : t) (full_name : string) : M t :=
  s ← (if negb (in_ignore s) then
         s ← (if strip_whitespace s then
                r ← on_node (item s) (fun r => strip_cdata r None true);
                match r with
                | Some x => ret (set_item (VRef x) s)
                | None => undef
                end
              else ret s);
         let s := _check_generator_matches s in
         match last (stack s) with
         | Some top => ret (set_item top (set_stack (removelast (stack s)) s))
         | None => raise Py.IndexError
         end
       else ret s);
  s ← (match path s with
       | [] => raise Py.IndexError
       | _ => ret (set_path (removelast (path s)) s)
       end);
  let s := if (Z.of_nat (length (path s)) <? match_depth s)%Z
           then set_in_ignore true s else s in
  if negb (in_ignore s) then
    c ← on_node (item s) get_cdata;
    ret (if Nat.ltb 0 (String.length c) then set_need_cdata_separator true s else s)
  else ret s.

Definition characters (s : t) (data : string) : M t :=
  let s := set_processing_started true s in
  if negb (in_ignore s) then
    let data' := if need_cdata_separator s
                 then String.append (cdata_separator s) data else data in
    let s := if need_cdata_separator s
             then set_need_cdata_separator false s else s in
    r ← on_node (item s) (fun r => append_cdata r data' true);
    match r with
    | Some x => ret (set_item (VRef x) s)
    | None => undef
    end
  else ret s.

Definition end_document (s : t) : M t :=
  match path s with
  | [] => ret (_check_generator_matches s)
  | _ => raise Py.AssertionError
  end.

Definition pop_matches (s : t) : list match_tuple * t :=
  (matches s, set_matches [] s).

End _DictSAXHandler.

(** ** [xmlparser.py]: class [Parser]

    The expat tokenizer is an external collaborator.  One call of
    [Parse(data, isfinal)] is described by what it does: the handler
    callbacks it makes, in order, and the message of the [ExpatError] it
    then raises, if any. *)

Inductive event :=
| StartElement (full_name : string) (a : list (string * string))
| EndElement (full_name : string)
| CharacterData (data : string).

Record parse_run := mk_run {
  events : list event;
  error : option string
}.

(** An input document, by what the tokenizer does with it: handed over in
    one piece ([Parse(xml_input, True)] or [ParseFile]), or read in
    increments of [parsing_increment] bytes, the last call being the one
    with the empty buffer and [isfinal = True]. *)
Record xml_input := mk_input {
  whole : parse_run;
  increments : list parse_run;
  final : parse_run
}.

Module Parser.

Definition dispatch (s : _DictSAXHandler.t) (e : event) : M _DictSAXHandler.t :=
  match e with
  | StartElement n a => _DictSAXHandler.start_element s n a
  | EndElement n => _DictSAXHandler.end_element s n
  | CharacterData d => _DictSAXHandler.characters s d
  end.

Fixpoint callbacks (s : _DictSAXHandler.t) (es : list event) : M _DictSAXHandler.t :=
  match es with
  | [] => ret s
  | e :: rest => s' ← dispatch s e; callbacks s' rest
  end.

(** [self._parser.Parse(...)]: an exception of a callback leaves through
    the tokenizer; otherwise the handler as the callbacks left it, and the
    message of the [ExpatError] being raised, if any. *)
Definition Parse (s : _DictSAXHandler.t) (r : parse_run)
    : M (_DictSAXHandler.t * option string) :=
  s' ← callbacks s (events r);
  ret (s', error r).

Section WithExpat.
(** [expat.errors.XML_ERROR_NO_ELEMENTS], or [None] when the [expat]
    module at hand has no [errors] table or no such entry. *)
Variable XML_ERROR_NO_ELEMENTS : option string.

(** [hasattr(expat, "errors") and hasattr(expat.errors,
    "XML_ERROR_NO_ELEMENTS") and
    str(e).startswith(expat.errors.XML_ERROR_NO_ELEMENTS + ":")]. *)
Definition only_no_elements (msg : string) : bool :=
  match XML_ERROR_NO_ELEMENTS with
  | Some code => Py.startswith (String.append code ":") msg
  | None => false
  end.

(** What a generator has produced when it stops: the tuples it yielded,
    and how it ended. *)
Record generated := mk_generated {
  yielded : list match_tuple;
  ending : outcome unit
}.

(** One turn of the [while not at_eof] loop of [_parse_generator]: the
    tuples to yield and the handler, or the exception that ends the
    generator. *)
Definition generator_turn (s : _DictSAXHandler.t) (r : parse_run) (at_eof : bool)
    : M (list match_tuple * _DictSAXHandler.t) :=
  se ← Parse s r;
  let s := fst se in
  match snd se with
  | Some msg =>
      if only_no_elements msg && at_eof
         && negb (_DictSAXHandler.processing_started s)
      then ret tt
      else raise (Py.ExpatError msg)
  | None => ret tt
  end;;
  s ← (if at_eof then _DictSAXHandler.end_document s else ret s);
  ret (_DictSAXHandler.pop_matches s).

Fixpoint generator_loop (s : _DictSAXHandler.t) (bufs : list parse_run)
    (last_buf : parse_run) (acc : list match_tuple) (h : heap) : generated :=
  match bufs with
  | [] =>
      match generator_turn s last_buf true h with
      | Ok (ms, _) h' => mk_generated (acc ++ ms) (Ok tt h')
      | Raise e h' => mk_generated acc (Raise e h')
      | Undef => mk_generated acc Undef
      end
  | r :: rest =>
      match generator_turn s r false h with
      | Ok (ms, s') h' => generator_loop s' rest last_buf (acc ++ ms) h'
      | Raise e h' => mk_generated acc (Raise e h')
      | Undef => mk_generated acc Undef
      end
  end.

Definition _parse_generator (s : _DictSAXHandler.t) (x : xml_input) (h : heap)
    : generated :=
  generator_loop s (increments x) (final x) [] h.

(** Truth value of the [generator] keyword argument. *)
Definition generator_given (kw : _DictSAXHandler.kwargs) : bool :=
  match _DictSAXHandler.kw_generator kw with
  | None => false
  | Some (inl s) => negb (String.eqb s "")
  | Some (inr l) => match l with [] => false | _ => true end
  end.

(** The [else] branch of [__call__]: the whole tree. *)
Definition parse_tree (s : _DictSAXHandler.t) (x : xml_input) : M pyval :=
  se ← Parse s (whole x);
  let s := fst se in
  match snd se with
  | Some msg =>
      if only_no_elements msg && negb (_DictSAXHandler.processing_started s)
      then ret tt
      else raise (Py.ExpatError msg)
  | None => ret tt
  end;;
  ret (_DictSAXHandler.item s).

(** What [__call__] returns: the root node, or a generator, here run to
    its end. *)
Inductive called :=
| Tree (node : pyval)
| Generator (g : generated).

(** [Parser.__call__]: the handler is the one built from the keyword
    arguments in force, never used before. *)
Definition __call__ (kw : _DictSAXHandler.kwargs) (x : xml_input) : M called :=
  s ← _DictSAXHandler.__init__ kw;
  if generator_given kw then
    fun h => Ok (Generator (_parse_generator s x h)) h
  else
    node ← parse_tree s x;
    ret (Tree node).

End WithExpat.
End Parser.

(** ** Serializer: [_emit_handler] and [emit_handler] *)

(** Calls made on the content handler. *)
Inductive sax :=
| startDocument
| endDocument
| startElement (name : option string) (a : attrs)
| endElement (name : option string)
| sax_characters (content : string)
| ignorableWhitespace (content : string).

(** The recursive methods nest one call for each level of the tree of
    nodes, and the interpreter raises [RecursionError] when it has no room
    for another.  They are given the number of nested calls there is room
    for, and yield what was sent or found and how the run ended:
    [Finished], [Raised] with an exception, or [Stuck] on a reference to
    no object of the store. *)
Inductive ending :=
| Finished
| Raised (e : Py.exn)
| Stuck.

Section Emit.
Variable h : heap.
Variables (pretty : bool) (newl indent : string).

(** The loops over the children of a dictionary or list that is passed
    through ([first_element] is the loop's flag). *)
Fixpoint emit_siblings (emit : ref -> list sax * ending) (depth : nat)
    (first_element : bool) (children : list ref) : list sax * ending :=
  match children with
  | [] => ([], Finished)
  | c :: rest =>
      let sep := if pretty && Nat.eqb depth 0 && negb first_element
                 then [ignorableWhitespace newl] else [] in
      match emit c with
      | (e, Finished) =>
          let (es, stop) := emit_siblings emit depth false rest in
          (sep ++ e ++ es, stop)
      | (e, stop) => (sep ++ e, stop)
      end
  end.

Fixpoint emit_children (emit : ref -> list sax * ending) (children : list ref)
    : list sax * ending :=
  match children with
  | [] => ([], Finished)
  | c :: rest =>
      match emit c with
      | (e, Finished) =>
          let (es, stop) := emit_children emit rest in (e ++ es, stop)
      | (e, stop) => (e, stop)
      end
  end.

Fixpoint _emit_handler (room : nat) (self : ref) (depth : nat)
    : list sax * ending :=
  match room with
  | 0 => ([], Raised Py.RecursionError)
  | S room' =>
      match h !! self with
      | None => ([], Stuck)
      | Some n =>
          let ws (b : bool) (s : string) :=
            if b then [ignorableWhitespace s] else [] in
          match Node.value n with
          | CDATA s =>
              (ws pretty (Py.repeat_str depth indent)
               ++ [startElement (Node.tag n) (Node.xml_attrs n);
                   sax_characters s;
                   endElement (Node.tag n)]
               ++ ws (pretty && Nat.ltb 0 depth) newl, Finished)
          | LIST items =>
              emit_siblings (fun c => _emit_handler room' c depth) depth true items
          | DICT items _ignore_level =>
              let tagless := match Node.tag n with None => true | Some _ => false end in
              if (tagless && Nat.eqb depth 0) || _ignore_level then
                emit_siblings (fun c => _emit_handler room' c depth) depth true
                  (map snd items)
              else
                let nonempty := Nat.ltb 0 (length items) in
                let opening := ws pretty (Py.repeat_str depth indent)
                               ++ [startElement (Node.tag n) (Node.xml_attrs n)]
                               ++ ws (pretty && nonempty) newl in
                match emit_children (fun c => _emit_handler room' c (S depth))
                        (map snd items) with
                | (inner, Finished) =>
                    (opening
                     ++ inner
                     ++ [sax_characters (Py.strip None (Node.text n))]
                     ++ ws (pretty && nonempty) (Py.repeat_str depth indent)
                     ++ [endElement (Node.tag n)]
                     ++ ws (pretty && Nat.ltb 0 depth) newl, Finished)
                | (inner, stop) => (opening ++ inner, stop)
                end
          end
      end
  end.

(** The [while full_document_ok is None] loop of [emit_handler]: the
    verdict and the node the loop stopped at. *)
Fixpoint full_document_ok (budget : nat) (curnode : ref) : option (bool * ref) :=
  match budget with
  | 0 => None
  | S budget' =>
      match h !! curnode with
      | None => None
      | Some n =>
          match Node.value n with
          | CDATA _ => Some (true, curnode)
          | LIST items =>
              if Nat.ltb 1 (length items) then Some (false, curnode)
              else match items with
                   | [] => Some (true, curnode)
                   | c :: _ => full_document_ok budget' c
                   end
          | DICT items _ =>
              match items with
              | [] => Some (true, curnode)
              | (_, c) :: _ =>
                  match Node.tag n with
                  | None =>
                      if Nat.ltb 1 (length items) then Some (false, curnode)
                      else full_document_ok budget' c
                  | Some _ => Some (true, curnode)
                  end
              end
          end
      end
  end.

End Emit.

(** [emit_handler(content_handler, pretty, newl, indent, full_document)]
    with room for [room] nested calls of [_emit_handler]; the result lists
    the calls made on [content_handler]. *)
Definition emit_handler_within (room : nat) (self : ref) (pretty : bool)
    (newl indent : string) (full_document : option bool) : M (list sax) := fun h =>
  match full_document_ok h (S (length h)) self with
  | None => Undef
  | Some (ok, curnode) =>
      (full_document ←
         match full_document with
         | Some fd =>
             if fd && negb ok then raise Py.ValueError else ret fd
         | None =>
             if ok then
               tag ← rd self Node.tag;
               parent ← rd self Node.parent;
               match tag, parent with
               | Some _, Some p =>
                   ptag ← rd p Node.tag;
                   plen ← rd p Node.len;
                   ret (negb (match ptag with Some _ => true | None => false end
                              || Nat.ltb 1 plen))
               | _, _ => ret true
               end
             else ret false
         end;
       match _emit_handler h pretty newl indent room curnode 0 with
       | (body, Finished) =>
           ret ((if full_document then [startDocument] else [])
                ++ body
                ++ (if full_document then [endDocument] else []))
       | (_, Raised e) => raise e
       | (_, Stuck) => undef
       end) h
  end.

(** [emit_handler] called where the interpreter's default limit is the
    room. *)
Definition emit_handler (self : ref) (pretty : bool) (newl indent : string)
    (full_document : option bool) : M (list sax) :=
  emit_handler_within recursion_limit self pretty newl indent full_document.

(** ** Searching by tag: [find_nodes_with_tag], [has_node_with_tag]

    The three [_find_nodes_with_tag] methods are generators; the model
    lists what they yield, in order. *)

(** [self.tag in tag] for a tuple of strings. *)
Definition tag_in (t : option string) (tags : list string) : bool :=
  match t with
  | Some s => existsb (String.eqb s) tags
  | None => false
  end.

(** [node.tag == self.tag]. *)
Definition tag_eqb (a b : option string) : bool :=
  match a, b with
  | Some x, Some y => String.eqb x y
  | None, None => true
  | _, _ => false
  end.

Section Find.
Variable h : heap.
Variables (tags : list string) (recursive : bool).

(** [for node in ...: for item in node._find_nodes_with_tag(...): yield item]. *)
Fixpoint find_in (find : ref -> list ref * ending) (l : list ref)
    : list ref * ending :=
  match l with
  | [] => ([], Finished)
  | c :: rest =>
      match find c with
      | (a, Finished) =>
          let (b, stop) := find_in find rest in (a ++ b, stop)
      | (a, stop) => (a, stop)
      end
  end.

(** The generators nest as the calls do: [room] is the number of nested
    generators there is room for.  What is yielded before an error has
    been handed to the consumer. *)
Fixpoint _find_nodes_with_tag (room : nat) (self : ref) (top_level : bool)
    : list ref * ending :=
  match room with
  | 0 => ([], Raised Py.RecursionError)
  | S room' =>
      match h !! self with
      | None => ([], Stuck)
      | Some n =>
          match Node.value n with
          | CDATA _ => (if tag_in (Node.tag n) tags then [self] else [], Finished)
          | DICT items _ignore_level =>
              let pass_through :=
                _ignore_level
                || (match Node.tag n with None => true | Some _ => false end
                    && top_level) in
              let matched := tag_in (Node.tag n) tags && negb pass_through in
              let found := if matched then [self] else [] in
              if recursive || (top_level && negb matched) then
                let (l, stop) :=
                  find_in
                    (fun c => _find_nodes_with_tag room' c
                                (if pass_through then top_level else false))
                    (map snd items) in
                (found ++ l, stop)
              else (found, Finished)
          | LIST items =>
              find_in
                (fun c =>
                   match h !! c with
                   | Some cn =>
                       _find_nodes_with_tag room' c
                         (if tag_eqb (Node.tag cn) (Node.tag n)
                          then top_level else false)
                   | None => ([], Stuck)
                   end)
                items
          end
      end
  end.
End Find.

(** [find_nodes_with_tag(tag, recursive)], the generator run to its end,
    with room for [room] nested generators. *)
Definition find_nodes_with_tag (room : nat) (self : ref) (tags : list string)
    (recursive : bool) : M (list ref) := fun h =>
  match _find_nodes_with_tag h tags recursive room self true with
  | (l, Finished) => Ok l h
  | (_, Raised e) => Raise e h
  | (_, Stuck) => Undef
  end.

(** [has_node_with_tag(tag, recursive)]: the generator is run until it
    yields for the first time. *)
Definition has_node_with_tag (room : nat) (self : ref) (tags : list string)
    (recursive : bool) : M bool := fun h =>
  match _find_nodes_with_tag h tags recursive room self true with
  | (_ :: _, _) => Ok true h
  | ([], Finished) => Ok false h
  | ([], Raised e) => Raise e h
  | ([], Stuck) => Undef
  end.

(** * Notions used to state the properties *)

(** ** Path patterns *)

(** The matching rule as the specification words it: an anchored pattern
    matches a path of its own length that equals its segments, a suffix
    pattern a path whose last segments are its own. *)
Definition pattern_matches (m : _GeneratorMatch.t) (path : list string) : Prop :=
  let s := _GeneratorMatch.elements m in
  if _GeneratorMatch.rooted m
  then length path = length s /\ path = s
  else length s <= length path /\ drop (length path - length s) path = s.

(** A segment list has an empty interior segment. *)
Definition empty_interior_segment (segs : list string) : Prop :=
  exists i, 0 < i /\ S i < length segs /\ segs !! i = Some "".

(** The test that one turn of the loop of [_check_generator_matches] makes
    on a pattern: neither [continue] is taken and the comparison holds. *)
Definition loop_test (m : _GeneratorMatch.t) (path : list string) : bool :=
  negb (_GeneratorMatch.rooted m
        && negb (Nat.eqb (length path) (_GeneratorMatch.depth m)))
  && negb (negb (_GeneratorMatch.rooted m)
           && Nat.ltb (length path) (_GeneratorMatch.depth m))
  && _DictSAXHandler.elements_match m path.

(** ** Replacement chains *)

(** Attributes of the object at a reference, if there is one. *)
Definition replacement_of (h : heap) (x : ref) : option (option pyval) :=
  Node._replacement_node <$> h !! x.
Definition value_of (h : heap) (x : ref) : option body :=
  Node.value <$> h !! x.
Definition class_at (h : heap) (x : ref) : option class :=
  (fun n => class_of (Node.value n)) <$> h !! x.

(** [ends_in k h x e]: following [_replacement_node] from [x] for [k]
    links arrives at the end [e] of the chain, a node whose link is unset
    or a foreign object. *)
Inductive ends_in (h : heap) : nat -> ref -> pyval -> Prop :=
| ends_here x :
    replacement_of h x = Some None -> ends_in h 0 x (VRef x)
| ends_foreign x b :
    replacement_of h x = Some (Some (VForeign b)) -> ends_in h 0 x (VForeign b)
| ends_step k x y e :
    replacement_of h x = Some (Some (VRef y)) ->
    ends_in h k y e -> ends_in h (S k) x e.

Definition ends_at (h : heap) (x : ref) (e : pyval) : Prop :=
  exists k, ends_in h k x e.

(** A text mutation of a leaf. *)
Inductive cdata_call :=
| Set_cdata (cdata : string)
| Append_cdata (cdata : string).

Definition call_cdata (c : cdata_call) (self : ref) : M (option ref) :=
  match c with
  | Set_cdata s => set_cdata self s true
  | Append_cdata s => append_cdata self s true
  end.

(** Successive calls, each on the node the previous one returned; the
    result lists the instances in order, the original one first. *)
Fixpoint successive (calls : list cdata_call) (cur : ref) : M (list ref) :=
  match calls with
  | [] => ret [cur]
  | c :: rest =>
      r ← call_cdata c cur;
      match r with
      | Some next => l ← successive rest next; ret (cur :: l)
      | None => undef
      end
  end.

(** ** Frames *)

(** [frame R h h']: every object of [h] is still there in [h'], related to
    its former self by [R]. *)
Definition frame (R : ref -> Node.t -> Node.t -> Prop) (h h' : heap) : Prop :=
  length h <= length h'
  /\ forall x n, h !! x = Some n -> exists n', h' !! x = Some n' /\ R x n n'.

(** A computation keeps [R] when the store it leaves, on return or on an
    exception, frames the one it started from. *)
Definition keeps (R : ref -> Node.t -> Node.t -> Prop) {A} (m : M A) : Prop :=
  forall h,
    match m h with
    | Ok _ h' => frame R h h'
    | Raise _ h' => frame R h h'
    | Undef => True
    end.

(** Frame conditions: reflexive and transitive at every reference. *)
Class Framing (R : ref -> Node.t -> Node.t -> Prop) := {
  framing_refl : forall x n, R x n n;
  framing_trans : forall x n1 n2 n3, R x n1 n2 -> R x n2 n3 -> R x n1 n3
}.

(** The class and the replacement link of every object stay. *)
Definition same_link (_ : ref) (n n' : Node.t) : Prop :=
  class_of (Node.value n') = class_of (Node.value n)
  /\ Node._replacement_node n' = Node._replacement_node n.

(** Consecutive members of a list are linked by [_replacement_node]. *)
Fixpoint linked (h : heap) (chain : list ref) : Prop :=
  match chain with
  | x :: ((y :: _) as rest) =>
      replacement_of h x = Some (Some (VRef y)) /\ linked h rest
  | _ => True
  end.

(** ** Serialized output *)

(** Number of elements opened at nesting depth zero in a run of calls on
    the content handler: the top-level elements of the output. *)
Fixpoint count_top_level (depth : nat) (calls : list sax) : nat :=
  match calls with
  | [] => 0
  | startElement _ _ :: rest =>
      (if Nat.eqb depth 0 then 1 else 0) + count_top_level (S depth) rest
  | endElement _ :: rest => count_top_level (pred depth) rest
  | _ :: rest => count_top_level depth rest
  end.

Definition top_level_elements (calls : list sax) : nat := count_top_level 0 calls.

(** ** Results of computations *)

(** Whatever the computation returns satisfies [P]. *)
Definition yields {A} (P : A -> Prop) (m : M A) : Prop :=
  forall h a h', m h = Ok a h' -> P a.

(** The event makes the handler record that processing has started. *)
Definition is_content (e : event) : bool :=
  match e with
  | StartElement _ _ | CharacterData _ => true
  | EndElement _ => false
  end.

(** ** Parser configuration *)

(** The patterns a [generator] argument stands for, parsed. *)
Definition patterns_of (kw : _DictSAXHandler.kwargs)
    : result (list _GeneratorMatch.t) :=
  match _DictSAXHandler.kw_generator kw with
  | None => Returns []
  | Some (inl s) => _DictSAXHandler.parse_all [s]
  | Some (inr l) => _DictSAXHandler.parse_all l
  end.

(** The handler [__init__] builds, with its root at [root]. *)
Definition initial_handler (kw : _DictSAXHandler.kwargs)
    (tests : list _GeneratorMatch.t) (root : ref) : _DictSAXHandler.t :=
  _DictSAXHandler.mk [] [] [] root (VRef root)
    (_DictSAXHandler.kw_xml_attribs kw) (_DictSAXHandler.kw_strip_whitespace kw)
    (_DictSAXHandler.kw_namespace_separator kw) (_DictSAXHandler.kw_namespaces kw)
    (_DictSAXHandler.kw_strip_namespace kw)
    tests (_DictSAXHandler.min_depth tests)
    (0 <? _DictSAXHandler.min_depth tests)%Z
    (_DictSAXHandler.kw_cdata_separator kw) false false.

(** The empty, tagless [XMLDictNode()]. *)
Definition empty_dict : Node.t :=
  Node.mk None Py.KNone [] "" None None (DICT [] false).

(** Some configured pattern has no segment (it is the root pattern). *)
Definition has_root_pattern (tests : list _GeneratorMatch.t) : bool :=
  existsb (fun m => Nat.eqb (_GeneratorMatch.depth m) 0) tests.

(** The handler has recorded that processing has started. *)
Definition started (s : _DictSAXHandler.t) : Prop :=
  _DictSAXHandler.processing_started s = true.

(** ** Adding children *)

(** One [add_node] call on a dictionary node: its arguments. *)
Record add_call := mk_add {
  a_tag : option string;
  a_key : Py.key;
  a_text : string;
  a_new_node : option pyval;
  a_update : bool;
  a_xml_attrs : attrs
}.

Definition do_add (self : ref) (c : add_call) : M ref :=
  XMLDictNode.add_node self (a_tag c) (a_key c) (a_text c) (a_new_node c)
    (a_update c) (a_xml_attrs c).

(** The key a call adds under: its [key] argument; without one, the key of
    the node it is given, and the tag when that node has none or when the
    call makes a new leaf. *)
Definition key_used (h : heap) (c : add_call) : option Py.key :=
  if Py.key_truthy (a_key c) then Some (a_key c)
  else
    match a_new_node c with
    | None => Some (Py.key_of_tag (a_tag c))
    | Some (VRef r) =>
        (fun nd => if Py.key_truthy (Node.key nd) then Node.key nd
                   else Py.key_of_tag (a_tag c)) <$> h !! r
    | Some (VForeign _) => None
    end.

(** A [new_node] argument, when given, is a node of the store. *)
Definition node_argument (h : heap) (c : add_call) : Prop :=
  match a_new_node c with
  | None => True
  | Some (VRef r) => r < length h
  | Some (VForeign _) => False
  end.

(** [n] is the child a call adds: the node it is given, or a new leaf
    that holds the text of the call. *)
Definition child_of (h : heap) (c : add_call) (n : ref) (h' : heap) : Prop :=
  match a_new_node c with
  | None => n = length h /\ value_of h' n = Some (CDATA (a_text c))
  | Some v => v = VRef n
  end.

(** The entries of a dictionary node. *)
Definition items_of (h : heap) (d : ref) : option (list (Py.key * ref)) :=
  match value_of h d with
  | Some (DICT items _) => Some items
  | _ => None
  end.

(** The members of a list node. *)
Definition members_of (h : heap) (l : ref) : option (list ref) :=
  match value_of h l with
  | Some (LIST members) => Some members
  | _ => None
  end.

(** From [h] to [h']: no object is lost, no replacement link changes, and
    no built-in value changes outside [xs]. *)
Definition agree_except (xs : list ref) (h h' : heap) : Prop :=
  length h <= length h'
  /\ (forall x, x < length h -> replacement_of h' x = replacement_of h x)
  /\ (forall x, x < length h -> x ∉ xs -> value_of h' x = value_of h x).

(** From [h] to [h']: the same objects with the same built-in values and
    replacement links. *)
Definition same_content (h h' : heap) : Prop :=
  length h' = length h
  /\ (forall x, value_of h' x = value_of h x)
  /\ (forall x, replacement_of h' x = replacement_of h x).

(** The node a call is given is not an [XMLListNode]. *)
Definition single_child (h : heap) (c : add_call) : Prop :=
  match a_new_node c with
  | Some (VRef r) => class_at h r <> Some XMLListNode_cls
  | _ => True
  end.

(** ** Notions used for the remaining operations *)

(** What a computation answers, the store left aside. *)
Definition answer {A} (o : outcome A) : option (result A) :=
  match o with
  | Ok a _ => Some (Returns a)
  | Raise e _ => Some (Raises e)
  | Undef => None
  end.

(** The attribute dictionary of a node. *)
Definition attrs_of (h : heap) (x : ref) : option attrs :=
  Node.xml_attrs <$> h !! x.

(** Strings that do not hold the separator. *)
Fixpoint sep_free (sep : ascii) (s : string) : bool :=
  match s with
  | EmptyString => true
  | String c s' => negb (Ascii.eqb c sep) && sep_free sep s'
  end.


(** ** Events above the shallowest pattern *)

(** The open elements, [d] of them before the events, stay fewer than
    [limit] all along [es], and no element is closed that was not open. *)
Fixpoint stays_above (d : nat) (limit : Z) (es : list event) : bool :=
  match es with
  | [] => true
  | StartElement _ _ :: rest =>
      (Z.of_nat (S d) <? limit)%Z && stays_above (S d) limit rest
  | EndElement _ :: rest =>
      match d with
      | 0 => false
      | S d' => stays_above d' limit rest
      end
  | CharacterData _ :: rest => stays_above d limit rest
  end.

(** The attribute lists of the start events all convert. *)
Definition attrs_convert (s : _DictSAXHandler.t) (es : list event) : Prop :=
  Forall (fun e => match e with
                   | StartElement _ a =>
                       exists a', _DictSAXHandler._attrs_to_dict s a = Returns a'
                   | _ => True
                   end) es.

(** The path of the handler after the events. *)
Fixpoint path_after (s : _DictSAXHandler.t) (p : list string) (es : list event)
    : list string :=
  match es with
  | [] => p
  | StartElement n _ :: rest =>
      path_after s (p ++ [_DictSAXHandler._build_name s n]) rest
  | EndElement _ :: rest => path_after s (removelast p) rest
  | CharacterData _ :: rest => path_after s p rest
  end.

(** ** Trees in the store *)

(** The nodes a node holds. *)
Definition children (nd : Node.t) : list ref :=
  match Node.value nd with
  | CDATA _ => []
  | LIST items => items
  | DICT items _ => map snd items
  end.

(** What is below [n] is a finite tree of nodes of the store. *)
Inductive tree (h : heap) : ref -> Prop :=
| tree_node n nd :
    h !! n = Some nd ->
    (forall c, c ∈ children nd -> tree h c) ->
    tree h n.

(** The height of the tree below a node, computed with a budget. *)
Fixpoint heights (f : ref -> option nat) (l : list ref) : option nat :=
  match l with
  | [] => Some 0
  | c :: rest =>
      match f c, heights f rest with
      | Some a, Some b => Some (Nat.max (S a) b)
      | _, _ => None
      end
  end.

Fixpoint height (budget : nat) (h : heap) (n : ref) : option nat :=
  match budget with
  | 0 => None
  | S budget' =>
      match h !! n with
      | Some nd => heights (height budget' h) (children nd)
      | None => None
      end
  end.

(** [x] is [n] or a node below it. *)
Inductive below (h : heap) : ref -> ref -> Prop :=
| below_self n : below h n n
| below_child n nd c x :
    h !! n = Some nd -> c ∈ children nd -> below h c x -> below h n x.

(** ** Events sent to a content handler *)









(** ** Searching by tag *)

(** The nodes a search by tag is after: leaves and dictionaries that
    carry one of the tags, dictionaries marked [_ignore_level] apart. *)
Definition wanted (tags : list string) (nd : Node.t) : bool :=
  match Node.value nd with
  | CDATA _ => tag_in (Node.tag nd) tags
  | DICT _ ign => tag_in (Node.tag nd) tags && negb ign
  | LIST _ => false
  end.

(** ** Changing the text of a leaf *)

Inductive text_op :=
| Set_text (cdata : string)
| Append_text (cdata : string)
| Strip_text (chars : option string).

Definition run_text_op (op : text_op) (self : ref) (return_node : bool)
    : M (option ref) :=
  match op with
  | Set_text s => set_cdata self s return_node
  | Append_text s => append_cdata self s return_node
  | Strip_text c => strip_cdata self c return_node
  end.

(** The text the operation makes of the text [old]. *)
Definition new_text (op : text_op) (old : string) : string :=
  match op with
  | Set_text s => s
  | Append_text s => String.append old s
  | Strip_text c => Py.strip c old
  end.

(** ** Members of a list that are not equal to a node *)

(** [x == y] is false. *)
Definition differs (h : heap) (x y : ref) : Prop :=
  node_eq recursion_limit h x y = Some false.

(** [x == y] is false without any comparison of children: the two
    nodes are of different classes, leaves of different text, or lists
    or dictionaries of different length. *)
Definition differs_outright (h : heap) (x y : ref) : bool :=
  match h !! x, h !! y with
  | Some nx, Some ny =>
      match Node.value nx, Node.value ny with
      | CDATA s1, CDATA s2 => negb (String.eqb s1 s2)
      | LIST l1, LIST l2 => negb (Nat.eqb (length l1) (length l2))
      | DICT d1 _, DICT d2 _ => negb (Nat.eqb (length d1) (length d2))
      | _, _ => true
      end
  | _, _ => false
  end.

(** The built-in values of the objects of [h] are the same in [h']. *)
Definition same_values (h h' : heap) : Prop :=
  forall x nd, h !! x = Some nd ->
    exists nd', h' !! x = Some nd' /\ Node.value nd' = Node.value nd.

(** The object that holds what [d] has under key [k]: the list node
    stored under [k], or [d] itself when the entry is not a list node. *)
Definition container (h : heap) (d : ref) (k : Py.key) : option ref :=
  match items_of h d with
  | Some items =>
      match OrderedDict.get k items with
      | Some x =>
          match value_of h x with
          | Some (LIST _) => Some x
          | Some _ => Some d
          | None => None
          end
      | None => None
      end
  | None => None
  end.

(** The child a container holds for key [k]: the entry under [k] of a
    dictionary node, the last member of a list node. *)
Definition held (h : heap) (c : ref) (k : Py.key) : option ref :=
  match value_of h c with
  | Some (DICT items _) => OrderedDict.get k items
  | Some (LIST members) => last members
  | _ => None
  end.

(** ** Buffers of a generator run *)

(** The result of a computation, mapped. *)
Definition outcome_map {A B} (f : A -> B) (o : outcome A) : outcome B :=
  match o with
  | Ok a h => Ok (f a) h
  | Raise e h => Raise e h
  | Undef => Undef
  end.

(** All the events of a sequence of [Parse] calls, in order. *)
Definition all_events (runs : list parse_run) : list event :=
  concat (map events runs).

(** No call of [Parse] ends with an error of the tokenizer. *)
Definition no_error (runs : list parse_run) : Prop :=
  Forall (fun r => error r = None) runs.

(** The handler a computation returns, with [ms] put before its matches. *)
Definition with_matches (ms : list (string * string * pyval))
    (o : outcome _DictSAXHandler.t) : outcome _DictSAXHandler.t :=
  outcome_map (fun s' => _DictSAXHandler.set_matches
                           (ms ++ _DictSAXHandler.matches s') s') o.

(** ** The search for a node through its parent dictionary *)

(** The search of [_replace_node] for [self] passes over the entry [v]
    of the parent dictionary: [v] is not equal to [self], and when [v] is
    a list node none of its members is. *)
Definition passed_over (h : heap) (self : ref) (v : ref) : Prop :=
  differs h v self
  /\ forall ms, value_of h v = Some (LIST ms) ->
       Forall (fun m => differs h m self) ms.

(** ** The handler during a parse *)

(** While the handler ignores, fewer elements are open than the depth of
    its shallowest pattern. *)
Definition ignoring_ok (s : _DictSAXHandler.t) : Prop :=
  _DictSAXHandler.in_ignore s = true ->
  (Z.of_nat (length (_DictSAXHandler.path s)) < _DictSAXHandler.match_depth s)%Z.

(** The handler holds the patterns [tests] as [__init__] stores them. *)
Definition configured (tests : list _GeneratorMatch.t)
    (s : _DictSAXHandler.t) : Prop :=
  _DictSAXHandler.match_tests s = tests
  /\ _DictSAXHandler.match_depth s = _DictSAXHandler.min_depth tests
  /\ ignoring_ok s.

(** * Properties *)

(** ** Pattern parsing *)

Lemma split_nonempty sep s : Py.split sep s <> [].
Proof.
  destruct s as [|c s]; simpl; [discriminate|].
  destruct (Ascii.eqb c sep); [discriminate|].
  destruct (Py.split sep s); discriminate.
Qed.

Lemma split_snoc_sep sep s :
  Py.split sep (String.append s (String sep EmptyString)) = Py.split sep s ++ [""].
Proof.
  induction s as [|c s IH]; simpl.
  - rewrite Ascii.eqb_refl. reflexivity.
  - destruct (Ascii.eqb c sep); rewrite IH; [reflexivity|].
    destruct (Py.split sep s) eqn:E; [exfalso; eapply split_nonempty; eauto|].
    reflexivity.
Qed.

Lemma existsb_empty_In (l : list string) :
  existsb (fun i => String.eqb i "") l = true <-> In "" l.
Proof.
  rewrite existsb_exists. split.
  - intros (x & Hx & E). apply String.eqb_eq in E. subst. assumption.
  - intros H. exists "". split; [assumption|reflexivity].
Qed.

(** What a successfully parsed pattern looks like. *)
Lemma parse_generator_matches_wf s m :
  _DictSAXHandler._parse_generator_matches s = Returns m ->
  _GeneratorMatch.depth m = length (_GeneratorMatch.elements m)
  /\ _GeneratorMatch.match_string m = s
  /\ (_GeneratorMatch.rooted m = false -> _GeneratorMatch.elements m <> [])
  /\ ~ In "" (_GeneratorMatch.elements m).
Proof.
  unfold _DictSAXHandler._parse_generator_matches.
  set (segs := Py.split "/" s).
  set (rp := match segs with EmptyString :: rest => (true, rest) | _ => (false, segs) end).
  destruct (last (snd rp)) as [l|] eqn:Hl; [|discriminate].
  set (final := if String.eqb l "" then removelast (snd rp) else snd rp).
  destruct (existsb (fun i => String.eqb i "") final) eqn:Hex; [discriminate|].
  intros [= <-]. simpl. repeat split.
  - intros Hr Hnil.
    assert (Hsegs : snd rp = segs /\ exists x rest, segs = x :: rest /\ x <> "").
    { subst rp. destruct segs as [|x rest] eqn:E.
      - exfalso. eapply split_nonempty. exact E.
      - destruct x as [|c x]; simpl in Hr; [discriminate|].
        split; [reflexivity|]. eexists _, _. split; [reflexivity|discriminate]. }
    destruct Hsegs as (E1 & x & rest & E2 & Hx).
    subst final. rewrite E1, E2 in *.
    destruct (String.eqb l "") eqn:El.
    + apply String.eqb_eq in El. subst l.
      destruct rest as [|y rest]; simpl in *.
      * congruence.
      * discriminate.
    + discriminate.
  - intros Hin. apply existsb_empty_In in Hin. congruence.
Qed.

Lemma rooted_iff_leading_slash s m :
  _DictSAXHandler._parse_generator_matches s = Returns m ->
  _GeneratorMatch.rooted m = true <-> exists s', s = String "/" s'.
Proof.
  unfold _DictSAXHandler._parse_generator_matches.
  destruct s as [|c s]; [discriminate|].
  simpl Py.split.
  destruct (Ascii.eqb c "/") eqn:Ec.
  - apply Ascii.eqb_eq in Ec. subst c. cbn [fst snd].
    destruct (last (Py.split "/" s)); [|discriminate].
    destruct (existsb _ _); [discriminate|].
    intros [= <-]. simpl. split; eauto.
  - destruct (Py.split "/" s) as [|w ws] eqn:E; cbn [fst snd].
    + simpl. intros [= <-]. simpl. split; [discriminate|].
      intros (s' & [= -> _]). simpl in Ec. discriminate.
    + destruct (last (String c w :: ws)); [|discriminate].
      destruct (existsb _ _); [discriminate|].
      intros [= <-]. simpl. split; [discriminate|].
      intros (s' & [= -> _]). simpl in Ec. discriminate.
Qed.

Lemma interior_empty_warns s :
  empty_interior_segment (Py.split "/" s) ->
  _DictSAXHandler._parse_generator_matches s = Raises Py.Warning.
Proof.
  intros (i & Hi & Hlen & Hget).
  unfold _DictSAXHandler._parse_generator_matches.
  set (segs := Py.split "/" s) in *.
  (* the list is [x0 :: mid ++ [xl]] with the empty segment in [mid] *)
  destruct segs as [|x0 rest]; [simpl in Hlen; lia|].
  destruct (exists_last (l := rest)) as (mid & xl & ->).
  { intros ->. simpl in Hlen. lia. }
  assert (Hmid : In "" mid).
  { destruct i as [|i]; [lia|]. simpl in Hget.
    rewrite length_cons, length_app in Hlen. simpl in Hlen.
    rewrite lookup_app_l in Hget by lia.
    apply list_elem_of_In. eapply list_elem_of_lookup_2. exact Hget. }
  assert (Hfin : forall pre, In ""
            (if String.eqb xl "" then removelast (pre ++ mid ++ [xl])
             else pre ++ mid ++ [xl])).
  { intros pre. destruct (String.eqb xl "").
    - rewrite app_assoc, removelast_last. apply in_or_app. right. assumption.
    - apply in_or_app. right. apply in_or_app. left. assumption. }
  destruct x0 as [|c x0]; cbn [fst snd].
  - rewrite last_snoc.
    pose proof (Hfin []) as H. simpl in H.
    apply existsb_empty_In in H. rewrite H. reflexivity.
  - change (String c x0 :: mid ++ [xl]) with ([String c x0] ++ mid ++ [xl]).
    rewrite app_assoc, last_snoc, <- app_assoc.
    pose proof (Hfin [String c x0]) as H.
    apply existsb_empty_In in H. rewrite H. reflexivity.
Qed.

Lemma trailing_slash_dropped s m :
  _DictSAXHandler._parse_generator_matches s = Returns m ->
  last (Py.split "/" s) <> Some "" ->
  _DictSAXHandler._parse_generator_matches (String.append s "/")
  = Returns (_GeneratorMatch.mk (_GeneratorMatch.rooted m)
               (_GeneratorMatch.elements m) (_GeneratorMatch.depth m)
               (String.append s "/")).
Proof.
  unfold _DictSAXHandler._parse_generator_matches.
  change "/"%string with (String "/" EmptyString) at 5.
  rewrite split_snoc_sep.
  set (segs := Py.split "/" s).
  intros H Hlast.
  destruct segs as [|x0 rest] eqn:E; [exfalso; eapply split_nonempty; exact E|].
  destruct x0 as [|c x0]; cbn [fst snd app] in *.
  - destruct (last rest) as [l|] eqn:Hl; [|discriminate].
    assert (l <> "").
    { intros ->. apply Hlast. destruct rest; [discriminate|]. simpl in *. exact Hl. }
    apply String.eqb_neq in H0. rewrite H0 in H.
    rewrite last_snoc. simpl String.eqb. cbv iota.
    rewrite removelast_last.
    destruct (existsb _ rest); [discriminate|]. injection H as <-. reflexivity.
  - change (String c x0 :: rest ++ [""]) with ((String c x0 :: rest) ++ [""]).
    destruct (last (String c x0 :: rest)) as [l|] eqn:Hl; [|discriminate].
    assert (l <> "") by congruence.
    apply String.eqb_neq in H0. rewrite H0 in H.
    rewrite last_snoc. simpl String.eqb. cbv iota.
    rewrite removelast_last.
    destruct (existsb _ (String c x0 :: rest)); [discriminate|].
    injection H as <-. reflexivity.
Qed.

Lemma split_cons_sep sep s :
  Py.split sep (String sep s) = "" :: Py.split sep s.
Proof. simpl. rewrite Ascii.eqb_refl. reflexivity. Qed.

Lemma leading_slash_anchors s m :
  _DictSAXHandler._parse_generator_matches s = Returns m ->
  _GeneratorMatch.rooted m = false ->
  _DictSAXHandler._parse_generator_matches (String "/" s)
  = Returns (_GeneratorMatch.mk true (_GeneratorMatch.elements m)
               (_GeneratorMatch.depth m) (String "/" s)).
Proof.
  unfold _DictSAXHandler._parse_generator_matches.
  rewrite split_cons_sep. cbn [fst snd].
  set (segs := Py.split "/" s).
  destruct segs as [|x0 rest] eqn:E; [exfalso; eapply split_nonempty; exact E|].
  destruct x0 as [|c x0]; cbn [fst snd].
  - destruct (last rest); [|discriminate].
    destruct (existsb _ _); [discriminate|]. intros [= <-]. discriminate.
  - destruct (last (String c x0 :: rest)); [|discriminate].
    destruct (existsb _ _); [discriminate|]. intros [= <-] _. reflexivity.
Qed.

(** ** Path matching *)

Lemma check_loop_cons m rest path item ms :
  _DictSAXHandler.check_loop (m :: rest) path item ms
  = if loop_test m path
    then ms ++ [(_DictSAXHandler.joined_path path,
                 _GeneratorMatch.match_string m, item)]
    else _DictSAXHandler.check_loop rest path item ms.
Proof.
  unfold loop_test. simpl.
  destruct (_GeneratorMatch.rooted m); simpl;
    destruct (Nat.eqb (length path) (_GeneratorMatch.depth m)); simpl;
    try reflexivity;
    destruct (Nat.ltb (length path) (_GeneratorMatch.depth m)); simpl;
    reflexivity.
Qed.

Lemma loop_test_spec m path :
  _GeneratorMatch.depth m = length (_GeneratorMatch.elements m) ->
  (_GeneratorMatch.rooted m = false -> _GeneratorMatch.elements m <> []) ->
  loop_test m path = true <-> pattern_matches m path.
Proof.
  intros Hd Hne. unfold loop_test, pattern_matches, _DictSAXHandler.elements_match.
  rewrite Hd. destruct (_GeneratorMatch.rooted m) eqn:Hr; simpl.
  - rewrite andb_true_r.
    destruct (Nat.eqb_spec (length path) (length (_GeneratorMatch.elements m))) as [E|E];
      simpl.
    + rewrite bool_decide_eq_true.
      assert (Hs : Py.slice_last (length (_GeneratorMatch.elements m)) path = path).
      { unfold Py.slice_last. destruct (length (_GeneratorMatch.elements m)) eqn:El;
          [reflexivity|]. rewrite E. rewrite Nat.sub_diag. reflexivity. }
      rewrite Hs. split; [intros ->; auto|intros [_ ->]; reflexivity].
    + split; [discriminate|]. intros [? _]. contradiction.
  - destruct (Nat.ltb_spec (length path) (length (_GeneratorMatch.elements m))) as [L|L];
      simpl.
    + split; [discriminate|]. intros [? _]. lia.
    + rewrite bool_decide_eq_true.
      assert (Hs : Py.slice_last (length (_GeneratorMatch.elements m)) path
                   = drop (length path - length (_GeneratorMatch.elements m)) path).
      { unfold Py.slice_last.
        destruct (_GeneratorMatch.elements m) eqn:El; [|reflexivity].
        exfalso. apply Hne; reflexivity. }
      rewrite Hs. split; [intros E; split; [assumption|symmetry; assumption]|].
      intros [_ E]. symmetry. assumption.
Qed.

Lemma joined_path_spec path :
  _DictSAXHandler.joined_path path = String "/" (Py.join "/" path).
Proof.
  unfold _DictSAXHandler.joined_path, Py.join.
  destruct path as [|x xs]; [reflexivity|].
  reflexivity.
Qed.

(** ** First match wins *)

Lemma min_depth_fold_le (l : list _GeneratorMatch.t) (a : Z) :
  (fold_left (fun md m =>
                if (Z.of_nat (_GeneratorMatch.depth m) <? md)%Z
                then Z.of_nat (_GeneratorMatch.depth m) else md) l a <= a)%Z
  /\ forall m, In m l ->
       (fold_left (fun md m =>
                     if (Z.of_nat (_GeneratorMatch.depth m) <? md)%Z
                     then Z.of_nat (_GeneratorMatch.depth m) else md) l a
        <= Z.of_nat (_GeneratorMatch.depth m))%Z.
Proof.
  revert a. induction l as [|x l IH]; intros a; simpl.
  - split; [lia|intros ? []].
  - destruct (IH (if (Z.of_nat (_GeneratorMatch.depth x) <? a)%Z
                  then Z.of_nat (_GeneratorMatch.depth x) else a)) as [H1 H2].
    split.
    + destruct (Z.ltb_spec (Z.of_nat (_GeneratorMatch.depth x)) a); lia.
    + intros m [->|Hin]; [|apply H2; assumption].
      destruct (Z.ltb_spec (Z.of_nat (_GeneratorMatch.depth m)) a); lia.
Qed.

Lemma min_depth_le (tests : list _GeneratorMatch.t) (m : _GeneratorMatch.t) :
  In m tests ->
  (_DictSAXHandler.min_depth tests <= Z.of_nat (_GeneratorMatch.depth m))%Z.
Proof.
  intros Hin. unfold _DictSAXHandler.min_depth.
  destruct tests as [|x l]; [destruct Hin|].
  apply (proj2 (min_depth_fold_le (x :: l) 1000000%Z)). assumption.
Qed.

Lemma parse_all_wf l tests :
  _DictSAXHandler.parse_all l = Returns tests ->
  forall m, In m tests ->
    _GeneratorMatch.depth m = length (_GeneratorMatch.elements m)
    /\ (_GeneratorMatch.rooted m = false -> _GeneratorMatch.elements m <> []).
Proof.
  revert tests. induction l as [|s l IH]; intros tests; simpl.
  - intros [= <-] m [].
  - destruct (_DictSAXHandler._parse_generator_matches s) as [m0|] eqn:E;
      [|discriminate].
    destruct (_DictSAXHandler.parse_all l) as [ms|]; [|discriminate].
    intros [= <-] m [<-|Hin]; [|eapply IH; eauto].
    destruct (parse_generator_matches_wf _ _ E) as (? & _ & ? & _). auto.
Qed.

Lemma pattern_matches_depth m path :
  _GeneratorMatch.depth m = length (_GeneratorMatch.elements m) ->
  pattern_matches m path -> _GeneratorMatch.depth m <= length path.
Proof.
  intros Hd. unfold pattern_matches.
  destruct (_GeneratorMatch.rooted m); intros [H _]; lia.
Qed.

Lemma check_loop_none tests path item ms :
  (forall m, In m tests -> loop_test m path = false) ->
  _DictSAXHandler.check_loop tests path item ms = ms.
Proof.
  induction tests as [|m rest IH]; intros H; [reflexivity|].
  rewrite check_loop_cons, (H m (or_introl eq_refl)).
  apply IH. intros m' Hin. apply H. right. assumption.
Qed.

Lemma check_loop_first pre m post path item ms :
  (forall m', In m' pre -> loop_test m' path = false) ->
  loop_test m path = true ->
  _DictSAXHandler.check_loop (pre ++ m :: post) path item ms
  = ms ++ [(_DictSAXHandler.joined_path path, _GeneratorMatch.match_string m, item)].
Proof.
  induction pre as [|x pre IH]; intros Hpre Hm; simpl app.
  - rewrite check_loop_cons, Hm. reflexivity.
  - rewrite check_loop_cons, (Hpre x (or_introl eq_refl)).
    apply IH; [|assumption]. intros m' Hin. apply Hpre. right. assumption.
Qed.



(** ** Malformed patterns *)

Lemma init_ok_root h kw :
  exists o, _DictSAXHandler.__init__ kw h = o /\
  match _DictSAXHandler.kw_generator kw with
  | None => True
  | Some (inl s) =>
      forall e, _DictSAXHandler.parse_all [s] = Raises e ->
                o = Raise e (h ++ [Node.mk None Py.KNone [] "" None None (DICT [] false)])
  | Some (inr l) =>
      forall e, _DictSAXHandler.parse_all l = Raises e ->
                o = Raise e (h ++ [Node.mk None Py.KNone [] "" None None (DICT [] false)])
  end.
Proof.
  eexists. split; [reflexivity|].
  unfold _DictSAXHandler.__init__, XMLDictNode.__init__, XMLNodeBase.__init__,
    alloc, bind.
  destruct (_DictSAXHandler.kw_generator kw) as [[s|l]|]; [| |exact I];
    intros e ->; reflexivity.
Qed.

Lemma parse_all_raises pre s post tests e :
  _DictSAXHandler.parse_all pre = Returns tests ->
  _DictSAXHandler._parse_generator_matches s = Raises e ->
  _DictSAXHandler.parse_all (pre ++ s :: post) = Raises e.
Proof.
  revert tests. induction pre as [|p pre IH]; intros tests; simpl.
  - intros _ ->. reflexivity.
  - destruct (_DictSAXHandler._parse_generator_matches p); [|discriminate].
    destruct (_DictSAXHandler.parse_all pre) eqn:E; [|discriminate].
    intros _ Hs. rewrite (IH _ eq_refl Hs). reflexivity.
Qed.

(** C7 (amended). A pattern string with an empty interior segment (so
    also two or more slashes and nothing else) makes the configuration of
    the handler, and with it of the parser, raise [Warning] before any
    input is looked at; the string ["/"] is accepted, as the anchored
    pattern of depth zero; a single trailing slash is dropped without
    error, and a leading slash only marks the pattern as anchored. *)
Theorem malformed_patterns_rejected (s : string) :
  (empty_interior_segment (Py.split "/" s) ->
   _DictSAXHandler._parse_generator_matches s = Raises Py.Warning
   /\ forall code kw pre post tests x h,
        _DictSAXHandler.parse_all pre = Returns tests ->
        exists h',
          Parser.__call__ code
            (_DictSAXHandler.with_generator (Some (inr (pre ++ s :: post))) kw) x h
          = Raise Py.Warning h')
  /\ _DictSAXHandler._parse_generator_matches "/"
     = Returns (_GeneratorMatch.mk true [] 0 "/")
  /\ (forall m,
        _DictSAXHandler._parse_generator_matches s = Returns m ->
        last (Py.split "/" s) <> Some "" ->
        _DictSAXHandler._parse_generator_matches (String.append s "/")
        = Returns (_GeneratorMatch.mk (_GeneratorMatch.rooted m)
                     (_GeneratorMatch.elements m) (_GeneratorMatch.depth m)
                     (String.append s "/")))
  /\ (forall m,
        _DictSAXHandler._parse_generator_matches s = Returns m ->
        _GeneratorMatch.rooted m = false ->
        _DictSAXHandler._parse_generator_matches (String "/" s)
        = Returns (_GeneratorMatch.mk true (_GeneratorMatch.elements m)
                     (_GeneratorMatch.depth m) (String "/" s))).
Proof.
  split; [|split; [reflexivity|split]].
  - intros Hint. pose proof (interior_empty_warns s Hint) as Hw.
    split; [assumption|].
    intros code kw pre post tests x h Hpre.
    pose proof (parse_all_raises pre s post tests _ Hpre Hw) as Hall.
    destruct (init_ok_root h
                (_DictSAXHandler.with_generator (Some (inr (pre ++ s :: post))) kw))
      as (o & Ho & Hspec).
    simpl in Hspec. specialize (Hspec _ Hall). subst o.
    eexists. unfold Parser.__call__, bind. rewrite Hspec. reflexivity.
  - apply trailing_slash_dropped.
  - apply leading_slash_anchors.
Qed.

Lemma malformed_patterns_rejected_witness :
  empty_interior_segment (Py.split "/" "a//b")
  /\ _DictSAXHandler._parse_generator_matches "a//b" = Raises Py.Warning.
Proof.
  assert (H : empty_interior_segment (Py.split "/" "a//b")).
  { exists 1. simpl. repeat split; lia. }
  split; [exact H|].
  exact (proj1 (proj1 (malformed_patterns_rejected "a//b") H)).
Defined.

(** C7, as stated, fails on ["/"]: all its segments are empty, and it is
    accepted. *)
Lemma root_pattern_accepted :
  (forall seg, In seg (Py.split "/" "/") -> seg = "")
  /\ _DictSAXHandler._parse_generator_matches "/" <> Raises Py.Warning
  /\ exists h,
       Parser.__call__ (Some "no element found")
         (_DictSAXHandler.with_generator (Some (inr ["/"])) _DictSAXHandler.defaults)
         (mk_input (mk_run [] None) [] (mk_run [] None)) []
       = Ok (Parser.Generator
               (Parser.mk_generated [("/", "/", VRef 0)] (Ok tt h))) h.
Proof.
  split; [|split].
  - simpl. intros seg [<-|[<-|[]]]; reflexivity.
  - discriminate.
  - eexists. vm_compute. reflexivity.
Qed.

(** ** Reasoning about computations *)

Opaque recursion_limit.

Lemma bind_Ok {A B} (m : M A) (f : A -> M B) h b h2 :
  bind m f h = Ok b h2 -> exists a h1, m h = Ok a h1 /\ f a h1 = Ok b h2.
Proof.
  unfold bind. destruct (m h) as [a h1| |]; [|discriminate..]. eauto.
Qed.

Lemma bind_eval {A B} (m : M A) (f : A -> M B) h a h1 :
  m h = Ok a h1 -> bind m f h = f a h1.
Proof. unfold bind. intros ->. reflexivity. Qed.

Lemma bind_eval_raise {A B} (m : M A) (f : A -> M B) h e h1 :
  m h = Raise e h1 -> bind m f h = Raise e h1.
Proof. unfold bind. intros ->. reflexivity. Qed.

Lemma rd_eval {A} (f : Node.t -> A) (h : heap) x n :
  h !! x = Some n -> rd x f h = Ok (f n) h.
Proof. unfold rd. intros ->. reflexivity. Qed.

Lemma rd_Ok {A} (f : Node.t -> A) (h : heap) x a h' :
  rd x f h = Ok a h' -> h' = h /\ exists n, h !! x = Some n /\ a = f n.
Proof.
  unfold rd. destruct (h !! x) as [n|]; [|discriminate].
  intros [= <- <-]. eauto.
Qed.

Lemma rd_not_Raise {A} (f : Node.t -> A) (h : heap) x e h' :
  rd x f h <> Raise e h'.
Proof. unfold rd. destruct (h !! x); discriminate. Qed.

Lemma wr_eval (f : Node.t -> Node.t) (h : heap) x n :
  h !! x = Some n -> wr x f h = Ok tt (alter f x h).
Proof. unfold wr. intros ->. reflexivity. Qed.

Lemma wr_Ok (f : Node.t -> Node.t) (h : heap) x u h' :
  wr x f h = Ok u h' -> h' = alter f x h /\ exists n, h !! x = Some n.
Proof.
  unfold wr. destruct (h !! x) as [n|]; [|discriminate].
  intros [= <- <-]. eauto.
Qed.

(** *** Frames *)

Section Frames.
Context (R : ref -> Node.t -> Node.t -> Prop) `{!Framing R}.

Lemma frame_refl (h : heap) : frame R h h.
Proof. split; [lia|]. intros x n Hx. exists n. split; [assumption|apply framing_refl]. Qed.

Lemma frame_trans (h1 h2 h3 : heap) : frame R h1 h2 -> frame R h2 h3 -> frame R h1 h3.
Proof.
  intros [L1 F1] [L2 F2]. split; [lia|].
  intros x n Hx. destruct (F1 x n Hx) as (n' & Hx' & HR).
  destruct (F2 x n' Hx') as (n'' & Hx'' & HR').
  exists n''. split; [assumption|]. eapply framing_trans; eassumption.
Qed.

Lemma keeps_ret {A} (a : A) : keeps R (ret a).
Proof. intros h. apply frame_refl. Qed.

Lemma keeps_raise {A} e : keeps R (@raise A e).
Proof. intros h. apply frame_refl. Qed.

Lemma keeps_undef {A} : keeps R (@undef A).
Proof. intros h. exact I. Qed.

Lemma keeps_bind {A B} (m : M A) (f : A -> M B) :
  keeps R m -> (forall a, keeps R (f a)) -> keeps R (bind m f).
Proof.
  intros Hm Hf h. unfold bind. specialize (Hm h).
  destruct (m h) as [a h1|e h1|]; [|assumption|exact I].
  specialize (Hf a h1). destruct (f a h1); try exact I; eapply frame_trans; eassumption.
Qed.

Lemma keeps_try_except {A} (m : M A) (handler : Py.exn -> M A) :
  keeps R m -> (forall e, keeps R (handler e)) -> keeps R (try_except m handler).
Proof.
  intros Hm Hh h. unfold try_except. specialize (Hm h).
  destruct (m h) as [a h1|e h1|]; [assumption| |exact I].
  specialize (Hh e h1). destruct (handler e h1); try exact I;
    eapply frame_trans; eassumption.
Qed.

Lemma keeps_rd {A} x (f : Node.t -> A) : keeps R (rd x f).
Proof. intros h. unfold rd. destruct (h !! x); [apply frame_refl|exact I]. Qed.

Lemma keeps_wr x (f : Node.t -> Node.t) :
  (forall n, R x n (f n)) -> keeps R (wr x f).
Proof.
  intros Hf h. unfold wr. destruct (h !! x) as [n0|] eqn:E; [|exact I].
  split; [rewrite length_alter; lia|].
  intros y n Hy. destruct (decide (x = y)) as [->|Hne].
  - exists (f n). rewrite list_lookup_alter_eq, Hy. split; [reflexivity|apply Hf].
  - exists n. rewrite list_lookup_alter_ne by assumption.
    split; [assumption|apply framing_refl].
Qed.

Lemma keeps_alloc n : keeps R (alloc n).
Proof.
  intros h. unfold alloc. split; [rewrite length_app; lia|].
  intros x n0 Hx. exists n0. split; [|apply framing_refl].
  apply lookup_app_l_Some. assumption.
Qed.

Lemma keeps_py_eq a b : keeps R (py_eq a b).
Proof.
  intros h. unfold py_eq. destruct (node_eq _ _ _ _); apply frame_refl.
Qed.

Lemma keeps_when b (m : M unit) : keeps R m -> keeps R (when b m).
Proof. intros Hm. destruct b; [assumption|apply keeps_ret]. Qed.

Lemma keeps_lift {A} (r : result A) : keeps R (lift r).
Proof. destruct r; [apply keeps_ret|apply keeps_raise]. Qed.

End Frames.

#[global] Instance same_link_framing : Framing same_link.
Proof.
  split.
  - intros x n. split; reflexivity.
  - intros x n1 n2 n3 [C1 L1] [C2 L2]. split; congruence.
Qed.

(** *** The replacement protocol keeps classes and links *)

Ltac same_link_wr :=
  let n := fresh "n" in
  let val := fresh "val" in
  intros n; unfold same_link; destruct n as [? ? ? ? ? ? val]; simpl;
  try destruct val; simpl; split; reflexivity.

Ltac kbind :=
  lazymatch goal with |- keeps ?R (bind _ _) => apply (keeps_bind R) end.
Ltac ktry :=
  lazymatch goal with |- keeps ?R (try_except _ _) => apply (keeps_try_except R) end.

Ltac keeps_step :=
  lazymatch goal with
  | |- keeps ?R (ret _) => apply (keeps_ret R)
  | |- keeps ?R (raise _) => apply (keeps_raise R)
  | |- keeps ?R undef => apply (keeps_undef R)
  | |- keeps ?R (rd _ _) => apply (keeps_rd R)
  | |- keeps ?R (py_eq _ _) => apply (keeps_py_eq R)
  | |- keeps ?R (alloc _) => apply (keeps_alloc R)
  | |- keeps ?R (lift _) => apply (keeps_lift R)
  | |- keeps ?R (wr _ _) => apply (keeps_wr R); same_link_wr
  | |- keeps ?R (when _ _) => apply (keeps_when R)
  | |- keeps _ (bind _ _) => kbind; [|intros ?]
  | |- keeps _ (try_except _ _) => ktry; [|intros ?]
  | |- keeps _ (match ?x with _ => _ end) => destruct x
  | |- keeps _ (if ?b then _ else _) => destruct b
  end.

Lemma keeps_dict_setitem d k v : keeps same_link (XMLNodeBase.dict_setitem d k v).
Proof. unfold XMLNodeBase.dict_setitem. keeps_step. Qed.
Lemma keeps_dict_delitem d k : keeps same_link (XMLNodeBase.dict_delitem d k).
Proof. unfold XMLNodeBase.dict_delitem. keeps_step. Qed.
Lemma keeps_list_setitem l i v : keeps same_link (XMLNodeBase.list_setitem l i v).
Proof. unfold XMLNodeBase.list_setitem. keeps_step. Qed.
Lemma keeps_list_delitem l i : keeps same_link (XMLNodeBase.list_delitem l i).
Proof. unfold XMLNodeBase.list_delitem. keeps_step. Qed.
Lemma keeps_list_append l v : keeps same_link (XMLNodeBase.list_append l v).
Proof. unfold XMLNodeBase.list_append. keeps_step. Qed.

Ltac keeps_auto :=
  repeat
    lazymatch goal with
    | |- keeps _ (XMLNodeBase.dict_setitem _ _ _) => apply keeps_dict_setitem
    | |- keeps _ (XMLNodeBase.dict_delitem _ _) => apply keeps_dict_delitem
    | |- keeps _ (XMLNodeBase.list_setitem _ _ _) => apply keeps_list_setitem
    | |- keeps _ (XMLNodeBase.list_delitem _ _) => apply keeps_list_delitem
    | |- keeps _ (XMLNodeBase.list_append _ _) => apply keeps_list_append
    | |- _ => keeps_step
    end.

Section ReplaceKeeps.
Variable recur : ref -> M unit.
Variables (self nn : ref).

Lemma keeps_scan_nested key val elems i :
  keeps same_link (XMLNodeBase.scan_nested recur self (Some nn) key val elems i).
Proof.
  revert i. induction elems as [|x rest IH]; intros i; simpl; [keeps_auto|].
  kbind; [keeps_auto|]. intros [|]; [keeps_auto|apply IH].
Qed.

Lemma keeps_scan_items parent items :
  keeps same_link (XMLNodeBase.scan_items recur self (Some nn) parent items).
Proof.
  induction items as [|[key val] rest IH]; simpl; [keeps_auto|].
  kbind; [keeps_auto|]. intros [|]; [keeps_auto|].
  kbind; [keeps_auto|]. intros [s|d ign|elems]; try apply IH.
  kbind; [apply keeps_scan_nested|].
  intros [|]; [keeps_auto|apply IH].
Qed.

Lemma keeps_case1 parent :
  keeps same_link (XMLNodeBase.case1 recur self (Some nn) parent).
Proof.
  unfold XMLNodeBase.case1.
  kbind; [keeps_auto|]. intros pv.
  kbind; [keeps_auto|]. intros key.
  destruct pv as [s|items ign|elems]; [keeps_auto| |keeps_auto].
  kbind.
  - destruct (OrderedDict.get key items); keeps_auto.
  - intros [|]; [keeps_auto|apply keeps_scan_items].
Qed.

Lemma keeps_scan_parent parent elems i :
  keeps same_link (XMLNodeBase.scan_parent self (Some nn) parent elems i).
Proof.
  revert i. induction elems as [|x rest IH]; intros i; simpl; [keeps_auto|].
  kbind; [keeps_auto|]. intros [|]; [keeps_auto|apply IH].
Qed.

Lemma scan_parent_some_result parent elems i h r h' :
  XMLNodeBase.scan_parent self (Some nn) parent elems i h = Ok r h' ->
  r <> Some false.
Proof.
  revert i h. induction elems as [|x rest IH]; intros i h; simpl.
  - intros [= <- <-]. discriminate.
  - intros H. apply bind_Ok in H as (e & h1 & He & H).
    destruct e; [|eapply IH; exact H].
    apply bind_Ok in H as (u & h2 & _ & H). injection H as <- <-. discriminate.
Qed.

Lemma keeps_case2 parent :
  keeps same_link (XMLNodeBase.case2 recur self (Some nn) parent).
Proof.
  unfold XMLNodeBase.case2.
  kbind; [keeps_auto|]. intros [s|items ign|elems]; [keeps_auto|keeps_auto|].
  intros h. unfold bind.
  pose proof (keeps_scan_parent parent elems 0 h) as Hk.
  pose proof (scan_parent_some_result parent elems 0 h) as Hr.
  destruct (XMLNodeBase.scan_parent self (Some nn) parent elems 0 h)
    as [r h1|e h1|]; [|assumption|exact I].
  destruct r as [[|]|]; [exact Hk| |exact Hk].
  exfalso. eapply Hr; reflexivity.
Qed.

Lemma check_replacement_Ok x h u h' :
  XMLNodeBase._check_replacement x h = Ok u h' ->
  h' = h /\ exists n, h !! x = Some n.
Proof.
  unfold XMLNodeBase._check_replacement. intros H.
  apply bind_Ok in H as (r & h1 & Hr & H).
  apply rd_Ok in Hr as (-> & n & Hn & ->).
  destruct (Node._replacement_node n) as [v|].
  - apply bind_Ok in H as (b & h2 & Hb & H).
    assert (h2 = h).
    { destruct v; simpl in Hb; [apply rd_Ok in Hb as [-> _]|injection Hb as _ ->];
        reflexivity. }
    subst h2. destruct b; [discriminate|]. injection H as _ <-. eauto.
  - injection H as _ <-. eauto.
Qed.

(** A successful [_replace_node(newnode)] has set the link of [self] to
    [newnode], and has otherwise left every class and link as it was. *)
Lemma replace_node_body_some h u h' :
  XMLNodeBase._replace_node_body recur self (Some nn) h = Ok u h' ->
  exists n, h !! self = Some n
    /\ frame same_link
         (alter (Node.set_replacement (Some (VRef nn))) self h) h'.
Proof.
  unfold XMLNodeBase._replace_node_body. intros H.
  apply bind_Ok in H as (u1 & h1 & Hc & H).
  apply check_replacement_Ok in Hc as (-> & n & Hn).
  apply bind_Ok in H as (p & h1 & Hp & H).
  apply rd_Ok in Hp as (-> & n' & Hn' & ->).
  destruct (Node.parent n') as [parent|]; [|discriminate].
  apply bind_Ok in H as (u2 & h2 & Hw & H).
  apply wr_Ok in Hw as (-> & _).
  exists n. split; [assumption|].
  assert (K : keeps same_link
    (done1 ← try_except (XMLNodeBase.case1 recur self (Some nn) parent)
                        (fun _ => ret false);
     if done1 then ret tt else
     done2 ← try_except (XMLNodeBase.case2 recur self (Some nn) parent)
                        (fun _ => ret false);
     if done2 then ret tt else raise Py.AttributeError)).
  { kbind.
    - ktry; [apply keeps_case1|intros; keeps_auto].
    - intros [|]; [keeps_auto|].
      kbind.
      + ktry; [apply keeps_case2|intros; keeps_auto].
      + intros [|]; keeps_auto. }
  specialize (K (alter (Node.set_replacement (Some (VRef nn))) self h)).
  rewrite H in K. exact K.
Qed.

End ReplaceKeeps.

Lemma replace_node_some self nn h u h' :
  XMLNodeBase._replace_node self (Some nn) h = Ok u h' ->
  exists n, h !! self = Some n
    /\ frame same_link
         (alter (Node.set_replacement (Some (VRef nn))) self h) h'.
Proof.
  unfold XMLNodeBase._replace_node. simpl. apply replace_node_body_some.
Qed.

Lemma replacement_of_frame h h' x :
  frame same_link h h' -> x < length h ->
  replacement_of h' x = replacement_of h x /\ class_at h' x = class_at h x.
Proof.
  intros [_ F] Hx. unfold replacement_of, class_at.
  destruct (lookup_lt_is_Some_2 h x Hx) as [n Hn].
  destruct (F x n Hn) as (n' & Hn' & HC & HL).
  rewrite Hn, Hn'. simpl. split; congruence.
Qed.

(** What a text mutation of a leaf does to classes and links. *)
Lemma set_cdata_leaf self s rn h r h' :
  XMLCDATANode.set_cdata self s rn h = Ok r h' ->
  r = (if rn then Some (length h) else None)
  /\ self < length h < length h'
  /\ replacement_of h' self = Some (Some (VRef (length h)))
  /\ replacement_of h' (length h) = Some None
  /\ class_at h' (length h) = Some XMLCDATANode_cls
  /\ (forall x, x < length h -> x <> self ->
        replacement_of h' x = replacement_of h x)
  /\ (forall x, x < length h -> class_at h' x = class_at h x).
Proof.
  unfold XMLCDATANode.set_cdata. intros H.
  apply bind_Ok in H as (u1 & h1 & Hc & H).
  apply check_replacement_Ok in Hc as (-> & n & Hn).
  apply bind_Ok in H as (stag & h1 & H1 & H). apply rd_Ok in H1 as (-> & _).
  apply bind_Ok in H as (skey & h1 & H1 & H). apply rd_Ok in H1 as (-> & _).
  apply bind_Ok in H as (spar & h1 & H1 & H). apply rd_Ok in H1 as (-> & _).
  apply bind_Ok in H as (satt & h1 & H1 & H). apply rd_Ok in H1 as (-> & _).
  apply bind_Ok in H as (nn & h1 & Ha & H).
  unfold XMLCDATANode.__init__, XMLNodeBase.__init__, alloc in Ha.
  injection Ha as <- <-.
  apply bind_Ok in H as (u2 & h2 & Hr & H). injection H as <- ->.
  apply replace_node_some in Hr as (n1 & Hn1 & Hf).
  set (new := Node.mk stag skey satt s spar None (CDATA s)) in *.
  set (h1 := alter (Node.set_replacement (Some (VRef (length h)))) self (h ++ [new])) in *.
  pose proof (lookup_lt_Some _ _ _ Hn) as Hself.
  assert (Hlen1 : length h1 = S (length h)).
  { subst h1. rewrite length_alter, length_app. simpl. lia. }
  assert (Hlen : length h1 <= length h') by apply Hf.
  assert (Hnew : h1 !! length h = Some new).
  { subst h1. rewrite list_lookup_alter_ne by lia.
    rewrite lookup_app_r by lia. rewrite Nat.sub_diag. reflexivity. }
  assert (Hold : forall x, x < length h -> x <> self -> h1 !! x = h !! x).
  { intros x Hx Hne. subst h1. rewrite list_lookup_alter_ne by congruence.
    apply lookup_app_l. assumption. }
  assert (Hs1 : h1 !! self = Some (Node.set_replacement (Some (VRef (length h))) n)).
  { subst h1. rewrite list_lookup_alter_eq, lookup_app_l by assumption.
    rewrite Hn. reflexivity. }
  split; [reflexivity|]. split; [lia|].
  split; [|split; [|split; [|split]]].
  - destruct (replacement_of_frame h1 h' self Hf) as [-> _]; [lia|].
    unfold replacement_of. rewrite Hs1. reflexivity.
  - destruct (replacement_of_frame h1 h' (length h) Hf) as [-> _]; [lia|].
    unfold replacement_of. rewrite Hnew. reflexivity.
  - destruct (replacement_of_frame h1 h' (length h) Hf) as [_ ->]; [lia|].
    unfold class_at. rewrite Hnew. reflexivity.
  - intros x Hx Hne.
    destruct (replacement_of_frame h1 h' x Hf) as [-> _]; [lia|].
    unfold replacement_of. rewrite Hold by assumption. reflexivity.
  - intros x Hx.
    destruct (replacement_of_frame h1 h' x Hf) as [_ ->]; [lia|].
    unfold class_at. destruct (decide (x = self)) as [->|Hne].
    + rewrite Hs1, Hn. reflexivity.
    + rewrite Hold by assumption. reflexivity.
Qed.

Lemma call_cdata_leaf c self h r h' :
  class_at h self = Some XMLCDATANode_cls ->
  call_cdata c self h = Ok r h' ->
  r = Some (length h)
  /\ self < length h < length h'
  /\ replacement_of h' self = Some (Some (VRef (length h)))
  /\ replacement_of h' (length h) = Some None
  /\ class_at h' (length h) = Some XMLCDATANode_cls
  /\ (forall x, x < length h -> x <> self ->
        replacement_of h' x = replacement_of h x)
  /\ (forall x, x < length h -> class_at h' x = class_at h x).
Proof.
  intros Hcls H.
  assert (Hd : exists s, XMLCDATANode.set_cdata self s true h = Ok r h').
  { unfold class_at in Hcls.
    destruct (h !! self) as [n|] eqn:Hn; [|discriminate].
    injection Hcls as Hcls.
    destruct c as [s|s]; simpl in H.
    - unfold set_cdata in H. rewrite (bind_eval _ _ _ _ _ (rd_eval _ _ _ _ Hn)) in H.
      rewrite Hcls in H. eauto.
    - unfold append_cdata in H. rewrite (bind_eval _ _ _ _ _ (rd_eval _ _ _ _ Hn)) in H.
      rewrite Hcls in H. unfold XMLCDATANode.append_cdata in H.
      apply bind_Ok in H as (u & h1 & Hc & H).
      apply check_replacement_Ok in Hc as (-> & _).
      apply bind_Ok in H as (t & h1 & Ht & H).
      unfold XMLCDATANode._unicode in Ht.
      rewrite (bind_eval _ _ _ _ _ (rd_eval _ _ _ _ Hn)) in Ht.
      destruct (Node.value n); try discriminate. injection Ht as <- <-. eauto. }
  destruct Hd as (s & Hs). apply set_cdata_leaf in Hs. exact Hs.
Qed.

(** *** Chains of replacements *)

Lemma ends_in_det h k x e k' e' :
  ends_in h k x e -> ends_in h k' x e' -> k = k' /\ e = e'.
Proof.
  intros H. revert k' e'. induction H as [x Hx|x b Hx|k x y e Hx Hy IH];
    intros k' e' H';
    inversion H' as [x' Hx'|x' b' Hx'|k2 x' y' e2 Hx' Hy']; subst;
    try congruence.
  - auto.
  - split; congruence.
  - assert (y' = y) by congruence. subst y'.
    destruct (IH _ _ Hy') as [-> ->]. auto.
Qed.

Lemma ends_in_valid h k x e : ends_in h k x e -> x < length h.
Proof.
  intros H.
  destruct H as [x Hx|x b Hx|k x y e Hx _]; unfold replacement_of in Hx;
    destruct (h !! x) as [n|] eqn:E; try discriminate;
    eapply lookup_lt_Some; eassumption.
Qed.

Lemma replacement_of_alter_ne f (h : heap) x y :
  x <> y -> replacement_of (alter f x h) y = replacement_of h y.
Proof. intros Hne. unfold replacement_of. rewrite list_lookup_alter_ne; auto. Qed.

Lemma ends_in_alter h k y e x f :
  ends_in h k y e ->
  (forall j e', ends_in h j x e' -> k < j) ->
  ends_in (alter f x h) k y e.
Proof.
  intros H. induction H as [y Hy|y b Hy|k y z e Hy Hz IH]; intros Hx.
  - assert (x <> y) by (intros ->; specialize (Hx 0 _ (ends_here _ _ Hy)); lia).
    apply ends_here. rewrite replacement_of_alter_ne; assumption.
  - assert (x <> y) by (intros ->; specialize (Hx 0 _ (ends_foreign _ _ _ Hy)); lia).
    apply ends_foreign. rewrite replacement_of_alter_ne; assumption.
  - assert (x <> y).
    { intros ->. specialize (Hx (S k) _ (ends_step _ _ _ _ _ Hy Hz)). lia. }
    eapply ends_step; [rewrite replacement_of_alter_ne; eassumption|].
    apply IH. intros j e' Hj. specialize (Hx j e' Hj). lia.
Qed.

(** The nodes along a chain are pairwise distinct. *)
Lemma chain_nodes h k x e :
  ends_in h k x e ->
  exists l : list nat, length l = S k /\ NoDup l
    /\ forall z, z ∈ l -> exists j e', j <= k /\ ends_in h j z e'.
Proof.
  intros H. induction H as [x Hx|x b Hx|k x y e Hx Hy (l & Hl & Hnd & Hin)].
  - exists [x]. split; [reflexivity|]. split; [apply NoDup_singleton|].
    intros z Hz. apply list_elem_of_singleton in Hz as ->.
    exists 0, (VRef x). split; [lia|constructor; assumption].
  - exists [x]. split; [reflexivity|]. split; [apply NoDup_singleton|].
    intros z Hz. apply list_elem_of_singleton in Hz as ->.
    exists 0, (VForeign b). split; [lia|constructor; assumption].
  - exists (x :: l). split; [simpl; lia|]. split.
    + apply NoDup_cons. split; [|assumption]. intros Hxl.
      destruct (Hin x Hxl) as (j & e' & Hj & He').
      destruct (ends_in_det _ _ _ _ _ _ He' (ends_step _ _ _ _ _ Hx Hy)). lia.
    + intros z Hz. apply elem_of_cons in Hz as [->|Hz].
      * exists (S k), e. split; [lia|]. eapply ends_step; eassumption.
      * destruct (Hin z Hz) as (j & e' & Hj & He'). exists j, e'. split; [lia|assumption].
Qed.

Lemma chain_shorter_than_store h k x e : ends_in h k x e -> k < length h.
Proof.
  intros H. destruct (chain_nodes _ _ _ _ H) as (l & Hl & Hnd & Hin).
  assert (Hincl : incl l (seq 0 (length h))).
  { intros z Hz. apply in_seq. apply list_elem_of_In in Hz.
    destruct (Hin z Hz) as (j & e' & _ & He').
    apply ends_in_valid in He'. lia. }
  apply NoDup_ListNoDup in Hnd.
  pose proof (NoDup_incl_length Hnd Hincl) as Hle.
  rewrite length_seq in Hle. lia.
Qed.

Lemma set_replacement_same n r :
  Node._replacement_node n = r -> Node.set_replacement r n = n.
Proof. destruct n. simpl. intros ->. reflexivity. Qed.

Lemma set_replacement_twice n r r' :
  Node.set_replacement r (Node.set_replacement r' n) = Node.set_replacement r n.
Proof. destruct n. reflexivity. Qed.

(** The loop of [get_current_node] on a chain that ends: it stops, by
    leaving the loop or by the exception a foreign object causes, having
    linked [x] to the end of its chain and touched nothing else. *)
Lemma follow_spec k : forall (h : heap) x y e b n,
  h !! x = Some n ->
  Node._replacement_node n = Some (VRef y) ->
  ends_in h k y e ->
  (forall j e', ends_in h j x e' -> k < j) ->
  S k < b ->
  exists h',
    (XMLNodeBase.follow b x h = Ok tt h'
     \/ exists ex, XMLNodeBase.follow b x h = Raise ex h')
    /\ h' !! x = Some (Node.set_replacement (Some e) n)
    /\ (forall z, z <> x -> h' !! z = h !! z)
    /\ length h' = length h.
Proof.
  induction k as [|k IH]; intros h x y e b n Hn Hr Hy Hx Hb.
  - destruct b as [|b]; [lia|]. simpl.
    rewrite (bind_eval _ _ _ _ _ (rd_eval _ _ _ _ Hn)), Hr.
    inversion Hy as [y' Hy'|y' b0 Hy'|]; subst.
    + unfold replacement_of in Hy'. destruct (h !! y) as [ny|] eqn:Hny; [|discriminate].
      injection Hy' as Hy'.
      rewrite (bind_eval _ _ _ _ _ (rd_eval _ _ _ _ Hny)), Hy'.
      exists h. split; [left; reflexivity|].
      rewrite set_replacement_same by assumption. auto.
    + unfold replacement_of in Hy'. destruct (h !! y) as [ny|] eqn:Hny; [|discriminate].
      injection Hy' as Hy'.
      rewrite (bind_eval _ _ _ _ _ (rd_eval _ _ _ _ Hny)), Hy'.
      rewrite (bind_eval _ _ _ _ _ (wr_eval _ _ _ _ Hn)).
      destruct b as [|b]; [lia|]. simpl.
      set (h1 := alter (Node.set_replacement (Some (VForeign b0))) x h).
      assert (H1 : h1 !! x = Some (Node.set_replacement (Some (VForeign b0)) n)).
      { subst h1. rewrite list_lookup_alter_eq, Hn. reflexivity. }
      rewrite (bind_eval _ _ _ _ _ (rd_eval _ _ _ _ H1)). simpl.
      exists h1. split; [right; eexists; reflexivity|].
      split; [assumption|]. split.
      * intros z Hz. subst h1. apply list_lookup_alter_ne. congruence.
      * subst h1. apply length_alter.
  - destruct b as [|b]; [lia|]. simpl.
    rewrite (bind_eval _ _ _ _ _ (rd_eval _ _ _ _ Hn)), Hr.
    inversion Hy as [| |k' y' y2 e' Hy' Hy2]; subst.
    unfold replacement_of in Hy'. destruct (h !! y) as [ny|] eqn:Hny; [|discriminate].
    injection Hy' as Hy'.
    rewrite (bind_eval _ _ _ _ _ (rd_eval _ _ _ _ Hny)), Hy'.
    rewrite (bind_eval _ _ _ _ _ (wr_eval _ _ _ _ Hn)).
    set (h1 := alter (Node.set_replacement (Some (VRef y2))) x h).
    assert (H1 : h1 !! x = Some (Node.set_replacement (Some (VRef y2)) n)).
    { subst h1. rewrite list_lookup_alter_eq, Hn. reflexivity. }
    assert (Hy2' : ends_in h1 k y2 e).
    { subst h1. apply ends_in_alter; [assumption|].
      intros j e' Hj. specialize (Hx j e' Hj). lia. }
    assert (Hx1 : ends_in h1 (S k) x e).
    { eapply ends_step; [|exact Hy2']. unfold replacement_of. rewrite H1.
      destruct n; reflexivity. }
    destruct (IH h1 x y2 e b _ H1) as (h' & Hf & Hx' & Hz & Hlen);
      [destruct n; reflexivity|assumption| |lia|].
    { intros j e' Hj. destruct (ends_in_det _ _ _ _ _ _ Hj Hx1). lia. }
    exists h'. split; [exact Hf|]. split.
    + rewrite Hx', set_replacement_twice. reflexivity.
    + split.
      * intros z Hne. rewrite Hz by assumption. subst h1.
        apply list_lookup_alter_ne. congruence.
      * rewrite Hlen. subst h1. apply length_alter.
Qed.

(** [get_current_node] on a node whose chain ends returns that end; every
    chain of the store still ends where it did, and no object has changed
    but for the link of the node asked. *)
Lemma get_current_node_ends h k x e :
  ends_in h k x e ->
  exists h',
    XMLNodeBase.get_current_node x h = Ok e h'
    /\ length h' = length h
    /\ (forall z, z <> x -> h' !! z = h !! z)
    /\ (forall n, h !! x = Some n ->
          exists r, h' !! x = Some (Node.set_replacement r n))
    /\ (forall y j e', ends_in h j y e' -> ends_at h' y e').
Proof.
  intros H. unfold XMLNodeBase.get_current_node.
  inversion H as [x' Hx|x' b Hx|k' x' y e' Hx Hy]; subst.
  - unfold replacement_of in Hx. destruct (h !! x) as [n|] eqn:Hn; [|discriminate].
    injection Hx as Hx.
    rewrite (bind_eval _ _ _ _ _ (rd_eval _ _ _ _ Hn)), Hx.
    exists h. split; [reflexivity|]. split; [reflexivity|]. split; [auto|]. split.
    + intros n0 [= <-]. exists None. rewrite set_replacement_same; auto.
    + intros y j e' Hj. exists j. assumption.
  - unfold replacement_of in Hx. destruct (h !! x) as [n|] eqn:Hn; [|discriminate].
    injection Hx as Hx.
    rewrite (bind_eval _ _ _ _ _ (rd_eval _ _ _ _ Hn)), Hx.
    assert (Hfol : exists ex, XMLNodeBase.follow (length h) x h = Raise ex h).
    { pose proof (lookup_lt_Some _ _ _ Hn).
      destruct (length h) as [|b']; [lia|]. simpl.
      rewrite (bind_eval _ _ _ _ _ (rd_eval _ _ _ _ Hn)), Hx. eexists. reflexivity. }
    destruct Hfol as (ex & Hfol).
    unfold bind at 1, try_except. rewrite Hfol. simpl.
    rewrite (bind_eval _ _ _ _ _ (rd_eval _ _ _ _ Hn)), Hx.
    exists h. split; [reflexivity|]. split; [reflexivity|]. split; [auto|]. split.
    + intros n0 [= <-]. exists (Some (VForeign b)). rewrite set_replacement_same; auto.
    + intros y j e' Hj. exists j. assumption.
  - unfold replacement_of in Hx. destruct (h !! x) as [n|] eqn:Hn; [|discriminate].
    injection Hx as Hx.
    rewrite (bind_eval _ _ _ _ _ (rd_eval _ _ _ _ Hn)), Hx.
    pose proof (chain_shorter_than_store _ _ _ _ H) as Hlen.
    destruct (follow_spec k' h x y e (length h) n Hn Hx Hy) as (h' & Hf & Hx' & Hz & Hl).
    { intros j e' Hj. destruct (ends_in_det _ _ _ _ _ _ Hj H). lia. }
    { lia. }
    assert (Hres : bind (try_except (XMLNodeBase.follow (length h) x) (fun _ => ret tt))
                     (fun _ => bind (rd x Node._replacement_node)
                       (fun r' => match r' with Some v => ret v | None => undef end)) h
                   = Ok e h').
    { assert (Ht : try_except (XMLNodeBase.follow (length h) x) (fun _ => ret tt) h
                   = Ok tt h').
      { unfold try_except. destruct Hf as [->|(ex & ->)]; reflexivity. }
      rewrite (bind_eval _ _ _ _ _ Ht).
      rewrite (bind_eval _ _ _ _ _ (rd_eval _ _ _ _ Hx')).
      destruct n; reflexivity. }
    exists h'. split; [exact Hres|]. split; [assumption|]. split; [assumption|]. split.
    + intros n0 [= <-]. eauto.
    + assert (Hend : forall z, e = VRef z -> z <> x).
      { intros z -> ->.
        assert (Hz0 : ends_in h 0 x (VRef x)).
        { clear -Hy. remember (VRef x) as e eqn:He.
          induction Hy; try discriminate.
          - injection He as ->. constructor. assumption.
          - auto. }
        destruct (ends_in_det _ _ _ _ _ _ Hz0 H). lia. }
      assert (Hxe : ends_at h' x e).
      { destruct e as [z|b].
        - exists 1. eapply ends_step.
          + unfold replacement_of. rewrite Hx'. destruct n; reflexivity.
          + apply ends_here. unfold replacement_of. rewrite Hz by (apply Hend; reflexivity).
            clear -Hy. remember (VRef z) as e eqn:He.
            induction Hy; try discriminate; [|auto].
            injection He as ->. assumption.
        - exists 0. apply ends_foreign. unfold replacement_of. rewrite Hx'.
          destruct n; reflexivity. }
      intros y0 j e0 Hj. induction Hj as [y0 Hy0|y0 b Hy0|j y0 y1 e0 Hy0 Hy1 IH].
      * destruct (decide (y0 = x)) as [->|Hne].
        -- destruct (ends_in_det _ _ _ _ _ _ (ends_here _ _ Hy0) H). lia.
        -- exists 0. apply ends_here. unfold replacement_of. rewrite Hz; assumption.
      * destruct (decide (y0 = x)) as [->|Hne].
        -- destruct (ends_in_det _ _ _ _ _ _ (ends_foreign _ _ _ Hy0) H). lia.
        -- exists 0. apply ends_foreign. unfold replacement_of. rewrite Hz; assumption.
      * destruct (decide (y0 = x)) as [->|Hne].
        -- destruct (ends_in_det _ _ _ _ _ _ (ends_step _ _ _ _ _ Hy0 Hy1) H) as [_ ->].
           exact Hxe.
        -- destruct IH as (j' & Hj').
           exists (S j'). eapply ends_step; [|exact Hj'].
           unfold replacement_of. rewrite Hz; assumption.
Qed.

Lemma get_current_node_never_raises x h e h' :
  XMLNodeBase.get_current_node x h <> Raise e h'.
Proof.
  unfold XMLNodeBase.get_current_node, bind, rd.
  destruct (h !! x) as [n|]; [|discriminate].
  destruct (Node._replacement_node n) as [v|]; [|discriminate].
  unfold try_except.
  destruct (XMLNodeBase.follow (length h) x h) as [u h1|ex h1|]; simpl;
    try discriminate;
    destruct (h1 !! x) as [n1|]; try discriminate;
    destruct (Node._replacement_node n1); discriminate.
Qed.

Lemma get_current_node_unset (h : heap) x :
  replacement_of h x = Some None ->
  XMLNodeBase.get_current_node x h = Ok (VRef x) h.
Proof.
  unfold replacement_of, XMLNodeBase.get_current_node, bind, rd.
  destruct (h !! x) as [n|]; [|discriminate].
  intros [= ->]. reflexivity.
Qed.

Lemma class_at_valid h x c : class_at h x = Some c -> x < length h.
Proof.
  unfold class_at. destruct (h !! x) as [n|] eqn:E; [|discriminate].
  intros _. eapply lookup_lt_Some. eassumption.
Qed.

Lemma successive_chain calls : forall h cur chain h',
  class_at h cur = Some XMLCDATANode_cls ->
  successive calls cur h = Ok chain h' ->
  exists tl,
    chain = cur :: tl
    /\ length tl = length calls
    /\ (forall x, x ∈ tl -> length h <= x)
    /\ (forall x, x ∈ chain -> x < length h')
    /\ linked h' chain
    /\ (calls <> [] ->
        exists lst, last chain = Some lst /\ replacement_of h' lst = Some None)
    /\ (forall x, x < length h -> x <> cur ->
          replacement_of h' x = replacement_of h x)
    /\ length h <= length h'
    /\ (calls = [] -> h' = h).
Proof.
  induction calls as [|c rest IH]; intros h cur chain h' Hcls H.
  - simpl in H. injection H as <- <-. exists [].
    pose proof (class_at_valid _ _ _ Hcls).
    repeat split; auto.
    + intros x Hx. apply elem_of_nil in Hx. destruct Hx.
    + intros x Hx. apply list_elem_of_singleton in Hx as ->. assumption.
    + intros Hne. congruence.
  - simpl in H. apply bind_Ok in H as (r & h1 & Hc & H).
    destruct (call_cdata_leaf _ _ _ _ _ Hcls Hc)
      as (-> & Hlen & Hself & Hnew & Hncls & Hrepl & Hclass).
    apply bind_Ok in H as (l & h2 & Hs & H). injection H as <- ->.
    destruct (IH _ _ _ _ Hncls Hs)
      as (tl & -> & Htl & Hfresh & Hvalid & Hlinked & Hlast & Hframe & Hle & Hnil).
    exists (length h :: tl).
    assert (Hcur : replacement_of h' cur = Some (Some (VRef (length h)))).
    { rewrite Hframe by lia. assumption. }
    split; [reflexivity|]. split; [simpl; lia|]. split; [|split; [|split; [|split; [|split; [|split]]]]].
    + intros x Hx. apply elem_of_cons in Hx as [->|Hx]; [lia|].
      specialize (Hfresh x Hx). lia.
    + intros x Hx. apply elem_of_cons in Hx as [->|Hx]; [lia|]. apply Hvalid. assumption.
    + simpl. split; assumption.
    + intros _. destruct rest as [|c' rest'].
      * destruct tl; [|discriminate]. rewrite Hnil by reflexivity.
        exists (length h). split; [reflexivity|assumption].
      * destruct Hlast as (lst & Hl & Hr); [discriminate|].
        exists lst. split; [|assumption].
        change (cur :: length h :: tl) with ([cur] ++ (length h :: tl)).
        rewrite last_app, Hl. reflexivity.
    + intros x Hx Hne. rewrite Hframe by lia. apply Hrepl; assumption.
    + lia.
    + discriminate.
Qed.

Lemma linked_ends h chain lst :
  linked h chain -> last chain = Some lst ->
  replacement_of h lst = Some None ->
  forall x, x ∈ chain -> ends_at h x (VRef lst).
Proof.
  intros Hl Hlast Hend. induction chain as [|a chain IH]; intros x Hx.
  - apply elem_of_nil in Hx. destruct Hx.
  - destruct chain as [|b chain].
    + apply list_elem_of_singleton in Hx as ->. simpl in Hlast. injection Hlast as ->.
      exists 0. constructor. assumption.
    + destruct Hl as [Hab Hl].
      assert (Hlast' : last (b :: chain) = Some lst) by exact Hlast.
      specialize (IH Hl Hlast').
      apply elem_of_cons in Hx as [->|Hx]; [|apply IH; assumption].
      destruct (IH b) as (k & Hk); [left|].
      exists (S k). eapply ends_step; eassumption.
Qed.

(** C1. After [N >= 1] successive [set_cdata]/[append_cdata] calls on a
    leaf, each on the instance the previous call returned,
    [get_current_node] on the original instance and on every later one
    returns the same object, the last one; on a node whose replacement
    link is unset it returns the node itself; on any chain that ends, be
    it in a foreign object, it returns that end; and it never raises. *)
Theorem replacement_chain_collapse :
  (forall (h : heap) (n0 : ref) (calls : list cdata_call)
          (chain : list ref) (h' : heap),
     class_at h n0 = Some XMLCDATANode_cls ->
     calls <> [] ->
     successive calls n0 h = Ok chain h' ->
     exists current,
       head chain = Some n0
       /\ last chain = Some current
       /\ length chain = S (length calls)
       /\ forall x y, x ∈ chain -> y ∈ chain ->
            exists h1 h2,
              XMLNodeBase.get_current_node x h' = Ok (VRef current) h1
              /\ XMLNodeBase.get_current_node y h1 = Ok (VRef current) h2)
  /\ (forall (h : heap) (n : ref),
        replacement_of h n = Some None ->
        XMLNodeBase.get_current_node n h = Ok (VRef n) h)
  /\ (forall (h : heap) (n : ref) (e : pyval),
        ends_at h n e ->
        exists h', XMLNodeBase.get_current_node n h = Ok e h')
  /\ (forall (h : heap) (n : ref) (e : Py.exn) (h' : heap),
        XMLNodeBase.get_current_node n h <> Raise e h').
Proof.
  split; [|split; [|split]].
  - intros h n0 calls chain h' Hcls Hne Hs.
    destruct (successive_chain _ _ _ _ _ Hcls Hs)
      as (tl & -> & Htl & _ & _ & Hlinked & Hlast & _).
    destruct (Hlast Hne) as (lst & Hl & Hr).
    exists lst. split; [reflexivity|]. split; [assumption|]. split; [simpl; lia|].
    intros x y Hx Hy.
    destruct (linked_ends _ _ _ Hlinked Hl Hr x Hx) as (kx & Hkx).
    destruct (linked_ends _ _ _ Hlinked Hl Hr y Hy) as (ky & Hky).
    destruct (get_current_node_ends _ _ _ _ Hkx) as (h1 & Hg1 & _ & _ & _ & Hpres).
    destruct (Hpres _ _ _ Hky) as (ky' & Hky').
    destruct (get_current_node_ends _ _ _ _ Hky') as (h2 & Hg2 & _).
    exists h1, h2. split; assumption.
  - apply get_current_node_unset.
  - intros h n e (k & Hk).
    destruct (get_current_node_ends _ _ _ _ Hk) as (h' & Hg & _). eauto.
  - intros. apply get_current_node_never_raises.
Qed.

Lemma replacement_chain_collapse_witness :
  let h := [Node.mk None Py.KNone [] "" None None (DICT [(Py.KStr "a", 1)] false);
            Node.mk (Some "a") (Py.KStr "a") [] "foo" (Some 0) None (CDATA "foo")] in
  let calls := [Append_cdata "bar"; Append_cdata "baz"] in
  exists chain h',
    successive calls 1 h = Ok chain h'
    /\ exists current,
         head chain = Some 1
         /\ last chain = Some current
         /\ length chain = S (length calls)
         /\ forall x y, x ∈ chain -> y ∈ chain ->
              exists h1 h2,
                XMLNodeBase.get_current_node x h' = Ok (VRef current) h1
                /\ XMLNodeBase.get_current_node y h1 = Ok (VRef current) h2.
Proof.
  intros h calls. eexists. eexists. split.
  - vm_compute. reflexivity.
  - apply (proj1 replacement_chain_collapse h 1 calls).
    + reflexivity.
    + discriminate.
    + vm_compute. reflexivity.
Defined.

(** ** Stale nodes *)

Lemma check_replacement_unset (h : heap) n nd :
  h !! n = Some nd -> Node._replacement_node nd = None ->
  XMLNodeBase._check_replacement n h = Ok tt h.
Proof.
  intros Hn Hr. unfold XMLNodeBase._check_replacement.
  rewrite (bind_eval _ _ _ _ _ (rd_eval _ _ _ _ Hn)), Hr. reflexivity.
Qed.

Lemma check_replacement_truthy (h : heap) n nd v :
  h !! n = Some nd -> Node._replacement_node nd = Some v ->
  XMLNodeBase.truth v h = Ok true h ->
  XMLNodeBase._check_replacement n h = Raise Py.AttributeError h.
Proof.
  intros Hn Hr Ht. unfold XMLNodeBase._check_replacement.
  rewrite (bind_eval _ _ _ _ _ (rd_eval _ _ _ _ Hn)), Hr.
  rewrite (bind_eval _ _ _ _ _ Ht). reflexivity.
Qed.

(** A node whose replacement is a true value refuses every mutation, and
    the objects of the store stay as they were ([list(in_place=True)] has
    by then built the list it meant to install, which nothing refers to). *)
Lemma stale_node_rejects_mutation (h : heap) n nd v :
  h !! n = Some nd -> Node._replacement_node nd = Some v ->
  XMLNodeBase.truth v h = Ok true h ->
  (forall s rn, set_cdata n s rn h = Raise Py.AttributeError h)
  /\ (forall s rn, append_cdata n s rn h = Raise Py.AttributeError h)
  /\ (forall c rn, strip_cdata n c rn h = Raise Py.AttributeError h)
  /\ (forall tag key text new upd a,
        add_node n tag key text new upd a h = Raise Py.AttributeError h)
  /\ (forall a s, XMLNodeBase.set_xml_attr n a s h = Raise Py.AttributeError h)
  /\ (forall a, XMLNodeBase.delete_xml_attr n a h = Raise Py.AttributeError h)
  /\ (forall nw, XMLNodeBase._replace_node n nw h = Raise Py.AttributeError h)
  /\ exists garbage,
       XMLNodeBase_list n true h = Raise Py.AttributeError (h ++ [garbage]).
Proof.
  intros Hn Hr Ht.
  pose proof (check_replacement_truthy _ _ _ _ Hn Hr Ht) as Hc.
  assert (Hrd : forall A (f : Node.t -> A), rd n f h = Ok (f nd) h)
    by (intros; apply rd_eval; assumption).
  repeat split.
  - intros s rn. unfold set_cdata. rewrite (bind_eval _ _ _ _ _ (Hrd _ _)).
    destruct (class_of (Node.value nd));
      [unfold XMLCDATANode.set_cdata|unfold XMLNodeBase.set_cdata..];
      rewrite (bind_eval_raise _ _ _ _ _ Hc); reflexivity.
  - intros s rn. unfold append_cdata. rewrite (bind_eval _ _ _ _ _ (Hrd _ _)).
    destruct (class_of (Node.value nd));
      [unfold XMLCDATANode.append_cdata|unfold XMLNodeBase.append_cdata..];
      rewrite (bind_eval_raise _ _ _ _ _ Hc); reflexivity.
  - intros c rn. unfold strip_cdata.
    rewrite (bind_eval_raise _ _ _ _ _ Hc). reflexivity.
  - intros tag key text new upd a. unfold add_node.
    rewrite (bind_eval _ _ _ _ _ (Hrd _ _)).
    destruct (class_of (Node.value nd));
      [unfold XMLCDATANode.add_node|unfold XMLDictNode.add_node
      |unfold XMLListNode.add_node];
      rewrite (bind_eval_raise _ _ _ _ _ Hc); reflexivity.
  - intros a s. unfold XMLNodeBase.set_xml_attr.
    rewrite (bind_eval_raise _ _ _ _ _ Hc). reflexivity.
  - intros a. unfold XMLNodeBase.delete_xml_attr.
    rewrite (bind_eval_raise _ _ _ _ _ Hc). reflexivity.
  - intros nw. unfold XMLNodeBase._replace_node. simpl.
    unfold XMLNodeBase._replace_node_body.
    rewrite (bind_eval_raise _ _ _ _ _ Hc). reflexivity.
  - eexists. unfold XMLNodeBase_list. simpl.
    rewrite (bind_eval _ _ _ _ _ (Hrd _ _)).
    rewrite (bind_eval _ _ _ _ _ (Hrd _ _)).
    rewrite (bind_eval _ _ _ _ _ (Hrd _ _)).
    unfold XMLListNode.__init__, XMLNodeBase.__init__.
    unfold bind at 1. unfold alloc at 1.
    assert (Hc' : forall g, XMLNodeBase._check_replacement n (h ++ [g])
                            = Raise Py.AttributeError (h ++ [g])).
    { intros g. unfold XMLNodeBase._check_replacement.
      assert (Hn' : (h ++ [g]) !! n = Some nd) by (apply lookup_app_l_Some; assumption).
      rewrite (bind_eval _ _ _ _ _ (rd_eval _ _ _ _ Hn')), Hr.
      assert (Ht' : XMLNodeBase.truth v (h ++ [g]) = Ok true (h ++ [g])).
      { destruct v as [r|b]; simpl in *.
        - apply rd_Ok in Ht as (_ & nr & Hnr & Hb).
          rewrite (rd_eval _ _ _ _ (lookup_app_l_Some _ _ _ _ Hnr)). congruence.
        - unfold ret in *. congruence. }
      rewrite (bind_eval _ _ _ _ _ Ht'). reflexivity. }
    unfold XMLNodeBase._replace_node. unfold bind at 1.
    cbn [XMLNodeBase._replace_node_rec]. unfold XMLNodeBase._replace_node_body.
    rewrite (bind_eval_raise _ _ _ _ _ (Hc' _)). reflexivity.
Qed.

(** C2 fails on the code: the check takes the truth value of the link.
    A leaf whose text has been set to the empty string is stale, its link
    being an empty, hence false, leaf; [set_xml_attr] on it raises nothing
    and changes the stale node. *)
Theorem stale_node_with_empty_replacement_mutated :
  let h0 := [Node.mk None Py.KNone [] "" None None (DICT [(Py.KStr "a", 1)] false);
             Node.mk (Some "a") (Py.KStr "a") [] "foo" (Some 0) None (CDATA "foo")] in
  exists h,
    set_cdata 1 "" false h0 = Ok None h
    /\ replacement_of h 1 = Some (Some (VRef 2))
    /\ value_of h 2 = Some (CDATA "")
    /\ exists h',
         XMLNodeBase.set_xml_attr 1 "k" "v" h = Ok tt h'
         /\ (Node.xml_attrs <$> h !! 1) = Some []
         /\ (Node.xml_attrs <$> h' !! 1) = Some [("k", "v")].
Proof.
  eexists. split; [vm_compute; reflexivity|].
  split; [reflexivity|]. split; [reflexivity|].
  eexists. split; [vm_compute; reflexivity|]. split; reflexivity.
Qed.

(** C10 (amended). On a stale node the reading operations answer from the
    node's own retained data, as they do on a current node: [get_cdata],
    [get_xml_attrs] and [has_xml_attrs] return; [get_xml_attr] returns the
    value of an attribute that is there, the default, if one is given, for
    one that is not, and raises [KeyError] for a missing attribute without
    default; [get_current_node] returns the end of the chain whenever the
    chain ends, leaves the node's data alone, and never raises. *)
Theorem stale_node_reads (h : heap) (n : ref) (nd : Node.t) (v : pyval) :
  h !! n = Some nd ->
  Node._replacement_node nd = Some v ->
  get_cdata n h
  = Ok (match Node.value nd with CDATA s => s | _ => Node.text nd end) h
  /\ XMLNodeBase.get_xml_attrs n h = Ok (Node.xml_attrs nd) h
  /\ XMLNodeBase.has_xml_attrs n h
     = Ok (match Node.xml_attrs nd with [] => false | _ => true end) h
  /\ (forall attr d,
        XMLNodeBase.get_xml_attr n attr (Some d) h
        = Ok (match OrderedDict.get attr (Node.xml_attrs nd) with
              | Some x => x
              | None => d
              end) h)
  /\ (forall attr,
        XMLNodeBase.get_xml_attr n attr None h
        = match OrderedDict.get attr (Node.xml_attrs nd) with
          | Some x => Ok x h
          | None => Raise Py.KeyError h
          end)
  /\ (forall e, ends_at h n e ->
        exists h' r,
          XMLNodeBase.get_current_node n h = Ok e h'
          /\ h' !! n = Some (Node.set_replacement r nd))
  /\ (forall e h', XMLNodeBase.get_current_node n h <> Raise e h').
Proof.
  intros Hn Hr.
  assert (Hrd : forall A (f : Node.t -> A), rd n f h = Ok (f nd) h)
    by (intros; apply rd_eval; assumption).
  split; [|split; [|split; [|split; [|split; [|split]]]]].
  - unfold get_cdata. rewrite (bind_eval _ _ _ _ _ (Hrd _ _)).
    destruct (Node.value nd) eqn:Hv; simpl.
    + unfold XMLCDATANode.get_cdata, XMLCDATANode._unicode.
      rewrite (bind_eval _ _ _ _ _ (Hrd _ _)), Hv. reflexivity.
    + apply Hrd.
    + apply Hrd.
  - apply Hrd.
  - unfold XMLNodeBase.has_xml_attrs. rewrite (bind_eval _ _ _ _ _ (Hrd _ _)).
    destruct (Node.xml_attrs nd); reflexivity.
  - intros attr d. unfold XMLNodeBase.get_xml_attr.
    rewrite (bind_eval _ _ _ _ _ (Hrd _ _)).
    destruct (OrderedDict.get attr (Node.xml_attrs nd)); reflexivity.
  - intros attr. unfold XMLNodeBase.get_xml_attr.
    rewrite (bind_eval _ _ _ _ _ (Hrd _ _)).
    destruct (OrderedDict.get attr (Node.xml_attrs nd)); reflexivity.
  - intros e (k & Hk).
    destruct (get_current_node_ends _ _ _ _ Hk) as (h' & Hg & _ & _ & Hdata & _).
    destruct (Hdata _ Hn) as (r & Hr'). eauto.
  - intros. apply get_current_node_never_raises.
Qed.

Lemma stale_node_reads_witness :
  let h := [Node.mk None Py.KNone [] "" None None (DICT [(Py.KStr "a", 2)] false);
            Node.mk (Some "a") (Py.KStr "a") [("id", "7")] "foo" (Some 0)
              (Some (VRef 2)) (CDATA "foo");
            Node.mk (Some "a") (Py.KStr "a") [("id", "7")] "foobar" (Some 0)
              None (CDATA "foobar")] in
  get_cdata 1 h = Ok "foo" h
  /\ XMLNodeBase.get_xml_attr 1 "id" None h = Ok "7" h.
Proof.
  intros h.
  destruct (stale_node_reads h 1 _ (VRef 2) eq_refl eq_refl)
    as (Hc & _ & _ & _ & Ha & _).
  split; [exact Hc|exact (Ha "id")].
Defined.

(** C10, as stated, fails: without a default, [get_xml_attr] raises
    [KeyError] for an attribute the stale node does not have. *)
Lemma stale_get_xml_attr_raises_KeyError :
  let h := [Node.mk None Py.KNone [] "" None None (DICT [(Py.KStr "a", 2)] false);
            Node.mk (Some "a") (Py.KStr "a") [("id", "7")] "foo" (Some 0)
              (Some (VRef 2)) (CDATA "foo");
            Node.mk (Some "a") (Py.KStr "a") [("id", "7")] "foobar" (Some 0)
              None (CDATA "foobar")] in
  replacement_of h 1 = Some (Some (VRef 2))
  /\ XMLNodeBase.get_xml_attr 1 "name" None h = Raise Py.KeyError h.
Proof. split; reflexivity. Qed.

(** ** Replacing and deleting nodes *)

(** Replacing or deleting the root is refused and changes nothing. *)
Lemma replace_node_root (h : heap) n nd nw :
  h !! n = Some nd ->
  Node._replacement_node nd = None ->
  Node.parent nd = None ->
  XMLNodeBase._replace_node n nw h = Raise Py.AttributeError h.
Proof.
  intros Hn Hr Hp. unfold XMLNodeBase._replace_node. simpl.
  unfold XMLNodeBase._replace_node_body.
  rewrite (bind_eval _ _ _ _ _ (check_replacement_unset _ _ _ Hn Hr)).
  rewrite (bind_eval _ _ _ _ _ (rd_eval _ _ _ _ Hn)), Hp. reflexivity.
Qed.

(** Deleting the last member of a list removes the list from its own
    parent: the key disappears. *)
Example delete_last_member_removes_key :
  let h := [Node.mk None Py.KNone [] "" None None
              (DICT [(Py.KStr "a", 1); (Py.KStr "b", 3)] false);
            Node.mk (Some "a") (Py.KStr "a") [] "" (Some 0) None (LIST [2]);
            Node.mk (Some "a") (Py.KStr "a") [] "foo" (Some 1) None (CDATA "foo");
            Node.mk (Some "b") (Py.KStr "b") [] "bar" (Some 0) None (CDATA "bar")] in
  exists h',
    XMLNodeBase._replace_node 2 None h = Ok tt h'
    /\ value_of h' 0 = Some (DICT [(Py.KStr "b", 3)] false)
    /\ value_of h' 1 = Some (LIST []).
Proof. eexists. split; [vm_compute; reflexivity|]. split; reflexivity. Qed.

(** A node whose key and parent are out of date is found by the scan of
    the parent's values and of the lists among them; a replacement
    installed that way takes the key of the slot. *)
Example replace_node_found_by_scan :
  let h := [Node.mk None Py.KNone [] "" None None
              (DICT [(Py.KStr "a", 1); (Py.KStr "b", 3)] false);
            Node.mk (Some "a") (Py.KStr "a") [] "" (Some 0) None (LIST [2]);
            Node.mk (Some "xxx") (Py.KStr "b") [] "foo" (Some 0) None (CDATA "foo");
            Node.mk (Some "b") (Py.KStr "b") [] "bar" (Some 0) None (CDATA "bar")] in
  exists h',
    set_cdata 2 "baz" true h = Ok (Some 4) h'
    /\ value_of h' 1 = Some (LIST [4])
    /\ (Node.key <$> h' !! 4) = Some (Py.KStr "a")
    /\ (Node.parent <$> h' !! 4) = Some (Some 1).
Proof. eexists. split; [vm_compute; reflexivity|]. repeat split; reflexivity. Qed.

(** C6 fails on the code: the node is looked for with [==], which on the
    node classes compares contents.  With two members of equal text in a
    list, deleting the second removes the first: the slot of the node is
    still there, and its sibling is gone. *)
Theorem replace_node_deletes_equal_sibling :
  let h := [Node.mk None Py.KNone [] "" None None (DICT [(Py.KStr "b", 1)] false);
            Node.mk (Some "b") (Py.KStr "b") [] "" (Some 0) None (LIST [2; 3]);
            Node.mk (Some "b") (Py.KStr "b") [("id", "1")] "x" (Some 1) None (CDATA "x");
            Node.mk (Some "b") (Py.KStr "b") [("id", "2")] "x" (Some 1) None (CDATA "x")] in
  (Node.parent <$> h !! 3) = Some (Some 1)
  /\ value_of h 1 = Some (LIST [2; 3])
  /\ exists h',
       XMLNodeBase._replace_node 3 None h = Ok tt h'
       /\ value_of h' 1 = Some (LIST [3]).
Proof.
  split; [reflexivity|]. split; [reflexivity|].
  eexists. split; [vm_compute; reflexivity|reflexivity].
Qed.

(** ** Serializer *)

(** C9 fails on the code: the loop deciding whether a full document is
    possible ignores [_ignore_level].  The store below is the tree of
    [{'b': [{'name': 'foo'}, {'name': 'bar'}]}] together with the
    dictionary that [dict(tags=['name'])] on its list returns (object 6):
    it has the tag of the list, is marked [_ignore_level], and holds the
    two members.  It is emitted as two top-level elements between
    [startDocument] and [endDocument], with [full_document=True] and also
    with [full_document] unset; no [ValueError] is raised. *)
Theorem emit_two_roots_as_full_document :
  let h := [Node.mk None Py.KNone [] "" None None (DICT [(Py.KStr "b", 1)] false);
            Node.mk (Some "b") (Py.KStr "b") [] "" (Some 0) None (LIST [2; 3]);
            Node.mk (Some "b") (Py.KStr "b") [] "" (Some 1) None
              (DICT [(Py.KStr "name", 4)] false);
            Node.mk (Some "b") (Py.KStr "b") [] "" (Some 1) None
              (DICT [(Py.KStr "name", 5)] false);
            Node.mk (Some "name") (Py.KStr "name") [] "foo" (Some 2) None (CDATA "foo");
            Node.mk (Some "name") (Py.KStr "name") [] "bar" (Some 3) None (CDATA "bar");
            Node.mk (Some "b") (Py.KStr "b") [] "" (Some 0) None
              (DICT [(Py.KStr "foo", 2); (Py.KStr "bar", 3)] true)] in
  let body := [startElement (Some "b") [];
                 startElement (Some "name") []; sax_characters "foo";
                 endElement (Some "name");
               sax_characters ""; endElement (Some "b");
               startElement (Some "b") [];
                 startElement (Some "name") []; sax_characters "bar";
                 endElement (Some "name");
               sax_characters ""; endElement (Some "b")] in
  top_level_elements body = 2
  /\ emit_handler 6 false "" "" (Some true) h
     = Ok ([startDocument] ++ body ++ [endDocument]) h
  /\ emit_handler 6 false "" "" None h
     = Ok ([startDocument] ++ body ++ [endDocument]) h.
Proof. split; [reflexivity|]. split; vm_compute; reflexivity. Qed.

(** A list of two members is refused as a full document, and emitted
    without document events when [full_document] is unset. *)
Example emit_list_of_two_refused :
  let h := [Node.mk (Some "a") (Py.KStr "a") [] "" None None (LIST [1; 2]);
            Node.mk (Some "a") (Py.KStr "a") [] "foo" (Some 0) None (CDATA "foo");
            Node.mk (Some "a") (Py.KStr "a") [] "bar" (Some 0) None (CDATA "bar")] in
  emit_handler 0 false "" "" (Some true) h = Raise Py.ValueError h
  /\ emit_handler 0 false "" "" None h
     = Ok [startElement (Some "a") []; sax_characters "foo"; endElement (Some "a");
           startElement (Some "a") []; sax_characters "bar"; endElement (Some "a")] h.
Proof. split; vm_compute; reflexivity. Qed.

(** ** Empty documents *)

Lemma init_Ok kw tests h :
  patterns_of kw = Returns tests ->
  _DictSAXHandler.__init__ kw h
  = Ok (initial_handler kw tests (length h)) (h ++ [empty_dict]).
Proof.
  unfold patterns_of, _DictSAXHandler.__init__. intros Hp.
  unfold XMLDictNode.__init__, XMLNodeBase.__init__.
  unfold bind at 1. unfold alloc at 1.
  unfold bind at 1. rewrite Hp. reflexivity.
Qed.

Lemma split_single_empty s : Py.split "/" s = [""] -> s = "".
Proof.
  destruct s as [|c s]; [reflexivity|]. simpl.
  destruct (Ascii.eqb c "/").
  - intros [= H]. exfalso. eapply split_nonempty. exact H.
  - destruct (Py.split "/" s); discriminate.
Qed.

Lemma depth_zero_is_root_pattern s m :
  _DictSAXHandler._parse_generator_matches s = Returns m ->
  _GeneratorMatch.depth m = 0 -> s = "/".
Proof.
  intros Hp Hd.
  destruct (parse_generator_matches_wf _ _ Hp) as (Hlen & _ & Hne & _).
  assert (He : _GeneratorMatch.elements m = []).
  { destruct (_GeneratorMatch.elements m); [reflexivity|]. simpl in Hlen. lia. }
  assert (Hr : _GeneratorMatch.rooted m = true).
  { destruct (_GeneratorMatch.rooted m) eqn:Hr0; [reflexivity|].
    exfalso. exact (Hne eq_refl He). }
  apply (rooted_iff_leading_slash _ _ Hp) in Hr as (s' & ->).
  f_equal. apply split_single_empty.
  clear Hlen Hne Hd.
  revert Hp He. unfold _DictSAXHandler._parse_generator_matches.
  rewrite split_cons_sep. cbn [fst snd].
  destruct (last (Py.split "/" s')) as [l|] eqn:Hl; [|discriminate].
  destruct (existsb _ _); [discriminate|]. intros [= <-]. simpl.
  destruct (String.eqb l "") eqn:El.
  - apply String.eqb_eq in El. subst l.
    destruct (Py.split "/" s') as [|a [|b rest]] eqn:E; simpl.
    + discriminate.
    + simpl in Hl. injection Hl as ->. reflexivity.
    + discriminate.
  - intros E. rewrite E in Hl. discriminate.
Qed.

Lemma parse_all_strings l tests :
  _DictSAXHandler.parse_all l = Returns tests ->
  forall m, In m tests ->
    exists s, _DictSAXHandler._parse_generator_matches s = Returns m.
Proof.
  revert tests. induction l as [|s l IH]; intros tests; simpl.
  - intros [= <-] m [].
  - destruct (_DictSAXHandler._parse_generator_matches s) as [m0|] eqn:E;
      [|discriminate].
    destruct (_DictSAXHandler.parse_all l) as [ms|]; [|discriminate].
    intros [= <-] m [<-|Hin]; [eauto|eapply IH; eauto].
Qed.

(** What the check emits at the end of a document, when no element is
    open: the root match if the root pattern is configured, else nothing. *)
Lemma check_at_document_end l tests item :
  _DictSAXHandler.parse_all l = Returns tests ->
  _DictSAXHandler.check_loop tests [] item []
  = if has_root_pattern tests then [("/", "/", item)] else [].
Proof.
  intros Hp.
  pose proof (parse_all_wf _ _ Hp) as Hwf.
  pose proof (parse_all_strings _ _ Hp) as Hstr.
  clear Hp. induction tests as [|m rest IH]; [reflexivity|].
  rewrite check_loop_cons. unfold has_root_pattern. simpl existsb.
  destruct (Hwf m (or_introl eq_refl)) as [Hd Hne].
  destruct (Hstr m (or_introl eq_refl)) as (s & Hs).
  assert (Ht : loop_test m [] = Nat.eqb (_GeneratorMatch.depth m) 0).
  { destruct (Nat.eqb_spec (_GeneratorMatch.depth m) 0) as [E|E].
    - apply loop_test_spec; [assumption..|]. unfold pattern_matches.
      assert (He : _GeneratorMatch.elements m = []).
      { destruct (_GeneratorMatch.elements m); [reflexivity|]. simpl in Hd. lia. }
      rewrite He. destruct (_GeneratorMatch.rooted m) eqn:Hr; [auto|].
      exfalso. exact (Hne eq_refl He).
    - destruct (loop_test m []) eqn:Hl; [|reflexivity]. exfalso. apply E.
      apply loop_test_spec in Hl; [|assumption..].
      apply pattern_matches_depth in Hl; [|assumption]. simpl in Hl. lia. }
  rewrite Ht. destruct (Nat.eqb_spec (_GeneratorMatch.depth m) 0) as [E|E]; simpl.
  - destruct (parse_generator_matches_wf _ _ Hs) as (_ & -> & _).
    rewrite (depth_zero_is_root_pattern _ _ Hs E). reflexivity.
  - apply IH.
    + intros m' Hin. apply Hwf. right. assumption.
    + intros m' Hin. apply Hstr. right. assumption.
Qed.

Lemma min_depth_positive tests :
  has_root_pattern tests = false -> tests <> [] ->
  (0 < _DictSAXHandler.min_depth tests)%Z.
Proof.
  intros Hroot Hne. unfold _DictSAXHandler.min_depth.
  destruct tests as [|m0 rest]; [congruence|].
  generalize (m0 :: rest) Hroot. clear. intros tests.
  assert (G : forall a, (0 < a)%Z -> has_root_pattern tests = false ->
    (0 < fold_left (fun md m =>
                      if (Z.of_nat (_GeneratorMatch.depth m) <? md)%Z
                      then Z.of_nat (_GeneratorMatch.depth m) else md) tests a)%Z).
  { induction tests as [|m rest IH]; intros a Ha Hr; simpl; [assumption|].
    unfold has_root_pattern in Hr. simpl in Hr. apply orb_false_iff in Hr as [Hm Hr].
    apply Nat.eqb_neq in Hm. apply IH; [|exact Hr].
    destruct (Z.ltb_spec (Z.of_nat (_GeneratorMatch.depth m)) a); lia. }
  apply G. lia.
Qed.

Lemma min_depth_root tests :
  has_root_pattern tests = true -> _DictSAXHandler.min_depth tests = 0%Z.
Proof.
  intros Hroot. unfold has_root_pattern in Hroot.
  apply existsb_exists in Hroot as (m & Hin & Hm). apply Nat.eqb_eq in Hm.
  pose proof (min_depth_le _ _ Hin) as Hle. rewrite Hm in Hle.
  assert (Hge : (0 <= _DictSAXHandler.min_depth tests)%Z).
  { unfold _DictSAXHandler.min_depth. destruct tests as [|m0 rest]; [destruct Hin|].
    generalize (m0 :: rest). clear. intros tests.
    assert (G : forall a, (0 <= a)%Z ->
      (0 <= fold_left (fun md m =>
                         if (Z.of_nat (_GeneratorMatch.depth m) <? md)%Z
                         then Z.of_nat (_GeneratorMatch.depth m) else md) tests a)%Z).
    { induction tests as [|m rest IH]; intros a Ha; simpl; [assumption|].
      apply IH. destruct (Z.ltb_spec (Z.of_nat (_GeneratorMatch.depth m)) a); lia. }
    apply G. lia. }
  simpl in Hle. lia.
Qed.

(** *** What the callbacks return *)

Lemma yields_ret {A} (P : A -> Prop) a : P a -> yields P (ret a).
Proof. intros Ha h b h' [= <- _]. assumption. Qed.

Lemma yields_raise {A} (P : A -> Prop) e : yields P (raise e).
Proof. intros h b h' H. discriminate. Qed.

Lemma yields_undef {A} (P : A -> Prop) : yields P undef.
Proof. intros h b h' H. discriminate. Qed.

Lemma yields_bind {A B} (Q : A -> Prop) (P : B -> Prop) (m : M A) (f : A -> M B) :
  yields Q m -> (forall a, Q a -> yields P (f a)) -> yields P (bind m f).
Proof.
  intros Hm Hf h b h' H. apply bind_Ok in H as (a & h1 & Ha & Hb).
  eapply Hf; [eapply Hm; eassumption|eassumption].
Qed.

Lemma yields_bind_any {A B} (P : B -> Prop) (m : M A) (f : A -> M B) :
  (forall a, yields P (f a)) -> yields P (bind m f).
Proof.
  intros Hf. apply (yields_bind (fun _ => True)); [intros ? ? ? ?; exact I|auto].
Qed.

Lemma start_element_started s n a : yields started (_DictSAXHandler.start_element s n a).
Proof.
  unfold _DictSAXHandler.start_element. cbv zeta.
  apply yields_bind_any. intros a'.
  apply (yields_bind started).
  - match goal with |- yields _ (if ?c then _ else _) => destruct c end.
    + apply yields_bind_any. intros fresh. apply yields_ret. reflexivity.
    + apply yields_ret. reflexivity.
  - intros s1 Hs1. destruct (negb (_DictSAXHandler.in_ignore s1)).
    + apply yields_bind_any. intros newnode. apply yields_bind_any. intros cur.
      apply yields_ret. exact Hs1.
    + apply yields_ret. exact Hs1.
Qed.

Lemma characters_started s d : yields started (_DictSAXHandler.characters s d).
Proof.
  unfold _DictSAXHandler.characters. cbv zeta.
  match goal with |- yields _ (if ?c then _ else _) => destruct c end.
  - apply yields_bind_any. intros [x|]; [|apply yields_undef].
    apply yields_ret. unfold started.
    destruct (_DictSAXHandler.need_cdata_separator _); reflexivity.
  - apply yields_ret. reflexivity.
Qed.

Lemma check_generator_matches_started s :
  started s -> started (_DictSAXHandler._check_generator_matches s).
Proof.
  unfold _DictSAXHandler._check_generator_matches, started.
  destruct (Z.ltb _ _); auto.
Qed.

Lemma end_element_started s n :
  started s -> yields started (_DictSAXHandler.end_element s n).
Proof.
  intros Hs. unfold _DictSAXHandler.end_element. cbv zeta.
  apply (yields_bind started).
  - destruct (negb (_DictSAXHandler.in_ignore s)); [|apply yields_ret; assumption].
    apply (yields_bind started).
    + destruct (_DictSAXHandler.strip_whitespace s); [|apply yields_ret; assumption].
      apply yields_bind_any. intros [x|]; [|apply yields_undef].
      apply yields_ret. exact Hs.
    + intros s1 Hs1.
      pose proof (check_generator_matches_started _ Hs1) as Hs2.
      destruct (last _); [|apply yields_raise]. apply yields_ret. exact Hs2.
  - intros s1 Hs1. apply (yields_bind started).
    + destruct (_DictSAXHandler.path s1); [apply yields_raise|].
      apply yields_ret. exact Hs1.
    + intros s2 Hs2.
      match goal with |- yields _ (if negb (_DictSAXHandler.in_ignore ?s3) then _ else _) =>
        assert (Hs3 : started s3) by (destruct (Z.ltb _ _); assumption);
        destruct (negb (_DictSAXHandler.in_ignore s3))
      end.
      * apply yields_bind_any. intros c. apply yields_ret.
        destruct (Nat.ltb _ _); assumption.
      * apply yields_ret. assumption.
Qed.

Lemma callbacks_started evs : forall s h s' h',
  Parser.callbacks s evs h = Ok s' h' ->
  started s \/ existsb is_content evs = true ->
  started s'.
Proof.
  induction evs as [|e evs IH]; intros s h s' h' H Hor; simpl in H.
  - injection H as <- _. destruct Hor as [Hs|Hc]; [assumption|discriminate].
  - apply bind_Ok in H as (s1 & h1 & Hd & H).
    destruct e as [n a|n|d]; simpl in Hd.
    + eapply IH; [exact H|]. left. eapply start_element_started. exact Hd.
    + destruct Hor as [Hs|Hc].
      * eapply IH; [exact H|]. left. eapply end_element_started; eassumption.
      * eapply IH; [exact H|]. right. exact Hc.
    + eapply IH; [exact H|]. left. eapply characters_started. exact Hd.
Qed.

Lemma generator_given_tests kw tests :
  patterns_of kw = Returns tests ->
  (exists l, _DictSAXHandler.parse_all l = Returns tests)
  /\ (Parser.generator_given kw = true -> tests <> []).
Proof.
  unfold patterns_of, Parser.generator_given.
  destruct (_DictSAXHandler.kw_generator kw) as [[s|l]|].
  - intros H. split; [eauto|]. intros _. simpl in H.
    destruct (_DictSAXHandler._parse_generator_matches s); [|discriminate].
    injection H as <-. discriminate.
  - intros H. split; [eauto|]. destruct l as [|s l]; [discriminate|].
    intros _. simpl in H.
    destruct (_DictSAXHandler._parse_generator_matches s); [|discriminate].
    destruct (_DictSAXHandler.parse_all l); [|discriminate].
    injection H as <-. discriminate.
  - intros [= <-]. split; [exists []; reflexivity|discriminate].
Qed.

Lemma generator_loop_idle errors kw tests root bufs last_buf acc (h : heap) :
  Forall (fun r => r = mk_run [] None) bufs ->
  Parser.generator_loop errors (initial_handler kw tests root) bufs last_buf acc h
  = Parser.generator_loop errors (initial_handler kw tests root) [] last_buf acc h.
Proof.
  intros Hall. revert acc. induction Hall as [|r bufs -> _ IH]; intros acc; [reflexivity|].
  change (Parser.generator_loop errors (initial_handler kw tests root)
            (mk_run [] None :: bufs) last_buf acc h)
    with (Parser.generator_loop errors (initial_handler kw tests root)
            bufs last_buf (acc ++ []) h).
  rewrite app_nil_r. apply IH.
Qed.

(** C8 (amended). For a document without elements, when the tokenizer
    reports only the no-elements error and the handler has processed
    nothing: in full-tree mode the parser returns the empty tagless
    [XMLDictNode] and raises nothing; in generator mode it raises nothing
    and yields no match, unless the root pattern ["/"] is configured, in
    which case it yields the one match [("/", "/", root)] carrying that
    empty node.  Any other error of the tokenizer, a no-elements error
    once an element or characters were processed, and in generator mode
    one that comes before the end of the input, goes to the caller. *)
Theorem empty_document_gives_empty_result (code msg : string)
    (kw : _DictSAXHandler.kwargs) (tests : list _GeneratorMatch.t)
    (x : xml_input) (h : heap) :
  Py.startswith (String.append code ":") msg = true ->
  patterns_of kw = Returns tests ->
  let root := length h in
  let h1 := h ++ [empty_dict] in
  (Parser.generator_given kw = false ->
   whole x = mk_run [] (Some msg) ->
   Parser.__call__ (Some code) kw x h = Ok (Parser.Tree (VRef root)) h1)
  /\ (Parser.generator_given kw = true ->
      Forall (fun r => r = mk_run [] None) (increments x) ->
      final x = mk_run [] (Some msg) ->
      Parser.__call__ (Some code) kw x h
      = Ok (Parser.Generator
              (Parser.mk_generated
                 (if has_root_pattern tests then [("/", "/", VRef root)] else [])
                 (Ok tt h1))) h1)
  /\ (forall errors hd evs msg' incs fin g s' g',
        Parser.callbacks hd evs g = Ok s' g' ->
        Parser.only_no_elements errors msg' = false \/ started s' ->
        Parser.parse_tree errors hd (mk_input (mk_run evs (Some msg')) incs fin) g
        = Raise (Py.ExpatError msg') g')
  /\ (forall errors hd evs msg' at_eof g s' g',
        Parser.callbacks hd evs g = Ok s' g' ->
        Parser.only_no_elements errors msg' = false \/ at_eof = false \/ started s' ->
        Parser.generator_turn errors hd (mk_run evs (Some msg')) at_eof g
        = Raise (Py.ExpatError msg') g')
  /\ (forall errors hd r bufs last_buf acc g e g',
        Parser.generator_turn errors hd r false g = Raise e g' ->
        Parser.generator_loop errors hd (r :: bufs) last_buf acc g
        = Parser.mk_generated acc (Raise e g'))
  /\ (forall errors hd last_buf acc g e g',
        Parser.generator_turn errors hd last_buf true g = Raise e g' ->
        Parser.generator_loop errors hd [] last_buf acc g
        = Parser.mk_generated acc (Raise e g'))
  /\ (forall hd evs g s' g',
        Parser.callbacks hd evs g = Ok s' g' ->
        existsb is_content evs = true -> started s').
Proof.
  intros Hmsg Hpat root h1.
  destruct (generator_given_tests _ _ Hpat) as ((l & Hl) & Hne).
  split; [|split; [|split; [|split; [|split; [|split]]]]].
  - intros Hg Hw. unfold Parser.__call__.
    rewrite (bind_eval _ _ _ _ _ (init_Ok _ _ h Hpat)), Hg.
    unfold Parser.parse_tree, Parser.Parse. rewrite Hw. simpl events. simpl error.
    unfold Parser.only_no_elements. cbn [Parser.callbacks].
    unfold bind, ret. cbn [fst snd]. rewrite Hmsg. reflexivity.
  - intros Hg Hinc Hfin. unfold Parser.__call__.
    rewrite (bind_eval _ _ _ _ _ (init_Ok _ _ h Hpat)), Hg.
    unfold Parser._parse_generator.
    rewrite (generator_loop_idle _ _ _ _ _ _ _ _ Hinc), Hfin.
    cbn [Parser.generator_loop].
    unfold Parser.generator_turn, Parser.Parse. simpl events. simpl error.
    unfold Parser.only_no_elements. cbn [Parser.callbacks].
    unfold bind at 1 2. unfold ret at 1 2. cbn [fst snd].
    rewrite Hmsg. cbn [andb negb initial_handler _DictSAXHandler.processing_started].
    unfold bind, ret, _DictSAXHandler.end_document,
      _DictSAXHandler._check_generator_matches, initial_handler.
    cbn [_DictSAXHandler.path _DictSAXHandler.match_depth
         _DictSAXHandler.match_tests _DictSAXHandler.item
         _DictSAXHandler.matches length].
    change (Z.of_nat 0) with 0%Z.
    destruct (has_root_pattern tests) eqn:Hroot.
    + rewrite (min_depth_root _ Hroot). simpl Z.ltb. cbv iota.
      unfold _DictSAXHandler.pop_matches, _DictSAXHandler.set_matches.
      cbn [_DictSAXHandler.matches app].
      rewrite (check_at_document_end _ _ _ Hl), Hroot. reflexivity.
    + pose proof (min_depth_positive _ Hroot (Hne Hg)) as Hpos.
      apply Z.ltb_lt in Hpos. rewrite Hpos. reflexivity.
  - intros errors hd evs msg' incs fin g s' g' Hcb Hor.
    assert (HP : Parser.Parse hd (mk_run evs (Some msg')) g = Ok (s', Some msg') g').
    { unfold Parser.Parse. simpl events.
      rewrite (bind_eval _ _ _ _ _ Hcb). reflexivity. }
    unfold Parser.parse_tree. simpl whole.
    rewrite (bind_eval _ _ _ _ _ HP). cbn [fst snd].
    assert (Hc : Parser.only_no_elements errors msg'
                 && negb (_DictSAXHandler.processing_started s') = false).
    { destruct Hor as [->|Hs]; [reflexivity|]. unfold started in Hs. rewrite Hs.
      apply andb_false_r. }
    rewrite Hc. reflexivity.
  - intros errors hd evs msg' at_eof g s' g' Hcb Hor.
    assert (HP : Parser.Parse hd (mk_run evs (Some msg')) g = Ok (s', Some msg') g').
    { unfold Parser.Parse. simpl events.
      rewrite (bind_eval _ _ _ _ _ Hcb). reflexivity. }
    unfold Parser.generator_turn.
    rewrite (bind_eval _ _ _ _ _ HP). cbn [fst snd].
    assert (Hc : Parser.only_no_elements errors msg' && at_eof
                 && negb (_DictSAXHandler.processing_started s') = false).
    { destruct Hor as [->|[->|Hs]]; [reflexivity|apply andb_false_iff; left;
        apply andb_false_r|]. unfold started in Hs. rewrite Hs. apply andb_false_r. }
    rewrite Hc. reflexivity.
  - intros errors hd r bufs last_buf acc g e g' Ht. simpl. rewrite Ht. reflexivity.
  - intros errors hd last_buf acc g e g' Ht. simpl. rewrite Ht. reflexivity.
  - intros hd evs g s' g' Hcb Hc. eapply callbacks_started; [exact Hcb|].
    right. exact Hc.
Qed.

Lemma empty_document_gives_empty_result_witness :
  let msg := "no element found: line 1, column 0" in
  let kw := _DictSAXHandler.with_generator (Some (inr ["z"])) _DictSAXHandler.defaults in
  let x := mk_input (mk_run [] (Some msg)) [] (mk_run [] (Some msg)) in
  Parser.__call__ (Some "no element found") _DictSAXHandler.defaults x []
  = Ok (Parser.Tree (VRef 0)) [empty_dict]
  /\ Parser.__call__ (Some "no element found") kw x []
     = Ok (Parser.Generator (Parser.mk_generated [] (Ok tt [empty_dict]))) [empty_dict].
Proof.
  intros msg kw x. split.
  - exact (proj1 (empty_document_gives_empty_result "no element found" msg
                    _DictSAXHandler.defaults [] x [] eq_refl eq_refl)
             eq_refl eq_refl).
  - exact (proj1 (proj2 (empty_document_gives_empty_result "no element found" msg kw
                           [_GeneratorMatch.mk false ["z"] 1 "z"] x [] eq_refl eq_refl))
             eq_refl (Forall_nil_2 _) eq_refl).
Defined.

(** C8, as stated, fails in generator mode: with the root pattern
    configured, the empty document yields one match, not none. *)
Lemma empty_document_yields_root_match :
  let msg := "no element found: line 1, column 0" in
  Parser.__call__ (Some "no element found")
    (_DictSAXHandler.with_generator (Some (inr ["/"])) _DictSAXHandler.defaults)
    (mk_input (mk_run [] (Some msg)) [] (mk_run [] (Some msg))) []
  = Ok (Parser.Generator
          (Parser.mk_generated [("/", "/", VRef 0)] (Ok tt [empty_dict])))
       [empty_dict].
Proof. vm_compute. reflexivity. Qed.

(** ** Adding children under one key *)

Lemma value_of_Some (h : heap) x v :
  value_of h x = Some v -> exists n, h !! x = Some n /\ Node.value n = v.
Proof.
  unfold value_of. destruct (h !! x) as [n|]; [|discriminate].
  intros [= <-]. eauto.
Qed.

Lemma value_of_lt (h : heap) x v : value_of h x = Some v -> x < length h.
Proof.
  intros H. apply value_of_Some in H as (n & Hn & _).
  apply lookup_lt_Some in Hn. exact Hn.
Qed.

Lemma lt_lookup (h : heap) x : x < length h -> exists n, h !! x = Some n.
Proof. intros H. apply lookup_lt_is_Some_2 in H as [n Hn]. eauto. Qed.

Lemma rd_value (h : heap) x v :
  value_of h x = Some v -> rd x Node.value h = Ok v h.
Proof.
  intros H. apply value_of_Some in H as (n & Hn & <-).
  apply rd_eval. exact Hn.
Qed.

Lemma wr_lt (h : heap) x f : x < length h -> wr x f h = Ok tt (alter f x h).
Proof. intros H. apply lt_lookup in H as [n Hn]. eapply wr_eval. exact Hn. Qed.

Lemma value_of_alter_keep (f : Node.t -> Node.t) (h : heap) x y :
  (forall n, Node.value (f n) = Node.value n) ->
  value_of (alter f x h) y = value_of h y.
Proof.
  intros Hf. unfold value_of. destruct (decide (x = y)) as [->|Hne].
  - rewrite list_lookup_alter_eq. destruct (h !! y) as [n|]; simpl; [|reflexivity].
    rewrite Hf. reflexivity.
  - rewrite list_lookup_alter_ne by exact Hne. reflexivity.
Qed.

Lemma replacement_of_alter_keep (f : Node.t -> Node.t) (h : heap) x y :
  (forall n, Node._replacement_node (f n) = Node._replacement_node n) ->
  replacement_of (alter f x h) y = replacement_of h y.
Proof.
  intros Hf. unfold replacement_of. destruct (decide (x = y)) as [->|Hne].
  - rewrite list_lookup_alter_eq. destruct (h !! y) as [n|]; simpl; [|reflexivity].
    rewrite Hf. reflexivity.
  - rewrite list_lookup_alter_ne by exact Hne. reflexivity.
Qed.

Lemma value_of_alter_ne (f : Node.t -> Node.t) (h : heap) x y :
  x <> y -> value_of (alter f x h) y = value_of h y.
Proof.
  intros Hne. unfold value_of. rewrite list_lookup_alter_ne by exact Hne.
  reflexivity.
Qed.

Lemma value_of_alter_eq (f : Node.t -> Node.t) (h : heap) x n :
  h !! x = Some n -> value_of (alter f x h) x = Some (Node.value (f n)).
Proof.
  intros Hn. unfold value_of. rewrite list_lookup_alter_eq, Hn. reflexivity.
Qed.

Lemma same_content_refl h : same_content h h.
Proof. repeat split. Qed.

Lemma same_content_trans h1 h2 h3 :
  same_content h1 h2 -> same_content h2 h3 -> same_content h1 h3.
Proof.
  intros (L1 & V1 & R1) (L2 & V2 & R2). split; [|split].
  - congruence.
  - intros x. rewrite V2. apply V1.
  - intros x. rewrite R2. apply R1.
Qed.

(** A write that touches neither the built-in value nor the replacement
    link, done or skipped. *)
Lemma when_wr_keep (b : bool) x (f : Node.t -> Node.t) (h : heap) :
  x < length h ->
  (forall n, Node.value (f n) = Node.value n) ->
  (forall n, Node._replacement_node (f n) = Node._replacement_node n) ->
  exists h', when b (wr x f) h = Ok tt h' /\ same_content h h'.
Proof.
  intros Hx Hv Hr. destruct b; simpl.
  - exists (alter f x h). split; [apply wr_lt; exact Hx|].
    split; [|split].
    + apply length_alter.
    + intros y. apply value_of_alter_keep, Hv.
    + intros y. apply replacement_of_alter_keep, Hr.
  - exists h. split; [reflexivity|apply same_content_refl].
Qed.

Lemma dict_setitem_spec (h : heap) d items ign k v :
  value_of h d = Some (DICT items ign) ->
  exists h', XMLNodeBase.dict_setitem d k v h = Ok tt h'
    /\ length h' = length h
    /\ value_of h' d = Some (DICT (OrderedDict.set k v items) ign)
    /\ (forall x, x <> d -> value_of h' x = value_of h x)
    /\ (forall x, replacement_of h' x = replacement_of h x).
Proof.
  intros Hd. destruct (value_of_Some _ _ _ Hd) as (n & Hn & Hv).
  unfold XMLNodeBase.dict_setitem. eexists. split; [eapply wr_eval; exact Hn|].
  split; [apply length_alter|]. split; [|split].
  - rewrite (value_of_alter_eq _ _ _ _ Hn), Hv. reflexivity.
  - intros x Hx. apply value_of_alter_ne. congruence.
  - intros x. apply replacement_of_alter_keep. intros m.
    destruct (Node.value m); reflexivity.
Qed.

Lemma list_append_spec (h : heap) l members v :
  value_of h l = Some (LIST members) ->
  exists h', XMLNodeBase.list_append l v h = Ok tt h'
    /\ length h' = length h
    /\ value_of h' l = Some (LIST (members ++ [v]))
    /\ (forall x, x <> l -> value_of h' x = value_of h x)
    /\ (forall x, replacement_of h' x = replacement_of h x).
Proof.
  intros Hl. destruct (value_of_Some _ _ _ Hl) as (n & Hn & Hv).
  unfold XMLNodeBase.list_append. eexists. split; [eapply wr_eval; exact Hn|].
  split; [apply length_alter|]. split; [|split].
  - rewrite (value_of_alter_eq _ _ _ _ Hn), Hv. reflexivity.
  - intros x Hx. apply value_of_alter_ne. congruence.
  - intros x. apply replacement_of_alter_keep. intros m.
    destruct (Node.value m); reflexivity.
Qed.

Lemma alloc_spec (h : heap) (nd : Node.t) :
  exists h', alloc nd h = Ok (length h) h'
    /\ length h' = S (length h)
    /\ value_of h' (length h) = Some (Node.value nd)
    /\ (forall x, x < length h -> value_of h' x = value_of h x)
    /\ (forall x, x < length h -> replacement_of h' x = replacement_of h x).
Proof.
  exists (h ++ [nd]). split; [reflexivity|].
  split; [rewrite length_app; simpl; lia|]. split; [|split].
  - unfold value_of. rewrite lookup_app_r by lia.
    rewrite Nat.sub_diag. reflexivity.
  - intros x Hx. unfold value_of. rewrite lookup_app_l by exact Hx. reflexivity.
  - intros x Hx. unfold replacement_of. rewrite lookup_app_l by exact Hx.
    reflexivity.
Qed.

Lemma getitem_spec (h : heap) d items ign k x :
  value_of h d = Some (DICT items ign) -> OrderedDict.get k items = Some x ->
  XMLDictNode.getitem d k h = Ok x h.
Proof.
  intros Hd Hk. unfold XMLDictNode.getitem.
  rewrite (bind_eval _ _ _ _ _ (rd_value _ _ _ Hd)), Hk. reflexivity.
Qed.

Lemma is_list_spec (h : heap) r v :
  value_of h r = Some v ->
  XMLDictNode.is_list r h
  = Ok (match v with LIST _ => true | _ => false end) h.
Proof.
  intros Hr. unfold XMLDictNode.is_list.
  rewrite (bind_eval _ _ _ _ _ (rd_value _ _ _ Hr)). reflexivity.
Qed.

Lemma bind_assoc {A B C} (m : M A) (f : A -> M B) (g : B -> M C) h :
  bind (bind m f) g h = bind m (fun a => bind (f a) g) h.
Proof. unfold bind. destruct (m h); reflexivity. Qed.

Lemma get_set_same (k : Py.key) (v : ref) (items : list (Py.key * ref)) :
  OrderedDict.get k (OrderedDict.set k v items) = Some v.
Proof.
  induction items as [|[k' v'] items IH]; simpl.
  - destruct (decide (k = k)); congruence.
  - destruct (decide (k' = k)) as [->|Hne]; simpl.
    + destruct (decide (k = k)); congruence.
    + destruct (decide (k' = k)); [congruence|exact IH].
Qed.

Lemma set_absent (k : Py.key) (v : ref) (items : list (Py.key * ref)) :
  OrderedDict.get k items = None ->
  OrderedDict.set k v items = items ++ [(k, v)].
Proof.
  induction items as [|[k' v'] items IH]; simpl; [reflexivity|].
  destruct (decide (k' = k)); [discriminate|].
  intros H. rewrite (IH H). reflexivity.
Qed.

Lemma set_last (k : Py.key) (v v' : ref) (items : list (Py.key * ref)) :
  OrderedDict.get k items = None ->
  OrderedDict.set k v' (items ++ [(k, v)]) = items ++ [(k, v')].
Proof.
  induction items as [|[k' v''] items IH]; simpl.
  - destruct (decide (k = k)); congruence.
  - destruct (decide (k' = k)); [discriminate|].
    intros H. rewrite (IH H). reflexivity.
Qed.

Lemma get_last (k : Py.key) (v : ref) (items : list (Py.key * ref)) :
  OrderedDict.get k items = None ->
  OrderedDict.get k (items ++ [(k, v)]) = Some v.
Proof.
  induction items as [|[k' v''] items IH]; simpl.
  - destruct (decide (k = k)); congruence.
  - destruct (decide (k' = k)); [discriminate|]. exact IH.
Qed.

Lemma get_None_keys (k : Py.key) (items : list (Py.key * ref)) :
  OrderedDict.get k items = None -> k ∉ OrderedDict.keys items.
Proof.
  induction items as [|[k' v] items IH]; simpl.
  - intros _ H. inversion H.
  - destruct (decide (k' = k)) as [|Hne]; [discriminate|].
    intros H Hin. apply elem_of_cons in Hin as [->|Hin]; [congruence|].
    exact (IH H Hin).
Qed.

Lemma keys_snoc (k : Py.key) (v : ref) (items : list (Py.key * ref)) :
  OrderedDict.keys (items ++ [(k, v)]) = OrderedDict.keys items ++ [k].
Proof. unfold OrderedDict.keys. rewrite map_app. reflexivity. Qed.

Lemma keys_snoc_NoDup (k : Py.key) (v : ref) (items : list (Py.key * ref)) :
  NoDup (OrderedDict.keys items) -> OrderedDict.get k items = None ->
  NoDup (OrderedDict.keys (items ++ [(k, v)])).
Proof.
  intros Hnd Hk. rewrite keys_snoc. apply NoDup_app. split; [exact Hnd|].
  split; [|apply NoDup_singleton].
  intros x Hx Hx'. apply list_elem_of_singleton in Hx' as ->.
  exact (get_None_keys _ _ Hk Hx).
Qed.

Lemma bind_ret {A B} (a : A) (f : A -> M B) h : bind (ret a) f h = f a h.
Proof. reflexivity. Qed.

Lemma check_replacement_live (h : heap) d :
  replacement_of h d = Some None -> XMLNodeBase._check_replacement d h = Ok tt h.
Proof.
  unfold replacement_of. destruct (h !! d) as [nd|] eqn:Hd; [|discriminate].
  intros [= Hr]. exact (check_replacement_unset h d nd Hd Hr).
Qed.

Lemma list_init_spec (h : heap) members tag key parent :
  exists h', XMLListNode.__init__ members tag key parent h = Ok (length h) h'
    /\ length h' = S (length h)
    /\ value_of h' (length h) = Some (LIST members)
    /\ (forall x, x < length h -> value_of h' x = value_of h x)
    /\ (forall x, x < length h -> replacement_of h' x = replacement_of h x).
Proof.
  unfold XMLListNode.__init__, XMLNodeBase.__init__. apply alloc_spec.
Qed.

Ltac run E :=
  cbv beta zeta; rewrite ?bind_assoc; rewrite (bind_eval _ _ _ _ _ E);
  cbv beta zeta.

(** The first part of [add_node] returns the child and the key; it
    changes no built-in value and no replacement link. *)
Lemma prepare_spec (h : heap) (c : add_call) (k : Py.key) :
  key_used h c = Some k -> node_argument h c ->
  exists n h1,
    XMLDictNode.prepare_new_node (a_tag c) (a_key c) (a_text c)
      (a_new_node c) (a_update c) (a_xml_attrs c) h = Ok (n, k) h1
    /\ n < length h1
    /\ child_of h c n h1
    /\ length h <= length h1
    /\ (forall x, x < length h -> value_of h1 x = value_of h x)
    /\ (forall x, x < length h -> replacement_of h1 x = replacement_of h x).
Proof.
  destruct c as [tag key text new upd attrs].
  unfold key_used, node_argument, child_of, XMLDictNode.prepare_new_node.
  cbn [a_tag a_key a_text a_new_node a_update a_xml_attrs].
  destruct new as [[r|b]|]; [| intros _ []|].
  - (* a node is given *)
    intros Hk Hr.
    assert (Hfin : forall (h1 : heap) (k' : Py.key), same_content h h1 ->
      exists n h2,
        bind (when upd (wr r (Node.set_tag tag))) (fun _ => ret (r, k')) h1
          = Ok (n, k') h2
        /\ n < length h2 /\ VRef r = VRef n /\ length h <= length h2
        /\ (forall x, x < length h -> value_of h2 x = value_of h x)
        /\ (forall x, x < length h ->
              replacement_of h2 x = replacement_of h x)).
    { intros h1 k' (L1 & V1 & R1).
      destruct (when_wr_keep upd r (Node.set_tag tag) h1) as (h2 & E2 & L2 & V2 & R2);
        [lia|reflexivity|reflexivity|].
      exists r, h2. rewrite (bind_eval _ _ _ _ _ E2).
      split; [reflexivity|]. split; [lia|]. split; [reflexivity|].
      split; [lia|]. split.
      - intros x _. rewrite V2. apply V1.
      - intros x _. rewrite R2. apply R1. }
    destruct (Py.key_truthy key) eqn:Hkt.
    + injection Hk as <-.
      destruct (when_wr_keep upd r (Node.set_key key) h Hr) as (h1 & E1 & S1);
        [reflexivity|reflexivity|].
      destruct (Hfin h1 key S1) as (n & h2 & E2 & F).
      exists n, h2. split; [|exact F].
      rewrite bind_assoc, (bind_eval _ _ _ _ _ E1). exact E2.
    + destruct (h !! r) as [nd|] eqn:Hnd; [|discriminate].
      injection Hk as <-.
      destruct (Hfin h (if Py.key_truthy (Node.key nd) then Node.key nd
                        else Py.key_of_tag tag) (same_content_refl h))
        as (n & h2 & E2 & F).
      exists n, h2. split; [|exact F].
      rewrite bind_assoc, (bind_eval _ _ _ _ _ (rd_eval _ _ _ _ Hnd)).
      cbv beta. destruct (Py.key_truthy (Node.key nd)); exact E2.
  - (* a new leaf *)
    intros Hk _. unfold XMLNodeBase.__init__.
    destruct (alloc_spec h (Node.mk tag (Py.key_of_tag tag) attrs text None None
                              (CDATA text)))
      as (h1 & E1 & L1 & V1 & O1 & R1).
    rewrite (bind_eval _ _ _ _ _ E1).
    destruct (Py.key_truthy key) eqn:Hkt; injection Hk as <-.
    + destruct (when_wr_keep upd (length h) (Node.set_key key) h1)
        as (h2 & E2 & L2 & V2 & R2); [lia|reflexivity|reflexivity|].
      exists (length h), h2. rewrite (bind_eval _ _ _ _ _ E2).
      split; [reflexivity|]. split; [lia|].
      split; [split; [reflexivity|rewrite V2; exact V1]|].
      split; [lia|]. split.
      * intros x Hx. rewrite V2. apply O1, Hx.
      * intros x Hx. rewrite R2. apply R1, Hx.
    + exists (length h), h1.
      split; [reflexivity|]. split; [lia|].
      split; [split; [reflexivity|exact V1]|].
      split; [lia|]. split; assumption.
Qed.

(** A key that is new to the dictionary: the child is stored under it,
    after the keys that were there. *)
Lemma add_node_new_key (h : heap) d items ign k (c : add_call) :
  value_of h d = Some (DICT items ign) ->
  replacement_of h d = Some None ->
  OrderedDict.get k items = None ->
  key_used h c = Some k -> node_argument h c ->
  exists n h',
    do_add d c h = Ok n h'
    /\ child_of h c n h'
    /\ value_of h' d = Some (DICT (items ++ [(k, n)]) ign)
    /\ agree_except [d] h h'.
Proof.
  intros Hd Hr Hk Hu Ha.
  destruct (prepare_spec h c k Hu Ha) as (n & h1 & E1 & Hn & Hc & Hl & Hv & Hrep).
  pose proof (value_of_lt _ _ _ Hd) as Hdl.
  assert (Hd1 : value_of h1 d = Some (DICT items ign))
    by (rewrite Hv; [exact Hd|exact Hdl]).
  destruct (when_wr_keep (a_update c) n (Node.set_parent (Some d)) h1 Hn)
    as (h2 & E2 & L2 & V2 & R2); [reflexivity|reflexivity|].
  assert (Hd2 : value_of h2 d = Some (DICT items ign))
    by (rewrite V2; exact Hd1).
  destruct (dict_setitem_spec h2 d items ign k n Hd2)
    as (h3 & E3 & L3 & V3 & O3 & R3).
  exists n, h3. split; [|split; [|split]].
  - unfold do_add, XMLDictNode.add_node.
    run (check_replacement_live _ _ Hr). run E1. cbn [fst snd].
    run (rd_value _ _ _ Hd1).
    unfold OrderedDict.contains. rewrite Hk.
    run E2. run E3. reflexivity.
  - unfold child_of in *. destruct (a_new_node c); [exact Hc|].
    destruct Hc as [-> Hcv]. split; [reflexivity|].
    rewrite O3 by lia. rewrite V2. exact Hcv.
  - rewrite V3, (set_absent _ _ _ Hk). reflexivity.
  - split; [lia|]. split.
    + intros x Hx. rewrite R3, R2. apply Hrep, Hx.
    + intros x Hx Hni. rewrite O3, V2; [apply Hv, Hx|].
      intros ->. apply Hni. apply elem_of_cons. left. reflexivity.
Qed.

(** A key that holds a single node: a new list node takes its place in
    the dictionary, holding the old child and then the new one. *)
Lemma add_node_second (h : heap) d items ign k old v (c : add_call) :
  value_of h d = Some (DICT items ign) ->
  replacement_of h d = Some None ->
  OrderedDict.get k items = Some old ->
  value_of h old = Some v -> class_of v <> XMLListNode_cls ->
  key_used h c = Some k -> node_argument h c ->
  exists n h' w,
    do_add d c h = Ok n h'
    /\ child_of h c n h'
    /\ length h <= w
    /\ value_of h' d = Some (DICT (OrderedDict.set k w items) ign)
    /\ value_of h' w = Some (LIST [old; n])
    /\ agree_except [d] h h'.
Proof.
  intros Hd Hr Hk Ho Hcls Hu Ha.
  destruct (prepare_spec h c k Hu Ha) as (n & h1 & E1 & Hn & Hc & Hl & Hv & Hrep).
  pose proof (value_of_lt _ _ _ Hd) as Hdl.
  pose proof (value_of_lt _ _ _ Ho) as Hol.
  assert (Hd1 : value_of h1 d = Some (DICT items ign))
    by (rewrite Hv; [exact Hd|exact Hdl]).
  assert (Ho1 : value_of h1 old = Some v) by (rewrite Hv; [exact Ho|exact Hol]).
  assert (Hil : XMLDictNode.is_list old h1 = Ok false h1).
  { rewrite (is_list_spec _ _ _ Ho1). destruct v; try reflexivity.
    exfalso. apply Hcls. reflexivity. }
  destruct (list_init_spec h1 [old] (a_tag c) k (Some d))
    as (h2 & E2 & L2 & W2 & V2 & R2).
  set (w := length h1) in *.
  assert (Hd2 : value_of h2 d = Some (DICT items ign))
    by (rewrite V2; [exact Hd1|lia]).
  destruct (dict_setitem_spec h2 d items ign k w Hd2)
    as (h3 & E3 & L3 & V3 & O3 & R3).
  pose proof (get_set_same k w items) as Hkw.
  destruct (when_wr_keep (a_update c) old (Node.set_parent (Some w)) h3)
    as (h4 & E4 & L4 & V4 & R4); [lia|reflexivity|reflexivity|].
  assert (Hd4 : value_of h4 d = Some (DICT (OrderedDict.set k w items) ign))
    by (rewrite V4; exact V3).
  destruct (when_wr_keep (a_update c) n (Node.set_parent (Some w)) h4)
    as (h5 & E5 & L5 & V5 & R5); [lia|reflexivity|reflexivity|].
  assert (Hd5 : value_of h5 d = Some (DICT (OrderedDict.set k w items) ign))
    by (rewrite V5; exact Hd4).
  assert (Hw5 : value_of h5 w = Some (LIST [old])).
  { rewrite V5, V4, O3; [exact W2|lia]. }
  destruct (list_append_spec h5 w [old] n Hw5)
    as (h6 & E6 & L6 & V6 & O6 & R6).
  exists n, h6, w. split; [|split; [|split; [|split; [|split]]]].
  - unfold do_add, XMLDictNode.add_node.
    run (check_replacement_live _ _ Hr). run E1. cbn [fst snd].
    run (rd_value _ _ _ Hd1).
    unfold OrderedDict.contains. rewrite Hk.
    run (getitem_spec _ _ _ _ _ _ Hd1 Hk). run Hil. cbn [negb].
    run E2. run E3. run (getitem_spec _ _ _ _ _ _ V3 Hkw). run E4.
    run (getitem_spec _ _ _ _ _ _ Hd4 Hkw). run E5.
    run (getitem_spec _ _ _ _ _ _ Hd5 Hkw). run E6. reflexivity.
  - unfold child_of in *. destruct (a_new_node c); [exact Hc|].
    destruct Hc as [-> Hcv]. split; [reflexivity|].
    rewrite O6 by lia. rewrite V5, V4, O3 by lia. rewrite V2 by lia.
    exact Hcv.
  - exact Hl.
  - rewrite O6 by lia. exact Hd5.
  - exact V6.
  - split; [lia|]. split.
    + intros x Hx. rewrite R6, R5, R4, R3, R2 by lia. apply Hrep, Hx.
    + intros x Hx Hni.
      assert (x <> d).
      { intros ->. apply Hni. apply elem_of_cons. left. reflexivity. }
      rewrite O6 by lia. rewrite V5, V4, O3 by assumption.
      rewrite V2 by lia. apply Hv, Hx.
Qed.

(** A key that holds a list node: the child is appended to it. *)
Lemma add_node_append (h : heap) d items ign k l members (c : add_call) :
  value_of h d = Some (DICT items ign) ->
  replacement_of h d = Some None ->
  OrderedDict.get k items = Some l ->
  value_of h l = Some (LIST members) ->
  key_used h c = Some k -> node_argument h c ->
  exists n h',
    do_add d c h = Ok n h'
    /\ child_of h c n h'
    /\ value_of h' l = Some (LIST (members ++ [n]))
    /\ agree_except [l] h h'.
Proof.
  intros Hd Hr Hk Hlv Hu Ha.
  destruct (prepare_spec h c k Hu Ha) as (n & h1 & E1 & Hn & Hc & Hl & Hv & Hrep).
  pose proof (value_of_lt _ _ _ Hd) as Hdl.
  pose proof (value_of_lt _ _ _ Hlv) as Hll.
  assert (Hd1 : value_of h1 d = Some (DICT items ign))
    by (rewrite Hv; [exact Hd|exact Hdl]).
  assert (Hl1 : value_of h1 l = Some (LIST members))
    by (rewrite Hv; [exact Hlv|exact Hll]).
  assert (Hil : XMLDictNode.is_list l h1 = Ok true h1)
    by (rewrite (is_list_spec _ _ _ Hl1); reflexivity).
  destruct (when_wr_keep (a_update c) n (Node.set_parent (Some l)) h1 Hn)
    as (h2 & E2 & L2 & V2 & R2); [reflexivity|reflexivity|].
  assert (Hd2 : value_of h2 d = Some (DICT items ign))
    by (rewrite V2; exact Hd1).
  assert (Hl2 : value_of h2 l = Some (LIST members))
    by (rewrite V2; exact Hl1).
  destruct (list_append_spec h2 l members n Hl2)
    as (h3 & E3 & L3 & V3 & O3 & R3).
  exists n, h3. split; [|split; [|split]].
  - unfold do_add, XMLDictNode.add_node.
    run (check_replacement_live _ _ Hr). run E1. cbn [fst snd].
    run (rd_value _ _ _ Hd1).
    unfold OrderedDict.contains. rewrite Hk.
    run (getitem_spec _ _ _ _ _ _ Hd1 Hk). run Hil. cbn [negb].
    rewrite bind_assoc, bind_ret.
    run (getitem_spec _ _ _ _ _ _ Hd1 Hk). run E2.
    run (getitem_spec _ _ _ _ _ _ Hd2 Hk). run E3. reflexivity.
  - unfold child_of in *. destruct (a_new_node c); [exact Hc|].
    destruct Hc as [-> Hcv]. split; [reflexivity|].
    rewrite O3 by lia. rewrite V2. exact Hcv.
  - exact V3.
  - split; [lia|]. split.
    + intros x Hx. rewrite R3, R2. apply Hrep, Hx.
    + intros x Hx Hni. rewrite O3, V2; [apply Hv, Hx|].
      intros ->. apply Hni. apply elem_of_cons. left. reflexivity.
Qed.

Lemma items_of_value (h : heap) d items :
  items_of h d = Some items ->
  exists ign, value_of h d = Some (DICT items ign).
Proof.
  unfold items_of. destruct (value_of h d) as [[s|its ign|l]|]; try discriminate.
  intros [= ->]. eauto.
Qed.

Lemma value_items_of (h : heap) d items ign :
  value_of h d = Some (DICT items ign) -> items_of h d = Some items.
Proof. unfold items_of. intros ->. reflexivity. Qed.

Lemma value_members_of (h : heap) l members :
  value_of h l = Some (LIST members) -> members_of h l = Some members.
Proof. unfold members_of. intros ->. reflexivity. Qed.

(** The child a call has added under a new key is not a list node, when
    the node the call was given is not. *)
Lemma added_child_single (h h' : heap) d items ign (c : add_call) n :
  value_of h' d = Some (DICT items ign) ->
  node_argument h c -> single_child h c -> child_of h c n h' ->
  agree_except [d] h h' ->
  exists v, value_of h' n = Some v /\ class_of v <> XMLListNode_cls.
Proof.
  unfold node_argument, single_child, child_of.
  intros Hd Ha Hs Hc (_ & _ & Hv).
  destruct (a_new_node c) as [[r|b]|].
  - injection Hc as <-. destruct (decide (r = d)) as [->|Hne].
    + eexists. split; [exact Hd|discriminate].
    + destruct (lt_lookup _ _ Ha) as [nd Hnd].
      exists (Node.value nd). split.
      * rewrite Hv; [unfold value_of; rewrite Hnd; reflexivity|exact Ha|].
        intros Hin. apply list_elem_of_singleton in Hin. contradiction.
      * intros Hcls. apply Hs. unfold class_at. rewrite Hnd. simpl.
        rewrite Hcls. reflexivity.
  - destruct Ha.
  - destruct Hc as [_ Hc]. eexists. split; [exact Hc|discriminate].
Qed.

(** C3.  Take a dictionary node [d] that accepts changes and a key [k] it
    does not hold.  A first [add_node] under [k] returns and stores its
    child directly under [k], after the keys that were there.  A second
    [add_node] under [k] then returns and puts a new list node [w] in the
    place of the first child, whose members are the first child and the
    second, in that order, provided the first call was not given a list
    node as child.  A third [add_node] under [k] returns and leaves the
    dictionary as it is, the members of [w] being the three children in
    the order of the calls.  The keys of the dictionary are those it had,
    in their order, followed by [k], and they stay without duplicates. *)
Theorem duplicate_key_promotion (h : heap) (d : ref)
    (items : list (Py.key * ref)) (k : Py.key) (c1 : add_call) :
  items_of h d = Some items ->
  replacement_of h d = Some None ->
  NoDup (OrderedDict.keys items) ->
  OrderedDict.get k items = None ->
  key_used h c1 = Some k -> node_argument h c1 -> single_child h c1 ->
  (forall x, OrderedDict.keys (items ++ [(k, x)]) = OrderedDict.keys items ++ [k]
             /\ NoDup (OrderedDict.keys (items ++ [(k, x)])))
  /\ exists n1 h1,
      do_add d c1 h = Ok n1 h1
      /\ child_of h c1 n1 h1
      /\ items_of h1 d = Some (items ++ [(k, n1)])
      /\ forall c2, key_used h1 c2 = Some k -> node_argument h1 c2 ->
         exists n2 h2 w,
           do_add d c2 h1 = Ok n2 h2
           /\ child_of h1 c2 n2 h2
           /\ length h1 <= w
           /\ items_of h2 d = Some (items ++ [(k, w)])
           /\ members_of h2 w = Some [n1; n2]
           /\ forall c3, key_used h2 c3 = Some k -> node_argument h2 c3 ->
              exists n3 h3,
                do_add d c3 h2 = Ok n3 h3
                /\ child_of h2 c3 n3 h3
                /\ items_of h3 d = Some (items ++ [(k, w)])
                /\ members_of h3 w = Some [n1; n2; n3].
Proof.
  intros Hd Hr Hnd Hk Hu1 Ha1 Hs1. split.
  { intros x. split; [apply keys_snoc|apply keys_snoc_NoDup; assumption]. }
  apply items_of_value in Hd as [ign Hd].
  pose proof (value_of_lt _ _ _ Hd) as Hdl.
  destruct (add_node_new_key h d items ign k c1 Hd Hr Hk Hu1 Ha1)
    as (n1 & h1 & E1 & C1 & D1 & A1).
  exists n1, h1. split; [exact E1|]. split; [exact C1|].
  split; [exact (value_items_of _ _ _ _ D1)|].
  intros c2 Hu2 Ha2.
  destruct (added_child_single h h1 d _ ign c1 n1 D1 Ha1 Hs1 C1 A1)
    as (v & Hv & Hcls).
  assert (Hr1 : replacement_of h1 d = Some None).
  { destruct A1 as (_ & R & _). rewrite R; [exact Hr|exact Hdl]. }
  pose proof (value_of_lt _ _ _ D1) as Hdl1.
  destruct (add_node_second h1 d _ ign k n1 v c2 D1 Hr1 (get_last _ _ _ Hk)
              Hv Hcls Hu2 Ha2)
    as (n2 & h2 & w & E2 & C2 & Hw & D2 & W2 & A2).
  rewrite (set_last _ _ _ _ Hk) in D2.
  exists n2, h2, w. split; [exact E2|]. split; [exact C2|].
  split; [exact Hw|]. split; [exact (value_items_of _ _ _ _ D2)|].
  split; [exact (value_members_of _ _ _ W2)|].
  intros c3 Hu3 Ha3.
  assert (Hr2 : replacement_of h2 d = Some None).
  { destruct A2 as (_ & R & _). rewrite R; [exact Hr1|exact Hdl1]. }
  pose proof (value_of_lt _ _ _ D2) as Hdl2.
  destruct (add_node_append h2 d _ ign k w [n1; n2] c3 D2 Hr2
              (get_last _ _ _ Hk) W2 Hu3 Ha3)
    as (n3 & h3 & E3 & C3 & W3 & A3).
  exists n3, h3. split; [exact E3|]. split; [exact C3|]. split.
  - apply (value_items_of _ _ _ ign). destruct A3 as (_ & _ & V).
    rewrite V; [exact D2|exact Hdl2|].
    intros Hin. apply list_elem_of_singleton in Hin. lia.
  - exact (value_members_of _ _ _ W3).
Qed.

Lemma duplicate_key_promotion_witness :
  let h := [Node.mk None Py.KNone [] "" None None (DICT [(Py.KStr "a", 1)] false);
            Node.mk (Some "a") (Py.KStr "a") [] "x" (Some 0) None (CDATA "x")] in
  let b text := mk_add (Some "b") Py.KNone text None true [] in
  exists n1 h1 n2 h2 n3 h3 w,
    do_add 0 (b "1") h = Ok n1 h1
    /\ items_of h1 0 = Some [(Py.KStr "a", 1); (Py.KStr "b", n1)]
    /\ do_add 0 (b "2") h1 = Ok n2 h2
    /\ members_of h2 w = Some [n1; n2]
    /\ do_add 0 (b "3") h2 = Ok n3 h3
    /\ items_of h3 0 = Some [(Py.KStr "a", 1); (Py.KStr "b", w)]
    /\ members_of h3 w = Some [n1; n2; n3].
Proof.
  intros h b.
  destruct (duplicate_key_promotion h 0 [(Py.KStr "a", 1)] (Py.KStr "b") (b "1"))
    as (_ & n1 & h1 & E1 & _ & D1 & F2).
  - reflexivity.
  - reflexivity.
  - apply NoDup_singleton.
  - reflexivity.
  - reflexivity.
  - exact I.
  - exact I.
  - destruct (F2 (b "2") eq_refl I) as (n2 & h2 & w & E2 & _ & _ & _ & W2 & F3).
    destruct (F3 (b "3") eq_refl I) as (n3 & h3 & E3 & _ & D3 & W3).
    exists n1, h1, n2, h2, n3, h3, w. repeat split; assumption.
Defined.

(** When the first call is given a list node, that node is stored under
    the key as it is, and the next call under the key appends to it. *)
Example add_node_after_list_child :
  let h := [Node.mk None Py.KNone [] "" None None (DICT [] false);
            Node.mk (Some "b") (Py.KStr "b") [] "" None None (LIST [])] in
  exists h1 h2,
    do_add 0 (mk_add (Some "b") Py.KNone "" (Some (VRef 1)) true []) h = Ok 1 h1
    /\ items_of h1 0 = Some [(Py.KStr "b", 1)]
    /\ do_add 0 (mk_add (Some "b") Py.KNone "z" None true []) h1 = Ok 2 h2
    /\ items_of h2 0 = Some [(Py.KStr "b", 1)]
    /\ members_of h2 1 = Some [2].
Proof.
  intros h. eexists. eexists.
  split; [vm_compute; reflexivity|].
  split; [reflexivity|].
  split; [vm_compute; reflexivity|].
  split; reflexivity.
Qed.

(** ** Matching at the end of an element *)

Lemma configured_initial kw tests root :
  configured tests (initial_handler kw tests root).
Proof.
  split; [reflexivity|]. split; [reflexivity|].
  unfold ignoring_ok, initial_handler. cbn. intros H.
  apply Z.ltb_lt. exact H.
Qed.

Lemma start_element_configured tests s n a :
  configured tests s ->
  yields (configured tests) (_DictSAXHandler.start_element s n a).
Proof.
  intros (Ht & Hd & Hi). unfold _DictSAXHandler.start_element. cbv zeta.
  apply yields_bind_any. intros a'.
  apply (yields_bind (configured tests)).
  - match goal with |- yields _ (if ?c then _ else _) => destruct c eqn:Ec end.
    + apply yields_bind_any. intros fresh. apply yields_ret.
      split; [exact Ht|]. split; [exact Hd|]. intros H. discriminate H.
    + apply yields_ret. split; [exact Ht|]. split; [exact Hd|].
      cbn in Ec. intros H. cbn in H. rewrite H in Ec. cbn in Ec.
      cbn. apply Z.leb_gt in Ec. exact Ec.
  - intros s1 Hs1. destruct (negb (_DictSAXHandler.in_ignore s1)) eqn:E1.
    + apply yields_bind_any. intros newnode. apply yields_bind_any. intros cur.
      apply yields_ret. destruct Hs1 as (H1 & H2 & H3).
      split; [exact H1|]. split; [exact H2|].
      intros H. cbn in H. rewrite H in E1. discriminate E1.
    + apply yields_ret. exact Hs1.
Qed.

Lemma characters_configured tests s d :
  configured tests s ->
  yields (configured tests) (_DictSAXHandler.characters s d).
Proof.
  intros (Ht & Hd & Hi). unfold _DictSAXHandler.characters. cbv zeta.
  match goal with |- yields _ (if ?c then _ else _) => destruct c eqn:Ec end.
  - apply yields_bind_any. intros [x|]; [|apply yields_undef].
    apply yields_ret. cbn in Ec.
    destruct (_DictSAXHandler.need_cdata_separator _);
      (split; [exact Ht|]; split; [exact Hd|]);
      intros H; cbn in H; rewrite H in Ec; discriminate Ec.
  - apply yields_ret. split; [exact Ht|]. split; [exact Hd|]. exact Hi.
Qed.

(** What [end_element] leaves in the handler: the patterns as they were;
    the path without its last element; and as matches those of
    [_check_generator_matches] on the handler with its item, stripped when
    [strip_whitespace] is on, unless the handler was ignoring. *)
Lemma end_element_effect s n :
  yields (fun s' =>
            _DictSAXHandler.match_tests s' = _DictSAXHandler.match_tests s
            /\ _DictSAXHandler.match_depth s' = _DictSAXHandler.match_depth s
            /\ _DictSAXHandler.path s' = removelast (_DictSAXHandler.path s)
            /\ (_DictSAXHandler.in_ignore s' = true ->
                _DictSAXHandler.in_ignore s = true
                \/ (Z.of_nat (length (_DictSAXHandler.path s'))
                    < _DictSAXHandler.match_depth s')%Z)
            /\ exists item,
                 (_DictSAXHandler.strip_whitespace s = false ->
                  item = _DictSAXHandler.item s)
                 /\ _DictSAXHandler.matches s'
                    = if _DictSAXHandler.in_ignore s
                      then _DictSAXHandler.matches s
                      else _DictSAXHandler.matches
                             (_DictSAXHandler._check_generator_matches
                                (_DictSAXHandler.set_item item s)))
    (_DictSAXHandler.end_element s n).
Proof.
  unfold _DictSAXHandler.end_element. cbv zeta.
  set (Q := fun s1 : _DictSAXHandler.t =>
         _DictSAXHandler.match_tests s1 = _DictSAXHandler.match_tests s
         /\ _DictSAXHandler.match_depth s1 = _DictSAXHandler.match_depth s
         /\ _DictSAXHandler.path s1 = _DictSAXHandler.path s
         /\ _DictSAXHandler.in_ignore s1 = _DictSAXHandler.in_ignore s
         /\ exists item,
              (_DictSAXHandler.strip_whitespace s = false ->
               item = _DictSAXHandler.item s)
              /\ _DictSAXHandler.matches s1
                 = if _DictSAXHandler.in_ignore s
                   then _DictSAXHandler.matches s
                   else _DictSAXHandler.matches
                          (_DictSAXHandler._check_generator_matches
                             (_DictSAXHandler.set_item item s))).
  apply (yields_bind Q).
  - destruct (_DictSAXHandler.in_ignore s) eqn:Hi; cbn [negb].
    + apply yields_ret. unfold Q. rewrite ?Hi.
      repeat (split; [reflexivity|]). exists (_DictSAXHandler.item s).
      split; reflexivity.
    + apply (yields_bind (fun s1 => exists item,
               (_DictSAXHandler.strip_whitespace s = false ->
                item = _DictSAXHandler.item s)
               /\ s1 = _DictSAXHandler.set_item item s)).
      * destruct (_DictSAXHandler.strip_whitespace s) eqn:Hsw.
        -- apply yields_bind_any. intros [x|]; [|apply yields_undef].
           apply yields_ret. exists (VRef x). split; [discriminate|reflexivity].
        -- apply yields_ret. exists (_DictSAXHandler.item s).
           split; [reflexivity|]. destruct s; reflexivity.
      * intros s1 (item & Hitem & ->).
        destruct (last _); [|apply yields_raise]. apply yields_ret.
        unfold Q. rewrite ?Hi.
        assert (Hc : forall (A : Type) (f : _DictSAXHandler.t -> A),
                  (forall ms x, f (_DictSAXHandler.set_matches ms x) = f x) ->
                  f (_DictSAXHandler._check_generator_matches
                       (_DictSAXHandler.set_item item s))
                  = f (_DictSAXHandler.set_item item s)).
        { intros A f Hf. unfold _DictSAXHandler._check_generator_matches.
          destruct (Z.ltb _ _); [reflexivity|apply Hf]. }
        split; [exact (Hc _ _DictSAXHandler.match_tests (fun _ _ => eq_refl))|].
        split; [exact (Hc _ _DictSAXHandler.match_depth (fun _ _ => eq_refl))|].
        split; [exact (Hc _ _DictSAXHandler.path (fun _ _ => eq_refl))|].
        split; [rewrite <- Hi;
                exact (Hc _ _DictSAXHandler.in_ignore (fun _ _ => eq_refl))|].
        exists item. split; [exact Hitem|reflexivity].
  - intros s1 (H1 & H2 & H3 & H4 & Hm).
    apply (yields_bind (fun s2 =>
             s2 = _DictSAXHandler.set_path
                    (removelast (_DictSAXHandler.path s1)) s1)).
    + destruct (_DictSAXHandler.path s1); [apply yields_raise|].
      apply yields_ret. reflexivity.
    + intros s2 ->.
      match goal with
      | |- yields _ (if negb (_DictSAXHandler.in_ignore ?x) then _ else _) =>
          set (s3 := x)
      end.
      assert (H3' : _DictSAXHandler.match_tests s3 = _DictSAXHandler.match_tests s
                    /\ _DictSAXHandler.match_depth s3 = _DictSAXHandler.match_depth s
                    /\ _DictSAXHandler.path s3 = removelast (_DictSAXHandler.path s)
                    /\ (_DictSAXHandler.in_ignore s3 = true ->
                        _DictSAXHandler.in_ignore s = true
                        \/ (Z.of_nat (length (_DictSAXHandler.path s3))
                            < _DictSAXHandler.match_depth s3)%Z)
                    /\ _DictSAXHandler.matches s3 = _DictSAXHandler.matches s1).
      { subst s3. destruct (Z.ltb_spec
          (Z.of_nat (length (_DictSAXHandler.path
             (_DictSAXHandler.set_path (removelast (_DictSAXHandler.path s1)) s1))))
          (_DictSAXHandler.match_depth
             (_DictSAXHandler.set_path (removelast (_DictSAXHandler.path s1)) s1)))
          as [Hlt|Hge]; cbn in *; rewrite ?H3;
          (split; [exact H1|]); (split; [exact H2|]); (split; [reflexivity|]);
          (split; [|reflexivity]).
        - intros _. right. rewrite <- H3. exact Hlt.
        - intros Hig. left. rewrite <- H4. exact Hig. }
      destruct H3' as (T1 & T2 & T3 & T4 & T5).
      destruct (negb (_DictSAXHandler.in_ignore s3)).
      * apply yields_bind_any. intros c. apply yields_ret.
        destruct (Nat.ltb _ _); cbn;
          (split; [exact T1|]); (split; [exact T2|]); (split; [exact T3|]);
          (split; [exact T4|]); rewrite T5; exact Hm.
      * apply yields_ret.
        split; [exact T1|]. split; [exact T2|]. split; [exact T3|].
        split; [exact T4|]. rewrite T5. exact Hm.
Qed.

Lemma length_removelast_le {A} (l : list A) : length (removelast l) <= length l.
Proof.
  induction l as [|x l IH]; [reflexivity|].
  destruct l as [|y l]; [cbn; lia|].
  change (removelast (x :: y :: l)) with (x :: removelast (y :: l)).
  cbn [length] in *. lia.
Qed.

Lemma end_element_configured tests s n :
  configured tests s ->
  yields (configured tests) (_DictSAXHandler.end_element s n).
Proof.
  intros (Ht & Hd & Hi) h s' h' H.
  destruct (end_element_effect s n h s' h' H) as (T1 & T2 & T3 & T4 & _).
  split; [congruence|]. split; [congruence|].
  intros Hig. destruct (T4 Hig) as [Hs|Hlt]; [|exact Hlt].
  specialize (Hi Hs). rewrite T2, T3.
  pose proof (length_removelast_le (_DictSAXHandler.path s)). lia.
Qed.

Lemma callbacks_configured tests es : forall s h s' h',
  configured tests s ->
  Parser.callbacks s es h = Ok s' h' ->
  configured tests s'.
Proof.
  induction es as [|e es IH]; intros s h s' h' Hc H; cbn in H.
  - injection H as <- _. exact Hc.
  - apply bind_Ok in H as (s1 & h1 & Hd & H).
    eapply IH; [|exact H].
    destruct e as [n a|n|d]; cbn in Hd.
    + exact (start_element_configured tests s n a Hc _ _ _ Hd).
    + exact (end_element_configured tests s n Hc _ _ _ Hd).
    + exact (characters_configured tests s d Hc _ _ _ Hd).
Qed.

(** The check with one pattern configured. *)
Lemma snoc_not_self {A} (l : list A) (x : A) : l <> l ++ [x].
Proof.
  intros H. apply (f_equal length) in H. rewrite length_app in H.
  cbn in H. lia.
Qed.

(** Every pattern of the list is what its own string parses to. *)
Lemma parse_all_origin l tests :
  _DictSAXHandler.parse_all l = Returns tests ->
  forall m, In m tests ->
    In (_GeneratorMatch.match_string m) l
    /\ _DictSAXHandler._parse_generator_matches (_GeneratorMatch.match_string m)
       = Returns m.
Proof.
  revert tests. induction l as [|s l IH]; intros tests; simpl.
  - intros [= <-] m [].
  - destruct (_DictSAXHandler._parse_generator_matches s) as [m0|e] eqn:E;
      [|discriminate].
    destruct (_DictSAXHandler.parse_all l) as [ms|e]; [|discriminate].
    intros [= <-] m [<-|Hm].
    + destruct (parse_generator_matches_wf _ _ E) as (_ & Hs & _).
      rewrite Hs. split; [left; reflexivity|exact E].
    + destruct (IH ms eq_refl m Hm) as [Hin Hp]. split; [right; exact Hin|exact Hp].
Qed.

(** Above a path shorter than every pattern the loop finds nothing. *)
Lemma no_match_below_min_depth tests path :
  (Z.of_nat (length path) < _DictSAXHandler.min_depth tests)%Z ->
  forall m, In m tests -> loop_test m path = false.
Proof.
  intros Hlt m Hm. pose proof (min_depth_le tests m Hm) as Hle.
  unfold loop_test. destruct (_GeneratorMatch.rooted m); simpl.
  - destruct (Nat.eqb_spec (length path) (_GeneratorMatch.depth m)) as [E|E];
      [lia|reflexivity].
  - destruct (Nat.ltb_spec (length path) (_GeneratorMatch.depth m)) as [E|E];
      [reflexivity|lia].
Qed.

(** The guard of [_check_generator_matches] skips the loop only where the
    loop would add nothing. *)
Lemma check_generator_matches_loop (s : _DictSAXHandler.t) :
  _DictSAXHandler.match_depth s
  = _DictSAXHandler.min_depth (_DictSAXHandler.match_tests s) ->
  _DictSAXHandler.matches (_DictSAXHandler._check_generator_matches s)
  = _DictSAXHandler.check_loop (_DictSAXHandler.match_tests s)
      (_DictSAXHandler.path s) (_DictSAXHandler.item s) (_DictSAXHandler.matches s).
Proof.
  intros Hmd. unfold _DictSAXHandler._check_generator_matches. rewrite Hmd.
  destruct (Z.ltb_spec (Z.of_nat (length (_DictSAXHandler.path s)))
              (_DictSAXHandler.min_depth (_DictSAXHandler.match_tests s)))
    as [Hlt|Hge]; [|reflexivity].
  symmetry. apply check_loop_none. apply no_match_below_min_depth. exact Hlt.
Qed.

Lemma check_loop_skip pre rest path item ms :
  (forall m, In m pre -> loop_test m path = false) ->
  _DictSAXHandler.check_loop (pre ++ rest) path item ms
  = _DictSAXHandler.check_loop rest path item ms.
Proof.
  induction pre as [|m pre IH]; intros Hall; [reflexivity|].
  simpl app. rewrite check_loop_cons, (Hall m) by (left; reflexivity).
  apply IH. intros m' Hm'. apply Hall. right. exact Hm'.
Qed.

Lemma check_loop_cases tests path item ms :
  _DictSAXHandler.check_loop tests path item ms = ms
  \/ exists m, In m tests /\ loop_test m path = true
       /\ _DictSAXHandler.check_loop tests path item ms
          = ms ++ [(_DictSAXHandler.joined_path path,
                    _GeneratorMatch.match_string m, item)].
Proof.
  induction tests as [|m tests IH]; [left; reflexivity|].
  rewrite check_loop_cons. destruct (loop_test m path) eqn:E.
  - right. exists m. split; [left; reflexivity|]. split; [exact E|reflexivity].
  - destruct IH as [IH|(m' & Hm' & Ht & IH)]; [left; exact IH|].
    right. exists m'. split; [right; exact Hm'|]. split; [exact Ht|exact IH].
Qed.

(** What the loop adds, for patterns that are what their strings parse
    to: the tuple of a pattern that no matching pattern precedes is added
    exactly when the pattern matches. *)
Lemma check_loop_rule l tests path item
    (A X : list (string * string * pyval)) :
  _DictSAXHandler.parse_all l = Returns tests ->
  X = _DictSAXHandler.check_loop tests path item A ->
  let tuple (m : _GeneratorMatch.t) :=
    (_DictSAXHandler.joined_path path, _GeneratorMatch.match_string m, item) in
  (forall pre m post,
     tests = pre ++ m :: post ->
     (forall m', In m' pre -> ~ pattern_matches m' path) ->
     let e := _GeneratorMatch.elements m in
     (_GeneratorMatch.rooted m = true ->
      (X = A ++ [tuple m] <-> length path = length e /\ path = e))
     /\ (_GeneratorMatch.rooted m = false ->
         (X = A ++ [tuple m]
          <-> length e <= length path /\ drop (length path - length e) path = e)))
  /\ (X = A \/ exists m, In m tests /\ X = A ++ [tuple m]).
Proof.
  intros Hp -> tuple.
  pose proof (parse_all_wf l tests Hp) as Hwf.
  pose proof (parse_all_origin l tests Hp) as Horigin.
  assert (Hspec : forall m, In m tests ->
            (loop_test m path = true <-> pattern_matches m path)).
  { intros m Hm. destruct (Hwf m Hm) as [Hd Hne]. apply loop_test_spec; assumption. }
  split.
  - intros pre m post -> Hpre e.
    assert (Hm : In m (pre ++ m :: post)) by (apply in_or_app; right; left; reflexivity).
    assert (Hpre' : forall m', In m' pre -> loop_test m' path = false).
    { intros m' Hm'. destruct (loop_test m' path) eqn:E; [|reflexivity].
      exfalso. apply (Hpre m' Hm'). apply Hspec; [apply in_or_app; left; exact Hm'|].
      exact E. }
    assert (Hiff : _DictSAXHandler.check_loop (pre ++ m :: post) path item A
                   = A ++ [tuple m] <-> pattern_matches m path).
    { rewrite <- (Hspec m Hm). split.
      - intros HX. destruct (loop_test m path) eqn:E; [reflexivity|]. exfalso.
        rewrite check_loop_skip, check_loop_cons, E in HX by exact Hpre'.
        destruct (check_loop_cases post path item A) as [Hn|(m2 & Hm2 & Ht & Hc)].
        + rewrite Hn in HX. exact (snoc_not_self _ _ HX).
        + rewrite Hc in HX. apply app_inv_head in HX. injection HX as Hs.
          assert (Hin2 : In m2 (pre ++ m :: post))
            by (apply in_or_app; right; right; exact Hm2).
          destruct (Horigin m Hm) as [_ P1]. destruct (Horigin m2 Hin2) as [_ P2].
          rewrite Hs, P1 in P2. injection P2 as <-. congruence.
      - intros E. apply check_loop_first; assumption. }
    unfold pattern_matches in Hiff. fold e in Hiff.
    split; intros Hr; rewrite Hr in Hiff; exact Hiff.
  - destruct (check_loop_cases tests path item A) as [Hn|(m & Hm & _ & Hc)];
      [left; exact Hn|].
    right. exists m. split; [exact Hm|exact Hc].
Qed.

(** C4.  Let a parse run with the patterns of a list, and let the handler
    have taken any events when an end-element event arrives, [path] being
    the names of the open elements.  A pattern is anchored exactly when
    its string begins with a slash.  The event adds to the matches of the
    handler either nothing or the one tuple of a pattern of the list.  For
    a pattern that no matching pattern precedes in the list (the only
    pattern, the first one, or one after patterns that do not match), the
    tuple of the pattern is added as follows: for an anchored pattern with
    segments [e] iff [len(path) == len(e)] and [path == e], for a suffix
    pattern iff [len(path) >= len(e)] and the last [len(e)] elements of
    [path] are [e].  The node of the tuple is the item of the handler,
    replaced by its stripped copy when [strip_whitespace] is on.  The same
    holds of [_check_generator_matches] called on that handler.  The path
    of the tuple is a slash followed by the segments of [path] joined by
    slashes, the lone slash for the document root. *)
Theorem anchored_and_suffix_matching (l : list string)
    (tests : list _GeneratorMatch.t)
    (kw : _DictSAXHandler.kwargs) (root : ref) (es : list event) (h0 : heap)
    (hd : _DictSAXHandler.t) (h : heap) (name : string)
    (hd' : _DictSAXHandler.t) (h' : heap) :
  _DictSAXHandler.parse_all l = Returns tests ->
  Parser.callbacks (initial_handler kw tests root) es h0 = Ok hd h ->
  _DictSAXHandler.end_element hd name h = Ok hd' h' ->
  let path := _DictSAXHandler.path hd in
  let before := _DictSAXHandler.matches hd in
  let tuple (m : _GeneratorMatch.t) item :=
    (_DictSAXHandler.joined_path path, _GeneratorMatch.match_string m, item) in
  (forall m, In m tests ->
     In (_GeneratorMatch.match_string m) l
     /\ (_GeneratorMatch.rooted m = true
         <-> exists s', _GeneratorMatch.match_string m = String "/" s'))
  /\ (exists item,
        (_DictSAXHandler.strip_whitespace hd = false ->
         item = _DictSAXHandler.item hd)
        /\ (forall pre m post,
              tests = pre ++ m :: post ->
              (forall m', In m' pre -> ~ pattern_matches m' path) ->
              let e := _GeneratorMatch.elements m in
              (_GeneratorMatch.rooted m = true ->
               (_DictSAXHandler.matches hd' = before ++ [tuple m item]
                <-> length path = length e /\ path = e))
              /\ (_GeneratorMatch.rooted m = false ->
                  (_DictSAXHandler.matches hd' = before ++ [tuple m item]
                   <-> length e <= length path
                       /\ drop (length path - length e) path = e)))
        /\ (_DictSAXHandler.matches hd' = before
            \/ exists m, In m tests
                 /\ _DictSAXHandler.matches hd' = before ++ [tuple m item]))
  /\ (let checked := _DictSAXHandler.matches
                       (_DictSAXHandler._check_generator_matches hd) in
      let item := _DictSAXHandler.item hd in
      (forall pre m post,
         tests = pre ++ m :: post ->
         (forall m', In m' pre -> ~ pattern_matches m' path) ->
         let e := _GeneratorMatch.elements m in
         (_GeneratorMatch.rooted m = true ->
          (checked = before ++ [tuple m item]
           <-> length path = length e /\ path = e))
         /\ (_GeneratorMatch.rooted m = false ->
             (checked = before ++ [tuple m item]
              <-> length e <= length path
                  /\ drop (length path - length e) path = e)))
      /\ (checked = before
          \/ exists m, In m tests /\ checked = before ++ [tuple m item]))
  /\ _DictSAXHandler.joined_path path = String "/" (Py.join "/" path)
  /\ _DictSAXHandler.joined_path [] = "/".
Proof.
  intros Hp Hrun Hend path before tuple.
  destruct (callbacks_configured tests es _ _ _ _ (configured_initial kw tests root)
              Hrun) as (Ht & Hmd & Hig).
  rewrite <- Ht in Hmd.
  split.
  { intros m Hm. destruct (parse_all_origin l tests Hp m Hm) as [Hin Hpm].
    split; [exact Hin|]. exact (rooted_iff_leading_slash _ _ Hpm). }
  split; [|split; [|split; [apply joined_path_spec|reflexivity]]].
  - destruct (end_element_effect hd name h hd' h' Hend)
      as (_ & _ & _ & _ & item & Hitem & Hm).
    exists item. split; [exact Hitem|].
    apply (check_loop_rule l tests path item before _ Hp).
    rewrite Hm. destruct (_DictSAXHandler.in_ignore hd) eqn:Hi.
    + symmetry. apply check_loop_none. apply no_match_below_min_depth.
      specialize (Hig Hi). rewrite Hmd, Ht in Hig. exact Hig.
    + rewrite check_generator_matches_loop by exact Hmd.
      cbn [_DictSAXHandler.match_tests _DictSAXHandler.path _DictSAXHandler.item
           _DictSAXHandler.matches _DictSAXHandler.set_item].
      rewrite Ht. reflexivity.
  - cbv zeta.
    apply (check_loop_rule l tests path (_DictSAXHandler.item hd) before _ Hp).
    rewrite check_generator_matches_loop by exact Hmd. rewrite Ht. reflexivity.
Qed.

Lemma anchored_and_suffix_matching_witness :
  let kw := _DictSAXHandler.with_generator (Some (inr ["/x"; "b/c"]))
              _DictSAXHandler.defaults in
  let m1 := _GeneratorMatch.mk true ["x"] 1 "/x" in
  let m2 := _GeneratorMatch.mk false ["b"; "c"] 2 "b/c" in
  let es := [StartElement "a" []; StartElement "b" []; StartElement "c" []] in
  exists hd h hd' h' item,
    Parser.callbacks (initial_handler kw [m1; m2] 0) es [empty_dict] = Ok hd h
    /\ _DictSAXHandler.path hd = ["a"; "b"; "c"]
    /\ _DictSAXHandler.end_element hd "c" h = Ok hd' h'
    /\ _DictSAXHandler.matches hd' = [("/a/b/c", "b/c", item)].
Proof.
  intros kw m1 m2 es.
  destruct (Parser.callbacks (initial_handler kw [m1; m2] 0) es [empty_dict])
    as [hd h|ex h|] eqn:E1; [|vm_compute in E1; discriminate E1..].
  assert (Hhd : _DictSAXHandler.path hd = ["a"; "b"; "c"]
                /\ _DictSAXHandler.matches hd = []).
  { vm_compute in E1. injection E1 as <- _. split; reflexivity. }
  destruct Hhd as [Hpath Hbefore].
  destruct (_DictSAXHandler.end_element hd "c" h) as [hd' h'|ex h'|] eqn:E2.
  2,3: vm_compute in E1; injection E1 as <- <-; vm_compute in E2;
       discriminate E2.
  destruct (anchored_and_suffix_matching ["/x"; "b/c"] [m1; m2] kw 0 es
              [empty_dict] hd h "c" hd' h' eq_refl E1 E2)
    as (_ & (item & _ & Hrule & _) & _).
  exists hd, h, hd', h', item. split; [reflexivity|]. split; [exact Hpath|].
  split; [exact E2|].
  destruct (Hrule [m1] m2 [] eq_refl) as [_ Hsuffix].
  { intros m' [<-|[]]. rewrite Hpath. unfold pattern_matches. simpl.
    intros [Hlen _]. discriminate Hlen. }
  rewrite Hpath, Hbefore in Hsuffix.
  apply (Hsuffix eq_refl). split; [cbn; lia|reflexivity].
Defined.

(** * Properties of the remaining operations *)

(** ** Ordered dictionaries *)

Section OrderedDictFacts.
Context {K V : Type} `{EqDecision K}.
Implicit Types (k : K) (v : V) (d : list (K * V)).

Lemma od_get_set_eq k v d : OrderedDict.get k (OrderedDict.set k v d) = Some v.
Proof.
  induction d as [|[k' v'] d IH]; simpl.
  - destruct (decide (k = k)); congruence.
  - destruct (decide (k' = k)) as [->|Hne]; simpl.
    + destruct (decide (k = k)); congruence.
    + destruct (decide (k' = k)); [congruence|exact IH].
Qed.

Lemma od_get_set_ne k k' v d :
  k' <> k -> OrderedDict.get k' (OrderedDict.set k v d) = OrderedDict.get k' d.
Proof.
  intros Hne. induction d as [|[k0 v0] d IH]; simpl.
  - destruct (decide (k = k')); congruence.
  - destruct (decide (k0 = k)) as [->|Hk]; simpl.
    + destruct (decide (k = k')); congruence.
    + destruct (decide (k0 = k')); [reflexivity|exact IH].
Qed.

Lemma od_get_None_keys k d :
  OrderedDict.get k d = None <-> k ∉ OrderedDict.keys d.
Proof.
  induction d as [|[k' v] d IH]; simpl.
  - split; [intros _ H'; inversion H'|reflexivity].
  - destruct (decide (k' = k)) as [->|Hne].
    + split; [discriminate|]. intros Hn. exfalso. apply Hn. left.
    + rewrite IH. split.
      * intros Hn Hin. apply elem_of_cons in Hin as [->|Hin]; [congruence|].
        exact (Hn Hin).
      * intros Hn Hin. apply Hn. right. exact Hin.
Qed.

Lemma od_set_absent k v d :
  OrderedDict.get k d = None -> OrderedDict.set k v d = d ++ [(k, v)].
Proof.
  induction d as [|[k' v'] d IH]; simpl; [reflexivity|].
  destruct (decide (k' = k)); [discriminate|].
  intros Hn. rewrite (IH Hn). reflexivity.
Qed.

Lemma od_keys_set_present k v d :
  OrderedDict.get k d <> None ->
  OrderedDict.keys (OrderedDict.set k v d) = OrderedDict.keys d.
Proof.
  induction d as [|[k' v'] d IH]; simpl; [congruence|].
  destruct (decide (k' = k)) as [->|Hne]; simpl; [reflexivity|].
  intros Hn. f_equal. exact (IH Hn).
Qed.

Lemma od_keys_set k v d :
  OrderedDict.keys (OrderedDict.set k v d)
  = if OrderedDict.contains k d then OrderedDict.keys d
    else OrderedDict.keys d ++ [k].
Proof.
  unfold OrderedDict.contains.
  destruct (OrderedDict.get k d) as [x|] eqn:E.
  - apply od_keys_set_present. congruence.
  - rewrite (od_set_absent _ _ _ E). unfold OrderedDict.keys.
    rewrite map_app. reflexivity.
Qed.

Lemma od_set_NoDup k v d :
  NoDup (OrderedDict.keys d) -> NoDup (OrderedDict.keys (OrderedDict.set k v d)).
Proof.
  intros Hnd. rewrite od_keys_set. unfold OrderedDict.contains.
  destruct (OrderedDict.get k d) as [x|] eqn:E; [exact Hnd|].
  apply NoDup_app. split; [exact Hnd|]. split; [|apply NoDup_singleton].
  intros x Hx Hx'. apply list_elem_of_singleton in Hx' as ->.
  apply od_get_None_keys in E. exact (E Hx).
Qed.

Lemma od_get_del_ne k k' d :
  k' <> k -> OrderedDict.get k' (OrderedDict.del k d) = OrderedDict.get k' d.
Proof.
  intros Hne. induction d as [|[k0 v0] d IH]; simpl; [reflexivity|].
  destruct (decide (k0 = k)) as [->|Hk]; simpl.
  - destruct (decide (k = k')); [congruence|reflexivity].
  - destruct (decide (k0 = k')); [reflexivity|exact IH].
Qed.

Lemma od_get_del_eq k d :
  NoDup (OrderedDict.keys d) -> OrderedDict.get k (OrderedDict.del k d) = None.
Proof.
  induction d as [|[k0 v0] d IH]; simpl; [reflexivity|].
  intros Hnd. apply NoDup_cons in Hnd as [Hk0 Hnd].
  destruct (decide (k0 = k)) as [->|Hk]; simpl.
  - apply od_get_None_keys. exact Hk0.
  - destruct (decide (k0 = k)); [congruence|]. exact (IH Hnd).
Qed.

Lemma od_keys_del_sub k d x :
  x ∈ OrderedDict.keys (OrderedDict.del k d) -> x ∈ OrderedDict.keys d.
Proof.
  induction d as [|[k0 v0] d IH]; simpl; [auto|].
  destruct (decide (k0 = k)) as [->|Hk]; simpl.
  - intros Hin. right. exact Hin.
  - intros Hin. apply elem_of_cons in Hin as [->|Hin]; [left|right; auto].
Qed.

Lemma od_del_NoDup k d :
  NoDup (OrderedDict.keys d) -> NoDup (OrderedDict.keys (OrderedDict.del k d)).
Proof.
  induction d as [|[k0 v0] d IH]; simpl; [auto|].
  intros Hnd. apply NoDup_cons in Hnd as [Hk0 Hnd].
  destruct (decide (k0 = k)) as [->|Hk]; simpl; [exact Hnd|].
  apply NoDup_cons. split; [|exact (IH Hnd)].
  intros Hin. apply Hk0. eapply od_keys_del_sub. exact Hin.
Qed.

Lemma od_del_set_absent k v d :
  OrderedDict.get k d = None -> OrderedDict.del k (OrderedDict.set k v d) = d.
Proof.
  induction d as [|[k0 v0] d IH]; simpl.
  - destruct (decide (k = k)); congruence.
  - destruct (decide (k0 = k)) as [->|Hk]; [discriminate|]. simpl.
    destruct (decide (k0 = k)); [congruence|].
    intros Hn. rewrite (IH Hn). reflexivity.
Qed.
End OrderedDictFacts.

(** ** XML attributes *)

Lemma set_xml_attr_live (h : heap) n nd a v :
  h !! n = Some nd -> Node._replacement_node nd = None ->
  XMLNodeBase.set_xml_attr n a v h
  = Ok tt (alter (fun m => Node.set_xml_attrs
                             (OrderedDict.set a v (Node.xml_attrs m)) m) n h).
Proof.
  intros Hn Hr. unfold XMLNodeBase.set_xml_attr.
  rewrite (bind_eval _ _ _ _ _ (check_replacement_unset _ _ _ Hn Hr)).
  eapply wr_eval. exact Hn.
Qed.

Lemma get_xml_attr_eval (h : heap) n nd a d :
  h !! n = Some nd ->
  XMLNodeBase.get_xml_attr n a d h
  = match OrderedDict.get a (Node.xml_attrs nd), d with
    | Some v, _ => Ok v h
    | None, Some v => Ok v h
    | None, None => Raise Py.KeyError h
    end.
Proof.
  intros Hn. unfold XMLNodeBase.get_xml_attr.
  rewrite (bind_eval _ _ _ _ _ (rd_eval _ _ _ _ Hn)).
  destruct (OrderedDict.get a (Node.xml_attrs nd)); [reflexivity|].
  destruct d; reflexivity.
Qed.

(** X1. On a node that is not stale, [set_xml_attr] returns; afterwards
    [get_xml_attr] gives the value set, with or without a default, and
    [has_xml_attrs] is true; every other attribute answers as before; an
    attribute that was there keeps its place and a new one goes last;
    attribute names stay unique; and nothing else in the store changes. *)
Theorem set_xml_attr_then_get (h : heap) (n : ref) (nd : Node.t) (a v : string) :
  h !! n = Some nd ->
  Node._replacement_node nd = None ->
  exists h',
    XMLNodeBase.set_xml_attr n a v h = Ok tt h'
    /\ h' !! n = Some (Node.set_xml_attrs
                         (OrderedDict.set a v (Node.xml_attrs nd)) nd)
    /\ (forall x, x <> n -> h' !! x = h !! x)
    /\ (forall d, XMLNodeBase.get_xml_attr n a d h' = Ok v h')
    /\ XMLNodeBase.has_xml_attrs n h' = Ok true h'
    /\ (forall b d, b <> a ->
          answer (XMLNodeBase.get_xml_attr n b d h')
          = answer (XMLNodeBase.get_xml_attr n b d h))
    /\ (exists names,
          OrderedDict.keys <$> attrs_of h' n = Some names
          /\ names = (if OrderedDict.contains a (Node.xml_attrs nd)
                      then OrderedDict.keys (Node.xml_attrs nd)
                      else OrderedDict.keys (Node.xml_attrs nd) ++ [a])
          /\ (NoDup (OrderedDict.keys (Node.xml_attrs nd)) -> NoDup names)).
Proof.
  intros Hn Hr. eexists. split; [exact (set_xml_attr_live _ _ _ a v Hn Hr)|].
  set (h' := alter _ n h).
  assert (Hn' : h' !! n = Some (Node.set_xml_attrs
                                  (OrderedDict.set a v (Node.xml_attrs nd)) nd)).
  { subst h'. rewrite list_lookup_alter_eq, Hn. reflexivity. }
  split; [exact Hn'|]. split.
  { intros x Hx. subst h'. apply list_lookup_alter_ne. congruence. }
  split.
  { intros d. rewrite (get_xml_attr_eval _ _ _ a d Hn'). simpl.
    rewrite od_get_set_eq. reflexivity. }
  split.
  { unfold XMLNodeBase.has_xml_attrs.
    rewrite (bind_eval _ _ _ _ _ (rd_eval _ _ _ _ Hn')). simpl.
    destruct (OrderedDict.set a v (Node.xml_attrs nd)) eqn:E; [|reflexivity].
    pose proof (od_get_set_eq a v (Node.xml_attrs nd)) as G.
    rewrite E in G. discriminate. }
  split.
  { intros b d Hb. rewrite (get_xml_attr_eval _ _ _ b d Hn'),
      (get_xml_attr_eval _ _ _ b d Hn). simpl.
    rewrite (od_get_set_ne _ _ _ _ Hb).
    destruct (OrderedDict.get b (Node.xml_attrs nd)); [reflexivity|].
    destruct d; reflexivity. }
  eexists. split; [unfold attrs_of; rewrite Hn'; reflexivity|].
  simpl. split; [apply od_keys_set|].
  intros Hnd. apply od_set_NoDup. exact Hnd.
Qed.

Lemma set_xml_attr_then_get_witness :
  let h := [Node.mk (Some "a") (Py.KStr "a") [("id", "7")] "foo" None None
              (CDATA "foo")] in
  exists h',
    XMLNodeBase.set_xml_attr 0 "lang" "en" h = Ok tt h'
    /\ XMLNodeBase.get_xml_attr 0 "lang" None h' = Ok "en" h'
    /\ attrs_of h' 0 = Some [("id", "7"); ("lang", "en")].
Proof.
  intros h.
  destruct (set_xml_attr_then_get h 0 _ "lang" "en" eq_refl eq_refl)
    as (h' & E & Hn & _ & G & _).
  exists h'. split; [exact E|]. split; [exact (G None)|].
  unfold attrs_of. rewrite Hn. reflexivity.
Defined.

(** X2. On a node that is not stale and whose attribute names are unique,
    [delete_xml_attr] of an attribute that is there returns and removes
    it: [get_xml_attr] then raises [KeyError] without a default and gives
    the default with one, the other attributes answer as before, in the
    same order, and nothing else in the store changes.  For an attribute
    that is not there it raises [KeyError] and changes nothing. *)
Theorem delete_xml_attr_then_get (h : heap) (n : ref) (nd : Node.t) (a : string) :
  h !! n = Some nd ->
  Node._replacement_node nd = None ->
  NoDup (OrderedDict.keys (Node.xml_attrs nd)) ->
  (OrderedDict.contains a (Node.xml_attrs nd) = false ->
   XMLNodeBase.delete_xml_attr n a h = Raise Py.KeyError h)
  /\ (OrderedDict.contains a (Node.xml_attrs nd) = true ->
      exists h',
        XMLNodeBase.delete_xml_attr n a h = Ok tt h'
        /\ h' !! n = Some (Node.set_xml_attrs
                             (OrderedDict.del a (Node.xml_attrs nd)) nd)
        /\ (forall x, x <> n -> h' !! x = h !! x)
        /\ XMLNodeBase.get_xml_attr n a None h' = Raise Py.KeyError h'
        /\ (forall d, XMLNodeBase.get_xml_attr n a (Some d) h' = Ok d h')
        /\ (forall b d, b <> a ->
              answer (XMLNodeBase.get_xml_attr n b d h')
              = answer (XMLNodeBase.get_xml_attr n b d h))
        /\ NoDup (OrderedDict.keys (OrderedDict.del a (Node.xml_attrs nd)))
        /\ OrderedDict.keys (OrderedDict.del a (Node.xml_attrs nd))
           = List.filter (fun b => negb (String.eqb b a))
               (OrderedDict.keys (Node.xml_attrs nd))).
Proof.
  intros Hn Hr Hnd. unfold XMLNodeBase.delete_xml_attr.
  rewrite (bind_eval _ _ _ _ _ (check_replacement_unset _ _ _ Hn Hr)).
  rewrite (bind_eval _ _ _ _ _ (rd_eval _ _ _ _ Hn)).
  split; intros Hc; rewrite Hc; [reflexivity|].
  eexists. split; [eapply wr_eval; exact Hn|].
  set (h' := alter _ n h).
  assert (Hn' : h' !! n = Some (Node.set_xml_attrs
                                  (OrderedDict.del a (Node.xml_attrs nd)) nd)).
  { subst h'. rewrite list_lookup_alter_eq, Hn. reflexivity. }
  split; [exact Hn'|]. split.
  { intros x Hx. subst h'. apply list_lookup_alter_ne. congruence. }
  split.
  { rewrite (get_xml_attr_eval _ _ _ a None Hn'). simpl.
    rewrite (od_get_del_eq _ _ Hnd). reflexivity. }
  split.
  { intros d. rewrite (get_xml_attr_eval _ _ _ a (Some d) Hn'). simpl.
    rewrite (od_get_del_eq _ _ Hnd). reflexivity. }
  split.
  { intros b d Hb. rewrite (get_xml_attr_eval _ _ _ b d Hn'),
      (get_xml_attr_eval _ _ _ b d Hn). simpl.
    rewrite (od_get_del_ne _ _ _ Hb).
    destruct (OrderedDict.get b (Node.xml_attrs nd)); [reflexivity|].
    destruct d; reflexivity. }
  split; [apply od_del_NoDup; exact Hnd|].
  clear -Hnd. induction (Node.xml_attrs nd) as [|[k0 v0] d IH]; simpl; [reflexivity|].
  simpl in Hnd. apply NoDup_cons in Hnd as [Hk0 Hnd].
  destruct (decide (k0 = a)) as [->|Hk]; simpl.
  - rewrite String.eqb_refl. simpl.
    clear IH. induction d as [|[k1 v1] d IH]; simpl; [reflexivity|].
    simpl in Hk0, Hnd. apply NoDup_cons in Hnd as [_ Hnd].
    destruct (String.eqb_spec k1 a) as [->|Hne]; simpl.
    + exfalso. apply Hk0. left.
    + f_equal. apply IH; [|exact Hnd]. intros Hin. apply Hk0. right. exact Hin.
  - destruct (String.eqb_spec k0 a) as [->|Hne]; [congruence|]. simpl.
    f_equal. exact (IH Hnd).
Qed.

Lemma delete_xml_attr_then_get_witness :
  let h := [Node.mk (Some "a") (Py.KStr "a") [("id", "7"); ("lang", "en")] "foo"
              None None (CDATA "foo")] in
  XMLNodeBase.delete_xml_attr 0 "name" h = Raise Py.KeyError h
  /\ exists h',
       XMLNodeBase.delete_xml_attr 0 "id" h = Ok tt h'
       /\ attrs_of h' 0 = Some [("lang", "en")]
       /\ XMLNodeBase.get_xml_attr 0 "id" None h' = Raise Py.KeyError h'.
Proof.
  intros h.
  assert (Hnd : NoDup (OrderedDict.keys [("id", "7"); ("lang", "en")])).
  { apply NoDup_cons. split; [|apply NoDup_singleton].
    intros Hin. apply list_elem_of_singleton in Hin. discriminate. }
  destruct (delete_xml_attr_then_get h 0 _ "name" eq_refl eq_refl Hnd) as [Habs _].
  destruct (delete_xml_attr_then_get h 0 _ "id" eq_refl eq_refl Hnd) as [_ Hpre].
  split; [exact (Habs eq_refl)|].
  destruct (Hpre eq_refl) as (h' & E & Hn & _ & G & _).
  exists h'. split; [exact E|]. split; [|exact G].
  unfold attrs_of. rewrite Hn. reflexivity.
Defined.

(** X3. Setting an attribute the node does not have and deleting it again
    restores the store exactly. *)
Theorem set_then_delete_xml_attr (h : heap) (n : ref) (nd : Node.t) (a v : string) :
  h !! n = Some nd ->
  Node._replacement_node nd = None ->
  OrderedDict.get a (Node.xml_attrs nd) = None ->
  exists h',
    XMLNodeBase.set_xml_attr n a v h = Ok tt h'
    /\ XMLNodeBase.delete_xml_attr n a h' = Ok tt h.
Proof.
  intros Hn Hr Ha. eexists. split; [exact (set_xml_attr_live _ _ _ a v Hn Hr)|].
  set (h' := alter _ n h).
  assert (Hn' : h' !! n = Some (Node.set_xml_attrs
                                  (OrderedDict.set a v (Node.xml_attrs nd)) nd)).
  { subst h'. rewrite list_lookup_alter_eq, Hn. reflexivity. }
  unfold XMLNodeBase.delete_xml_attr.
  rewrite (bind_eval _ _ _ _ _ (check_replacement_unset _ _ _ Hn' Hr)).
  rewrite (bind_eval _ _ _ _ _ (rd_eval _ _ _ _ Hn')). simpl.
  unfold OrderedDict.contains. rewrite od_get_set_eq.
  rewrite (wr_eval _ _ _ _ Hn'). f_equal.
  rewrite (od_del_set_absent _ _ _ Ha). subst h'.
  apply list_eq. intros i. destruct (decide (n = i)) as [<-|Hne].
  - rewrite !list_lookup_alter_eq, Hn. simpl. destruct nd; reflexivity.
  - rewrite !list_lookup_alter_ne by exact Hne. reflexivity.
Qed.

Lemma set_then_delete_xml_attr_witness :
  let h := [Node.mk (Some "a") (Py.KStr "a") [("id", "7")] "foo" None None
              (CDATA "foo")] in
  exists h',
    XMLNodeBase.set_xml_attr 0 "lang" "en" h = Ok tt h'
    /\ XMLNodeBase.delete_xml_attr 0 "lang" h' = Ok tt h.
Proof.
  intros h. exact (set_then_delete_xml_attr h 0 _ "lang" "en" eq_refl eq_refl eq_refl).
Defined.

(** ** Stale nodes *)

(** X4. On a node whose replacement is a node or object that counts as
    true, every changing operation ([set_cdata], [append_cdata],
    [strip_cdata], [add_node], [set_xml_attr], [delete_xml_attr],
    [_replace_node]) raises [AttributeError] and leaves the store as it
    was; [list(in_place=True)] raises it too, after having built the list
    object it then drops, except on a list node, which it returns
    unchecked. *)
Theorem stale_node_is_frozen (h : heap) (n : ref) (nd : Node.t) (v : pyval) :
  h !! n = Some nd ->
  Node._replacement_node nd = Some v ->
  XMLNodeBase.truth v h = Ok true h ->
  (forall s rn, set_cdata n s rn h = Raise Py.AttributeError h)
  /\ (forall s rn, append_cdata n s rn h = Raise Py.AttributeError h)
  /\ (forall c rn, strip_cdata n c rn h = Raise Py.AttributeError h)
  /\ (forall tag key text new upd a,
        add_node n tag key text new upd a h = Raise Py.AttributeError h)
  /\ (forall a s, XMLNodeBase.set_xml_attr n a s h = Raise Py.AttributeError h)
  /\ (forall a, XMLNodeBase.delete_xml_attr n a h = Raise Py.AttributeError h)
  /\ (forall nw, XMLNodeBase._replace_node n nw h = Raise Py.AttributeError h)
  /\ (class_at h n <> Some XMLListNode_cls ->
      exists dropped,
        node_list n true h = Raise Py.AttributeError (h ++ [dropped]))
  /\ (class_at h n = Some XMLListNode_cls ->
      node_list n true h = Ok (inr n) h).
Proof.
  intros Hn Hr Ht.
  destruct (stale_node_rejects_mutation h n nd v Hn Hr Ht)
    as (H1 & H2 & H3 & H4 & H5 & H6 & H7 & g & H8).
  repeat (split; [assumption|]).
  unfold node_list, class_at.
  rewrite (bind_eval _ _ _ _ _ (rd_eval _ _ _ _ Hn)), Hn. simpl.
  split.
  - intros Hc. exists g. destruct (Node.value nd); simpl; try exact H8.
    exfalso. apply Hc. reflexivity.
  - intros Hc. destruct (Node.value nd); simpl in *; try discriminate.
    reflexivity.
Qed.

Lemma stale_node_is_frozen_witness :
  let h := [Node.mk None Py.KNone [] "" None None (DICT [(Py.KStr "a", 2)] false);
            Node.mk (Some "a") (Py.KStr "a") [] "foo" (Some 0)
              (Some (VRef 2)) (CDATA "foo");
            Node.mk (Some "a") (Py.KStr "a") [] "foobar" (Some 0)
              None (CDATA "foobar")] in
  append_cdata 1 "baz" true h = Raise Py.AttributeError h
  /\ XMLNodeBase.set_xml_attr 1 "k" "v" h = Raise Py.AttributeError h.
Proof.
  intros h.
  destruct (stale_node_is_frozen h 1 _ (VRef 2) eq_refl eq_refl eq_refl)
    as (_ & H2 & _ & _ & H5 & _).
  split; [exact (H2 "baz" true)|exact (H5 "k" "v")].
Defined.

(** ** Match patterns *)

Lemma split_singleton_empty sep s : Py.split sep s = [""] -> s = "".
Proof.
  destruct s as [|c s']; [reflexivity|]. simpl.
  destruct (Ascii.eqb c sep).
  - pose proof (split_nonempty sep s') as Hne.
    destruct (Py.split sep s'); [contradiction|discriminate].
  - destruct (Py.split sep s'); discriminate.
Qed.

Lemma split_head_empty s :
  s <> "" ->
  (exists rest, Py.split "/" s = "" :: rest) <-> Py.startswith "/" s = true.
Proof.
  intros Hs. destruct s as [|c s']; [contradiction|].
  unfold Py.startswith.
  change (String.prefix "/" (String c s'))
    with (if Ascii.ascii_dec "/" c then String.prefix "" s' else false).
  cbn [Py.split].
  destruct (Ascii.ascii_dec "/" c) as [<-|Hc].
  - rewrite Ascii.eqb_refl. destruct s'; split; eauto.
  - destruct (Ascii.eqb_spec c "/"%char) as [->|_]; [congruence|].
    split; [|discriminate].
    intros [rest Hr]. destruct (Py.split "/" s'); discriminate.
Qed.

(** Lists of segments whose members, the last one apart, are not empty. *)
Lemma strip_trailing_empty (t : list string) :
  t <> [] ->
  (forall i, S i < length t -> t !! i <> Some "") ->
  exists z, last t = Some z
    /\ (if String.eqb z "" then removelast t else t)
       = List.filter (fun x => negb (String.eqb x "")) t
    /\ existsb (fun i => String.eqb i "")
         (if String.eqb z "" then removelast t else t) = false.
Proof.
  induction t as [|x t IH]; [contradiction|]. intros _ Hint.
  destruct t as [|y t].
  - exists x. split; [reflexivity|].
    destruct (String.eqb x "") eqn:Ex; simpl; rewrite ?Ex; split; reflexivity.
  - assert (Hx : String.eqb x "" = false).
    { destruct (String.eqb_spec x "") as [->|]; [|reflexivity].
      exfalso. apply (Hint 0); [simpl; lia|reflexivity]. }
    destruct IH as (z & Hz & Hf & He); [discriminate| |].
    { intros i Hi. apply (Hint (S i)). simpl in *. lia. }
    exists z. split; [exact Hz|].
    change (removelast (x :: y :: t)) with (x :: removelast (y :: t)).
    split.
    + transitivity (x :: (if String.eqb z "" then removelast (y :: t) else y :: t)).
      { destruct (String.eqb z ""); reflexivity. }
      rewrite Hf. simpl. rewrite Hx. reflexivity.
    + transitivity (existsb (fun i => String.eqb i "")
                      (x :: (if String.eqb z "" then removelast (y :: t) else y :: t))).
      { destruct (String.eqb z ""); reflexivity. }
      simpl. rewrite Hx. exact He.
Qed.

(** X5. The three outcomes of [_parse_generator_matches]: the empty string
    raises [IndexError]; a string with an empty segment that is neither
    its first nor its last raises [Warning]; every other string is
    accepted, as the pattern whose elements are the segments of the string
    that are not empty, in their order, whose depth is their number, and
    which is anchored exactly when the string starts with a slash. *)
Theorem parse_generator_matches_outcomes (s : string) :
  (s = "" -> _DictSAXHandler._parse_generator_matches s = Raises Py.IndexError)
  /\ (empty_interior_segment (Py.split "/" s) ->
      _DictSAXHandler._parse_generator_matches s = Raises Py.Warning)
  /\ (s <> "" -> ~ empty_interior_segment (Py.split "/" s) ->
      let elements :=
        List.filter (fun x => negb (String.eqb x "")) (Py.split "/" s) in
      _DictSAXHandler._parse_generator_matches s
      = Returns (_GeneratorMatch.mk (Py.startswith "/" s) elements
                   (length elements) s)).
Proof.
  split; [intros ->; reflexivity|]. split; [apply interior_empty_warns|].
  intros Hs Hint elements.
  pose proof (split_head_empty s Hs) as Hhead.
  assert (Hint' : forall i, 0 < i -> S i < length (Py.split "/" s) ->
                    Py.split "/" s !! i <> Some "").
  { intros i H0 H1 H2. apply Hint. exists i. auto. }
  pose proof (split_singleton_empty "/" s) as Hsingle.
  unfold _DictSAXHandler._parse_generator_matches. subst elements.
  destruct (Py.split "/" s) as [|x l] eqn:E; [exact (False_ind _ (split_nonempty _ _ E))|].
  destruct (String.eqb_spec x "") as [->|Hx].
  - assert (Hroot : Py.startswith "/" s = true) by (apply Hhead; eauto).
    rewrite Hroot. cbn [fst snd].
    destruct (strip_trailing_empty l) as (z & Hz & Hf & He).
    { intros ->. apply Hs, Hsingle. reflexivity. }
    { intros i Hi. apply (Hint' (S i)); simpl; lia. }
    rewrite Hz, He, Hf. reflexivity.
  - assert (Hroot : Py.startswith "/" s = false).
    { destruct (Py.startswith "/" s) eqn:R; [|reflexivity].
      destruct (proj2 Hhead eq_refl) as [rest [= -> _]]. congruence. }
    rewrite Hroot.
    assert (Hrp : match x :: l with
                  | "" :: rest => (true, rest)
                  | _ => (false, x :: l)
                  end = (false, x :: l)).
    { destruct x as [|c x']; [congruence|reflexivity]. }
    rewrite Hrp. cbn [fst snd].
    destruct (strip_trailing_empty (x :: l)) as (z & Hz & Hf & He).
    { discriminate. }
    { intros [|i] Hi; [simpl; congruence|]. apply (Hint' (S i)); [lia|exact Hi]. }
    rewrite Hz, He, Hf. reflexivity.
Qed.

Lemma parse_generator_matches_outcomes_witness :
  _DictSAXHandler._parse_generator_matches "/a/b/"
  = Returns (_GeneratorMatch.mk true ["a"; "b"] 2 "/a/b/").
Proof.
  refine (proj2 (proj2 (parse_generator_matches_outcomes "/a/b/")) _ _).
  - discriminate.
  - intros (i & H0 & H1 & H2). simpl in H1.
    destruct i as [|[|[|i]]]; simpl in H2; try discriminate; lia.
Defined.

Lemma split_sep_free sep s : sep_free sep s = true -> Py.split sep s = [s].
Proof.
  induction s as [|c s IH]; simpl; [reflexivity|].
  destruct (Ascii.eqb c sep); simpl; [discriminate|].
  intros H. rewrite (IH H). reflexivity.
Qed.

Lemma split_app_sep sep x r :
  sep_free sep x = true ->
  Py.split sep (String.append x (String sep r)) = x :: Py.split sep r.
Proof.
  induction x as [|c x IH]; simpl.
  - intros _. rewrite Ascii.eqb_refl. reflexivity.
  - destruct (Ascii.eqb c sep); simpl; [discriminate|].
    intros H. rewrite (IH H). reflexivity.
Qed.

Lemma split_join sep (l : list string) :
  l <> [] -> Forall (fun x => sep_free sep x = true) l ->
  Py.split sep (Py.join (String sep EmptyString) l) = l.
Proof.
  unfold Py.join. induction l as [|x l IH]; [contradiction|]. intros _ Hall.
  apply Forall_cons in Hall as [Hx Hall].
  destruct l as [|y l].
  - simpl. apply split_sep_free. exact Hx.
  - change (String.concat (String sep "") (x :: y :: l))
      with (String.append x (String.append (String sep "")
                               (String.concat (String sep "") (y :: l)))).
    change (String.append (String sep "") (String.concat (String sep "") (y :: l)))
      with (String sep (String.concat (String sep "") (y :: l))).
    rewrite (split_app_sep _ _ _ Hx). f_equal. apply IH; [discriminate|exact Hall].
Qed.

Lemma filter_nonempty_id (es : list string) :
  Forall (fun x => x <> "" /\ sep_free "/" x = true) es ->
  List.filter (fun x => negb (String.eqb x "")) es = es.
Proof.
  induction 1 as [|x es [Hx _] _ IH]; [reflexivity|]. simpl.
  destruct (String.eqb_spec x ""); [contradiction|]. simpl. rewrite IH. reflexivity.
Qed.

(** X6. A pattern string put together from segments parses back to them:
    for segments that are not empty and hold no slash, joined by slashes,
    with or without a leading and a trailing slash, the pattern has these
    segments as its elements and is anchored exactly when the leading
    slash was put.  (Without segments, only the string made of one slash
    is a pattern.) *)
Theorem pattern_of_segments (rooted trailing : bool) (es : list string) :
  Forall (fun x => x <> "" /\ sep_free "/" x = true) es ->
  es <> [] \/ (rooted = true /\ trailing = true) ->
  let s := Py.join "/" ((if rooted then [""] else []) ++ es
                        ++ (if trailing then [""] else [])) in
  _DictSAXHandler._parse_generator_matches s
  = Returns (_GeneratorMatch.mk rooted es (length es) s).
Proof.
  intros Hes Hne s.
  set (l := (if rooted then [""] else []) ++ es ++ (if trailing then [""] else []))
    in *.
  assert (Hl : l <> []).
  { subst l. destruct Hne as [Hne|[-> ->]]; [|discriminate].
    destruct es; [contradiction|]. destruct rooted; discriminate. }
  assert (Hfree : Forall (fun x => sep_free "/" x = true) l).
  { subst l. apply Forall_app. split; [destruct rooted; repeat constructor|].
    apply Forall_app. split; [|destruct trailing; repeat constructor].
    eapply Forall_impl; [exact Hes|]. intros x [_ Hx]. exact Hx. }
  assert (Hsplit : Py.split "/" s = l) by (apply split_join; assumption).
  assert (Hfilter : List.filter (fun x => negb (String.eqb x "")) l = es).
  { subst l. rewrite !List.filter_app, (filter_nonempty_id _ Hes).
    destruct rooted, trailing; simpl; rewrite ?app_nil_r; reflexivity. }
  assert (Hs : s <> "").
  { intros Hs. rewrite Hs in Hsplit. simpl in Hsplit. subst l.
    destruct Hne as [Hne|[-> ->]].
    2:{ apply (f_equal length) in Hsplit. simpl in Hsplit.
        rewrite length_app in Hsplit. simpl in Hsplit. lia. }
    destruct es as [|x es]; [contradiction|].
    apply Forall_cons in Hes as [[Hx _] _].
    destruct rooted; simpl in Hsplit; [discriminate|].
    injection Hsplit as Hx' _. congruence. }
  assert (Hint : ~ empty_interior_segment (Py.split "/" s)).
  { rewrite Hsplit. intros (i & H0 & H1 & H2).
    assert (Hin : "" ∈ es).
    { subst l. destruct rooted.
      - destruct i as [|i]; [lia|]. simpl in H2, H1.
        apply lookup_app_Some in H2 as [H2|[Hlen H2]].
        + eapply list_elem_of_lookup_2. exact H2.
        + rewrite length_app in H1. destruct trailing; simpl in *; [lia|].
          rewrite lookup_nil in H2. discriminate.
      - simpl in H2, H1.
        apply lookup_app_Some in H2 as [H2|[Hlen H2]].
        + eapply list_elem_of_lookup_2. exact H2.
        + rewrite length_app in H1. destruct trailing; simpl in *; [lia|].
          rewrite lookup_nil in H2. discriminate. }
    rewrite Forall_forall in Hes. destruct (Hes "" Hin) as [Habs _]. congruence. }
  destruct (parse_generator_matches_outcomes s) as (_ & _ & Hok).
  specialize (Hok Hs Hint). cbv zeta in Hok. rewrite Hsplit, Hfilter in Hok.
  rewrite Hok. f_equal. f_equal.
  pose proof (split_head_empty s Hs) as Hhead. rewrite Hsplit in Hhead.
  destruct rooted.
  - apply Hhead. subst l. simpl. eauto.
  - destruct (Py.startswith "/" s); [|reflexivity].
    destruct (proj2 Hhead eq_refl) as [rest Hr]. subst l. simpl in Hr.
    destruct Hne as [Hne|[? _]]; [|discriminate].
    destruct es as [|x es]; [contradiction|].
    apply Forall_cons in Hes as [[Hx _] _]. simpl in Hr.
    injection Hr as Hx' _. congruence.
Qed.

Lemma pattern_of_segments_witness :
  _DictSAXHandler._parse_generator_matches "/a/b"
  = Returns (_GeneratorMatch.mk true ["a"; "b"] 2 "/a/b").
Proof.
  refine (pattern_of_segments true false ["a"; "b"] _ _).
  - repeat constructor; discriminate.
  - left. discriminate.
Defined.

(** ** The handler above the shallowest pattern *)

Lemma build_name_config s s' n :
  _DictSAXHandler.namespaces s' = _DictSAXHandler.namespaces s ->
  _DictSAXHandler.strip_namespace s' = _DictSAXHandler.strip_namespace s ->
  _DictSAXHandler.namespace_separator s' = _DictSAXHandler.namespace_separator s ->
  _DictSAXHandler._build_name s' n = _DictSAXHandler._build_name s n.
Proof.
  intros H1 H2 H3. unfold _DictSAXHandler._build_name. rewrite H1, H2, H3.
  reflexivity.
Qed.

Lemma attrs_to_dict_config s s' a :
  _DictSAXHandler.strip_namespace s' = _DictSAXHandler.strip_namespace s ->
  _DictSAXHandler.namespace_separator s' = _DictSAXHandler.namespace_separator s ->
  _DictSAXHandler._attrs_to_dict s' a = _DictSAXHandler._attrs_to_dict s a.
Proof.
  intros H2 H3. unfold _DictSAXHandler._attrs_to_dict. rewrite H2, H3.
  reflexivity.
Qed.

(** One event while ignoring. *)
Lemma start_element_ignored s n a a' (h : heap) :
  _DictSAXHandler.in_ignore s = true ->
  (Z.of_nat (S (length (_DictSAXHandler.path s))) < _DictSAXHandler.match_depth s)%Z ->
  _DictSAXHandler._attrs_to_dict s a = Returns a' ->
  _DictSAXHandler.start_element s n a h
  = Ok (_DictSAXHandler.set_path
          (_DictSAXHandler.path s ++ [_DictSAXHandler._build_name s n])
          (_DictSAXHandler.set_processing_started true s)) h.
Proof.
  intros Hi Hd Ha. unfold _DictSAXHandler.start_element.
  rewrite (attrs_to_dict_config s (_DictSAXHandler.set_processing_started true s) a eq_refl eq_refl), Ha.
  cbn -[Z.of_nat Z.leb _DictSAXHandler._build_name]. unfold bind, ret.
  rewrite Hi. cbn -[Z.of_nat Z.leb _DictSAXHandler._build_name].
  rewrite length_app. cbn [length].
  destruct (Z.leb_spec (_DictSAXHandler.match_depth s)
              (Z.of_nat (length (_DictSAXHandler.path s) + 1))) as [Hle|Hlt];
    [lia|].
  cbn -[Z.of_nat _DictSAXHandler._build_name]. rewrite Hi.
  reflexivity.
Qed.

Lemma characters_ignored s data (h : heap) :
  _DictSAXHandler.in_ignore s = true ->
  _DictSAXHandler.characters s data h
  = Ok (_DictSAXHandler.set_processing_started true s) h.
Proof.
  intros Hi. unfold _DictSAXHandler.characters. cbn. rewrite Hi. reflexivity.
Qed.

Lemma end_element_ignored s n (h : heap) :
  _DictSAXHandler.in_ignore s = true ->
  _DictSAXHandler.end_element s n h
  = match _DictSAXHandler.path s with
    | [] => Raise Py.IndexError h
    | _ => Ok (_DictSAXHandler.set_path (removelast (_DictSAXHandler.path s)) s) h
    end.
Proof.
  intros Hi. unfold _DictSAXHandler.end_element. rewrite Hi. cbn [negb].
  unfold bind at 1. unfold ret at 1.
  destruct (_DictSAXHandler.path s) as [|x p] eqn:Hp; [reflexivity|].
  unfold bind, ret.
  assert (Hs : forall s0, _DictSAXHandler.in_ignore s0 = true ->
                 _DictSAXHandler.set_in_ignore true s0 = s0).
  { intros s0 H0. destruct s0. simpl in H0. subst. reflexivity. }
  match goal with
  | |- context [if ?b then _DictSAXHandler.set_in_ignore true ?s0 else ?s0] =>
      replace (if b then _DictSAXHandler.set_in_ignore true s0 else s0) with s0
        by (destruct b; [rewrite Hs; [reflexivity|exact Hi]|reflexivity])
  end.
  cbn [_DictSAXHandler.in_ignore _DictSAXHandler.set_path]. rewrite Hi.
  reflexivity.
Qed.

Lemma path_after_config s s' p es :
  _DictSAXHandler.namespaces s' = _DictSAXHandler.namespaces s ->
  _DictSAXHandler.strip_namespace s' = _DictSAXHandler.strip_namespace s ->
  _DictSAXHandler.namespace_separator s' = _DictSAXHandler.namespace_separator s ->
  path_after s' p es = path_after s p es.
Proof.
  intros H1 H2 H3. revert p. induction es as [|[n a|n|d] es IH]; intros p; simpl;
    [reflexivity| |apply IH..].
  rewrite (build_name_config s s' n H1 H2 H3). apply IH.
Qed.

Lemma attrs_convert_config s s' es :
  _DictSAXHandler.strip_namespace s' = _DictSAXHandler.strip_namespace s ->
  _DictSAXHandler.namespace_separator s' = _DictSAXHandler.namespace_separator s ->
  attrs_convert s es -> attrs_convert s' es.
Proof.
  intros H2 H3. unfold attrs_convert. intros Hall.
  eapply Forall_impl; [exact Hall|].
  intros [n a|n|d]; [|trivial..].
  rewrite (attrs_to_dict_config s s' a H2 H3). trivial.
Qed.

(** X7. While the handler ignores (a generator is at work and the open
    elements are fewer than the depth of its shallowest pattern), the
    events of elements that stay above that depth build nothing: the
    callbacks return, the store is as it was, and the handler differs only
    by its path and by having noted that processing has started.  (The
    attributes of the start events must convert, which they always do
    unless namespaces are stripped.) *)
Theorem events_above_patterns_build_nothing (s : _DictSAXHandler.t)
    (es : list event) (h : heap) :
  _DictSAXHandler.in_ignore s = true ->
  stays_above (length (_DictSAXHandler.path s)) (_DictSAXHandler.match_depth s) es
  = true ->
  attrs_convert s es ->
  Parser.callbacks s es h
  = Ok (_DictSAXHandler.set_path (path_after s (_DictSAXHandler.path s) es)
          (_DictSAXHandler.set_processing_started
             (_DictSAXHandler.processing_started s || existsb is_content es) s))
       h.
Proof.
  revert s. induction es as [|e es IH]; intros s Hi Hd Ha.
  - simpl. rewrite orb_false_r. destruct s; reflexivity.
  - apply Forall_cons in Ha as [He Ha]. destruct e as [n a|n|d].
    + destruct He as [a' He]. cbn [stays_above] in Hd.
      apply andb_true_iff in Hd as [Hlt Hd]. apply Z.ltb_lt in Hlt.
      cbn [Parser.callbacks Parser.dispatch].
      rewrite (bind_eval _ _ _ _ _ (start_element_ignored s n a a' h Hi Hlt He)).
      set (s1 := _DictSAXHandler.set_path _ _).
      rewrite (IH s1).
      * rewrite (path_after_config s s1) by reflexivity.
        subst s1. destruct s. cbn -[_DictSAXHandler._build_name].
        rewrite orb_true_r. reflexivity.
      * subst s1. destruct s. exact Hi.
      * subst s1. destruct s. cbn -[_DictSAXHandler._build_name] in *.
        rewrite length_app, Nat.add_1_r.
        exact Hd.
      * apply (attrs_convert_config s); [subst s1; destruct s; reflexivity..|exact Ha].
    + cbn [stays_above] in Hd.
      destruct (_DictSAXHandler.path s) as [|x p] eqn:Hp; [discriminate|].
      cbn [Parser.callbacks Parser.dispatch].
      pose proof (end_element_ignored s n h Hi) as Hend. rewrite Hp in Hend.
      rewrite (bind_eval _ _ _ _ _ Hend).
      set (s1 := _DictSAXHandler.set_path _ _).
      rewrite (IH s1).
      * rewrite (path_after_config s s1) by reflexivity.
        subst s1. destruct s. cbn in *. subst. reflexivity.
      * subst s1. destruct s. exact Hi.
      * subst s1. destruct s.
        cbn [_DictSAXHandler.path _DictSAXHandler.match_depth
             _DictSAXHandler.set_path] in Hp, Hd |- *. subst.
        assert (Hl : length (removelast (x :: p)) = length p).
        { clear. revert x. induction p as [|y p IHp]; intros x; [reflexivity|].
          change (removelast (x :: y :: p)) with (x :: removelast (y :: p)).
          cbn [length]. rewrite IHp. reflexivity. }
        rewrite Hl. exact Hd.
      * apply (attrs_convert_config s); [subst s1; destruct s; reflexivity..|exact Ha].
    + cbn [stays_above] in Hd.
      cbn [Parser.callbacks Parser.dispatch].
      rewrite (bind_eval _ _ _ _ _ (characters_ignored s d h Hi)).
      set (s1 := _DictSAXHandler.set_processing_started _ _).
      rewrite (IH s1).
      * rewrite (path_after_config s s1) by reflexivity.
        subst s1. destruct s. cbn. rewrite orb_true_r. reflexivity.
      * subst s1. destruct s. exact Hi.
      * subst s1. destruct s. exact Hd.
      * apply (attrs_convert_config s); [subst s1; destruct s; reflexivity..|exact Ha].
Qed.

Lemma events_above_patterns_build_nothing_witness :
  let s := initial_handler
             (_DictSAXHandler.with_generator (Some (inr ["/a/b/c"]))
                _DictSAXHandler.defaults)
             [_GeneratorMatch.mk true ["a"; "b"; "c"] 3 "/a/b/c"] 0 in
  let es := [StartElement "a" [("id", "1")]; CharacterData "x";
             StartElement "b" []; EndElement "b"; EndElement "a"] in
  Parser.callbacks s es [empty_dict]
  = Ok (_DictSAXHandler.set_processing_started true s) [empty_dict].
Proof.
  intros s es.
  assert (Ha : attrs_convert s es).
  { repeat constructor; eexists; reflexivity. }
  exact (events_above_patterns_build_nothing s es [empty_dict] eq_refl eq_refl Ha).
Defined.

(** ** Attribute lists and names *)

Lemma attrs_fold_get (a d0 : list (string * string)) k :
  OrderedDict.get k
    (fold_left (fun d kv => OrderedDict.set (fst kv) (snd kv) d) a d0)
  = match OrderedDict.get k (rev a) with
    | Some v => Some v
    | None => OrderedDict.get k d0
    end.
Proof.
  revert d0. induction a as [|[k0 v0] a IH]; intros d0; simpl; [reflexivity|].
  rewrite IH. clear IH.
  assert (Hrev : OrderedDict.get k (rev a ++ [(k0, v0)])
                 = match OrderedDict.get k (rev a) with
                   | Some v => Some v
                   | None => if decide (k0 = k) then Some v0 else None
                   end).
  { induction (rev a) as [|[k1 v1] r IHr]; simpl; [reflexivity|].
    destruct (decide (k1 = k)); [reflexivity|exact IHr]. }
  rewrite Hrev. destruct (OrderedDict.get k (rev a)); [reflexivity|].
  destruct (decide (k0 = k)) as [->|Hne].
  - apply od_get_set_eq.
  - apply od_get_set_ne. congruence.
Qed.

Lemma attrs_fold_NoDup (a d0 : list (string * string)) :
  NoDup (OrderedDict.keys d0) ->
  NoDup (OrderedDict.keys
           (fold_left (fun d kv => OrderedDict.set (fst kv) (snd kv) d) a d0)).
Proof.
  revert d0. induction a as [|[k0 v0] a IH]; intros d0 Hnd; simpl; [exact Hnd|].
  apply IH. apply od_set_NoDup. exact Hnd.
Qed.

Lemma attrs_fold_distinct (a d0 : list (string * string)) :
  NoDup (OrderedDict.keys d0 ++ map fst a) ->
  fold_left (fun d kv => OrderedDict.set (fst kv) (snd kv) d) a d0 = d0 ++ a.
Proof.
  revert d0. induction a as [|[k0 v0] a IH]; intros d0 Hnd; simpl.
  - rewrite app_nil_r. reflexivity.
  - assert (Habs : OrderedDict.get k0 d0 = None).
    { apply od_get_None_keys. intros Hin.
      apply NoDup_app in Hnd as (_ & Hdis & _). apply (Hdis k0 Hin). left. }
    rewrite (od_set_absent _ _ _ Habs), IH.
    + rewrite <- app_assoc. reflexivity.
    + unfold OrderedDict.keys. rewrite map_app. simpl. rewrite <- app_assoc.
      exact Hnd.
Qed.

(** X8. Unless namespaces are stripped, [_attrs_to_dict] returns for every
    attribute list: the names of the result are unique, each name has the
    value it has last in the list, and a list whose names are unique comes
    back as it is, in its order. *)
Theorem attrs_to_dict_keeps_attributes (s : _DictSAXHandler.t)
    (a : list (string * string)) :
  _DictSAXHandler.strip_namespace s = false ->
  exists d,
    _DictSAXHandler._attrs_to_dict s a = Returns d
    /\ NoDup (OrderedDict.keys d)
    /\ (forall k, OrderedDict.get k d = OrderedDict.get k (rev a))
    /\ (NoDup (map fst a) -> d = a).
Proof.
  intros Hs. unfold _DictSAXHandler._attrs_to_dict. rewrite Hs.
  eexists. split; [reflexivity|]. unfold _DictSAXHandler.attrs_of_pairs.
  split; [apply attrs_fold_NoDup; constructor|]. split.
  - intros k. rewrite attrs_fold_get. simpl.
    destruct (OrderedDict.get k (rev a)); reflexivity.
  - intros Hnd. rewrite attrs_fold_distinct; [reflexivity|exact Hnd].
Qed.

Lemma attrs_to_dict_keeps_attributes_witness :
  _DictSAXHandler._attrs_to_dict
    (initial_handler _DictSAXHandler.defaults [] 0)
    [("id", "1"); ("lang", "en"); ("id", "2")]
  = Returns [("id", "2"); ("lang", "en")].
Proof.
  destruct (attrs_to_dict_keeps_attributes
              (initial_handler _DictSAXHandler.defaults [] 0)
              [("id", "1"); ("lang", "en"); ("id", "2")] eq_refl)
    as (d & Hd & _).
  rewrite Hd. f_equal. injection Hd as <-. reflexivity.
Defined.

Lemma prefix_char c a s' :
  String.prefix (String c "") (String a s') = bool_decide (c = a).
Proof.
  change (String.prefix (String c "") (String a s'))
    with (if Ascii.ascii_dec c a then String.prefix "" s' else false).
  destruct (Ascii.ascii_dec c a) as [->|Hne].
  - rewrite bool_decide_eq_true_2 by reflexivity. destruct s'; reflexivity.
  - rewrite bool_decide_eq_false_2 by exact Hne. reflexivity.
Qed.

(** [rfind] for a separator of one character: nothing found in a string
    without it, and otherwise the place of its last occurrence. *)
Lemma rfind_from_char c s : forall i,
  match Py.rfind_from (String c "") s i with
  | None => sep_free c s = true
  | Some j =>
      exists pre post,
        s = String.append pre (String c post)
        /\ j = i + String.length pre
        /\ sep_free c post = true
  end.
Proof.
  induction s as [|a s IH]; intros i; [reflexivity|].
  cbn [Py.rfind_from]. specialize (IH (S i)).
  destruct (Py.rfind_from (String c "") s (S i)) as [j|].
  - destruct IH as (pre & post & -> & -> & Hfree).
    exists (String a pre), post. split; [reflexivity|]. split; [simpl; lia|exact Hfree].
  - rewrite prefix_char. destruct (decide (c = a)) as [->|Hne].
    + rewrite bool_decide_eq_true_2 by reflexivity.
      exists "", s. split; [reflexivity|]. split; [simpl; lia|exact IH].
    + rewrite bool_decide_eq_false_2 by exact Hne. simpl.
      destruct (Ascii.eqb_spec a c) as [->|_]; [congruence|]. exact IH.
Qed.

Lemma substring_prefix pre r :
  String.substring 0 (String.length pre) (String.append pre r) = pre.
Proof.
  induction pre as [|a pre IH]; simpl.
  - destruct r; reflexivity.
  - rewrite IH. reflexivity.
Qed.

Lemma substring_all s : String.substring 0 (String.length s) s = s.
Proof. induction s as [|a s IH]; simpl; [reflexivity|]. rewrite IH. reflexivity. Qed.

Lemma after_suffix pre c post :
  _DictSAXHandler.after (String.length pre) (String.append pre (String c post))
  = post.
Proof.
  unfold _DictSAXHandler.after. induction pre as [|a pre IH]; simpl.
  - rewrite Nat.sub_0_r. apply substring_all.
  - exact IH.
Qed.

Lemma rfind_sep_free c s :
  sep_free c s = true -> Py.rfind (String c "") s = None.
Proof.
  intros Hfree. unfold Py.rfind.
  pose proof (rfind_from_char c s 0) as H.
  destruct (Py.rfind_from (String c "") s 0) as [j|]; [|reflexivity].
  destruct H as (pre & post & -> & _ & _). exfalso.
  induction pre as [|a pre IH]; simpl in Hfree.
  - rewrite Ascii.eqb_refl in Hfree. discriminate.
  - apply andb_true_iff in Hfree as [_ Hfree]. exact (IH Hfree).
Qed.

(** X9. With [strip_namespace] and a separator of one character,
    [_build_name] returns the part of the name that follows its last
    separator: the name ends with the separator and the result, the result
    holds no separator, a name without separator comes back as it is, and
    applying [_build_name] to the result changes nothing. *)
Theorem build_name_strips_namespace (s : _DictSAXHandler.t) (c : ascii)
    (full_name : string) :
  _DictSAXHandler.strip_namespace s = true ->
  _DictSAXHandler.namespace_separator s = String c "" ->
  let name := _DictSAXHandler._build_name s full_name in
  sep_free c name = true
  /\ (sep_free c full_name = true -> name = full_name)
  /\ (sep_free c full_name = false ->
      exists namespace, full_name = String.append namespace (String c name))
  /\ _DictSAXHandler._build_name s name = name.
Proof.
  intros Hstrip Hsep name.
  assert (Hfree_id : forall n, sep_free c n = true ->
                       _DictSAXHandler._build_name s n = n).
  { intros n Hn. unfold _DictSAXHandler._build_name.
    rewrite Hstrip, Hsep, (rfind_sep_free _ _ Hn), andb_false_r. reflexivity. }
  assert (Hname : sep_free c name = true
                  /\ (sep_free c full_name = false ->
                      exists namespace,
                        full_name = String.append namespace (String c name))).
  { subst name. unfold _DictSAXHandler._build_name.
    rewrite Hstrip, Hsep, andb_false_r. unfold Py.rfind.
    pose proof (rfind_from_char c full_name 0) as H.
    destruct (Py.rfind_from (String c "") full_name 0) as [j|].
    - destruct H as (pre & post & -> & -> & Hfree). simpl.
      rewrite after_suffix. split; [exact Hfree|]. intros _. exists pre. reflexivity.
    - split; [exact H|]. rewrite H. discriminate. }
  destruct Hname as [Hfree Hsplit].
  split; [exact Hfree|]. split; [apply Hfree_id|]. split; [exact Hsplit|].
  apply Hfree_id. exact Hfree.
Qed.

Lemma build_name_strips_namespace_witness :
  let s := initial_handler
             (_DictSAXHandler.mk_kwargs true true ":" None true "" None) [] 0 in
  sep_free ":" (_DictSAXHandler._build_name s "junos:name") = true
  /\ exists namespace,
       "junos:name"
       = String.append namespace
           (String ":" (_DictSAXHandler._build_name s "junos:name")).
Proof.
  intros s.
  destruct (build_name_strips_namespace s ":" "junos:name" eq_refl eq_refl)
    as (H1 & _ & H3 & _).
  split; [exact H1|exact (H3 eq_refl)].
Defined.

(** ** Finite trees *)

Lemma heights_mono (f g : ref -> option nat) l k :
  (forall c a, c ∈ l -> f c = Some a -> g c = Some a) ->
  heights f l = Some k -> heights g l = Some k.
Proof.
  revert k. induction l as [|c l IH]; intros k Hfg; simpl; [auto|].
  destruct (f c) as [a|] eqn:Ec; [|discriminate].
  destruct (heights f l) as [b|] eqn:El; [|discriminate].
  intros [= <-]. rewrite (Hfg c a); [|left|exact Ec].
  rewrite (IH b); [reflexivity| |reflexivity].
  intros c' a' Hin. apply Hfg. right. exact Hin.
Qed.

Lemma height_mono (h : heap) b : forall n k,
  height b h n = Some k -> height (S b) h n = Some k.
Proof.
  induction b as [|b IH]; intros n k; [discriminate|].
  cbn [height]. destruct (h !! n) as [nd|]; [|discriminate].
  apply heights_mono. intros c a _. apply IH.
Qed.

Lemma height_mono_le (h : heap) b b' n k :
  b <= b' -> height b h n = Some k -> height b' h n = Some k.
Proof.
  induction 1 as [|b' _ IH]; [auto|]. intros Hk. apply height_mono, IH, Hk.
Qed.

Lemma height_fun (h : heap) b b' n k k' :
  height b h n = Some k -> height b' h n = Some k' -> k = k'.
Proof.
  intros H1 H2.
  pose proof (height_mono_le h b (Nat.max b b') n k (Nat.le_max_l _ _) H1) as H1'.
  pose proof (height_mono_le h b' (Nat.max b b') n k' (Nat.le_max_r _ _) H2) as H2'.
  congruence.
Qed.

Lemma height_valid (h : heap) b n k : height b h n = Some k -> n < length h.
Proof.
  destruct b as [|b]; [discriminate|]. cbn [height].
  destruct (h !! n) as [nd|] eqn:E; [|discriminate].
  intros _. apply lookup_lt_Some in E. exact E.
Qed.

(** Children are lower, and one of them is just one lower. *)
Lemma heights_child (f : ref -> option nat) l k :
  heights f l = Some k ->
  (forall c, c ∈ l -> exists a, f c = Some a /\ a < k)
  /\ (forall k', k = S k' -> exists c, c ∈ l /\ f c = Some k').
Proof.
  revert k. induction l as [|c l IH]; intros k; simpl.
  - intros [= <-]. split; [intros c Hc; inversion Hc|discriminate].
  - destruct (f c) as [a|] eqn:Ec; [|discriminate].
    destruct (heights f l) as [b|] eqn:El; [|discriminate].
    intros [= <-]. destruct (IH b eq_refl) as [IH1 IH2]. split.
    + intros c' Hc'. apply elem_of_cons in Hc' as [->|Hc'].
      * exists a. split; [exact Ec|lia].
      * destruct (IH1 c' Hc') as (a' & Ha' & Hlt). exists a'. split; [exact Ha'|lia].
    + intros k' Hk'. destruct (Nat.max_spec (S a) b) as [[Hlt Hm]|[Hle Hm]].
      * destruct b as [|b']; [lia|]. destruct (IH2 b' eq_refl) as (c' & Hc' & Hf).
        exists c'. split; [right; exact Hc'|]. rewrite Hf. f_equal. lia.
      * exists c. split; [left|]. rewrite Ec. f_equal. lia.
Qed.

(** Below a node of height [k] there is a node of every smaller height. *)
Lemma height_chain (h : heap) k : forall b n,
  height b h n = Some k ->
  exists l, length l = S k /\ NoDup l
    /\ (forall x, x ∈ l -> exists bx kx, height bx h x = Some kx /\ kx <= k)
    /\ (forall x, x ∈ l -> x < length h).
Proof.
  induction k as [|k IH]; intros b n Hn.
  - exists [n]. split; [reflexivity|]. split; [apply NoDup_singleton|]. split.
    + intros x Hx. apply list_elem_of_singleton in Hx as ->. eauto.
    + intros x Hx. apply list_elem_of_singleton in Hx as ->.
      eapply height_valid. exact Hn.
  - destruct b as [|b]; [discriminate|]. cbn [height] in Hn.
    destruct (h !! n) as [nd|] eqn:E; [|discriminate].
    destruct (heights_child _ _ _ Hn) as [_ Hc].
    destruct (Hc k eq_refl) as (c & _ & Hck).
    destruct (IH b c Hck) as (l & Hlen & Hnd & Hle & Hval).
    exists (n :: l). split; [simpl; lia|]. split.
    + apply NoDup_cons. split; [|exact Hnd]. intros Hin.
      destruct (Hle n Hin) as (bx & kx & Hx & Hkx).
      assert (Hsk : height (S b) h n = Some (S k)) by (cbn [height]; rewrite E; exact Hn).
      pose proof (height_fun _ _ _ _ _ _ Hx Hsk). lia.
    + split.
      * intros x Hx. apply elem_of_cons in Hx as [->|Hx].
        -- exists (S b), (S k). split; [cbn [height]; rewrite E; exact Hn|lia].
        -- destruct (Hle x Hx) as (bx & kx & Hx' & Hkx). exists bx, kx. split; [exact Hx'|lia].
      * intros x Hx. apply elem_of_cons in Hx as [->|Hx]; [|exact (Hval x Hx)].
        apply lookup_lt_Some in E. exact E.
Qed.

(** The height of a tree is less than the number of objects. *)
Lemma height_lt_store (h : heap) b n k :
  height b h n = Some k -> k < length h.
Proof.
  intros Hn. destruct (height_chain h k b n Hn) as (l & Hlen & Hnd & _ & Hval).
  assert (Hincl : incl l (seq 0 (length h))).
  { intros x Hx. apply in_seq. split; [lia|]. simpl.
    apply Hval. apply list_elem_of_In. exact Hx. }
  apply NoDup_ListNoDup in Hnd.
  pose proof (NoDup_incl_length Hnd Hincl) as Hle. rewrite length_seq in Hle. lia.
Qed.

Lemma heights_total (f : ref -> option nat) l :
  (forall c, c ∈ l -> exists a, f c = Some a) -> exists k, heights f l = Some k.
Proof.
  induction l as [|c l IH]; intros Hall; simpl; [eauto|].
  destruct (Hall c) as [a Ha]; [left|]. rewrite Ha.
  destruct IH as [b Hb]; [intros c' Hc'; apply Hall; right; exact Hc'|].
  rewrite Hb. eauto.
Qed.

Lemma tree_height (h : heap) n : tree h n -> exists b k, height b h n = Some k.
Proof.
  induction 1 as [n nd Hn _ IH].
  assert (Hb : exists b, forall c, c ∈ children nd ->
                 exists a, height b h c = Some a).
  { induction (children nd) as [|c l IHl].
    - exists 0. intros c Hc. inversion Hc.
    - destruct (IH c) as (bc & kc & Hc); [left|].
      destruct IHl as [bl Hl]; [intros c' Hc'; apply IH; right; exact Hc'|].
      exists (Nat.max bc bl). intros c' Hc'. apply elem_of_cons in Hc' as [->|Hc'].
      + exists kc. eapply height_mono_le; [apply Nat.le_max_l|exact Hc].
      + destruct (Hl c' Hc') as [a Ha]. exists a.
        eapply height_mono_le; [apply Nat.le_max_r|exact Ha]. }
  destruct Hb as [b Hb]. destruct (heights_total _ _ Hb) as [k Hk].
  exists (S b), k. cbn [height]. rewrite Hn. exact Hk.
Qed.

Lemma tree_height_lt (h : heap) n :
  tree h n -> exists b k, height b h n = Some k /\ k < length h.
Proof.
  intros Ht. destruct (tree_height h n Ht) as (b & k & Hk).
  exists b, k. split; [exact Hk|]. eapply height_lt_store. exact Hk.
Qed.

Lemma below_inv (h : heap) n nd x :
  below h n x -> h !! n = Some nd ->
  x = n \/ exists c, c ∈ children nd /\ below h c x.
Proof.
  intros Hb Hn. inversion Hb as [|n' nd' c x' Hn' Hc Hcx]; subst.
  - left. reflexivity.
  - right. exists c. split; [congruence|exact Hcx].
Qed.


(** ** Serializer *)























(** ** Searching by tag *)

Lemma find_in_spec (f : ref -> list ref * ending) (l : list ref) :
  (forall c, c ∈ l -> exists r, f c = (r, Finished)) ->
  exists rs, find_in f l = (rs, Finished)
    /\ forall x, x ∈ rs <-> exists c r, c ∈ l /\ f c = (r, Finished) /\ x ∈ r.
Proof.
  induction l as [|c l IH]; intros Hall; simpl.
  - exists []. split; [reflexivity|]. intros x. split.
    + intros Hx. inversion Hx.
    + intros (c & r & Hc & _). inversion Hc.
  - destruct (Hall c) as [r Hr]; [left|]. rewrite Hr.
    destruct IH as (rs & Hrs & Hspec); [intros c' Hc'; apply Hall; right; exact Hc'|].
    rewrite Hrs. exists (r ++ rs). split; [reflexivity|]. intros x.
    rewrite elem_of_app, Hspec. split.
    + intros [Hx|(c' & r' & Hc' & Hr' & Hx)].
      * exists c, r. split; [left|]. auto.
      * exists c', r'. split; [right; exact Hc'|]. auto.
    + intros (c' & r' & Hc' & Hr' & Hx). apply elem_of_cons in Hc' as [->|Hc'].
      * left. congruence.
      * right. exists c', r'. auto.
Qed.

(** The loop over the children ends as its first child that does not
    finish does. *)
Lemma find_in_ends (f : ref -> list ref * ending) (l : list ref) :
  (forall c, c ∈ l ->
     snd (f c) = Finished \/ snd (f c) = Raised Py.RecursionError) ->
  snd (find_in f l) = Finished \/ snd (find_in f l) = Raised Py.RecursionError.
Proof.
  induction l as [|c l IH]; intros Hall; simpl; [left; reflexivity|].
  pose proof (Hall c ltac:(left)) as Hc. destruct (f c) as [r e].
  simpl in Hc. destruct Hc as [Hc|Hc]; subst e.
  - destruct (find_in f l) as [rs e]. simpl in *.
    apply IH. intros c' Hc'. apply Hall. right. exact Hc'.
  - right. reflexivity.
Qed.

Lemma find_in_overflow (f : ref -> list ref * ending) (l : list ref) :
  (forall c, c ∈ l ->
     snd (f c) = Finished \/ snd (f c) = Raised Py.RecursionError) ->
  (exists c, c ∈ l /\ snd (f c) = Raised Py.RecursionError) ->
  snd (find_in f l) = Raised Py.RecursionError.
Proof.
  induction l as [|c l IH]; intros Hall (c' & Hc' & Hr); [inversion Hc'|].
  simpl. pose proof (Hall c ltac:(left)) as Hc. destruct (f c) as [r e] eqn:E.
  simpl in Hc. destruct Hc as [Hc|Hc]; subst e.
  - assert (Hin : c' ∈ l).
    { apply elem_of_cons in Hc' as [->|Hc']; [|exact Hc'].
      rewrite E in Hr. discriminate. }
    destruct (find_in f l) as [rs e]. simpl in *.
    apply IH; [intros c'' Hc''; apply Hall; right; exact Hc''|].
    exists c'. split; [exact Hin|exact Hr].
  - reflexivity.
Qed.

Lemma wanted_dict tags nd items ign top :
  Node.value nd = DICT items ign ->
  tag_in (Node.tag nd) tags
  && negb (ign || (match Node.tag nd with None => true | Some _ => false end && top))
  = wanted tags nd.
Proof.
  intros Hv. unfold wanted. rewrite Hv.
  destruct (Node.tag nd); simpl; [|reflexivity].
  rewrite orb_false_r. reflexivity.
Qed.

(** Room above the height of the tree is enough; what is found is wanted
    and lies in the tree, and a recursive search finds all of it. *)
Lemma find_rec_ok (h : heap) tags recursive : forall room b n k top,
  height b h n = Some k -> k < room ->
  exists l,
    _find_nodes_with_tag h tags recursive room n top = (l, Finished)
    /\ (forall x, x ∈ l ->
          below h n x /\ exists nd, h !! x = Some nd /\ wanted tags nd = true)
    /\ (recursive = true ->
        forall x nd, below h n x -> h !! x = Some nd -> wanted tags nd = true ->
          x ∈ l).
Proof.
  induction room as [|room IH]; intros b n k top Hk Hlt; [lia|].
  destruct b as [|b]; [discriminate|]. cbn [height] in Hk.
  cbn [_find_nodes_with_tag]. destruct (h !! n) as [nd|] eqn:En; [|discriminate].
  destruct (heights_child _ _ _ Hk) as [Hch _].
  assert (Hrec : forall c, c ∈ children nd -> forall t,
            exists l,
              _find_nodes_with_tag h tags recursive room c t = (l, Finished)
              /\ (forall x, x ∈ l ->
                    below h c x
                    /\ exists xd, h !! x = Some xd /\ wanted tags xd = true)
              /\ (recursive = true ->
                  forall x xd, below h c x -> h !! x = Some xd ->
                    wanted tags xd = true -> x ∈ l)).
  { intros c Hc t. destruct (Hch c Hc) as (a & Ha & Hak).
    apply (IH b c a t Ha). lia. }
  assert (Hbelow : forall x xd, below h n x -> h !! x = Some xd ->
            wanted tags xd = true ->
            (x = n /\ xd = nd) \/ exists c, c ∈ children nd /\ below h c x).
  { intros x xd Hb Hx Hw. destruct (below_inv h n nd x Hb En) as [->|Hc].
    - left. split; [reflexivity|congruence].
    - right. exact Hc. }
  unfold children in Hrec, Hbelow, Hch.
  destruct (Node.value nd) as [s|items ign|items] eqn:Ev.
  - (* a leaf *)
    eexists. split; [reflexivity|]. split.
    + intros x Hx. destruct (tag_in (Node.tag nd) tags) eqn:Et; [|inversion Hx].
      apply list_elem_of_singleton in Hx as ->. split; [constructor|].
      exists nd. split; [exact En|]. unfold wanted. rewrite Ev. exact Et.
    + intros _ x xd Hb Hx Hw. destruct (Hbelow x xd Hb Hx Hw) as [[-> ->]|(c & Hc & _)].
      * unfold wanted in Hw. rewrite Ev in Hw. rewrite Hw. left.
      * inversion Hc.
  - (* a dictionary *)
    rewrite (wanted_dict tags nd items ign top Ev).
    set (t := if ign || _ then top else false).
    destruct (find_in_spec
                (fun c => _find_nodes_with_tag h tags recursive room c t)
                (map snd items)) as (rs & Hrs & Hspec).
    { intros c Hc. destruct (Hrec c Hc t) as (l & Hl & _). eauto. }
    assert (Hself : forall x, x ∈ (if wanted tags nd then [n] else []) ->
              below h n x /\ exists xd, h !! x = Some xd /\ wanted tags xd = true).
    { intros x Hx. destruct (wanted tags nd) eqn:Ew; [|inversion Hx].
      apply list_elem_of_singleton in Hx as ->. split; [constructor|]. eauto. }
    destruct (recursive || top && negb (wanted tags nd)) eqn:Eg.
    + rewrite Hrs. eexists. split; [reflexivity|]. split.
      * intros x Hx. apply elem_of_app in Hx as [Hx|Hx]; [exact (Hself x Hx)|].
        apply Hspec in Hx as (c & r & Hc & Hr & Hx).
        destruct (Hrec c Hc t) as (l & Hl & Hsound & _).
        assert (r = l) by congruence. subst r.
        destruct (Hsound x Hx) as [Hb Hw]. split; [|exact Hw].
        eapply below_child; [exact En| |exact Hb]. unfold children. rewrite Ev. exact Hc.
      * intros Hr x xd Hb Hx Hw. apply elem_of_app.
        destruct (Hbelow x xd Hb Hx Hw) as [[-> ->]|(c & Hc & Hcx)].
        -- left. rewrite Hw. left.
        -- right. apply Hspec. destruct (Hrec c Hc t) as (l & Hl & _ & Hcompl).
           exists c, l. split; [exact Hc|]. split; [exact Hl|].
           exact (Hcompl Hr x xd Hcx Hx Hw).
    + eexists. split; [reflexivity|]. split; [exact Hself|].
      intros Hr. rewrite Hr in Eg. discriminate.
  - (* a list *)
    destruct (find_in_spec
                (fun c => match h !! c with
                          | Some cn =>
                              _find_nodes_with_tag h tags recursive room c
                                (if tag_eqb (Node.tag cn) (Node.tag nd)
                                 then top else false)
                          | None => ([], Stuck)
                          end) items) as (rs & Hrs & Hspec).
    { intros c Hc. destruct (Hch c Hc) as (a & Ha & _).
      destruct (lookup_lt_is_Some_2 h c (height_valid _ _ _ _ Ha)) as [cn Hcn].
      rewrite Hcn. destruct (Hrec c Hc (if tag_eqb (Node.tag cn) (Node.tag nd)
                                         then top else false)) as (l & Hl & _).
      eauto. }
    exists rs. split; [exact Hrs|]. split.
    + intros x Hx. apply Hspec in Hx as (c & r & Hc & Hr & Hx).
      destruct (h !! c) as [cn|] eqn:Hcn; [|discriminate].
      destruct (Hrec c Hc (if tag_eqb (Node.tag cn) (Node.tag nd)
                           then top else false)) as (l & Hl & Hsound & _).
      assert (r = l) by congruence. subst r.
      destruct (Hsound x Hx) as [Hb Hw]. split; [|exact Hw].
      eapply below_child; [exact En| |exact Hb]. unfold children. rewrite Ev. exact Hc.
    + intros Hr x xd Hb Hx Hw.
      destruct (Hbelow x xd Hb Hx Hw) as [[-> ->]|(c & Hc & Hcx)].
      * unfold wanted in Hw. rewrite Ev in Hw. discriminate.
      * apply Hspec. destruct (Hch c Hc) as (a & Ha & _).
        destruct (lookup_lt_is_Some_2 h c (height_valid _ _ _ _ Ha)) as [cn Hcn].
        destruct (Hrec c Hc (if tag_eqb (Node.tag cn) (Node.tag nd)
                             then top else false)) as (l & Hl & _ & Hcompl).
        exists c, l. split; [exact Hc|]. rewrite Hcn. split; [exact Hl|].
        exact (Hcompl Hr x xd Hcx Hx Hw).
Qed.

(** On a tree a search ends by finishing or by running out of room. *)
Lemma find_rec_ends (h : heap) tags recursive : forall room b n k top,
  height b h n = Some k ->
  snd (_find_nodes_with_tag h tags recursive room n top) = Finished
  \/ snd (_find_nodes_with_tag h tags recursive room n top)
     = Raised Py.RecursionError.
Proof.
  induction room as [|room IH]; intros b n k top Hk; [right; reflexivity|].
  destruct b as [|b]; [discriminate|]. cbn [height] in Hk.
  cbn [_find_nodes_with_tag]. destruct (h !! n) as [nd|] eqn:En; [|discriminate].
  destruct (heights_child _ _ _ Hk) as [Hch _]. unfold children in Hch.
  destruct (Node.value nd) as [s|items ign|items] eqn:Ev.
  - left. reflexivity.
  - match goal with |- context [if ?g then _ else _] =>
      destruct g; [|left; reflexivity] end.
    match goal with |- context [find_in ?f ?l] =>
      pose proof (find_in_ends f l) as He; destruct (find_in f l) as [rs e] end.
    simpl in *. apply He. intros c Hc. destruct (Hch c Hc) as (a & Ha & _).
    eapply IH. exact Ha.
  - apply find_in_ends. intros c Hc. destruct (Hch c Hc) as (a & Ha & _).
    destruct (lookup_lt_is_Some_2 h c (height_valid _ _ _ _ Ha)) as [cn Hcn].
    rewrite Hcn. eapply IH. exact Ha.
Qed.

(** A recursive search of a tree that is as high as there is room, or
    higher, runs out of room. *)
Lemma find_rec_overflow (h : heap) tags : forall room b n k top,
  height b h n = Some k -> room <= k ->
  snd (_find_nodes_with_tag h tags true room n top) = Raised Py.RecursionError.
Proof.
  induction room as [|room IH]; intros b n k top Hk Hle; [reflexivity|].
  destruct b as [|b]; [discriminate|]. cbn [height] in Hk.
  cbn [_find_nodes_with_tag]. destruct (h !! n) as [nd|] eqn:En; [|discriminate].
  destruct (heights_child _ _ _ Hk) as [Hch Hone].
  destruct k as [|k']; [lia|].
  destruct (Hone k' eq_refl) as (c0 & Hc0 & Hk0).
  unfold children in Hch, Hc0.
  destruct (Node.value nd) as [s|items ign|items] eqn:Ev.
  - inversion Hc0.
  - cbn [orb].
    match goal with |- context [find_in ?f ?l] =>
      pose proof (find_in_overflow f l) as He; destruct (find_in f l) as [rs e] end.
    simpl in *. apply He.
    + intros c Hc. destruct (Hch c Hc) as (a & Ha & _).
      eapply find_rec_ends. exact Ha.
    + exists c0. split; [exact Hc0|]. apply (IH b c0 k' _ Hk0). lia.
  - apply find_in_overflow.
    + intros c Hc. destruct (Hch c Hc) as (a & Ha & _).
      destruct (lookup_lt_is_Some_2 h c (height_valid _ _ _ _ Ha)) as [cn Hcn].
      rewrite Hcn. eapply find_rec_ends. exact Ha.
    + exists c0. split; [exact Hc0|].
      destruct (lookup_lt_is_Some_2 h c0 (height_valid _ _ _ _ Hk0)) as [cn Hcn].
      rewrite Hcn. apply (IH b c0 k' _ Hk0). lia.
Qed.

(** X11. [find_nodes_with_tag] on a node with a tree of nodes of height
    [k] below it, called where there is room for [room] nested generators
    (a leaf alone has height 0 and needs room for one).  With [k < room]
    the search comes to an end and leaves the store as it is: every node
    it yields lies in the tree and is a leaf or a dictionary with one of
    the tags, never a list and never a dictionary marked [_ignore_level];
    a recursive search yields every such node of the tree; and
    [has_node_with_tag] tells whether anything is yielded.  With
    [room <= k] a recursive search raises [RecursionError].  Whatever the
    room, the search finishes or raises [RecursionError], the store
    unchanged. *)
Theorem find_nodes_with_tag_on_trees (h : heap) (self : ref) (tags : list string)
    (recursive : bool) (room b k : nat) :
  height b h self = Some k ->
  (k < room ->
   exists l,
     find_nodes_with_tag room self tags recursive h = Ok l h
     /\ has_node_with_tag room self tags recursive h
        = Ok (match l with [] => false | _ :: _ => true end) h
     /\ (forall x, x ∈ l ->
           below h self x
           /\ exists nd, h !! x = Some nd /\ wanted tags nd = true
                /\ class_of (Node.value nd) <> XMLListNode_cls)
     /\ (recursive = true ->
         forall x nd, below h self x -> h !! x = Some nd ->
           wanted tags nd = true -> x ∈ l))
  /\ (room <= k -> recursive = true ->
      find_nodes_with_tag room self tags recursive h = Raise Py.RecursionError h)
  /\ ((exists l, find_nodes_with_tag room self tags recursive h = Ok l h)
      \/ find_nodes_with_tag room self tags recursive h
         = Raise Py.RecursionError h).
Proof.
  intros Hk. split; [|split].
  - intros Hlt.
    destruct (find_rec_ok h tags recursive room b self k true Hk Hlt)
      as (l & Hl & Hsound & Hcompl).
    exists l. unfold find_nodes_with_tag, has_node_with_tag. rewrite Hl.
    split; [reflexivity|]. split; [destruct l; reflexivity|].
    split; [|exact Hcompl].
    intros x Hx. destruct (Hsound x Hx) as (Hb & nd & Hnd & Hw).
    split; [exact Hb|]. exists nd. split; [exact Hnd|]. split; [exact Hw|].
    unfold wanted in Hw. destruct (Node.value nd); discriminate.
  - intros Hle ->. unfold find_nodes_with_tag.
    pose proof (find_rec_overflow h tags room b self k true Hk Hle) as He.
    destruct (_find_nodes_with_tag h tags true room self true) as [l e].
    simpl in He. subst e. reflexivity.
  - unfold find_nodes_with_tag.
    destruct (find_rec_ends h tags recursive room b self k true Hk) as [He|He];
      destruct (_find_nodes_with_tag h tags recursive room self true) as [l e];
      simpl in He; subst e; [left; eauto|right; reflexivity].
Qed.

Lemma find_nodes_with_tag_on_trees_witness :
  let h := [Node.mk None Py.KNone [] "" None None (DICT [(Py.KStr "a", 1)] false);
            Node.mk (Some "a") (Py.KStr "a") [] "" (Some 0) None
              (DICT [(Py.KStr "name", 2)] false);
            Node.mk (Some "name") (Py.KStr "name") [] "x" (Some 1) None (CDATA "x")] in
  height 3 h 0 = Some 2
  /\ (exists l, find_nodes_with_tag 3 0 ["name"] true h = Ok l h /\ 2 ∈ l)
  /\ find_nodes_with_tag 2 0 ["name"] true h = Raise Py.RecursionError h.
Proof.
  intros h.
  assert (Hk : height 3 h 0 = Some 2) by reflexivity.
  split; [exact Hk|]. split.
  - destruct (find_nodes_with_tag_on_trees h 0 ["name"] true 3 3 2 Hk)
      as [Hok _].
    destruct (Hok ltac:(lia)) as (l & Hl & _ & _ & Hall).
    exists l. split; [exact Hl|].
    eapply (Hall eq_refl 2); [|reflexivity|reflexivity].
    eapply below_child; [reflexivity|left|].
    eapply below_child; [reflexivity|left|]. constructor.
  - destruct (find_nodes_with_tag_on_trees h 0 ["name"] true 2 3 2 Hk)
      as (_ & Hover & _).
    apply Hover; [lia|reflexivity].
Defined.

(** The examples of the method's documentation: two top-level [name]
    leaves under a tagless root are both found without recursion, and in
    [<a><a><a>foo</a><a>bar</a></a></a>] a recursive search for [a] finds
    the four nodes, outermost first, a search without recursion only the
    outermost.  Where there is room for three nested generators only, the
    recursive search of the second tree has yielded two nodes when it
    raises [RecursionError], so that [has_node_with_tag] still answers. *)
Example find_nodes_with_tag_documented :
  let h1 := [Node.mk None Py.KNone [] "" None None (DICT [(Py.KStr "name", 2)] false);
             Node.mk (Some "name") (Py.KStr "name") [] "tag #1" (Some 2) None
               (CDATA "tag #1");
             Node.mk (Some "name") (Py.KStr "name") [] "" (Some 0) None (LIST [1; 3]);
             Node.mk (Some "name") (Py.KStr "name") [] "tag #2" (Some 2) None
               (CDATA "tag #2")] in
  let h2 := [Node.mk None Py.KNone [] "" None None (DICT [(Py.KStr "a", 1)] false);
             Node.mk (Some "a") (Py.KStr "a") [] "" (Some 0) None
               (DICT [(Py.KStr "a", 2)] false);
             Node.mk (Some "a") (Py.KStr "a") [] "" (Some 1) None
               (DICT [(Py.KStr "a", 3)] false);
             Node.mk (Some "a") (Py.KStr "a") [] "" (Some 2) None (LIST [4; 5]);
             Node.mk (Some "a") (Py.KStr "a") [] "foo" (Some 3) None (CDATA "foo");
             Node.mk (Some "a") (Py.KStr "a") [] "bar" (Some 3) None (CDATA "bar")] in
  find_nodes_with_tag 3 0 ["name"] false h1 = Ok [1; 3] h1
  /\ find_nodes_with_tag 5 0 ["a"] true h2 = Ok [1; 2; 4; 5] h2
  /\ find_nodes_with_tag 2 0 ["a"] false h2 = Ok [1] h2
  /\ _find_nodes_with_tag h2 ["a"] true 3 0 true = ([1; 2], Raised Py.RecursionError)
  /\ find_nodes_with_tag 3 0 ["a"] true h2 = Raise Py.RecursionError h2
  /\ has_node_with_tag 3 0 ["a"] true h2 = Ok true h2.
Proof. repeat split; vm_compute; reflexivity. Qed.

(** ** Replacing a node in its parent *)

Lemma recursion_limit_pos : exists f, recursion_limit = S f.
Proof. exists 999. reflexivity. Qed.

Lemma all2_refl {A} (f : A -> A -> option bool) (l : list A) :
  (forall x, x ∈ l -> f x x = Some true) -> all2 f l l = Some true.
Proof.
  induction l as [|x l IH]; intros Hf; simpl; [reflexivity|].
  rewrite (Hf x) by left. apply IH. intros y Hy. apply Hf. right. exact Hy.
Qed.

Lemma node_eq_refl fuel (h : heap) a nd :
  h !! a = Some nd -> node_eq (S fuel) h a a = Some true.
Proof.
  intros Ha. cbn [node_eq]. rewrite Ha.
  destruct (Node.value nd) as [s|items ign|items].
  - rewrite String.eqb_refl. reflexivity.
  - rewrite Nat.eqb_refl. apply all2_refl. intros [k x] _. cbn [fst snd].
    rewrite bool_decide_eq_true_2 by reflexivity. rewrite Nat.eqb_refl. reflexivity.
  - rewrite Nat.eqb_refl. apply all2_refl. intros x _.
    rewrite Nat.eqb_refl. reflexivity.
Qed.

Lemma py_eq_refl (h : heap) a nd : h !! a = Some nd -> py_eq a a h = Ok true h.
Proof.
  intros Ha. unfold py_eq. destruct recursion_limit_pos as [f ->].
  rewrite (node_eq_refl f h a nd Ha). reflexivity.
Qed.

(** [_replace_node] on a node that sits in the slot of its key in a
    dictionary parent: the first plan finds it. *)
Lemma replace_node_in_dict (h : heap) self nd p pd items ign nn :
  h !! self = Some nd ->
  Node._replacement_node nd = None ->
  Node.parent nd = Some p ->
  h !! p = Some pd ->
  Node.value pd = DICT items ign ->
  OrderedDict.get (Node.key nd) items = Some self ->
  XMLNodeBase._replace_node self (Some nn) h
  = Ok tt (alter (fun n => match Node.value n with
                           | DICT its ig =>
                               Node.set_value
                                 (DICT (OrderedDict.set (Node.key nd) nn its) ig) n
                           | _ => n
                           end) p
             (alter (Node.set_replacement (Some (VRef nn))) self h)).
Proof.
  intros Hs Hr Hp Hpd Hv Hk.
  unfold XMLNodeBase._replace_node. cbn [XMLNodeBase._replace_node_rec].
  unfold XMLNodeBase._replace_node_body.
  rewrite (bind_eval _ _ _ _ _ (check_replacement_unset _ _ _ Hs Hr)).
  rewrite (bind_eval _ _ _ _ _ (rd_eval _ _ _ _ Hs)), Hp.
  rewrite (bind_eval _ _ _ _ _ (wr_eval _ _ _ _ Hs)).
  set (h1 := alter _ self h).
  assert (Hs1 : h1 !! self = Some (Node.set_replacement (Some (VRef nn)) nd)).
  { subst h1. rewrite list_lookup_alter_eq, Hs. reflexivity. }
  assert (Hp1 : exists pd1, h1 !! p = Some pd1 /\ Node.value pd1 = DICT items ign).
  { subst h1. destruct (decide (self = p)) as [->|Hne].
    - rewrite list_lookup_alter_eq, Hpd. eexists. split; [reflexivity|exact Hv].
    - rewrite list_lookup_alter_ne by exact Hne. eauto. }
  destruct Hp1 as (pd1 & Hp1 & Hv1).
  assert (Hc1 : XMLNodeBase.case1
                  (fun x => XMLNodeBase._replace_node_rec (length h) x None)
                  self (Some nn) p h1
                = Ok true (alter (fun n => match Node.value n with
                           | DICT its ig =>
                               Node.set_value
                                 (DICT (OrderedDict.set (Node.key nd) nn its) ig) n
                           | _ => n
                           end) p h1)).
  { unfold XMLNodeBase.case1.
    rewrite (bind_eval _ _ _ _ _ (rd_eval _ _ _ _ Hp1)), Hv1.
    rewrite (bind_eval _ _ _ _ _ (rd_eval _ _ _ _ Hs1)). cbn [Node.key Node.set_replacement].
    rewrite Hk. rewrite bind_assoc.
    rewrite (bind_eval _ _ _ _ _ (py_eq_refl _ _ _ Hs1)).
    unfold XMLNodeBase.dict_setitem.
    rewrite bind_assoc, (bind_eval _ _ _ _ _ (wr_eval _ _ _ _ Hp1)).
    reflexivity. }
  unfold try_except at 1. unfold bind at 1. rewrite Hc1. reflexivity.
Qed.

(** ** Changing the text of a leaf *)

Lemma cdata_set_in_dict (h : heap) n nd s p pd items ign text rn :
  h !! n = Some nd ->
  Node.value nd = CDATA s ->
  Node._replacement_node nd = None ->
  Node.parent nd = Some p ->
  h !! p = Some pd ->
  Node.value pd = DICT items ign ->
  OrderedDict.get (Node.key nd) items = Some n ->
  XMLCDATANode.set_cdata n text rn h
  = Ok (if rn then Some (length h) else None)
      (alter (fun x => match Node.value x with
                       | DICT its ig =>
                           Node.set_value
                             (DICT (OrderedDict.set (Node.key nd) (length h) its) ig) x
                       | _ => x
                       end) p
         (alter (Node.set_replacement (Some (VRef (length h)))) n
            (h ++ [Node.mk (Node.tag nd) (Node.key nd) (Node.xml_attrs nd) text
                     (Some p) None (CDATA text)]))).
Proof.
  intros Hn Hv Hr Hp Hpd Hpv Hk. unfold XMLCDATANode.set_cdata.
  rewrite (bind_eval _ _ _ _ _ (check_replacement_unset _ _ _ Hn Hr)).
  rewrite !(bind_eval _ _ _ _ _ (rd_eval _ _ _ _ Hn)).
  unfold XMLCDATANode.__init__, XMLNodeBase.__init__.
  unfold bind at 1. unfold alloc at 1. rewrite Hp.
  set (new := Node.mk _ _ _ _ _ _ _).
  assert (Hn' : (h ++ [new]) !! n = Some nd) by (apply lookup_app_l_Some; exact Hn).
  assert (Hpd' : (h ++ [new]) !! p = Some pd) by (apply lookup_app_l_Some; exact Hpd).
  rewrite (bind_eval _ _ _ _ _
             (replace_node_in_dict _ n nd p pd items ign (length h) Hn' Hr Hp Hpd' Hpv Hk)).
  reflexivity.
Qed.

Lemma unicode_leaf (h : heap) n nd s :
  h !! n = Some nd -> Node.value nd = CDATA s -> XMLCDATANode._unicode n h = Ok s h.
Proof.
  intros Hn Hv. unfold XMLCDATANode._unicode.
  rewrite (bind_eval _ _ _ _ _ (rd_eval _ _ _ _ Hn)), Hv. reflexivity.
Qed.

Lemma text_op_in_dict (h : heap) n nd s p pd items ign op rn :
  h !! n = Some nd ->
  Node.value nd = CDATA s ->
  Node._replacement_node nd = None ->
  Node.parent nd = Some p ->
  h !! p = Some pd ->
  Node.value pd = DICT items ign ->
  OrderedDict.get (Node.key nd) items = Some n ->
  run_text_op op n rn h
  = XMLCDATANode.set_cdata n (new_text op s) rn h.
Proof.
  intros Hn Hv Hr Hp Hpd Hpv Hk.
  assert (Hset : forall t, set_cdata n t rn h = XMLCDATANode.set_cdata n t rn h).
  { intros t. unfold set_cdata.
    rewrite (bind_eval _ _ _ _ _ (rd_eval _ _ _ _ Hn)), Hv. reflexivity. }
  destruct op as [t|t|c]; cbn [run_text_op new_text].
  - apply Hset.
  - unfold append_cdata.
    rewrite (bind_eval _ _ _ _ _ (rd_eval _ _ _ _ Hn)), Hv. cbn [class_of].
    unfold XMLCDATANode.append_cdata.
    rewrite (bind_eval _ _ _ _ _ (check_replacement_unset _ _ _ Hn Hr)).
    rewrite (bind_eval _ _ _ _ _ (unicode_leaf _ _ _ _ Hn Hv)). reflexivity.
  - unfold strip_cdata.
    rewrite (bind_eval _ _ _ _ _ (check_replacement_unset _ _ _ Hn Hr)).
    assert (Hg : get_cdata n h = Ok s h).
    { unfold get_cdata.
      rewrite (bind_eval _ _ _ _ _ (rd_eval _ _ _ _ Hn)), Hv. cbn [class_of].
      apply (unicode_leaf _ _ _ _ Hn Hv). }
    rewrite (bind_eval _ _ _ _ _ Hg). apply Hset.
Qed.

(** X12. [set_cdata], [append_cdata] and [strip_cdata] on a leaf that is
    not stale and sits under its key in a dictionary parent: the call
    returns a new leaf (when asked to return the node) that holds the new
    text (the text given, the old text followed by the text given, the old
    text stripped as [str.strip] does: of the characters given or, none
    given, of white space, U+0085 and U+00A0 included) and the tag, key,
    attributes and parent of the old leaf; the parent holds the new leaf in the place of the old one, its
    keys as they were; the old leaf is marked as replaced by the new one,
    so that [get_current_node] on it gives the new leaf; and no other
    object changes. *)
Theorem leaf_text_change_in_dict (h : heap) (n : ref) (nd : Node.t) (s : string)
    (p : ref) (pd : Node.t) (items : list (Py.key * ref)) (ign : bool)
    (op : text_op) (rn : bool) :
  h !! n = Some nd ->
  Node.value nd = CDATA s ->
  Node._replacement_node nd = None ->
  Node.parent nd = Some p ->
  h !! p = Some pd ->
  Node.value pd = DICT items ign ->
  OrderedDict.get (Node.key nd) items = Some n ->
  let m := length h in
  let text := new_text op s in
  exists h',
    run_text_op op n rn h = Ok (if rn then Some m else None) h'
    /\ length h' = S (length h)
    /\ h' !! m = Some (Node.mk (Node.tag nd) (Node.key nd) (Node.xml_attrs nd)
                         text (Some p) None (CDATA text))
    /\ h' !! n = Some (Node.set_replacement (Some (VRef m)) nd)
    /\ h' !! p = Some (Node.set_value
                         (DICT (OrderedDict.set (Node.key nd) m items) ign) pd)
    /\ OrderedDict.keys (OrderedDict.set (Node.key nd) m items)
       = OrderedDict.keys items
    /\ (forall x, x <> n -> x <> p -> x < length h -> h' !! x = h !! x)
    /\ XMLNodeBase.get_current_node n h' = Ok (VRef m) h'
    /\ get_cdata m h' = Ok text h'.
Proof.
  intros Hn Hv Hr Hp Hpd Hpv Hk m text.
  assert (Hnp : n <> p).
  { intros ->. rewrite Hn in Hpd. injection Hpd as ->. congruence. }
  pose proof (lookup_lt_Some _ _ _ Hn) as Hnl.
  pose proof (lookup_lt_Some _ _ _ Hpd) as Hpl.
  eexists. split.
  { rewrite (text_op_in_dict h n nd s p pd items ign op rn Hn Hv Hr Hp Hpd Hpv Hk).
    apply (cdata_set_in_dict h n nd s p pd items ign _ rn Hn Hv Hr Hp Hpd Hpv Hk). }
  fold m. fold text.
  set (new := Node.mk _ _ _ text _ _ _).
  set (h' := alter _ p _).
  assert (Hm : h' !! m = Some new).
  { subst h'. rewrite !list_lookup_alter_ne by (subst m; lia).
    subst m. rewrite lookup_app_r by lia. rewrite Nat.sub_diag. reflexivity. }
  assert (Hn' : h' !! n = Some (Node.set_replacement (Some (VRef m)) nd)).
  { subst h'. rewrite list_lookup_alter_ne by congruence.
    rewrite list_lookup_alter_eq, lookup_app_l, Hn by exact Hnl. reflexivity. }
  split; [subst h'; rewrite !length_alter, length_app; simpl; lia|].
  split; [exact Hm|]. split; [exact Hn'|]. split.
  { subst h'. rewrite list_lookup_alter_eq.
    rewrite list_lookup_alter_ne by exact Hnp.
    rewrite lookup_app_l, Hpd by exact Hpl. simpl. rewrite Hpv. reflexivity. }
  split; [apply od_keys_set_present; congruence|]. split.
  { intros x Hxn Hxp Hxl. subst h'.
    rewrite !list_lookup_alter_ne by congruence. apply lookup_app_l. exact Hxl. }
  split.
  - assert (He : ends_in h' 1 n (VRef m)).
    { eapply ends_step.
      - unfold replacement_of. rewrite Hn'. reflexivity.
      - apply ends_here. unfold replacement_of. rewrite Hm. reflexivity. }
    destruct (get_current_node_ends h' 1 n (VRef m) He)
      as (h2 & E2 & Hlen & Hother & Hself & _).
    rewrite E2. f_equal. apply list_eq. intros i.
    destruct (decide (i = n)) as [->|Hi]; [|apply Hother; exact Hi].
    destruct (Hself _ Hn') as [r Hr2]. rewrite Hr2, Hn'. f_equal.
    assert (Hrep : replacement_of h2 n = Some (Some (VRef m))).
    { pose proof E2 as E3. unfold XMLNodeBase.get_current_node in E3.
      rewrite (bind_eval _ _ _ _ _ (rd_eval _ _ _ _ Hn')) in E3.
      cbn [Node._replacement_node Node.set_replacement] in E3.
      apply bind_Ok in E3 as (u & h3 & _ & E3).
      apply bind_Ok in E3 as (r' & h4 & Hrd & E3).
      apply rd_Ok in Hrd as (-> & n4 & Hn4 & ->).
      destruct (Node._replacement_node n4) as [v|] eqn:Ev4; [|discriminate].
      injection E3 as -> ->. unfold replacement_of. rewrite Hn4. simpl.
      rewrite Ev4. reflexivity. }
    unfold replacement_of in Hrep. rewrite Hr2 in Hrep. simpl in Hrep.
    injection Hrep as ->. reflexivity.
  - unfold get_cdata. rewrite (bind_eval _ _ _ _ _ (rd_eval _ _ _ _ Hm)).
    subst new. cbn [Node.value class_of]. apply (unicode_leaf _ _ _ _ Hm). reflexivity.
Qed.

Lemma leaf_text_change_in_dict_witness :
  let h := [Node.mk None Py.KNone [] "" None None (DICT [(Py.KStr "a", 1)] false);
            Node.mk (Some "a") (Py.KStr "a") [("id", "7")] "foo" (Some 0) None
              (CDATA "foo")] in
  exists h',
    append_cdata 1 "bar" true h = Ok (Some 2) h'
    /\ h' !! 2 = Some (Node.mk (Some "a") (Py.KStr "a") [("id", "7")] "foobar"
                         (Some 0) None (CDATA "foobar"))
    /\ items_of h' 0 = Some [(Py.KStr "a", 2)].
Proof.
  intros h.
  destruct (leaf_text_change_in_dict h 1 _ "foo" 0 _ [(Py.KStr "a", 1)] false
              (Append_text "bar") true eq_refl eq_refl eq_refl eq_refl eq_refl
              eq_refl eq_refl)
    as (h' & E & _ & Hm & _ & Hp & _).
  exists h'. split; [exact E|]. split; [exact Hm|].
  unfold items_of, value_of. rewrite Hp. reflexivity.
Defined.

(** ** Equality of nodes and the store *)

Lemma all2_ext {A} (f g : A -> A -> option bool) l1 l2 r :
  (forall x y r', f x y = Some r' -> g x y = Some r') ->
  all2 f l1 l2 = Some r -> all2 g l1 l2 = Some r.
Proof.
  intros Hfg. revert l2. induction l1 as [|x l1 IH]; intros [|y l2]; simpl; auto.
  destruct (f x y) as [[|]|] eqn:E; [| |discriminate].
  - rewrite (Hfg _ _ _ E). apply IH.
  - rewrite (Hfg _ _ _ E). auto.
Qed.

Lemma node_eq_same_values fuel : forall (h h' : heap) a b r,
  same_values h h' ->
  node_eq fuel h a b = Some r -> node_eq fuel h' a b = Some r.
Proof.
  induction fuel as [|fuel IH]; intros h h' a b r Hsv; [discriminate|].
  cbn [node_eq].
  destruct (h !! a) as [na|] eqn:Ea; [|discriminate].
  destruct (h !! b) as [nb|] eqn:Eb; [|discriminate].
  destruct (Hsv a na Ea) as (na' & -> & ->).
  destruct (Hsv b nb Eb) as (nb' & -> & ->).
  destruct (Node.value na) as [s1|d1 i1|l1], (Node.value nb) as [s2|d2 i2|l2]; auto.
  - destruct (Nat.eqb (length d1) (length d2)); [|auto].
    apply all2_ext. intros [k1 x] [k2 y] r'. cbn [fst snd].
    destruct (bool_decide (k1 = k2)); [|auto].
    destruct (Nat.eqb x y); [auto|]. apply IH. exact Hsv.
  - destruct (Nat.eqb (length l1) (length l2)); [|auto].
    apply all2_ext. intros x y r'.
    destruct (Nat.eqb x y); [auto|]. apply IH. exact Hsv.
Qed.

Lemma differs_same_values (h h' : heap) x y :
  same_values h h' -> differs h x y -> differs h' x y.
Proof. intros Hsv Hd. exact (node_eq_same_values _ _ _ _ _ _ Hsv Hd). Qed.

Lemma py_eq_differs (h : heap) x y : differs h x y -> py_eq x y h = Ok false h.
Proof. unfold differs, py_eq. intros ->. reflexivity. Qed.

Lemma same_values_refl h : same_values h h.
Proof. intros x nd Hx. eauto. Qed.

Lemma same_values_trans h1 h2 h3 :
  same_values h1 h2 -> same_values h2 h3 -> same_values h1 h3.
Proof.
  intros H12 H23 x nd Hx. destruct (H12 x nd Hx) as (nd2 & Hx2 & Hv2).
  destruct (H23 x nd2 Hx2) as (nd3 & Hx3 & Hv3). exists nd3. split; [exact Hx3|].
  congruence.
Qed.

Lemma same_values_app (h : heap) g : same_values h (h ++ g).
Proof.
  intros x nd Hx. exists nd. split; [|reflexivity].
  apply lookup_app_l_Some. exact Hx.
Qed.

Lemma same_values_alter (h : heap) x f :
  (forall nd, Node.value (f nd) = Node.value nd) -> same_values h (alter f x h).
Proof.
  intros Hf y nd Hy. destruct (decide (x = y)) as [->|Hne].
  - exists (f nd). rewrite list_lookup_alter_eq, Hy. split; [reflexivity|apply Hf].
  - exists nd. rewrite list_lookup_alter_ne by exact Hne. auto.
Qed.

(** ** Nodes that sit in a list *)

Section ListParent.
Variable recur : ref -> M unit.
Variable self : ref.

Lemma scan_parent_delete (h : heap) l ld (i : nat) pre post :
  h !! l = Some ld ->
  (exists sd, h !! self = Some sd) ->
  Forall (fun x => differs h x self) pre ->
  XMLNodeBase.scan_parent self None l (pre ++ self :: post) i h
  = Ok (Some false)
      (alter (fun n => match Node.value n with
                       | LIST its =>
                           Node.set_value
                             (LIST (delete (i + length pre) its)) n
                       | _ => n
                       end) l h).
Proof.
  intros Hl [sd Hs] Hpre. revert i.
  induction Hpre as [|x pre Hx _ IH]; intros i.
  - cbn [app XMLNodeBase.scan_parent].
    rewrite (bind_eval _ _ _ _ _ (py_eq_refl _ _ _ Hs)).
    unfold XMLNodeBase.list_delitem.
    rewrite (bind_eval _ _ _ _ _ (wr_eval _ _ _ _ Hl)).
    cbn [length]. rewrite Nat.add_0_r. reflexivity.
  - cbn [app XMLNodeBase.scan_parent].
    rewrite (bind_eval _ _ _ _ _ (py_eq_differs _ _ _ Hx)).
    rewrite (IH (S i)). cbn [length].
    replace (S i + length pre) with (i + S (length pre)) by lia. reflexivity.
Qed.

Lemma scan_parent_replace (h : heap) l ld nn (i : nat) pre post :
  h !! l = Some ld ->
  (exists sd, h !! self = Some sd) ->
  Forall (fun x => differs h x self) pre ->
  XMLNodeBase.scan_parent self (Some nn) l (pre ++ self :: post) i h
  = Ok (Some true)
      (alter (fun n => match Node.value n with
                       | LIST its =>
                           Node.set_value
                             (LIST (<[i + length pre := nn]> its)) n
                       | _ => n
                       end) l h).
Proof.
  intros Hl [sd Hs] Hpre. revert i.
  induction Hpre as [|x pre Hx _ IH]; intros i.
  - cbn [app XMLNodeBase.scan_parent].
    rewrite (bind_eval _ _ _ _ _ (py_eq_refl _ _ _ Hs)).
    unfold XMLNodeBase.list_setitem.
    rewrite (bind_eval _ _ _ _ _ (wr_eval _ _ _ _ Hl)).
    cbn [length]. rewrite Nat.add_0_r. reflexivity.
  - cbn [app XMLNodeBase.scan_parent].
    rewrite (bind_eval _ _ _ _ _ (py_eq_differs _ _ _ Hx)).
    rewrite (IH (S i)). cbn [length].
    replace (S i + length pre) with (i + S (length pre)) by lia. reflexivity.
Qed.

(** The first plan gives up on a list parent without touching the
    store. *)
Lemma case1_list_parent (h : heap) newnode l ld its sd :
  h !! l = Some ld -> Node.value ld = LIST its -> h !! self = Some sd ->
  try_except (XMLNodeBase.case1 recur self newnode l) (fun _ => ret false) h = Ok false h.
Proof.
  intros Hl Hv Hs. unfold try_except, XMLNodeBase.case1.
  rewrite (bind_eval _ _ _ _ _ (rd_eval _ _ _ _ Hl)), Hv.
  rewrite (bind_eval _ _ _ _ _ (rd_eval _ _ _ _ Hs)). reflexivity.
Qed.
End ListParent.

(** ** Deleting a node *)

Lemma delete_rec_in_dict b (h : heap) self nd p pd items ign :
  h !! self = Some nd ->
  Node._replacement_node nd = None ->
  Node.parent nd = Some p ->
  h !! p = Some pd ->
  Node.value pd = DICT items ign ->
  OrderedDict.get (Node.key nd) items = Some self ->
  XMLNodeBase._replace_node_rec (S b) self None h
  = Ok tt (alter (fun n => match Node.value n with
                           | DICT its ig =>
                               Node.set_value
                                 (DICT (OrderedDict.del (Node.key nd) its) ig) n
                           | _ => n
                           end) p h).
Proof.
  intros Hs Hr Hp Hpd Hv Hk.
  cbn [XMLNodeBase._replace_node_rec]. unfold XMLNodeBase._replace_node_body.
  rewrite (bind_eval _ _ _ _ _ (check_replacement_unset _ _ _ Hs Hr)).
  rewrite (bind_eval _ _ _ _ _ (rd_eval _ _ _ _ Hs)), Hp.
  rewrite bind_ret.
  assert (Hc1 : XMLNodeBase.case1
                  (fun x => XMLNodeBase._replace_node_rec b x None) self None p h
                = Ok true (alter (fun n => match Node.value n with
                           | DICT its ig =>
                               Node.set_value
                                 (DICT (OrderedDict.del (Node.key nd) its) ig) n
                           | _ => n
                           end) p h)).
  { unfold XMLNodeBase.case1.
    rewrite (bind_eval _ _ _ _ _ (rd_eval _ _ _ _ Hpd)), Hv.
    rewrite (bind_eval _ _ _ _ _ (rd_eval _ _ _ _ Hs)).
    rewrite Hk. rewrite bind_assoc.
    rewrite (bind_eval _ _ _ _ _ (py_eq_refl _ _ _ Hs)).
    unfold XMLNodeBase.dict_delitem.
    rewrite bind_assoc, (bind_eval _ _ _ _ _ (wr_eval _ _ _ _ Hpd)).
    reflexivity. }
  unfold try_except at 1. unfold bind at 1. rewrite Hc1. reflexivity.
Qed.

(** X13. [_replace_node(None)] on a node that is not stale and sits under
    its key in a dictionary parent returns and removes that entry: the
    other entries keep their order, and (keys being unique) the key is no
    longer in the dictionary.  No other object changes; the node itself
    keeps its parent link and is not marked as replaced. *)
Theorem delete_node_from_dict (h : heap) (n : ref) (nd : Node.t) (p : ref)
    (pd : Node.t) (items : list (Py.key * ref)) (ign : bool) :
  h !! n = Some nd ->
  Node._replacement_node nd = None ->
  Node.parent nd = Some p ->
  h !! p = Some pd ->
  Node.value pd = DICT items ign ->
  OrderedDict.get (Node.key nd) items = Some n ->
  exists h',
    XMLNodeBase._replace_node n None h = Ok tt h'
    /\ length h' = length h
    /\ h' !! p = Some (Node.set_value
                         (DICT (OrderedDict.del (Node.key nd) items) ign) pd)
    /\ (forall x, x <> p -> h' !! x = h !! x)
    /\ (forall k, k <> Node.key nd ->
          OrderedDict.get k (OrderedDict.del (Node.key nd) items)
          = OrderedDict.get k items)
    /\ (NoDup (OrderedDict.keys items) ->
        OrderedDict.get (Node.key nd) (OrderedDict.del (Node.key nd) items) = None
        /\ NoDup (OrderedDict.keys (OrderedDict.del (Node.key nd) items))).
Proof.
  intros Hs Hr Hp Hpd Hv Hk. eexists. split.
  { unfold XMLNodeBase._replace_node.
    apply (delete_rec_in_dict _ h n nd p pd items ign Hs Hr Hp Hpd Hv Hk). }
  split; [apply length_alter|]. split.
  { rewrite list_lookup_alter_eq, Hpd. simpl. rewrite Hv. reflexivity. }
  split.
  { intros x Hx. apply list_lookup_alter_ne. congruence. }
  split.
  { intros k Hne. apply od_get_del_ne. exact Hne. }
  intros Hnd. split; [apply od_get_del_eq|apply od_del_NoDup]; exact Hnd.
Qed.

Lemma delete_node_from_dict_witness :
  let h := [Node.mk None Py.KNone [] "" None None
              (DICT [(Py.KStr "a", 1); (Py.KStr "b", 2)] false);
            Node.mk (Some "a") (Py.KStr "a") [] "foo" (Some 0) None (CDATA "foo");
            Node.mk (Some "b") (Py.KStr "b") [] "bar" (Some 0) None (CDATA "bar")] in
  exists h',
    XMLNodeBase._replace_node 1 None h = Ok tt h'
    /\ items_of h' 0 = Some [(Py.KStr "b", 2)].
Proof.
  intros h.
  destruct (delete_node_from_dict h 1 _ 0 _ _ false eq_refl eq_refl eq_refl
              eq_refl eq_refl eq_refl) as (h' & E & _ & Hp & _).
  exists h'. split; [exact E|]. unfold items_of, value_of. rewrite Hp. reflexivity.
Defined.

Lemma delete_middle (pre post : list ref) (x : ref) :
  delete (length pre) (pre ++ x :: post) = pre ++ post.
Proof. induction pre as [|y pre IH]; simpl; [reflexivity|]. rewrite IH. reflexivity. Qed.

Lemma insert_middle (pre post : list ref) (x y : ref) :
  <[length pre := y]> (pre ++ x :: post) = pre ++ y :: post.
Proof. induction pre as [|z pre IH]; simpl; [reflexivity|]. rewrite IH. reflexivity. Qed.

Lemma differs_outright_differs (h : heap) x y :
  differs_outright h x y = true -> differs h x y.
Proof.
  unfold differs_outright, differs. destruct recursion_limit_pos as [f ->].
  cbn [node_eq].
  destruct (h !! x) as [nx|]; [|discriminate].
  destruct (h !! y) as [ny|]; [|discriminate].
  destruct (Node.value nx) as [s1|d1 i1|l1], (Node.value ny) as [s2|d2 i2|l2];
    intros H; try reflexivity.
  - apply negb_true_iff in H. rewrite H. reflexivity.
  - apply negb_true_iff in H. rewrite H. reflexivity.
  - apply negb_true_iff in H. rewrite H. reflexivity.
Qed.

(** X14. [_replace_node(None)] on a node that is not stale and is a member
    of a list parent, every earlier member of which differs from it
    outright (another class, a leaf of another text, a list or dictionary
    of another length, so that the comparison never looks into children):
    the member is removed and the other members keep their order.  When
    other members are left nothing else changes; when the list is left
    empty and it is not stale and sits under its key in a dictionary, that
    entry is removed from the dictionary as well. *)
Theorem delete_node_from_list (h : heap) (n : ref) (nd : Node.t) (l : ref)
    (ld : Node.t) (pre post : list ref) :
  h !! n = Some nd ->
  Node._replacement_node nd = None ->
  Node.parent nd = Some l ->
  h !! l = Some ld ->
  Node.value ld = LIST (pre ++ n :: post) ->
  Forall (fun x => differs_outright h x n = true) pre ->
  (pre ++ post <> [] ->
   exists h',
     XMLNodeBase._replace_node n None h = Ok tt h'
     /\ h' !! l = Some (Node.set_value (LIST (pre ++ post)) ld)
     /\ (forall x, x <> l -> h' !! x = h !! x))
  /\ (pre ++ post = [] ->
      forall p pd items ign,
        Node._replacement_node ld = None ->
        Node.parent ld = Some p ->
        h !! p = Some pd ->
        Node.value pd = DICT items ign ->
        OrderedDict.get (Node.key ld) items = Some l ->
        exists h',
          XMLNodeBase._replace_node n None h = Ok tt h'
          /\ h' !! l = Some (Node.set_value (LIST []) ld)
          /\ h' !! p = Some (Node.set_value
                               (DICT (OrderedDict.del (Node.key ld) items) ign) pd)
          /\ (forall x, x <> l -> x <> p -> h' !! x = h !! x)).
Proof.
  intros Hs Hr Hp Hl Hv Hout.
  assert (Hpre : Forall (fun x => differs h x n) pre).
  { eapply Forall_impl; [exact Hout|].
    intros x Hx. exact (differs_outright_differs h x n Hx). }
  assert (Hlen : exists b, length h = S b).
  { apply lookup_lt_Some in Hs. destruct (length h); [lia|eauto]. }
  destruct Hlen as [b Hb].
  set (h1 := alter (fun x => match Node.value x with
                             | LIST its =>
                                 Node.set_value (LIST (delete (0 + length pre) its)) x
                             | _ => x
                             end) l h).
  assert (Hl1 : h1 !! l = Some (Node.set_value (LIST (pre ++ post)) ld)).
  { subst h1. rewrite list_lookup_alter_eq, Hl. simpl. rewrite Hv.
    rewrite delete_middle. reflexivity. }
  assert (Hother : forall x, x <> l -> h1 !! x = h !! x).
  { intros x Hx. subst h1. apply list_lookup_alter_ne. congruence. }
  assert (Hfinish : forall h',
            XMLNodeBase.case2 (fun x => XMLNodeBase._replace_node_rec (S b) x None)
              n None l h = Ok true h' ->
            XMLNodeBase._replace_node n None h = Ok tt h').
  { intros h' Hc2. unfold XMLNodeBase._replace_node. rewrite Hb.
    cbn [XMLNodeBase._replace_node_rec]. unfold XMLNodeBase._replace_node_body.
    rewrite (bind_eval _ _ _ _ _ (check_replacement_unset _ _ _ Hs Hr)).
    rewrite (bind_eval _ _ _ _ _ (rd_eval _ _ _ _ Hs)), Hp.
    rewrite bind_ret.
    rewrite (bind_eval _ _ _ _ _
               (case1_list_parent _ n h None l ld _ nd Hl Hv Hs)).
    cbv iota.
    assert (Ht : try_except
                   (XMLNodeBase.case2
                      (fun x => XMLNodeBase._replace_node_rec (S b) x None) n None l)
                   (fun _ => ret false) h = Ok true h').
    { unfold try_except. rewrite Hc2. reflexivity. }
    rewrite (bind_eval _ _ _ _ _ Ht). reflexivity. }
  assert (Hscan : forall k : option bool -> M bool,
            XMLNodeBase.case2 (fun x => XMLNodeBase._replace_node_rec (S b) x None)
              n None l h
            = (len ← rd l Node.len;
               (if Nat.eqb len 0
                then XMLNodeBase._replace_node_rec (S b) l None else ret tt);;
               ret true) h1).
  { intros _. unfold XMLNodeBase.case2.
    rewrite (bind_eval _ _ _ _ _ (rd_eval _ _ _ _ Hl)), Hv.
    rewrite (bind_eval _ _ _ _ _
               (scan_parent_delete n h l ld 0 pre post Hl (ex_intro _ nd Hs) Hpre)).
    reflexivity. }
  specialize (Hscan (fun _ => ret true)). split.
  - intros Hne. exists h1. split; [|split; [exact Hl1|exact Hother]].
    apply Hfinish. rewrite Hscan.
    rewrite (bind_eval _ _ _ _ _ (rd_eval _ _ _ _ Hl1)).
    cbn [Node.len Node.value Node.set_value].
    destruct (pre ++ post) as [|y r]; [contradiction|]. reflexivity.
  - intros Hnil p pd items ign Hlr Hlp Hpd Hpv Hk.
    assert (Hlp_ne : l <> p).
    { intros ->. rewrite Hl in Hpd. injection Hpd as ->. congruence. }
    assert (Hpd1 : h1 !! p = Some pd) by (rewrite Hother; [exact Hpd|congruence]).
    pose proof (delete_rec_in_dict b h1 l _ p pd items ign Hl1 Hlr Hlp Hpd1 Hpv Hk)
      as Hdel.
    eexists. split.
    { apply Hfinish. rewrite Hscan.
      rewrite (bind_eval _ _ _ _ _ (rd_eval _ _ _ _ Hl1)).
      cbn [Node.len Node.value Node.set_value]. rewrite Hnil. cbn [length Nat.eqb].
      rewrite (bind_eval _ _ _ _ _ Hdel). reflexivity. }
    split.
    { rewrite list_lookup_alter_ne by congruence. rewrite Hl1, Hnil. reflexivity. }
    split.
    { rewrite list_lookup_alter_eq, Hpd1. simpl. rewrite Hpv. reflexivity. }
    intros x Hxl Hxp. rewrite list_lookup_alter_ne by congruence.
    apply Hother. exact Hxl.
Qed.

Lemma delete_node_from_list_witness :
  let h := [Node.mk None Py.KNone [] "" None None (DICT [(Py.KStr "b", 1)] false);
            Node.mk (Some "b") (Py.KStr "b") [] "" (Some 0) None (LIST [2; 3]);
            Node.mk (Some "b") (Py.KStr "b") [] "x" (Some 1) None (CDATA "x");
            Node.mk (Some "b") (Py.KStr "b") [] "y" (Some 1) None (CDATA "y")] in
  exists h',
    XMLNodeBase._replace_node 3 None h = Ok tt h'
    /\ members_of h' 1 = Some [2].
Proof.
  intros h.
  destruct (delete_node_from_list h 3 _ 1 _ [2] [] eq_refl eq_refl eq_refl
              eq_refl eq_refl (Forall_cons_2 _ 2 [] eq_refl (Forall_nil_2 _)))
    as [Hsome _].
  destruct (Hsome ltac:(discriminate)) as (h' & E & Hl & _).
  exists h'. split; [exact E|].
  unfold members_of, value_of. rewrite Hl. reflexivity.
Defined.

(** ** Changing the text of a member of a list *)

Lemma replace_node_in_list (h : heap) self nd l ld pre post nn :
  h !! self = Some nd ->
  Node._replacement_node nd = None ->
  Node.parent nd = Some l ->
  h !! l = Some ld ->
  Node.value ld = LIST (pre ++ self :: post) ->
  Forall (fun x => differs h x self) pre ->
  XMLNodeBase._replace_node self (Some nn) h
  = Ok tt (alter (fun n => match Node.value n with
                           | LIST its =>
                               Node.set_value (LIST (<[0 + length pre := nn]> its)) n
                           | _ => n
                           end) l
             (alter (Node.set_replacement (Some (VRef nn))) self h)).
Proof.
  intros Hs Hr Hp Hl Hv Hpre.
  unfold XMLNodeBase._replace_node. cbn [XMLNodeBase._replace_node_rec].
  unfold XMLNodeBase._replace_node_body.
  rewrite (bind_eval _ _ _ _ _ (check_replacement_unset _ _ _ Hs Hr)).
  rewrite (bind_eval _ _ _ _ _ (rd_eval _ _ _ _ Hs)), Hp.
  rewrite (bind_eval _ _ _ _ _ (wr_eval _ _ _ _ Hs)).
  set (h1 := alter _ self h).
  assert (Hs1 : h1 !! self = Some (Node.set_replacement (Some (VRef nn)) nd)).
  { subst h1. rewrite list_lookup_alter_eq, Hs. reflexivity. }
  assert (Hl1 : exists ld1, h1 !! l = Some ld1
                            /\ Node.value ld1 = LIST (pre ++ self :: post)).
  { subst h1. destruct (decide (self = l)) as [->|Hne].
    - rewrite list_lookup_alter_eq, Hl. eexists. split; [reflexivity|exact Hv].
    - rewrite list_lookup_alter_ne by exact Hne. eauto. }
  destruct Hl1 as (ld1 & Hl1 & Hv1).
  assert (Hpre1 : Forall (fun x => differs h1 x self) pre).
  { eapply Forall_impl; [exact Hpre|]. intros x. apply differs_same_values.
    subst h1. apply same_values_alter. reflexivity. }
  rewrite (bind_eval _ _ _ _ _
             (case1_list_parent _ self h1 (Some nn) l ld1 _ _ Hl1 Hv1 Hs1)).
  cbv iota.
  assert (Hc2 : try_except
                  (XMLNodeBase.case2
                     (fun x => XMLNodeBase._replace_node_rec (length h) x None)
                     self (Some nn) l)
                  (fun _ => ret false) h1
                = Ok true (alter (fun n => match Node.value n with
                           | LIST its =>
                               Node.set_value (LIST (<[0 + length pre := nn]> its)) n
                           | _ => n
                           end) l h1)).
  { unfold try_except, XMLNodeBase.case2.
    rewrite (bind_eval _ _ _ _ _ (rd_eval _ _ _ _ Hl1)), Hv1.
    rewrite (bind_eval _ _ _ _ _
               (scan_parent_replace self h1 l ld1 nn 0 pre post Hl1
                  (ex_intro _ _ Hs1) Hpre1)).
    reflexivity. }
  rewrite (bind_eval _ _ _ _ _ Hc2). reflexivity.
Qed.

Lemma text_op_leaf (h : heap) n nd s op rn :
  h !! n = Some nd ->
  Node.value nd = CDATA s ->
  Node._replacement_node nd = None ->
  run_text_op op n rn h = XMLCDATANode.set_cdata n (new_text op s) rn h.
Proof.
  intros Hn Hv Hr.
  assert (Hset : forall t, set_cdata n t rn h = XMLCDATANode.set_cdata n t rn h).
  { intros t. unfold set_cdata.
    rewrite (bind_eval _ _ _ _ _ (rd_eval _ _ _ _ Hn)), Hv. reflexivity. }
  destruct op as [t|t|c]; cbn [run_text_op new_text].
  - apply Hset.
  - unfold append_cdata.
    rewrite (bind_eval _ _ _ _ _ (rd_eval _ _ _ _ Hn)), Hv. cbn [class_of].
    unfold XMLCDATANode.append_cdata.
    rewrite (bind_eval _ _ _ _ _ (check_replacement_unset _ _ _ Hn Hr)).
    rewrite (bind_eval _ _ _ _ _ (unicode_leaf _ _ _ _ Hn Hv)). reflexivity.
  - unfold strip_cdata.
    rewrite (bind_eval _ _ _ _ _ (check_replacement_unset _ _ _ Hn Hr)).
    assert (Hg : get_cdata n h = Ok s h).
    { unfold get_cdata.
      rewrite (bind_eval _ _ _ _ _ (rd_eval _ _ _ _ Hn)), Hv. cbn [class_of].
      apply (unicode_leaf _ _ _ _ Hn Hv). }
    rewrite (bind_eval _ _ _ _ _ Hg). apply Hset.
Qed.

(** X15. [set_cdata], [append_cdata] and [strip_cdata] on a leaf that is
    not stale and is a member of a list parent, no earlier member of which
    is equal to it: the call returns a new leaf with the new text (the
    text given, the old text followed by the text given, the old text
    stripped as [str.strip] does) and the
    tag, key, attributes and parent of the old one; the list holds the new
    leaf at the place of the old one, the other members as they were; the
    old leaf is marked as replaced by the new one; and no other object
    changes. *)
Theorem leaf_text_change_in_list (h : heap) (n : ref) (nd : Node.t) (s : string)
    (l : ref) (ld : Node.t) (pre post : list ref) (op : text_op) (rn : bool) :
  h !! n = Some nd ->
  Node.value nd = CDATA s ->
  Node._replacement_node nd = None ->
  Node.parent nd = Some l ->
  h !! l = Some ld ->
  Node.value ld = LIST (pre ++ n :: post) ->
  Forall (fun x => differs h x n) pre ->
  let m := length h in
  let text := new_text op s in
  exists h',
    run_text_op op n rn h = Ok (if rn then Some m else None) h'
    /\ length h' = S (length h)
    /\ h' !! m = Some (Node.mk (Node.tag nd) (Node.key nd) (Node.xml_attrs nd)
                         text (Some l) None (CDATA text))
    /\ h' !! n = Some (Node.set_replacement (Some (VRef m)) nd)
    /\ h' !! l = Some (Node.set_value (LIST (pre ++ m :: post)) ld)
    /\ (forall x, x <> n -> x <> l -> x < length h -> h' !! x = h !! x).
Proof.
  intros Hn Hv Hr Hp Hl Hlv Hpre m text.
  assert (Hnl : n <> l).
  { intros ->. rewrite Hn in Hl. injection Hl as ->. congruence. }
  pose proof (lookup_lt_Some _ _ _ Hn) as Hnlt.
  pose proof (lookup_lt_Some _ _ _ Hl) as Hllt.
  set (new := Node.mk (Node.tag nd) (Node.key nd) (Node.xml_attrs nd) text
                (Some l) None (CDATA text)).
  assert (Hn' : (h ++ [new]) !! n = Some nd) by (apply lookup_app_l_Some; exact Hn).
  assert (Hl' : (h ++ [new]) !! l = Some ld) by (apply lookup_app_l_Some; exact Hl).
  assert (Hpre' : Forall (fun x => differs (h ++ [new]) x n) pre).
  { eapply Forall_impl; [exact Hpre|]. intros x. apply differs_same_values.
    apply same_values_app. }
  eexists. split.
  { rewrite (text_op_leaf h n nd s op rn Hn Hv Hr). fold text.
    unfold XMLCDATANode.set_cdata.
    rewrite (bind_eval _ _ _ _ _ (check_replacement_unset _ _ _ Hn Hr)).
    rewrite !(bind_eval _ _ _ _ _ (rd_eval _ _ _ _ Hn)).
    unfold XMLCDATANode.__init__, XMLNodeBase.__init__.
    unfold bind at 1. unfold alloc at 1. rewrite Hp. fold new.
    rewrite (bind_eval _ _ _ _ _
               (replace_node_in_list _ n nd l ld pre post (length h)
                  Hn' Hr Hp Hl' Hlv Hpre')).
    reflexivity. }
  fold m.
  split; [rewrite !length_alter, length_app; simpl; lia|]. split.
  { rewrite !list_lookup_alter_ne by (subst m; lia).
    subst m. rewrite lookup_app_r by lia. rewrite Nat.sub_diag. reflexivity. }
  split.
  { rewrite list_lookup_alter_ne by congruence.
    rewrite list_lookup_alter_eq, Hn'. reflexivity. }
  split.
  { rewrite list_lookup_alter_eq. rewrite list_lookup_alter_ne by exact Hnl.
    rewrite Hl'. simpl. rewrite Hlv. simpl. rewrite insert_middle. reflexivity. }
  intros x Hxn Hxl Hx. rewrite !list_lookup_alter_ne by congruence.
  apply lookup_app_l. exact Hx.
Qed.

Lemma leaf_text_change_in_list_witness :
  let h := [Node.mk None Py.KNone [] "" None None (DICT [(Py.KStr "b", 1)] false);
            Node.mk (Some "b") (Py.KStr "b") [] "" (Some 0) None (LIST [2; 3]);
            Node.mk (Some "b") (Py.KStr "b") [] "x" (Some 1) None (CDATA "x");
            Node.mk (Some "b") (Py.KStr "b") [] "y" (Some 1) None (CDATA "y")] in
  exists h',
    set_cdata 3 "z" true h = Ok (Some 4) h'
    /\ members_of h' 1 = Some [2; 4].
Proof.
  intros h.
  assert (Hpre : Forall (fun x => differs h x 3) [2]).
  { constructor; [reflexivity|constructor]. }
  destruct (leaf_text_change_in_list h 3 _ "y" 1 _ [2] [] (Set_text "z") true
              eq_refl eq_refl eq_refl eq_refl eq_refl eq_refl Hpre)
    as (h' & E & _ & _ & _ & Hl & _).
  exists h'. split; [exact E|].
  unfold members_of, value_of. rewrite Hl. reflexivity.
Defined.


(** ** Adding a new leaf: the links *)

Lemma lookup_snoc_new (h : heap) a : (h ++ [a]) !! length h = Some a.
Proof. rewrite lookup_app_r by lia. rewrite Nat.sub_diag. reflexivity. Qed.

Lemma lookup_snoc2_new (h : heap) a b : ((h ++ [a]) ++ [b]) !! S (length h) = Some b.
Proof.
  rewrite lookup_app_r by (rewrite length_app; simpl; lia).
  rewrite length_app. simpl. replace (S (length h) - (length h + 1)) with 0 by lia.
  reflexivity.
Qed.

Lemma lookup_snoc2_mid (h : heap) a b : ((h ++ [a]) ++ [b]) !! length h = Some a.
Proof.
  rewrite lookup_app_l by (rewrite length_app; simpl; lia). apply lookup_snoc_new.
Qed.

Lemma lookup_snoc_old (h : heap) a i : i < length h -> (h ++ [a]) !! i = h !! i.
Proof. intros Hi. apply lookup_app_l. exact Hi. Qed.

Lemma lookup_snoc_at (h : heap) a i : i = length h -> (h ++ [a]) !! i = Some a.
Proof. intros ->. apply lookup_snoc_new. Qed.

Ltac len :=
  repeat first [rewrite length_alter | rewrite length_app]; cbn [length]; lia.

(** Rewriting a lookup through writes and allocations. *)
Ltac lk :=
  repeat first
    [ rewrite list_lookup_alter_eq
    | rewrite list_lookup_alter_ne by (first [lia | congruence])
    | rewrite lookup_snoc2_new
    | rewrite lookup_snoc2_mid
    | rewrite lookup_snoc_new
    | rewrite lookup_snoc_at by len
    | rewrite lookup_snoc_old by len ].

(** One step of a computation whose next action reads or writes an
    object that the store is known to hold; [fin] closes the lookup. *)
Ltac run_rd fin :=
  rewrite ?bind_assoc;
  lazymatch goal with
  | |- bind (rd ?x ?f) ?k ?h = _ =>
      let H := fresh in
      eassert (H : h !! x = Some _) by (lk; fin);
      rewrite (bind_eval _ _ _ _ _ (rd_eval f h x _ H)); clear H
  end; cbv beta.

Ltac run_wr fin :=
  rewrite ?bind_assoc;
  lazymatch goal with
  | |- bind (wr ?x ?f) ?k ?h = _ =>
      let H := fresh in
      eassert (H : h !! x = Some _) by (lk; fin);
      rewrite (bind_eval _ _ _ _ _ (wr_eval f h x _ H)); clear H
  end; cbv beta.

Lemma alloc_eval {B} (a : Node.t) (k : ref -> M B) (h : heap) :
  bind (alloc a) k h = k (length h) (h ++ [a]).
Proof. reflexivity. Qed.

Ltac norm :=
  repeat first [rewrite bind_assoc | rewrite bind_ret | rewrite alloc_eval];
  rewrite ?length_alter, ?length_app; cbn [length]; rewrite ?Nat.add_1_r;
  cbn [when fst snd negb]; cbv beta zeta.

Lemma add_leaf_absent (h : heap) d dd items ign tag key text upd attrs :
  h !! d = Some dd ->
  Node.value dd = DICT items ign ->
  Node._replacement_node dd = None ->
  let k := if Py.key_truthy key then key else Py.key_of_tag tag in
  OrderedDict.get k items = None ->
  exists h',
    XMLDictNode.add_node d tag key text None upd attrs h = Ok (length h) h'
    /\ length h' = S (length h)
    /\ h' !! length h
       = Some (Node.mk tag (if upd then k else Py.key_of_tag tag) attrs text
                 (if upd then Some d else None) None (CDATA text))
    /\ h' !! d = Some (Node.set_value (DICT (items ++ [(k, length h)]) ign) dd)
    /\ forall x, x <> d -> x < length h -> h' !! x = h !! x.
Proof.
  intros Hd Hv Hr k Hk.
  pose proof (lookup_lt_Some _ _ _ Hd) as Hdl.
  unfold XMLDictNode.add_node, XMLDictNode.prepare_new_node, XMLNodeBase.__init__.
  rewrite (bind_eval _ _ _ _ _ (check_replacement_unset _ _ _ Hd Hr)).
  assert (Hfacts : forall (h' : heap) c,
            length h' = S (length h) ->
            h' !! length h = Some c ->
            h' !! d = Some (Node.set_value
                              (DICT (OrderedDict.set k (length h) items) ign) dd) ->
            (forall x, x <> d -> x < length h -> h' !! x = h !! x) ->
            length h' = S (length h)
            /\ h' !! length h = Some c
            /\ h' !! d = Some (Node.set_value (DICT (items ++ [(k, length h)]) ign) dd)
            /\ forall x, x <> d -> x < length h -> h' !! x = h !! x).
  { intros h' c H1 H2 H3 H4. rewrite (od_set_absent _ _ _ Hk) in H3. auto. }
  subst k. destruct (Py.key_truthy key) eqn:Ek, upd; norm; eexists;
    (split;
     [ repeat first
         [ progress norm
         | run_wr ltac:(reflexivity)
         | run_rd ltac:(exact Hd);
           rewrite Hv; unfold OrderedDict.contains; rewrite Hk
         | unfold XMLNodeBase.dict_setitem; run_wr ltac:(exact Hd) ];
       reflexivity
     | apply Hfacts;
       [ rewrite !length_alter, length_app; simpl; lia
       | lk; reflexivity
       | lk; rewrite Hd; simpl; rewrite Hv; reflexivity
       | intros x Hx Hxl; lk; reflexivity ] ]).
Qed.

Lemma add_leaf_append (h : heap) d dd items ign tag key text upd attrs l ld ms :
  h !! d = Some dd ->
  Node.value dd = DICT items ign ->
  Node._replacement_node dd = None ->
  let k := if Py.key_truthy key then key else Py.key_of_tag tag in
  OrderedDict.get k items = Some l ->
  h !! l = Some ld ->
  Node.value ld = LIST ms ->
  exists h',
    XMLDictNode.add_node d tag key text None upd attrs h = Ok (length h) h'
    /\ length h' = S (length h)
    /\ h' !! length h
       = Some (Node.mk tag (if upd then k else Py.key_of_tag tag) attrs text
                 (if upd then Some l else None) None (CDATA text))
    /\ h' !! l = Some (Node.set_value (LIST (ms ++ [length h])) ld)
    /\ forall x, x <> l -> x < length h -> h' !! x = h !! x.
Proof.
  intros Hd Hv Hr k Hk Hl Hlv.
  pose proof (lookup_lt_Some _ _ _ Hd) as Hdl.
  pose proof (lookup_lt_Some _ _ _ Hl) as Hll.
  assert (Hdl_ne : d <> l).
  { intros ->. rewrite Hd in Hl. injection Hl as ->. congruence. }
  unfold XMLDictNode.add_node, XMLDictNode.prepare_new_node, XMLNodeBase.__init__.
  rewrite (bind_eval _ _ _ _ _ (check_replacement_unset _ _ _ Hd Hr)).
  subst k. destruct (Py.key_truthy key) eqn:Ek, upd; norm; eexists;
    (split;
     [ repeat first
         [ progress norm
         | run_wr ltac:(reflexivity)
         | unfold XMLDictNode.getitem at 1; run_rd ltac:(exact Hd);
           rewrite Hv, Hk
         | unfold XMLDictNode.is_list at 1; run_rd ltac:(exact Hl); rewrite Hlv
         | run_rd ltac:(exact Hd);
           rewrite Hv; unfold OrderedDict.contains; rewrite Hk
         | unfold XMLNodeBase.list_append; run_wr ltac:(exact Hl) ];
       reflexivity
     | split; [rewrite !length_alter, length_app; simpl; lia|];
       split; [lk; reflexivity|];
       split; [lk; rewrite Hl; simpl; rewrite Hlv; reflexivity|];
       intros x Hx Hxl; lk; reflexivity ]).
Qed.

Lemma add_leaf_promote (h : heap) d dd items ign tag key text upd attrs o od :
  h !! d = Some dd ->
  Node.value dd = DICT items ign ->
  Node._replacement_node dd = None ->
  let k := if Py.key_truthy key then key else Py.key_of_tag tag in
  OrderedDict.get k items = Some o ->
  h !! o = Some od ->
  o <> d ->
  (forall ms, Node.value od <> LIST ms) ->
  let w := S (length h) in
  exists h',
    XMLDictNode.add_node d tag key text None upd attrs h = Ok (length h) h'
    /\ length h' = S (S (length h))
    /\ h' !! length h
       = Some (Node.mk tag (if upd then k else Py.key_of_tag tag) attrs text
                 (if upd then Some w else None) None (CDATA text))
    /\ h' !! w = Some (Node.mk tag k [] "" (Some d) None (LIST [o; length h]))
    /\ h' !! d = Some (Node.set_value (DICT (OrderedDict.set k w items) ign) dd)
    /\ h' !! o = Some (if upd then Node.set_parent (Some w) od else od)
    /\ forall x, x <> d -> x <> o -> x < length h -> h' !! x = h !! x.
Proof.
  intros Hd Hv Hr k Hk Ho Hod Hnl w.
  pose proof (lookup_lt_Some _ _ _ Hd) as Hdl.
  pose proof (lookup_lt_Some _ _ _ Ho) as Hol.
  assert (Hisl : (match Node.value od with LIST _ => true | _ => false end)
                 = false).
  { destruct (Node.value od) eqn:E; try reflexivity.
    exfalso. eapply Hnl. reflexivity. }
  assert (Hget : forall v, OrderedDict.get k (OrderedDict.set k v items) = Some v).
  { intros v. apply od_get_set_eq. }
  unfold XMLDictNode.add_node, XMLDictNode.prepare_new_node, XMLNodeBase.__init__.
  rewrite (bind_eval _ _ _ _ _ (check_replacement_unset _ _ _ Hd Hr)).
  subst k w. destruct (Py.key_truthy key) eqn:Ek, upd; norm; eexists;
    (split;
     [ repeat first
         [ progress norm
         | run_wr ltac:(reflexivity)
         | unfold XMLDictNode.getitem at 1; run_rd ltac:(exact Hd);
           rewrite Hv, Hk
         | unfold XMLDictNode.getitem at 1;
           run_rd ltac:(rewrite Hd; reflexivity);
           cbn [Node.value Node.set_value]; rewrite Hv;
           cbn [Node.value Node.set_value]; rewrite Hget
         | unfold XMLDictNode.is_list at 1; run_rd ltac:(exact Ho); rewrite Hisl
         | progress unfold XMLListNode.__init__, XMLNodeBase.__init__
         | run_rd ltac:(exact Hd);
           rewrite Hv; unfold OrderedDict.contains; rewrite Hk
         | run_wr ltac:(exact Ho)
         | unfold XMLNodeBase.dict_setitem; run_wr ltac:(exact Hd)
         | unfold XMLNodeBase.list_append; run_wr ltac:(reflexivity) ];
       reflexivity
     | split; [len|];
       split; [lk; reflexivity|];
       split; [lk; reflexivity|];
       split; [lk; rewrite Hd; simpl; rewrite Hv; reflexivity|];
       split; [lk; rewrite ?Ho; reflexivity|];
       intros x Hx Hxo Hxl; lk; reflexivity ]).
Qed.

(** X16.  [add_node] with a text on a dictionary node that accepts changes
    (the entry under the key, if there is one, being another object of the
    store) returns a new leaf with the given tag, text and attributes, and after
    the call the leaf is the child held for its key by the container of
    that key: the dictionary itself when the key was free, else the list
    node under the key, which is the one that was there or a new list node
    (tag of the call, the key, parent the dictionary) made of the former
    single child and the leaf.  With [update] the leaf has that key and
    that container as parent, and a former single child gets the new list
    as parent; without [update] the leaf keeps the key made of its tag and
    no parent, and the former child keeps its parent.  Every other object
    that was there, apart from the dictionary and the entry under the key,
    is unchanged. *)
Theorem add_node_links_new_leaf (h : heap) (d : ref) (dd : Node.t)
    (items : list (Py.key * ref)) (ign : bool) (tag : option string)
    (key : Py.key) (text : string) (upd : bool) (attrs : attrs) :
  h !! d = Some dd ->
  Node.value dd = DICT items ign ->
  Node._replacement_node dd = None ->
  let k := if Py.key_truthy key then key else Py.key_of_tag tag in
  (forall o, OrderedDict.get k items = Some o -> o <> d /\ is_Some (h !! o)) ->
  exists h' c,
    XMLDictNode.add_node d tag key text None upd attrs h = Ok (length h) h'
    /\ container h' d k = Some c
    /\ held h' c k = Some (length h)
    /\ h' !! length h
       = Some (Node.mk tag (if upd then k else Py.key_of_tag tag) attrs text
                 (if upd then Some c else None) None (CDATA text))
    /\ (forall o, OrderedDict.get k items = Some o -> o <> c ->
          h !! c = None
          /\ h' !! c = Some (Node.mk tag k [] "" (Some d) None
                               (LIST [o; length h]))
          /\ Node.parent <$> h' !! o
             = (if upd then Some (Some c) else Node.parent <$> h !! o))
    /\ (forall x nd, h !! x = Some nd -> x <> d ->
          OrderedDict.get k items <> Some x -> h' !! x = Some nd).
Proof.
  intros Hd Hv Hr k Hch.
  pose proof (lookup_lt_Some _ _ _ Hd) as Hdl.
  destruct (OrderedDict.get k items) as [o|] eqn:Hk.
  - destruct (Hch o eq_refl) as [Hod [od Ho]].
    pose proof (lookup_lt_Some _ _ _ Ho) as Hol.
    destruct (Node.value od) as [t|its ig|ms] eqn:Hov.
    1,2: destruct (add_leaf_promote h d dd items ign tag key text upd attrs o od
                     Hd Hv Hr Hk Ho Hod)
           as (h' & E & Hlen & Hn & Hw & Hd' & Ho' & Hfr);
         [ intros ms; rewrite Hov; discriminate | ];
         exists h', (S (length h)); split; [exact E|];
         (split; [unfold container, items_of, value_of; rewrite Hd'; simpl;
                  rewrite ?Hv; simpl; fold k; rewrite od_get_set_eq, Hw;
                  reflexivity|]);
         (split; [unfold held, value_of; rewrite Hw; reflexivity|]);
         (split; [exact Hn|]);
         (split;
          [ intros o' Eo' _; injection Eo' as <-;
            split; [apply lookup_ge_None; lia|];
            split; [exact Hw|];
            rewrite Ho', Ho; destruct upd; reflexivity
          | intros x nd Hx Hxd Hxo; rewrite Hfr;
            [exact Hx|exact Hxd|congruence|exact (lookup_lt_Some _ _ _ Hx)] ]).
    destruct (add_leaf_append h d dd items ign tag key text upd attrs o od ms
                Hd Hv Hr Hk Ho Hov)
      as (h' & E & Hlen & Hn & Hl' & Hfr).
    exists h', o. split; [exact E|].
    assert (Hd' : h' !! d = Some dd).
    { rewrite Hfr; [exact Hd|congruence|exact Hdl]. }
    split.
    { unfold container, items_of, value_of. rewrite Hd'. simpl. rewrite Hv.
      fold k. rewrite Hk, Hl'. reflexivity. }
    split.
    { unfold held, value_of. rewrite Hl'. simpl. apply last_snoc. }
    split; [exact Hn|]. split.
    + intros o' Ho' Hne. congruence.
    + intros x nd Hx Hxd Hxo. rewrite Hfr;
        [exact Hx|congruence|exact (lookup_lt_Some _ _ _ Hx)].
  - destruct (add_leaf_absent h d dd items ign tag key text upd attrs
                Hd Hv Hr Hk)
      as (h' & E & Hlen & Hn & Hd' & Hfr).
    exists h', d. split; [exact E|].
    assert (Hget : OrderedDict.get k (items ++ [(k, length h)])
                   = Some (length h)).
    { rewrite <- (od_set_absent k (length h) items Hk). apply od_get_set_eq. }
    split.
    { unfold container, items_of, value_of. rewrite Hd'. simpl.
      fold k. rewrite Hget, Hn. reflexivity. }
    split.
    { unfold held, value_of. rewrite Hd'. simpl. exact Hget. }
    split; [exact Hn|]. split.
    + intros o' Ho'. discriminate.
    + intros x nd Hx Hxd _. rewrite Hfr;
        [exact Hx|exact Hxd|exact (lookup_lt_Some _ _ _ Hx)].
Qed.

Lemma add_node_links_new_leaf_witness :
  let h := [Node.mk None Py.KNone [] "" None None (DICT [(Py.KStr "a", 1)] false);
            Node.mk (Some "a") (Py.KStr "a") [] "x" (Some 0) None (CDATA "x")] in
  exists h' c,
    XMLDictNode.add_node 0 (Some "a") Py.KNone "y" None true [] h = Ok 2 h'
    /\ container h' 0 (Py.KStr "a") = Some c
    /\ held h' c (Py.KStr "a") = Some 2
    /\ h' !! 2 = Some (Node.mk (Some "a") (Py.KStr "a") [] "y" (Some c) None
                         (CDATA "y")).
Proof.
  intros h.
  destruct (add_node_links_new_leaf h 0 _ [(Py.KStr "a", 1)] false (Some "a")
              Py.KNone "y" true [] eq_refl eq_refl eq_refl)
    as (h' & c & E & C & H & N & _).
  - intros o Ho. injection Ho as <-. split; [lia|]. eexists. reflexivity.
  - exists h', c. split; [exact E|]. split; [exact C|]. split; [exact H|].
    exact N.
Defined.

(** ** A leaf that gets a child becomes a dictionary *)

(** X17.  [add_node] with a text on a leaf that accepts changes and sits
    under its key in a dictionary parent: the leaf is replaced, under the
    same key of the parent, by a new dictionary node that takes over the
    leaf's tag, key, parent and attributes and keeps the leaf's text as
    its [text]; the new dictionary holds one entry, the new child, which
    the call returns.  The old leaf is unchanged but for its replacement
    link, which names the new dictionary; the other entries of the parent
    and all other objects stay as they were. *)
Theorem leaf_add_node_becomes_dict (h : heap) (n : ref) (nd : Node.t)
    (s : string) (p : ref) (pd : Node.t) (items : list (Py.key * ref))
    (ign : bool) (tag : option string) (key : Py.key) (text : string)
    (upd : bool) (attrs : attrs) :
  h !! n = Some nd ->
  Node.value nd = CDATA s ->
  Node._replacement_node nd = None ->
  Node.parent nd = Some p ->
  h !! p = Some pd ->
  Node.value pd = DICT items ign ->
  OrderedDict.get (Node.key nd) items = Some n ->
  let k := if Py.key_truthy key then key else Py.key_of_tag tag in
  let d := length h in
  let c := S (length h) in
  exists h',
    add_node n tag key text None upd attrs h = Ok c h'
    /\ h' !! d = Some (Node.mk (Node.tag nd) (Node.key nd) (Node.xml_attrs nd) s
                         (Some p) None (DICT [(k, c)] false))
    /\ h' !! c = Some (Node.mk tag (if upd then k else Py.key_of_tag tag) attrs
                         text (if upd then Some d else None) None (CDATA text))
    /\ h' !! n = Some (Node.set_replacement (Some (VRef d)) nd)
    /\ h' !! p = Some (Node.set_value
                         (DICT (OrderedDict.set (Node.key nd) d items) ign) pd)
    /\ length h' = S (S (length h))
    /\ forall x, x <> n -> x <> p -> x < length h -> h' !! x = h !! x.
Proof.
  intros Hn Hv Hr Hp Hpd Hpv Hk k d c.
  pose proof (lookup_lt_Some _ _ _ Hn) as Hnl.
  pose proof (lookup_lt_Some _ _ _ Hpd) as Hpl.
  assert (Hnp : n <> p).
  { intros ->. rewrite Hn in Hpd. injection Hpd as ->. congruence. }
  unfold add_node.
  rewrite (bind_eval _ _ _ _ _ (rd_eval _ _ _ _ Hn)), Hv. cbn [class_of].
  unfold XMLCDATANode.add_node.
  rewrite (bind_eval _ _ _ _ _ (check_replacement_unset _ _ _ Hn Hr)).
  rewrite !(bind_eval _ _ _ _ _ (rd_eval _ _ _ _ Hn)).
  rewrite (bind_eval _ _ _ _ _ (unicode_leaf _ _ _ _ Hn Hv)).
  rewrite !(bind_eval _ _ _ _ _ (rd_eval _ _ _ _ Hn)).
  unfold XMLDictNode.__init__, XMLNodeBase.__init__. rewrite alloc_eval, Hp.
  set (D := Node.mk _ _ _ _ _ _ _).
  destruct (add_leaf_absent (h ++ [D]) d D [] false tag key text upd attrs
              (lookup_snoc_new h D) eq_refl eq_refl eq_refl)
    as (h2 & E & Hlen & Hc & Hd & Hfr).
  rewrite length_app in E, Hc, Hd, Hlen, Hfr.
  cbn [length app] in E, Hc, Hd, Hlen, Hfr.
  rewrite Nat.add_1_r in E, Hc, Hd, Hlen, Hfr.
  fold c in E, Hc. fold k in Hc, Hd.
  rewrite (bind_eval _ _ _ _ _ E).
  assert (Hn2 : h2 !! n = Some nd).
  { rewrite Hfr by (subst d; lia). rewrite lookup_snoc_old by lia. exact Hn. }
  assert (Hp2 : h2 !! p = Some pd).
  { rewrite Hfr by (subst d; lia). rewrite lookup_snoc_old by lia. exact Hpd. }
  rewrite (bind_eval _ _ _ _ _
             (replace_node_in_dict _ n nd p pd items ign d Hn2 Hr Hp Hp2 Hpv Hk)).
  subst d c. eexists. split; [reflexivity|].
  split; [lk; rewrite Hd; reflexivity|].
  split; [lk; rewrite Hc; subst k; destruct upd; reflexivity|].
  split; [lk; rewrite Hn2; reflexivity|].
  split; [lk; rewrite Hp2; simpl; rewrite Hpv; reflexivity|].
  split; [rewrite !length_alter; lia|].
  intros x Hxn Hxp Hxl. lk.
  rewrite Hfr by lia. apply lookup_snoc_old. exact Hxl.
Qed.

Lemma leaf_add_node_becomes_dict_witness :
  let h := [Node.mk None Py.KNone [] "" None None (DICT [(Py.KStr "a", 1)] false);
            Node.mk (Some "a") (Py.KStr "a") [("id", "1")] "x" (Some 0) None
              (CDATA "x")] in
  exists h',
    add_node 1 (Some "b") Py.KNone "y" None true [] h = Ok 3 h'
    /\ h' !! 2 = Some (Node.mk (Some "a") (Py.KStr "a") [("id", "1")] "x"
                         (Some 0) None (DICT [(Py.KStr "b", 3)] false))
    /\ h' !! 3 = Some (Node.mk (Some "b") (Py.KStr "b") [] "y" (Some 2) None
                         (CDATA "y"))
    /\ items_of h' 0 = Some [(Py.KStr "a", 2)].
Proof.
  intros h.
  destruct (leaf_add_node_becomes_dict h 1 _ "x" 0 _ [(Py.KStr "a", 1)] false
              (Some "b") Py.KNone "y" true []
              eq_refl eq_refl eq_refl eq_refl eq_refl eq_refl eq_refl)
    as (h' & E & D & C & _ & P & _).
  exists h'. split; [exact E|]. split; [exact D|]. split; [exact C|].
  unfold items_of, value_of. rewrite P. reflexivity.
Defined.

(** ** Wrapping a node in a list *)

(** X18.  [list()] on a node that is not a list node returns a Python list
    holding the node and changes nothing.  [list(in_place=True)] on such a
    node that accepts changes and sits under its key in a dictionary
    parent (another object) returns a new list node with the node's tag, key and parent and
    no attributes, whose only member is the node; the parent holds the
    list under the node's key, at the place the node had; the node itself
    stays current (no replacement link), keeps its key, tag, attributes
    and content and has the list as parent.  All other objects stay as
    they were. *)
Theorem list_in_place_wraps_node (h : heap) (n : ref) (nd : Node.t)
    (p : ref) (pd : Node.t) (items : list (Py.key * ref)) (ign : bool) :
  h !! n = Some nd ->
  (forall ms, Node.value nd <> LIST ms) ->
  node_list n false h = Ok (inl [n]) h
  /\ (Node._replacement_node nd = None ->
      Node.parent nd = Some p ->
      n <> p ->
      h !! p = Some pd ->
      Node.value pd = DICT items ign ->
      OrderedDict.get (Node.key nd) items = Some n ->
      let w := length h in
      exists h',
        node_list n true h = Ok (inr w) h'
        /\ h' !! w = Some (Node.mk (Node.tag nd) (Node.key nd) [] "" (Some p) None
                             (LIST [n]))
        /\ h' !! n = Some (Node.set_parent (Some w) nd)
        /\ h' !! p = Some (Node.set_value
                             (DICT (OrderedDict.set (Node.key nd) w items) ign) pd)
        /\ length h' = S (length h)
        /\ forall x, x <> n -> x <> p -> x < length h -> h' !! x = h !! x).
Proof.
  intros Hn Hnl.
  assert (Hdisp : forall b, node_list n b h = XMLNodeBase_list n b h).
  { intros b. unfold node_list.
    rewrite (bind_eval _ _ _ _ _ (rd_eval _ _ _ _ Hn)).
    destruct (Node.value nd) eqn:E; try reflexivity.
    exfalso. eapply Hnl. reflexivity. }
  split; [rewrite Hdisp; reflexivity|].
  intros Hr Hp Hnp Hpd Hpv Hk w.
  pose proof (lookup_lt_Some _ _ _ Hn) as Hlt.
  pose proof (lookup_lt_Some _ _ _ Hpd) as Hpl.
  rewrite Hdisp. unfold XMLNodeBase_list. cbn [negb].
  rewrite !(bind_eval _ _ _ _ _ (rd_eval _ _ _ _ Hn)).
  unfold XMLListNode.__init__, XMLNodeBase.__init__. rewrite alloc_eval, Hp.
  set (L := Node.mk _ _ _ _ _ _ _).
  assert (Hn1 : (h ++ [L]) !! n = Some nd) by (rewrite lookup_snoc_old by lia; exact Hn).
  assert (Hp1 : (h ++ [L]) !! p = Some pd) by (rewrite lookup_snoc_old by lia; exact Hpd).
  rewrite (bind_eval _ _ _ _ _
             (replace_node_in_dict _ n nd p pd items ign (length h) Hn1 Hr Hp Hp1 Hpv Hk)).
  subst w.
  eexists. split.
  { repeat first [ progress norm | run_wr ltac:(rewrite Hn; reflexivity)
                 | run_rd ltac:(reflexivity) ].
    reflexivity. }
  split; [lk; reflexivity|].
  split.
  { lk. rewrite Hn. destruct nd; simpl in *; subst. reflexivity. }
  split; [lk; rewrite Hpd; simpl; rewrite Hpv; reflexivity|].
  split; [len|].
  intros x Hxn Hxp Hxl. lk. reflexivity.
Qed.

Lemma list_in_place_wraps_node_witness :
  let h := [Node.mk None Py.KNone [] "" None None
              (DICT [(Py.KStr "a", 1); (Py.KStr "c", 2)] false);
            Node.mk (Some "a") (Py.KStr "a") [("id", "1")] "x" (Some 0) None
              (CDATA "x");
            Node.mk (Some "c") (Py.KStr "c") [] "z" (Some 0) None (CDATA "z")] in
  node_list 1 false h = Ok (inl [1]) h
  /\ exists h',
       node_list 1 true h = Ok (inr 3) h'
       /\ h' !! 3 = Some (Node.mk (Some "a") (Py.KStr "a") [] "" (Some 0) None
                            (LIST [1]))
       /\ items_of h' 0 = Some [(Py.KStr "a", 3); (Py.KStr "c", 2)].
Proof.
  intros h.
  destruct (list_in_place_wraps_node h 1
              (Node.mk (Some "a") (Py.KStr "a") [("id", "1")] "x" (Some 0) None
                 (CDATA "x"))
              0
              (Node.mk None Py.KNone [] "" None None
                 (DICT [(Py.KStr "a", 1); (Py.KStr "c", 2)] false))
              [(Py.KStr "a", 1); (Py.KStr "c", 2)] false eq_refl) as [H0 H1].
  - intros ms. discriminate.
  - split; [exact H0|].
    destruct (H1 eq_refl eq_refl) as (h' & E & W & _ & P & _);
      [lia|reflexivity|reflexivity|reflexivity|].
    exists h'. split; [exact E|]. split; [exact W|].
    unfold items_of, value_of. rewrite P. reflexivity.
Defined.

(** ** Parsing one element *)

Lemma get_current_node_live (h : heap) x nd :
  h !! x = Some nd -> Node._replacement_node nd = None ->
  XMLNodeBase.get_current_node x h = Ok (VRef x) h.
Proof.
  intros Hx Hr. unfold XMLNodeBase.get_current_node.
  rewrite (bind_eval _ _ _ _ _ (rd_eval _ _ _ _ Hx)), Hr. reflexivity.
Qed.

Lemma od_get_single (k : Py.key) (v : ref) : OrderedDict.get k [(k, v)] = Some v.
Proof. simpl. destruct (decide (k = k)); congruence. Qed.

Lemma od_set_single (k : Py.key) (v v' : ref) :
  OrderedDict.set k v' [(k, v)] = [(k, v')].
Proof. simpl. destruct (decide (k = k)); congruence. Qed.

Lemma append_assoc (a b c : string) :
  String.append (String.append a b) c = String.append a (String.append b c).
Proof.
  induction a as [|x a IH]; [reflexivity|].
  change (String x (String.append (String.append a b) c)
          = String x (String.append a (String.append b c))).
  rewrite IH. reflexivity.
Qed.

Lemma append_empty_r (a : string) : String.append a "" = a.
Proof.
  induction a as [|x a IH]; [reflexivity|].
  change (String x (String.append a "") = String x a).
  rewrite IH. reflexivity.
Qed.

Lemma fold_append_concat (chunks : list string) (t : string) :
  fold_left String.append chunks t = String.append t (String.concat "" chunks).
Proof.
  revert t. induction chunks as [|c cs IH]; intros t.
  - simpl. symmetry. apply append_empty_r.
  - cbn [fold_left]. rewrite IH, append_assoc. f_equal.
    destruct cs as [|c' cs]; [apply append_empty_r|].
    reflexivity.
Qed.

(** One text operation on a leaf that is the only entry of its parent. *)
Lemma text_op_single (h : heap) l tg k at' t r rd op :
  h !! l = Some (Node.mk tg k at' t (Some r) None (CDATA t)) ->
  h !! r = Some rd ->
  Node.value rd = DICT [(k, l)] false ->
  exists h',
    run_text_op op l true h = Ok (Some (length h)) h'
    /\ h' !! length h
       = Some (Node.mk tg k at' (new_text op t) (Some r) None
                 (CDATA (new_text op t)))
    /\ h' !! r = Some (Node.set_value (DICT [(k, length h)] false) rd)
    /\ length h' = S (length h)
    /\ forall x, x <> l -> x <> r -> x < length h -> h' !! x = h !! x.
Proof.
  intros Hl Hr Hv.
  pose proof (lookup_lt_Some _ _ _ Hl) as Hll.
  pose proof (lookup_lt_Some _ _ _ Hr) as Hrl.
  assert (Hne : l <> r).
  { intros ->. rewrite Hl in Hr. injection Hr as <-. discriminate. }
  rewrite (text_op_in_dict h l _ t r rd [(k, l)] false op true Hl eq_refl
             eq_refl eq_refl Hr Hv (od_get_single k l)).
  rewrite (cdata_set_in_dict h l _ t r rd [(k, l)] false (new_text op t) true
             Hl eq_refl eq_refl eq_refl Hr Hv (od_get_single k l)).
  eexists. split; [reflexivity|]. cbn [Node.tag Node.key Node.xml_attrs].
  split; [lk; reflexivity|].
  split; [lk; rewrite Hr; simpl; rewrite Hv, od_set_single; reflexivity|].
  split; [len|].
  intros x Hx Hxr Hxl. lk. reflexivity.
Qed.

(** Character data reaching a leaf that is the only entry of its parent:
    each call appends to the text. *)
Lemma characters_accumulate (chunks : list string) :
  forall (s : _DictSAXHandler.t) (h : heap) l tg k at' t r rd,
  _DictSAXHandler.in_ignore s = false ->
  _DictSAXHandler.need_cdata_separator s = false ->
  _DictSAXHandler.processing_started s = true ->
  _DictSAXHandler.item s = VRef l ->
  h !! l = Some (Node.mk tg k at' t (Some r) None (CDATA t)) ->
  h !! r = Some rd ->
  Node.value rd = DICT [(k, l)] false ->
  exists l' h',
    Parser.callbacks s (map CharacterData chunks) h
    = Ok (_DictSAXHandler.set_item (VRef l') s) h'
    /\ h' !! l'
       = Some (Node.mk tg k at' (fold_left String.append chunks t) (Some r) None
                 (CDATA (fold_left String.append chunks t)))
    /\ h' !! r = Some (Node.set_value (DICT [(k, l')] false) rd)
    /\ length h <= length h'
    /\ l <= l'
    /\ forall x, x <> l -> x <> r -> x < length h -> h' !! x = h !! x.
Proof.
  induction chunks as [|c cs IH]; intros s h l tg k at' t r rd Hi Hs Hps Hit Hl Hr Hv.
  - exists l, h. split.
    { simpl. destruct s; simpl in *; subst. reflexivity. }
    split; [exact Hl|]. split.
    { rewrite Hr. destruct rd; simpl in *; subst. reflexivity. }
    split; [lia|]. split; [lia|]. reflexivity.
  - destruct (text_op_single h l tg k at' t r rd (Append_text c) Hl Hr Hv)
      as (h1 & E & Hn1 & Hr1 & Hlen1 & Hfr1).
    pose proof (lookup_lt_Some _ _ _ Hl) as Hll.
    pose proof (lookup_lt_Some _ _ _ Hr) as Hrl.
    set (s1 := _DictSAXHandler.set_item (VRef (length h)) s).
    destruct (IH s1 h1 (length h) tg k at' (String.append t c) r
                (Node.set_value (DICT [(k, length h)] false) rd))
      as (l' & h' & E' & Hn' & Hr' & Hlen' & Hle' & Hfr');
      [exact Hi|exact Hs|exact Hps|reflexivity|exact Hn1|exact Hr1|reflexivity|].
    exists l', h'. split.
    { cbn [map Parser.callbacks Parser.dispatch].
      unfold _DictSAXHandler.characters.
      cbn [_DictSAXHandler.in_ignore _DictSAXHandler.need_cdata_separator
           _DictSAXHandler.set_processing_started].
      rewrite Hi, Hs. cbn [negb].
      change (_DictSAXHandler.item (_DictSAXHandler.set_processing_started true s))
        with (_DictSAXHandler.item s).
      rewrite Hit.
      cbn [_DictSAXHandler.on_node].
      rewrite bind_assoc.
      change (append_cdata l c true) with (run_text_op (Append_text c) l true).
      rewrite (bind_eval _ _ _ _ _ E). rewrite bind_ret.
      replace (_DictSAXHandler.set_item (VRef (length h))
                 (_DictSAXHandler.set_processing_started true s)) with s1
        by (subst s1; destruct s; simpl in *; subst; reflexivity).
      rewrite E'. subst s1. destruct s; reflexivity. }
    split; [exact Hn'|]. split; [exact Hr'|]. split; [lia|]. split; [lia|].
    intros x Hx Hxr Hxl. rewrite Hfr' by lia. apply Hfr1; assumption.
Qed.

Lemma add_node_on_dict (h : heap) d dd items ign tag key text nn upd at' :
  h !! d = Some dd -> Node.value dd = DICT items ign ->
  add_node d tag key text nn upd at' h
  = XMLDictNode.add_node d tag key text nn upd at' h.
Proof.
  intros Hd Hv. unfold add_node.
  rewrite (bind_eval _ _ _ _ _ (rd_eval _ _ _ _ Hd)), Hv. reflexivity.
Qed.

(** [start_element] while building, the current item being a dictionary
    node that does not hold the element's name yet. *)
Lemma start_element_builds (s : _DictSAXHandler.t) (n : string)
    (a : list (string * string)) (a1 : attrs) (h : heap) d dd items ign :
  _DictSAXHandler.in_ignore s = false ->
  _DictSAXHandler.item s = VRef d ->
  _DictSAXHandler._attrs_to_dict s a = Returns a1 ->
  h !! d = Some dd -> Node.value dd = DICT items ign ->
  Node._replacement_node dd = None ->
  let tag := _DictSAXHandler._build_name s n in
  OrderedDict.get (Py.KStr tag) items = None ->
  let at' := if _DictSAXHandler.xml_attribs s
             then _DictSAXHandler.attrs_of_pairs
                    (map (fun kv => (_DictSAXHandler._build_name s (fst kv), snd kv)) a1)
             else [] in
  exists h',
    _DictSAXHandler.start_element s n a h
    = Ok (_DictSAXHandler.set_need_cdata_separator false
            (_DictSAXHandler.set_item (VRef (length h))
               (_DictSAXHandler.set_stack (_DictSAXHandler.stack s ++ [VRef d])
                  (_DictSAXHandler.set_path (_DictSAXHandler.path s ++ [tag])
                     (_DictSAXHandler.set_processing_started true s))))) h'
    /\ h' !! length h
       = Some (Node.mk (Some tag) (Py.KStr tag) at' "" (Some d) None (CDATA ""))
    /\ h' !! d = Some (Node.set_value
                         (DICT (items ++ [(Py.KStr tag, length h)]) ign) dd)
    /\ length h' = S (length h)
    /\ forall x, x <> d -> x < length h -> h' !! x = h !! x.
Proof.
  intros Hi Hit Ha Hd Hv Hr tag Hk at'.
  destruct (add_leaf_absent h d dd items ign (Some tag) Py.KNone "" true at'
              Hd Hv Hr Hk) as (h' & E & Hlen & Hn & Hd' & Hfr).
  exists h'. split; [|repeat split; assumption].
  unfold _DictSAXHandler.start_element. cbv zeta.
  change (_DictSAXHandler._attrs_to_dict
            (_DictSAXHandler.set_processing_started true s))
    with (_DictSAXHandler._attrs_to_dict s).
  change (_DictSAXHandler._build_name
            (_DictSAXHandler.set_processing_started true s))
    with (_DictSAXHandler._build_name s).
  fold tag.
  change (_DictSAXHandler._build_name
            (_DictSAXHandler.set_path (_DictSAXHandler.path
               (_DictSAXHandler.set_processing_started true s) ++ [tag])
               (_DictSAXHandler.set_processing_started true s)))
    with (_DictSAXHandler._build_name s).
  rewrite Ha. cbn [lift]. rewrite bind_ret.
  change (_DictSAXHandler.in_ignore
            (_DictSAXHandler.set_path _
               (_DictSAXHandler.set_processing_started true s)))
    with (_DictSAXHandler.in_ignore s).
  rewrite Hi. cbn [andb]. rewrite bind_ret.
  change (_DictSAXHandler.in_ignore
            (_DictSAXHandler.set_path _
               (_DictSAXHandler.set_processing_started true s)))
    with (_DictSAXHandler.in_ignore s).
  rewrite Hi. cbn [negb].
  change (_DictSAXHandler.item
            (_DictSAXHandler.set_path _
               (_DictSAXHandler.set_processing_started true s)))
    with (_DictSAXHandler.item s).
  rewrite Hit. cbn [_DictSAXHandler.on_node].
  change (_DictSAXHandler.xml_attribs
            (_DictSAXHandler.set_path _
               (_DictSAXHandler.set_processing_started true s)))
    with (_DictSAXHandler.xml_attribs s).
  fold at'.
  rewrite (bind_eval _ _ _ _ _
             (eq_trans (add_node_on_dict h d dd items ign _ _ _ _ _ _ Hd Hv) E)).
  rewrite (bind_eval _ _ _ _ _
             (get_current_node_live h' d _ Hd' Hr)).
  reflexivity.
Qed.

Ltac hsimpl :=
  cbn [_DictSAXHandler.path _DictSAXHandler.stack _DictSAXHandler.matches
       _DictSAXHandler.root _DictSAXHandler.item _DictSAXHandler.xml_attribs
       _DictSAXHandler.strip_whitespace _DictSAXHandler.namespace_separator
       _DictSAXHandler.namespaces _DictSAXHandler.strip_namespace
       _DictSAXHandler.match_tests _DictSAXHandler.match_depth
       _DictSAXHandler.in_ignore _DictSAXHandler.cdata_separator
       _DictSAXHandler.need_cdata_separator _DictSAXHandler.processing_started
       _DictSAXHandler.set_path _DictSAXHandler.set_item
       _DictSAXHandler.set_stack _DictSAXHandler.set_need_cdata_separator
       _DictSAXHandler.set_in_ignore _DictSAXHandler.set_matches
       _DictSAXHandler.set_processing_started andb negb].

Lemma removelast_snoc {A} (l : list A) (x : A) : removelast (l ++ [x]) = l.
Proof. apply removelast_last. Qed.

(** The end of [end_element], after the text was stripped: the item on
    top of the stack becomes the current item again. *)
Lemma end_element_pops (s : _DictSAXHandler.t) (h : heap) st r rd p pname
    items ign :
  _DictSAXHandler.in_ignore s = false ->
  _DictSAXHandler.stack s = st ++ [VRef r] ->
  _DictSAXHandler.path s = p ++ [pname] ->
  (Z.of_nat (length p) <? _DictSAXHandler.match_depth s)%Z = false ->
  h !! r = Some rd -> Node.value rd = DICT items ign ->
  exists s',
    bind (let s := _DictSAXHandler._check_generator_matches s in
          match last (_DictSAXHandler.stack s) with
          | Some top =>
              ret (_DictSAXHandler.set_item top
                     (_DictSAXHandler.set_stack
                        (removelast (_DictSAXHandler.stack s)) s))
          | None => raise Py.IndexError
          end)
      (fun s =>
         s ← (match _DictSAXHandler.path s with
              | [] => raise Py.IndexError
              | _ => ret (_DictSAXHandler.set_path
                            (removelast (_DictSAXHandler.path s)) s)
              end);
         let s := if (Z.of_nat (length (_DictSAXHandler.path s))
                      <? _DictSAXHandler.match_depth s)%Z
                  then _DictSAXHandler.set_in_ignore true s else s in
         if negb (_DictSAXHandler.in_ignore s) then
           c ← _DictSAXHandler.on_node (_DictSAXHandler.item s) get_cdata;
           ret (if Nat.ltb 0 (String.length c)
                then _DictSAXHandler.set_need_cdata_separator true s else s)
         else ret s) h
    = Ok s' h
    /\ _DictSAXHandler.item s' = VRef r.
Proof.
  intros Hi Hst Hp Hmd Hr Hv.
  assert (Hget : get_cdata r h = Ok (Node.text rd) h).
  { unfold get_cdata. rewrite (bind_eval _ _ _ _ _ (rd_eval _ _ _ _ Hr)), Hv.
    cbn [class_of]. unfold XMLNodeBase.get_cdata. apply rd_eval. exact Hr. }
  destruct s; cbn in Hi, Hst, Hp, Hmd; subst.
  cbv zeta. unfold _DictSAXHandler._check_generator_matches.
  assert (Hpath : forall (A : Type) (X Y : A),
            match p ++ [pname] with [] => X | _ :: _ => Y end = Y)
    by (intros; destruct p; reflexivity).
  hsimpl.
  destruct (Z.of_nat (length (p ++ [pname])) <? match_depth)%Z; hsimpl;
    rewrite last_snoc, bind_ret; hsimpl;
    rewrite Hpath, bind_ret; hsimpl; rewrite !removelast_snoc, Hmd; hsimpl;
    cbn [_DictSAXHandler.on_node];
    rewrite (bind_eval _ _ _ _ _ Hget);
    eexists; (split; [reflexivity|]);
    destruct (Nat.ltb 0 (String.length (Node.text rd))); reflexivity.
Qed.

Lemma callbacks_app (es es' : list event) :
  forall s h,
    Parser.callbacks s (es ++ es') h
    = bind (Parser.callbacks s es) (fun s' => Parser.callbacks s' es') h.
Proof.
  induction es as [|e es IH]; intros s h; [reflexivity|].
  cbn [app Parser.callbacks]. rewrite bind_assoc.
  destruct (Parser.dispatch s e h) as [s' h'|ex h'|] eqn:E.
  - rewrite !(bind_eval _ _ _ _ _ E). apply IH.
  - rewrite !(bind_eval_raise _ _ _ _ _ E). reflexivity.
  - unfold bind. rewrite E. reflexivity.
Qed.

Lemma callbacks_app_bind {B} (es es' : list event) s (k : _DictSAXHandler.t -> M B) h :
  bind (Parser.callbacks s (es ++ es')) k h
  = bind (Parser.callbacks s es)
      (fun s' => bind (Parser.callbacks s' es') k) h.
Proof.
  rewrite <- bind_assoc. unfold bind at 1. rewrite callbacks_app. reflexivity.
Qed.

Lemma bind_eval3 {A B C D} (m : M A) (t : A -> M B) (r : B -> M C)
    (k : C -> M D) h a h1 :
  m h = Ok a h1 ->
  bind (bind (bind m t) r) k h = bind (bind (t a) r) k h1.
Proof. intros E. unfold bind. rewrite E. reflexivity. Qed.

(** X19.  Parsing, without [generator], a document that is one element
    with character data and no child elements (the tokenizer reports the
    start of the element, its character data in any number of pieces and
    its end, and no error) returns a new root dictionary whose only entry,
    under the element's name, is a leaf with that name as tag and key, the
    element's attributes (none when [xml_attribs] is off), the root as
    parent, and as text the pieces joined, stripped of surrounding white
    space (as [str.strip] does, U+0085 and U+00A0 included) when
    [strip_whitespace] is on.  Name and attribute names are as
    [_build_name] gives them, the attributes as [_attrs_to_dict] converts
    them.  The objects that existed before are unchanged. *)
Theorem parse_single_element (errors : option string)
    (kw : _DictSAXHandler.kwargs) (x : xml_input) (h : heap) (name : string)
    (a : list (string * string)) (a1 : attrs) (chunks : list string) :
  _DictSAXHandler.kw_generator kw = None ->
  whole x = mk_run (StartElement name a :: map CharacterData chunks
                      ++ [EndElement name]) None ->
  let s0 := initial_handler kw [] (length h) in
  _DictSAXHandler._attrs_to_dict s0 a = Returns a1 ->
  let tag := _DictSAXHandler._build_name s0 name in
  let at' := if _DictSAXHandler.kw_xml_attribs kw
             then _DictSAXHandler.attrs_of_pairs
                    (map (fun kv => (_DictSAXHandler._build_name s0 (fst kv), snd kv)) a1)
             else [] in
  let text := if _DictSAXHandler.kw_strip_whitespace kw
              then Py.strip None (String.concat "" chunks)
              else String.concat "" chunks in
  exists h' l,
    Parser.__call__ errors kw x h = Ok (Parser.Tree (VRef (length h))) h'
    /\ h' !! length h
       = Some (Node.mk None Py.KNone [] "" None None
                 (DICT [(Py.KStr tag, l)] false))
    /\ h' !! l
       = Some (Node.mk (Some tag) (Py.KStr tag) at' text (Some (length h)) None
                 (CDATA text))
    /\ forall y nd, h !! y = Some nd -> h' !! y = Some nd.
Proof.
  intros Hgen Hx s0 Ha tag at' text.
  unfold Parser.__call__.
  assert (Hpat : patterns_of kw = Returns [])
    by (unfold patterns_of; rewrite Hgen; reflexivity).
  rewrite (bind_eval _ _ _ _ _ (init_Ok kw [] h Hpat)). fold s0.
  assert (Hgg : Parser.generator_given kw = false)
    by (unfold Parser.generator_given; rewrite Hgen; reflexivity).
  rewrite Hgg.
  unfold Parser.parse_tree, Parser.Parse. rewrite Hx. cbn [events error].
  set (h1 := h ++ [empty_dict]). set (r := length h).
  assert (Hr1 : h1 !! r = Some empty_dict) by apply lookup_snoc_new.
  assert (Hlen1 : length h1 = S r) by (subst h1 r; len).
  destruct (start_element_builds s0 name a a1 h1 r empty_dict [] false
              eq_refl eq_refl Ha Hr1 eq_refl eq_refl eq_refl)
    as (h2 & E2 & Hn2 & Hd2 & Hlen2 & Hfr2).
  fold tag in E2, Hn2, Hd2.
  change (_DictSAXHandler.xml_attribs s0) with (_DictSAXHandler.kw_xml_attribs kw) in Hn2.
  fold at' in Hn2.
  match type of E2 with _ = Ok ?s _ => set (s1 := s) in E2 end.
  destruct (characters_accumulate chunks s1 h2 (length h1) (Some tag)
              (Py.KStr tag) at' "" r _ eq_refl eq_refl eq_refl eq_refl
              Hn2 Hd2 eq_refl)
    as (l' & h3 & E3 & Hn3 & Hr3 & Hlen3 & Hle3 & Hfr3).
  rewrite fold_append_concat in Hn3.
  change (String.append "" (String.concat "" chunks))
    with (String.concat "" chunks) in Hn3.
  cbn [Parser.callbacks Parser.dispatch]. rewrite !bind_assoc.
  rewrite (bind_eval _ _ _ _ _ E2). cbv beta.
  rewrite callbacks_app_bind.
  rewrite (bind_eval _ _ _ _ _ E3). cbv beta.
  cbn [Parser.callbacks Parser.dispatch]. rewrite !bind_assoc.
  set (sE := _DictSAXHandler.set_item (VRef l') s1).
  unfold _DictSAXHandler.end_element.
  change (_DictSAXHandler.in_ignore sE) with false. cbn [negb].
  change (_DictSAXHandler.strip_whitespace sE)
    with (_DictSAXHandler.kw_strip_whitespace kw).
  assert (Hold : forall h', length h1 <= length h' ->
            (forall y, y <> length h1 -> y <> r -> y < length h1 ->
                       h' !! y = h2 !! y) ->
            forall y nd, h !! y = Some nd -> h' !! y = Some nd).
  { intros h' Hle Hfr y nd Hy.
    pose proof (lookup_lt_Some _ _ _ Hy) as Hyl. fold r in Hyl.
    rewrite Hfr by lia. rewrite Hfr2 by lia.
    subst h1. rewrite lookup_snoc_old by exact Hyl. exact Hy. }
  subst text. destruct (_DictSAXHandler.kw_strip_whitespace kw) eqn:Esw.
  - destruct (text_op_single h3 l' (Some tag) (Py.KStr tag) at'
                (String.concat "" chunks) r _ (Strip_text None) Hn3 Hr3 eq_refl)
      as (h4 & E4 & Hn4 & Hr4 & Hlen4 & Hfr4).
    destruct (end_element_pops
                (_DictSAXHandler.set_item (VRef (length h3)) sE) h4 [] r _ []
                tag _ _ eq_refl eq_refl eq_refl eq_refl Hr4 eq_refl)
      as (s' & E5 & Hit5).
    exists h4, (length h3). split.
    + change (_DictSAXHandler.item sE) with (VRef l').
      assert (ES : bind (_DictSAXHandler.on_node (VRef l')
                           (fun r0 => strip_cdata r0 None true))
                     (fun r0 => match r0 with
                                | Some x0 => ret (_DictSAXHandler.set_item (VRef x0) sE)
                                | None => undef
                                end) h3
                   = Ok (_DictSAXHandler.set_item (VRef (length h3)) sE) h4).
      { cbn [_DictSAXHandler.on_node].
        change (strip_cdata l' None true)
          with (run_text_op (Strip_text None) l' true).
        rewrite (bind_eval _ _ _ _ _ E4). reflexivity. }
      rewrite (bind_eval3 _ _ _ _ _ _ _ ES).
      refine (eq_trans (bind_eval _ _ _ _ _ E5) _).
      cbv beta. rewrite ?bind_ret. cbn [fst snd]. rewrite ?bind_ret.
      rewrite Hit5. reflexivity.
    + split; [rewrite Hr4; reflexivity|]. split; [exact Hn4|].
      apply Hold; [lia|].
      intros y Hy Hyr Hyl.
      rewrite Hfr4 by lia. apply Hfr3; lia.
  - destruct (end_element_pops sE h3 [] r _ [] tag _ _
                eq_refl eq_refl eq_refl eq_refl Hr3 eq_refl)
      as (s' & E5 & Hit5).
    exists h3, l'. split.
    + rewrite (bind_eval3 _ _ _ _ _ sE h3 eq_refl).
      refine (eq_trans (bind_eval _ _ _ _ _ E5) _).
      cbv beta. rewrite ?bind_ret. cbn [fst snd]. rewrite ?bind_ret.
      rewrite Hit5. reflexivity.
    + split; [rewrite Hr3; reflexivity|]. split; [exact Hn3|].
      apply Hold; [lia|]. intros y Hy Hyr Hyl. apply Hfr3; lia.
Qed.

Lemma parse_single_element_witness :
  let nbsp := ascii_of_nat 160 in
  let x := mk_input
             (mk_run [StartElement "a" [("id", "1")];
                      CharacterData (String nbsp " x");
                      CharacterData (String "y" (String " " (String nbsp EmptyString)));
                      EndElement "a"] None)
             [] (mk_run [] None) in
  exists h' l,
    Parser.__call__ None _DictSAXHandler.defaults x [] = Ok (Parser.Tree (VRef 0)) h'
    /\ h' !! 0 = Some (Node.mk None Py.KNone [] "" None None
                         (DICT [(Py.KStr "a", l)] false))
    /\ h' !! l = Some (Node.mk (Some "a") (Py.KStr "a") [("id", "1")] "xy"
                         (Some 0) None (CDATA "xy")).
Proof.
  intros nbsp x.
  destruct (parse_single_element None _DictSAXHandler.defaults x [] "a"
              [("id", "1")] [("id", "1")]
              [String nbsp " x"; String "y" (String " " (String nbsp EmptyString))]
              eq_refl eq_refl eq_refl)
    as (h' & l & E & R & L & _).
  exists h', l. split; [exact E|]. split; [exact R|exact L].
Defined.

(** ** Text of dictionary and list nodes *)

(** X20.  On a dictionary or list node that accepts changes, [set_cdata],
    [append_cdata] and [strip_cdata] change the node's text in place (to
    the text given, the old text followed by the text given, the old text
    stripped as [str.strip] does, U+0085 and U+00A0 included): no
    object is created, the node keeps its children, attributes, tag, key
    and parent, every other object is unchanged, the call returns the
    node itself when [return_node] is set, and [get_cdata] then gives the
    new text. *)
Theorem container_text_change (h : heap) (n : ref) (nd : Node.t)
    (op : text_op) (rn : bool) :
  h !! n = Some nd ->
  (forall s, Node.value nd <> CDATA s) ->
  Node._replacement_node nd = None ->
  let t' := new_text op (Node.text nd) in
  let h' := alter (Node.set_text t') n h in
  run_text_op op n rn h = Ok (if rn then Some n else None) h'
  /\ h' !! n = Some (Node.set_text t' nd)
  /\ get_cdata n h' = Ok t' h'.
Proof.
  intros Hn Hc Hr t' h'.
  assert (Hcls : forall A (x y : A),
            match class_of (Node.value nd) with
            | XMLCDATANode_cls => x
            | _ => y
            end = y).
  { intros A x y. destruct (Node.value nd) eqn:E; try reflexivity.
    exfalso. eapply Hc. reflexivity. }
  assert (Hn' : h' !! n = Some (Node.set_text t' nd)).
  { subst h'. rewrite list_lookup_alter_eq, Hn. reflexivity. }
  assert (Hget : forall g x, g !! n = Some x ->
            Node.value x = Node.value nd ->
            get_cdata n g = Ok (Node.text x) g).
  { intros g x Hx Hv. unfold get_cdata.
    rewrite (bind_eval _ _ _ _ _ (rd_eval _ _ _ _ Hx)), Hv, Hcls.
    unfold XMLNodeBase.get_cdata. apply rd_eval. exact Hx. }
  assert (Hset : forall t, set_cdata n t rn h
            = Ok (if rn then Some n else None) (alter (Node.set_text t) n h)).
  { intros t. unfold set_cdata.
    rewrite (bind_eval _ _ _ _ _ (rd_eval _ _ _ _ Hn)), Hcls.
    unfold XMLNodeBase.set_cdata.
    rewrite (bind_eval _ _ _ _ _ (check_replacement_unset _ _ _ Hn Hr)).
    rewrite (bind_eval _ _ _ _ _ (wr_eval _ _ _ _ Hn)). reflexivity. }
  split; [|split; [exact Hn'|exact (Hget h' _ Hn' eq_refl)]].
  subst t' h'. destruct op as [t|t|c]; cbn [run_text_op new_text].
  - apply Hset.
  - unfold append_cdata.
    rewrite (bind_eval _ _ _ _ _ (rd_eval _ _ _ _ Hn)), Hcls.
    unfold XMLNodeBase.append_cdata.
    rewrite (bind_eval _ _ _ _ _ (check_replacement_unset _ _ _ Hn Hr)).
    rewrite (bind_eval _ _ _ _ _ (wr_eval _ _ _ _ Hn)).
    cbn [ret]. f_equal. apply list_eq. intros i.
    destruct (decide (i = n)) as [->|Hne].
    + rewrite !list_lookup_alter_eq, Hn. reflexivity.
    + rewrite !list_lookup_alter_ne by congruence. reflexivity.
  - unfold strip_cdata.
    rewrite (bind_eval _ _ _ _ _ (check_replacement_unset _ _ _ Hn Hr)).
    rewrite (bind_eval _ _ _ _ _ (Hget h nd Hn eq_refl)).
    apply Hset.
Qed.

Lemma container_text_change_witness :
  let nbsp := ascii_of_nat 160 in
  let h := [Node.mk None Py.KNone [] (String " " (String nbsp ("a b" +:+ String nbsp " ")))
              None None (DICT [(Py.KStr "a", 1)] false);
            Node.mk (Some "a") (Py.KStr "a") [] "x" (Some 0) None (CDATA "x")] in
  run_text_op (Strip_text None) 0 true h
  = Ok (Some 0)
      [Node.mk None Py.KNone [] "a b" None None (DICT [(Py.KStr "a", 1)] false);
       Node.mk (Some "a") (Py.KStr "a") [] "x" (Some 0) None (CDATA "x")].
Proof.
  intros nbsp h.
  exact (proj1 (container_text_change h 0 _ (Strip_text None) true eq_refl
                  (fun s H => ltac:(discriminate H)) eq_refl)).
Defined.

(** ** The root of a document cannot be replaced *)

Lemma prefix_from_lookup (h h' : heap) :
  length h <= length h' ->
  (forall x, x < length h -> h' !! x = h !! x) ->
  h `prefix_of` h'.
Proof.
  intros Hlen Hlk. exists (drop (length h) h').
  rewrite <- (take_drop (length h) h') at 1. f_equal.
  apply list_eq. intros i. destruct (decide (i < length h)) as [Hi|Hi].
  - rewrite lookup_take_lt by exact Hi. apply Hlk. exact Hi.
  - rewrite lookup_take_ge by lia. symmetry. apply lookup_ge_None. lia.
Qed.

(** X21.  A node that accepts changes and has no parent cannot be
    replaced or deleted: [_replace_node] raises [AttributeError] and
    changes nothing.  So on a leaf without parent [set_cdata],
    [append_cdata], [strip_cdata] and [add_node], and on a node without
    parent that is not a list node [list(in_place=True)], raise
    [AttributeError]; the objects that existed before the call are all
    unchanged (the calls only leave behind the new objects they had
    built). *)
Theorem root_cannot_be_replaced (h : heap) (n : ref) (nd : Node.t) :
  h !! n = Some nd ->
  Node._replacement_node nd = None ->
  Node.parent nd = None ->
  (forall nw, XMLNodeBase._replace_node n nw h = Raise Py.AttributeError h)
  /\ (forall s, Node.value nd = CDATA s ->
        (forall op rn, exists h',
            run_text_op op n rn h = Raise Py.AttributeError h'
            /\ h `prefix_of` h')
        /\ (forall tag key text upd attrs, exists h',
              add_node n tag key text None upd attrs h
              = Raise Py.AttributeError h'
              /\ h `prefix_of` h'))
  /\ ((forall ms, Node.value nd <> LIST ms) ->
      exists h',
        node_list n true h = Raise Py.AttributeError h' /\ h `prefix_of` h').
Proof.
  intros Hn Hr Hp.
  pose proof (lookup_lt_Some _ _ _ Hn) as Hnl.
  split; [intros nw; exact (replace_node_root h n nd nw Hn Hr Hp)|].
  split.
  - intros s Hv. split.
    + intros op rn.
      assert (Hset : forall t, exists h',
                XMLCDATANode.set_cdata n t rn h = Raise Py.AttributeError h'
                /\ h `prefix_of` h').
      { intros t. unfold XMLCDATANode.set_cdata.
        rewrite (bind_eval _ _ _ _ _ (check_replacement_unset _ _ _ Hn Hr)).
        rewrite !(bind_eval _ _ _ _ _ (rd_eval _ _ _ _ Hn)).
        unfold XMLCDATANode.__init__, XMLNodeBase.__init__.
        rewrite alloc_eval.
        eexists. split; [|eexists; reflexivity].
        apply bind_eval_raise. apply (replace_node_root _ n nd).
        - rewrite lookup_snoc_old by exact Hnl. exact Hn.
        - exact Hr.
        - exact Hp. }
      assert (Hdisp : forall t, set_cdata n t rn h = XMLCDATANode.set_cdata n t rn h).
      { intros t. unfold set_cdata.
        rewrite (bind_eval _ _ _ _ _ (rd_eval _ _ _ _ Hn)), Hv. reflexivity. }
      destruct op as [t|t|c]; cbn [run_text_op].
      * rewrite Hdisp. apply Hset.
      * unfold append_cdata.
        rewrite (bind_eval _ _ _ _ _ (rd_eval _ _ _ _ Hn)), Hv. cbn [class_of].
        unfold XMLCDATANode.append_cdata.
        rewrite (bind_eval _ _ _ _ _ (check_replacement_unset _ _ _ Hn Hr)).
        rewrite (bind_eval _ _ _ _ _ (unicode_leaf _ _ _ _ Hn Hv)).
        apply Hset.
      * unfold strip_cdata.
        rewrite (bind_eval _ _ _ _ _ (check_replacement_unset _ _ _ Hn Hr)).
        assert (Hget : get_cdata n h = Ok s h).
        { unfold get_cdata.
          rewrite (bind_eval _ _ _ _ _ (rd_eval _ _ _ _ Hn)), Hv. cbn [class_of].
          apply (unicode_leaf _ _ _ _ Hn Hv). }
        rewrite (bind_eval _ _ _ _ _ Hget), Hdisp. apply Hset.
    + intros tag key text upd attrs. unfold add_node.
      rewrite (bind_eval _ _ _ _ _ (rd_eval _ _ _ _ Hn)), Hv. cbn [class_of].
      unfold XMLCDATANode.add_node.
      rewrite (bind_eval _ _ _ _ _ (check_replacement_unset _ _ _ Hn Hr)).
      rewrite !(bind_eval _ _ _ _ _ (rd_eval _ _ _ _ Hn)).
      rewrite (bind_eval _ _ _ _ _ (unicode_leaf _ _ _ _ Hn Hv)).
      rewrite !(bind_eval _ _ _ _ _ (rd_eval _ _ _ _ Hn)).
      unfold XMLDictNode.__init__, XMLNodeBase.__init__. rewrite alloc_eval.
      set (D := Node.mk _ _ _ _ _ _ _).
      destruct (add_leaf_absent (h ++ [D]) (length h) D [] false tag key text
                  upd attrs (lookup_snoc_new h D) eq_refl eq_refl eq_refl)
        as (h2 & E & Hlen & Hc & Hd & Hfr).
      rewrite length_app in E, Hlen, Hfr. cbn [length] in E, Hlen, Hfr.
      rewrite Nat.add_1_r in E, Hlen, Hfr.
      rewrite (bind_eval _ _ _ _ _ E).
      assert (Hold : forall x, x < length h -> h2 !! x = h !! x).
      { intros x Hx. rewrite Hfr by lia. apply lookup_snoc_old. exact Hx. }
      exists h2. split.
      * apply bind_eval_raise. apply (replace_node_root _ n nd).
        -- rewrite Hold by exact Hnl. exact Hn.
        -- exact Hr.
        -- exact Hp.
      * apply prefix_from_lookup; [lia|exact Hold].
  - intros Hnl'.
    assert (Hdisp : node_list n true h = XMLNodeBase_list n true h).
    { unfold node_list.
      rewrite (bind_eval _ _ _ _ _ (rd_eval _ _ _ _ Hn)).
      destruct (Node.value nd) eqn:E; try reflexivity.
      exfalso. eapply Hnl'. reflexivity. }
    rewrite Hdisp. unfold XMLNodeBase_list. cbn [negb].
    rewrite !(bind_eval _ _ _ _ _ (rd_eval _ _ _ _ Hn)).
    unfold XMLListNode.__init__, XMLNodeBase.__init__. rewrite alloc_eval.
    eexists. split; [|eexists; reflexivity].
    apply bind_eval_raise. apply (replace_node_root _ n nd).
    + rewrite lookup_snoc_old by exact Hnl. exact Hn.
    + exact Hr.
    + exact Hp.
Qed.

Lemma root_cannot_be_replaced_witness :
  let h := [Node.mk (Some "a") (Py.KStr "a") [] "x" None None (CDATA "x")] in
  XMLNodeBase._replace_node 0 None h = Raise Py.AttributeError h
  /\ exists h', run_text_op (Set_text "y") 0 false h = Raise Py.AttributeError h'
                /\ h `prefix_of` h'.
Proof.
  intros h.
  destruct (root_cannot_be_replaced h 0 _ eq_refl eq_refl eq_refl)
    as (H1 & H2 & _).
  split; [apply H1|].
  destruct (H2 "x" eq_refl) as [H3 _]. apply H3.
Defined.

(** ** Generator mode: the cut of the input into buffers *)

Lemma check_loop_prefix tests path item (ms m : list (string * string * pyval)) :
  _DictSAXHandler.check_loop tests path item (ms ++ m)
  = ms ++ _DictSAXHandler.check_loop tests path item m.
Proof.
  induction tests as [|t tests IH]; cbn [_DictSAXHandler.check_loop];
    [reflexivity|].
  repeat match goal with |- context [if ?c then _ else _] => destruct c end;
    first [apply IH | rewrite app_assoc; reflexivity].
Qed.

Lemma characters_matches (s : _DictSAXHandler.t) ms d h :
  _DictSAXHandler.characters (_DictSAXHandler.set_matches ms s) d h
  = with_matches ms
      (_DictSAXHandler.characters (_DictSAXHandler.set_matches [] s) d h).
Proof.
  destruct s. unfold _DictSAXHandler.characters. hsimpl.
  destruct in_ignore; hsimpl.
  - cbn. rewrite app_nil_r. reflexivity.
  - destruct need_cdata_separator; hsimpl; unfold bind;
      (match goal with |- context [_DictSAXHandler.on_node ?i ?f ?h] =>
         destruct (_DictSAXHandler.on_node i f h) as [[x|] h'|e h'|] end);
      cbn; rewrite ?app_nil_r; reflexivity.
Qed.

Lemma build_name_fun (s1 s2 : _DictSAXHandler.t) :
  _DictSAXHandler.namespaces s1 = _DictSAXHandler.namespaces s2 ->
  _DictSAXHandler.strip_namespace s1 = _DictSAXHandler.strip_namespace s2 ->
  _DictSAXHandler.namespace_separator s1 = _DictSAXHandler.namespace_separator s2 ->
  _DictSAXHandler._build_name s1 = _DictSAXHandler._build_name s2.
Proof.
  destruct s1, s2. cbn. intros -> -> ->. reflexivity.
Qed.

(** Case analysis on the outcomes of the steps of a computation, once
    both sides run the same steps. *)
Ltac outcomes :=
  cbn [_DictSAXHandler.on_node]; unfold bind;
  repeat match goal with
  | |- context [match ?o with Ok _ _ => _ | Raise _ _ => _ | Undef => _ end] =>
      lazymatch o with
      | Ok _ _ => fail
      | Raise _ _ => fail
      | Undef => fail
      | _ => destruct o as [? ?|? ?|]
      end
  | |- context [match ?x with Some _ => _ | None => _ end] =>
      is_var x; destruct x
  end;
  cbn; rewrite ?app_nil_r; reflexivity.

Lemma start_element_matches (s : _DictSAXHandler.t) ms n a h :
  _DictSAXHandler.start_element (_DictSAXHandler.set_matches ms s) n a h
  = with_matches ms
      (_DictSAXHandler.start_element (_DictSAXHandler.set_matches [] s) n a h).
Proof.
  unfold _DictSAXHandler.start_element. cbv zeta.
  repeat match goal with
  | |- context [_DictSAXHandler._attrs_to_dict ?x a] =>
      lazymatch x with
      | s => fail
      | _ => rewrite (attrs_to_dict_config s x a eq_refl eq_refl)
      end
  end.
  repeat match goal with
  | |- context [_DictSAXHandler._build_name ?x] =>
      lazymatch x with
      | s => fail
      | _ => rewrite (build_name_fun x s eq_refl eq_refl eq_refl)
      end
  end.
  set (nm := _DictSAXHandler._build_name s n). clearbody nm.
  destruct (_DictSAXHandler._attrs_to_dict s a) as [a1|e]; [|reflexivity].
  cbn [lift]. rewrite !bind_ret.
  set (bn := _DictSAXHandler._build_name s). clearbody bn.
  destruct s. hsimpl.
  destruct (in_ignore && _)%bool.
  - unfold XMLDictNode.__init__, XMLNodeBase.__init__.
    rewrite !bind_assoc, !alloc_eval, !bind_ret. hsimpl. outcomes.
  - rewrite !bind_ret. hsimpl. destruct in_ignore; hsimpl.
    + cbn. rewrite app_nil_r. reflexivity.
    + destruct item; outcomes.
Qed.


Lemma check_loop_from_nil tests path item (ms : list (string * string * pyval)) :
  _DictSAXHandler.check_loop tests path item ms
  = ms ++ _DictSAXHandler.check_loop tests path item [].
Proof.
  rewrite <- (app_nil_r ms) at 1. apply check_loop_prefix.
Qed.

Lemma bind_raise {A B} (e : Py.exn) (k : A -> M B) h :
  bind (raise e) k h = Raise e h.
Proof. reflexivity. Qed.

Lemma bind_undef {A B} (k : A -> M B) h : bind (@undef A) k h = Undef.
Proof. reflexivity. Qed.

Lemma bind_eval_undef {A B} (m : M A) (k : A -> M B) h :
  m h = Undef -> bind m k h = Undef.
Proof. unfold bind. intros ->. reflexivity. Qed.

(** Both sides run the same steps: case analysis on each in turn. *)
Ltac both_sides :=
  repeat first
    [ progress hsimpl
    | progress cbv zeta
    | progress cbn [_DictSAXHandler.on_node]
    | rewrite bind_assoc
    | rewrite bind_ret
    | rewrite bind_raise
    | rewrite bind_undef
    | match goal with
      | H : ?m ?h = Ok _ _ |- context [bind ?m _ ?h] =>
          rewrite (bind_eval _ _ _ _ _ H)
      | H : ?m ?h = Raise _ _ |- context [bind ?m _ ?h] =>
          rewrite (bind_eval_raise _ _ _ _ _ H)
      | H : ?m ?h = Undef |- context [bind ?m _ ?h] =>
          rewrite (bind_eval_undef _ _ _ H)
      | |- context [if ?c then _ else _] =>
          lazymatch c with
          | context [if _ then _ else _] => fail
          | _ => destruct c
          end
      | |- context [match last ?l with Some _ => _ | None => _ end] =>
          destruct (last l)
      | |- context [match ?p with [] => _ | _ :: _ => _ end] =>
          is_var p; destruct p
      | |- context [_DictSAXHandler.on_node ?v _] => is_var v; destruct v
      | |- context [match ?x with Some _ => _ | None => _ end] =>
          is_var x; destruct x
      | |- context [bind ?m _ ?h] =>
          lazymatch m with
          | strip_cdata _ _ _ => idtac
          | get_cdata _ => idtac
          end;
          let E := fresh "E" in
          destruct (m h) as [? ?|? ?|] eqn:E
      end ].

Lemma end_element_matches (s : _DictSAXHandler.t) ms n h :
  _DictSAXHandler.end_element (_DictSAXHandler.set_matches ms s) n h
  = with_matches ms
      (_DictSAXHandler.end_element (_DictSAXHandler.set_matches [] s) n h).
Proof.
  destruct s. unfold _DictSAXHandler.end_element,
    _DictSAXHandler._check_generator_matches.
  both_sides;
    cbn; rewrite ?(check_loop_from_nil _ _ _ ms), ?app_nil_r; reflexivity.
Qed.

Lemma dispatch_matches (s : _DictSAXHandler.t) ms e h :
  Parser.dispatch (_DictSAXHandler.set_matches ms s) e h
  = with_matches ms (Parser.dispatch (_DictSAXHandler.set_matches [] s) e h).
Proof.
  destruct e; cbn [Parser.dispatch].
  - apply start_element_matches.
  - apply end_element_matches.
  - apply characters_matches.
Qed.

Lemma set_matches_twice ms ms' (s : _DictSAXHandler.t) :
  _DictSAXHandler.set_matches ms (_DictSAXHandler.set_matches ms' s)
  = _DictSAXHandler.set_matches ms s.
Proof. reflexivity. Qed.

Lemma set_matches_same (s : _DictSAXHandler.t) :
  _DictSAXHandler.set_matches (_DictSAXHandler.matches s) s = s.
Proof. destruct s. reflexivity. Qed.

(** The matches a handler holds when the callbacks start stay in front
    of those the callbacks add, and have no other effect. *)
Lemma callbacks_matches (es : list event) :
  forall (s : _DictSAXHandler.t) ms h,
    Parser.callbacks (_DictSAXHandler.set_matches ms s) es h
    = with_matches ms
        (Parser.callbacks (_DictSAXHandler.set_matches [] s) es h).
Proof.
  induction es as [|e es IH]; intros s ms h.
  - cbn. rewrite app_nil_r. reflexivity.
  - cbn [Parser.callbacks]. unfold bind.
    rewrite (dispatch_matches s ms e h).
    destruct (Parser.dispatch (_DictSAXHandler.set_matches [] s) e h)
      as [s1 h1|ex h1|]; cbn [with_matches outcome_map]; [|reflexivity..].
    rewrite (IH s1 (ms ++ _DictSAXHandler.matches s1) h1).
    rewrite <- (set_matches_same s1) at 3.
    rewrite (IH s1 (_DictSAXHandler.matches s1) h1).
    destruct (Parser.callbacks (_DictSAXHandler.set_matches [] s1) es h1)
      as [s2 h2|ex h2|]; cbn [with_matches outcome_map]; [|reflexivity..].
    cbn. rewrite app_assoc. reflexivity.
Qed.


Lemma check_matches_prefix (s : _DictSAXHandler.t) ms :
  _DictSAXHandler.matches
    (_DictSAXHandler._check_generator_matches
       (_DictSAXHandler.set_matches (ms ++ _DictSAXHandler.matches s) s))
  = ms ++ _DictSAXHandler.matches (_DictSAXHandler._check_generator_matches s).
Proof.
  destruct s. unfold _DictSAXHandler._check_generator_matches. hsimpl.
  destruct (_ <? _)%Z; hsimpl; [reflexivity|]. apply check_loop_prefix.
Qed.

Lemma with_matches_Ok ms o (s' : _DictSAXHandler.t) h' :
  with_matches ms o = Ok s' h' ->
  exists s'', o = Ok s'' h'
    /\ s' = _DictSAXHandler.set_matches (ms ++ _DictSAXHandler.matches s'') s''.
Proof.
  destruct o as [s'' h''| |]; cbn; [|discriminate..].
  intros [= <- <-]. eauto.
Qed.

Lemma generator_loop_all_events (errors : option string) (bufs : list parse_run) :
  forall (last_buf : parse_run) (s : _DictSAXHandler.t) acc h s' h',
    no_error (bufs ++ [last_buf]) ->
    Parser.callbacks s (all_events (bufs ++ [last_buf])) h = Ok s' h' ->
    _DictSAXHandler.path s' = [] ->
    Parser.generator_loop errors s bufs last_buf acc h
    = Parser.mk_generated
        (acc ++ _DictSAXHandler.matches
                  (_DictSAXHandler._check_generator_matches s'))
        (Ok tt h').
Proof.
  induction bufs as [|r rest IH]; intros last_buf s acc h s' h' Hne Hrun Hp.
  - cbn [app] in Hne, Hrun. unfold all_events in Hrun.
    cbn [map concat] in Hrun. rewrite app_nil_r in Hrun.
    apply Forall_inv in Hne.
    cbn [Parser.generator_loop]. unfold Parser.generator_turn, Parser.Parse.
    rewrite !bind_assoc, (bind_eval _ _ _ _ _ Hrun), !bind_ret.
    cbn [fst snd]. rewrite Hne, !bind_ret.
    unfold _DictSAXHandler.end_document. rewrite Hp, !bind_ret.
    reflexivity.
  - cbn [app] in Hne, Hrun. unfold all_events in Hrun.
    cbn [map concat] in Hrun. fold (all_events (rest ++ [last_buf])) in Hrun.
    pose proof (Forall_inv Hne) as Hr. apply Forall_inv_tail in Hne.
    rewrite callbacks_app in Hrun.
    destruct (bind_Ok _ _ _ _ _ Hrun) as (s1 & h1 & E1 & E2).
    rewrite <- (set_matches_same s1) in E2. rewrite callbacks_matches in E2.
    destruct (with_matches_Ok _ _ _ _ E2) as (s2 & E3 & ->).
    cbn [Parser.generator_loop]. unfold Parser.generator_turn, Parser.Parse.
    rewrite !bind_assoc, (bind_eval _ _ _ _ _ E1), !bind_ret.
    cbn [fst snd]. rewrite Hr, !bind_ret.
    unfold ret. cbn [_DictSAXHandler.pop_matches].
    rewrite (IH last_buf _ _ _ _ _ Hne E3 Hp).
    rewrite check_matches_prefix, app_assoc. reflexivity.
Qed.

(** X22.  In generator mode the matches do not depend on how the input is
    cut into buffers.  When no call of the tokenizer ends with an error and
    the callbacks for all the events of the input, made in one sequence on
    the new handler, return with every element closed, the generator
    yields exactly the matches the handler holds after that sequence and
    the final check of [end_document], in that order, then ends without an
    exception, and the store is the one that sequence leaves. *)
Theorem generator_independent_of_buffers (errors : option string)
    (kw : _DictSAXHandler.kwargs) (tests : list _GeneratorMatch.t)
    (x : xml_input) (h : heap) (s' : _DictSAXHandler.t) (h' : heap) :
  Parser.generator_given kw = true ->
  patterns_of kw = Returns tests ->
  no_error (increments x ++ [final x]) ->
  Parser.callbacks (initial_handler kw tests (length h))
    (all_events (increments x ++ [final x])) (h ++ [empty_dict])
  = Ok s' h' ->
  _DictSAXHandler.path s' = [] ->
  Parser.__call__ errors kw x h
  = Ok (Parser.Generator
          (Parser.mk_generated
             (_DictSAXHandler.matches
                (_DictSAXHandler._check_generator_matches s'))
             (Ok tt h')))
       (h ++ [empty_dict]).
Proof.
  intros Hg Hpat Hne Hrun Hp. unfold Parser.__call__.
  rewrite (bind_eval _ _ _ _ _ (init_Ok kw tests h Hpat)), Hg.
  unfold Parser._parse_generator.
  rewrite (generator_loop_all_events errors _ _ _ [] _ _ _ Hne Hrun Hp).
  reflexivity.
Qed.

Lemma generator_independent_of_buffers_witness :
  let kw := _DictSAXHandler.with_generator (Some (inl "a"))
              _DictSAXHandler.defaults in
  let x := mk_input (mk_run [] None)
             [mk_run [StartElement "a" []; CharacterData "x"] None;
              mk_run [EndElement "a"] None]
             (mk_run [] None) in
  exists h',
    Parser.__call__ None kw x []
    = Ok (Parser.Generator
            (Parser.mk_generated [("/a", "a", VRef 4)] (Ok tt h')))
         [empty_dict].
Proof.
  intros kw x.
  pose (leaf := fun t r =>
          Node.mk (Some "a") (Py.KStr "a") [] t (Some 1) r (CDATA t)).
  exists [empty_dict;
          Node.mk None Py.KNone [] "" None None (DICT [(Py.KStr "a", 4)] false);
          leaf "" (Some (VRef 3)); leaf "x" (Some (VRef 4)); leaf "x" None].
  apply (generator_independent_of_buffers None kw
           [_GeneratorMatch.mk false ["a"] 1 "a"] x []
           (_DictSAXHandler.mk [] [] [("/a", "a", VRef 4)] 0 (VRef 1) true true
              ":" None false [_GeneratorMatch.mk false ["a"] 1 "a"] 1 true ""
              false true)).
  - reflexivity.
  - reflexivity.
  - repeat constructor.
  - vm_compute. reflexivity.
  - reflexivity.
Defined.

(** ** Namespace prefixes *)

(** X23.  Without [strip_namespace] and with a separator of one
    character: when the [namespaces] mapping is missing or empty,
    [_build_name] returns every name as it is.  With a mapping that is
    not empty it leaves a name without separator as it is and otherwise
    cuts the name at its last separator into a namespace and a local
    name; the namespace is replaced by the prefix the mapping gives for
    it, a namespace the mapping does not hold standing for itself; an
    empty prefix gives the local name alone, any other prefix gives the
    prefix, the separator and the local name. *)
Theorem build_name_maps_namespace (s : _DictSAXHandler.t) (c : ascii)
    (full_name : string) :
  _DictSAXHandler.strip_namespace s = false ->
  _DictSAXHandler.namespace_separator s = String c "" ->
  match _DictSAXHandler.namespaces s with
  | None | Some [] => _DictSAXHandler._build_name s full_name = full_name
  | Some mapping =>
      (sep_free c full_name = true ->
       _DictSAXHandler._build_name s full_name = full_name)
      /\ (sep_free c full_name = false ->
          exists namespace name,
            full_name = String.append namespace (String c name)
            /\ sep_free c name = true
            /\ _DictSAXHandler._build_name s full_name
               = match match OrderedDict.get namespace mapping with
                       | Some short => short
                       | None => namespace
                       end with
                 | "" => name
                 | short => String.append short (String c name)
                 end)
  end.
Proof.
  intros Hstrip Hsep. unfold _DictSAXHandler._build_name.
  rewrite Hstrip, Hsep.
  destruct (_DictSAXHandler.namespaces s) as [[|kv d]|]; try reflexivity.
  cbn [andb negb]. split.
  - intros Hfree. rewrite (rfind_sep_free _ _ Hfree). reflexivity.
  - intros Hnot. unfold Py.rfind.
    pose proof (rfind_from_char c full_name 0) as H.
    destruct (Py.rfind_from (String c "") full_name 0) as [j|];
      [|rewrite H in Hnot; discriminate].
    destruct H as (pre & post & -> & -> & Hfree).
    change (0 + String.length pre) with (String.length pre).
    exists pre, post. split; [reflexivity|]. split; [exact Hfree|].
    unfold _DictSAXHandler.before. rewrite substring_prefix, after_suffix.
    destruct (match OrderedDict.get pre (kv :: d) with
              | Some x => x
              | None => pre
              end) as [|a short]; reflexivity.
Qed.

Lemma build_name_maps_namespace_witness :
  let s := initial_handler
             (_DictSAXHandler.mk_kwargs true true ":"
                (Some [("http://xml.juniper.net/junos", "junos")]) false ""
                None) [] 0 in
  _DictSAXHandler._build_name s "name" = "name"
  /\ exists namespace name,
       "http://xml.juniper.net/junos:name"
       = String.append namespace (String ":" name)
       /\ _DictSAXHandler._build_name s "http://xml.juniper.net/junos:name"
          = match match OrderedDict.get namespace
                          [("http://xml.juniper.net/junos", "junos")] with
                  | Some short => short
                  | None => namespace
                  end with
            | "" => name
            | short => String.append short (String ":" name)
            end.
Proof.
  intros s.
  destruct (build_name_maps_namespace s ":" "name" eq_refl eq_refl) as [H0 _].
  destruct (build_name_maps_namespace s ":" "http://xml.juniper.net/junos:name"
              eq_refl eq_refl) as [_ H].
  destruct (H eq_refl) as (namespace & name & E & _ & B).
  split; [exact (H0 eq_refl)|].
  exists namespace, name. split; [exact E|exact B].
Defined.

(** ** A node found by the search through its parent dictionary *)

Lemma differs_exists (h : heap) x y : differs h x y -> is_Some (h !! x).
Proof.
  unfold differs. destruct recursion_limit_pos as [f ->]. cbn [node_eq].
  destruct (h !! x); [eauto|discriminate].
Qed.

Lemma passed_over_same_values (h h' : heap) self v :
  same_values h h' -> passed_over h self v -> passed_over h' self v.
Proof.
  intros Hsv [Hd Hms]. split; [exact (differs_same_values _ _ _ _ Hsv Hd)|].
  intros ms Hv. destruct (differs_exists _ _ _ Hd) as [vd Hvd].
  destruct (Hsv v vd Hvd) as (vd' & Hvd' & Hval).
  unfold value_of in Hv. rewrite Hvd' in Hv. cbn in Hv.
  eapply Forall_impl; [apply Hms|].
  - unfold value_of. rewrite Hvd. cbn. congruence.
  - intros m Hm. exact (differs_same_values _ _ _ _ Hsv Hm).
Qed.

Lemma list_differs_leaf (h : heap) w wd ms n nd s :
  h !! w = Some wd -> Node.value wd = LIST ms ->
  h !! n = Some nd -> Node.value nd = CDATA s ->
  differs h w n.
Proof.
  intros Hw Hwv Hn Hnv. unfold differs.
  destruct recursion_limit_pos as [f ->]. cbn [node_eq].
  rewrite Hw, Hn, Hwv, Hnv. reflexivity.
Qed.

Section Search.
Variable recur : ref -> M unit.
Variable self : ref.

Lemma scan_nested_none (h : heap) newnode key val elems : forall i,
  Forall (fun x => differs h x self) elems ->
  XMLNodeBase.scan_nested recur self newnode key val elems i h = Ok false h.
Proof.
  induction elems as [|x elems IH]; intros i Hall; [reflexivity|].
  cbn [XMLNodeBase.scan_nested].
  rewrite (bind_eval _ _ _ _ _ (py_eq_differs _ _ _ (Forall_inv Hall))).
  apply IH. exact (Forall_inv_tail Hall).
Qed.

Lemma scan_nested_replace (h : heap) key val vd nn nnd mpre mpost : forall i,
  h !! val = Some vd ->
  h !! nn = Some nnd ->
  is_Some (h !! self) ->
  nn <> val ->
  Forall (fun x => differs h x self) mpre ->
  XMLNodeBase.scan_nested recur self (Some nn) key val (mpre ++ self :: mpost) i h
  = Ok true
      (alter (fun n => match Node.value n with
                       | LIST its =>
                           Node.set_value (LIST (<[i + length mpre := nn]> its)) n
                       | _ => n
                       end) val
         (alter (Node.set_parent (Some val)) nn
            (alter (Node.set_key key) nn h))).
Proof.
  intros i Hv Hnn [sd Hs] Hne Hpre. revert i.
  induction Hpre as [|x mpre Hx _ IH]; intros i.
  - cbn [app XMLNodeBase.scan_nested].
    rewrite (bind_eval _ _ _ _ _ (py_eq_refl _ _ _ Hs)).
    rewrite (bind_eval _ _ _ _ _ (wr_eval _ _ _ _ Hnn)).
    assert (H1 : alter (Node.set_key key) nn h !! nn
                 = Some (Node.set_key key nnd))
      by (rewrite list_lookup_alter_eq, Hnn; reflexivity).
    rewrite (bind_eval _ _ _ _ _ (wr_eval _ _ _ _ H1)).
    unfold XMLNodeBase.list_setitem.
    assert (H2 : alter (Node.set_parent (Some val)) nn
                   (alter (Node.set_key key) nn h) !! val = Some vd)
      by (rewrite !list_lookup_alter_ne by exact Hne; exact Hv).
    rewrite (bind_eval _ _ _ _ _ (wr_eval _ _ _ _ H2)).
    cbn [length]. rewrite Nat.add_0_r. reflexivity.
  - cbn [app XMLNodeBase.scan_nested].
    rewrite (bind_eval _ _ _ _ _ (py_eq_differs _ _ _ Hx)).
    rewrite (IH (S i)). cbn [length].
    replace (S i + length mpre) with (i + S (length mpre)) by lia.
    reflexivity.
Qed.

Lemma scan_items_replace (h : heap) parent nn nnd k w wd mpre mpost post :
  forall pre,
  h !! w = Some wd ->
  Node.value wd = LIST (mpre ++ self :: mpost) ->
  h !! nn = Some nnd ->
  is_Some (h !! self) ->
  nn <> w ->
  differs h w self ->
  Forall (fun x => differs h x self) mpre ->
  Forall (fun kv => passed_over h self (snd kv)) pre ->
  XMLNodeBase.scan_items recur self (Some nn) parent (pre ++ (k, w) :: post) h
  = Ok true
      (alter (fun n => match Node.value n with
                       | LIST its =>
                           Node.set_value (LIST (<[0 + length mpre := nn]> its)) n
                       | _ => n
                       end) w
         (alter (Node.set_parent (Some w)) nn
            (alter (Node.set_key k) nn h))).
Proof.
  intros pre Hw Hwv Hnn Hs Hne Hdw Hmpre Hpre.
  induction Hpre as [|[k' v] pre [Hdv Hms] _ IH].
  - cbn [app XMLNodeBase.scan_items].
    rewrite (bind_eval _ _ _ _ _ (py_eq_differs _ _ _ Hdw)).
    rewrite (bind_eval _ _ _ _ _ (rd_eval _ _ _ _ Hw)), Hwv.
    rewrite (bind_eval _ _ _ _ _
               (scan_nested_replace h k w wd nn nnd mpre mpost 0
                  Hw Hnn Hs Hne Hmpre)).
    reflexivity.
  - cbn [app XMLNodeBase.scan_items]. cbn [snd] in Hdv, Hms.
    rewrite (bind_eval _ _ _ _ _ (py_eq_differs _ _ _ Hdv)).
    destruct (differs_exists _ _ _ Hdv) as [vd Hvd].
    rewrite (bind_eval _ _ _ _ _ (rd_eval _ _ _ _ Hvd)).
    destruct (Node.value vd) as [t|its ig|ms] eqn:Hvv; try exact IH.
    rewrite (bind_eval _ _ _ _ _
               (scan_nested_none h (Some nn) k' v ms 0
                  (Hms ms ltac:(unfold value_of; rewrite Hvd; cbn; congruence)))).
    exact IH.
Qed.
End Search.

Lemma replace_node_by_search (h : heap) self nd d dd ign pre k w wd mpre mpost
    post nn nnd :
  h !! self = Some nd ->
  Node._replacement_node nd = None ->
  Node.parent nd = Some d ->
  h !! d = Some dd ->
  Node.value dd = DICT (pre ++ (k, w) :: post) ign ->
  match OrderedDict.get (Node.key nd) (pre ++ (k, w) :: post) with
  | Some c => differs h c self
  | None => True
  end ->
  h !! w = Some wd ->
  Node.value wd = LIST (mpre ++ self :: mpost) ->
  h !! nn = Some nnd ->
  nn <> w ->
  differs h w self ->
  Forall (fun x => differs h x self) mpre ->
  Forall (fun kv => passed_over h self (snd kv)) pre ->
  XMLNodeBase._replace_node self (Some nn) h
  = Ok tt
      (alter (fun n => match Node.value n with
                       | LIST its =>
                           Node.set_value (LIST (<[0 + length mpre := nn]> its)) n
                       | _ => n
                       end) w
         (alter (Node.set_parent (Some w)) nn
            (alter (Node.set_key k) nn
               (alter (Node.set_replacement (Some (VRef nn))) self h)))).
Proof.
  intros Hs Hr Hp Hd Hdv Hplan Hw Hwv Hnn Hne Hdw Hmpre Hpre.
  unfold XMLNodeBase._replace_node. cbn [XMLNodeBase._replace_node_rec].
  unfold XMLNodeBase._replace_node_body.
  rewrite (bind_eval _ _ _ _ _ (check_replacement_unset _ _ _ Hs Hr)).
  rewrite (bind_eval _ _ _ _ _ (rd_eval _ _ _ _ Hs)), Hp.
  rewrite (bind_eval _ _ _ _ _ (wr_eval _ _ _ _ Hs)).
  set (h1 := alter _ self h).
  assert (Hsv : same_values h h1)
    by (apply same_values_alter; intros x; reflexivity).
  assert (Hs1 : h1 !! self = Some (Node.set_replacement (Some (VRef nn)) nd)).
  { subst h1. rewrite list_lookup_alter_eq, Hs. reflexivity. }
  destruct (Hsv d dd Hd) as (dd1 & Hd1 & Hdv1). rewrite Hdv in Hdv1.
  destruct (Hsv w wd Hw) as (wd1 & Hw1 & Hwv1). rewrite Hwv in Hwv1.
  destruct (Hsv nn nnd Hnn) as (nnd1 & Hnn1 & _).
  assert (Hscan :
    XMLNodeBase.scan_items (fun x => XMLNodeBase._replace_node_rec (length h) x None)
      self (Some nn) d (pre ++ (k, w) :: post) h1
    = Ok true
        (alter (fun n => match Node.value n with
                         | LIST its =>
                             Node.set_value (LIST (<[0 + length mpre := nn]> its)) n
                         | _ => n
                         end) w
           (alter (Node.set_parent (Some w)) nn
              (alter (Node.set_key k) nn h1)))).
  { apply (scan_items_replace _ self h1 d nn nnd1 k w wd1 mpre mpost post pre
             Hw1 Hwv1 Hnn1 (ex_intro _ _ Hs1) Hne).
    - exact (differs_same_values _ _ _ _ Hsv Hdw).
    - eapply Forall_impl; [exact Hmpre|].
      intros x Hx. exact (differs_same_values _ _ _ _ Hsv Hx).
    - eapply Forall_impl; [exact Hpre|].
      intros kv Hkv. exact (passed_over_same_values _ _ _ _ Hsv Hkv). }
  assert (Hc1 : XMLNodeBase.case1
                  (fun x => XMLNodeBase._replace_node_rec (length h) x None)
                  self (Some nn) d h1
                = Ok true
                    (alter (fun n => match Node.value n with
                         | LIST its =>
                             Node.set_value (LIST (<[0 + length mpre := nn]> its)) n
                         | _ => n
                         end) w
                       (alter (Node.set_parent (Some w)) nn
                          (alter (Node.set_key k) nn h1)))).
  { unfold XMLNodeBase.case1.
    rewrite (bind_eval _ _ _ _ _ (rd_eval _ _ _ _ Hd1)), Hdv1.
    rewrite (bind_eval _ _ _ _ _ (rd_eval _ _ _ _ Hs1)).
    cbn [Node.key Node.set_replacement].
    destruct (OrderedDict.get (Node.key nd) (pre ++ (k, w) :: post)) as [c|].
    - rewrite bind_assoc.
      rewrite (bind_eval _ _ _ _ _
                 (py_eq_differs _ _ _ (differs_same_values _ _ _ _ Hsv Hplan))).
      rewrite bind_ret. exact Hscan.
    - rewrite bind_ret. exact Hscan. }
  unfold try_except at 1. unfold bind at 1. rewrite Hc1. reflexivity.
Qed.

(** X24.  [set_cdata], [append_cdata] and [strip_cdata] on a leaf that
    accepts changes and whose parent link names a dictionary in which the
    leaf is not the entry under its own key but a member of a list node
    among the entries (as the first child under a key is after
    [add_node(..., update=False)] put a second one beside it): the search
    through the dictionary finds the leaf, provided it passes over the
    entries before that list (none equal to the leaf, none a list with a
    member equal to it) and no earlier member of the list is equal to the
    leaf.  The new leaf takes the leaf's place in the list and gets the
    list as parent and the list's key in the dictionary as key; it has the
    new text (the old text stripped as [str.strip] does, for
    [strip_cdata]) and the tag and attributes of the old leaf.  The old leaf is
    marked as replaced; the dictionary and all other objects are
    unchanged. *)
Theorem leaf_text_change_by_search (h : heap) (n : ref) (nd : Node.t)
    (s : string) (d : ref) (dd : Node.t) (ign : bool)
    (pre post : list (Py.key * ref)) (k : Py.key) (w : ref) (wd : Node.t)
    (mpre mpost : list ref) (op : text_op) (rn : bool) :
  h !! n = Some nd ->
  Node.value nd = CDATA s ->
  Node._replacement_node nd = None ->
  Node.parent nd = Some d ->
  h !! d = Some dd ->
  Node.value dd = DICT (pre ++ (k, w) :: post) ign ->
  match OrderedDict.get (Node.key nd) (pre ++ (k, w) :: post) with
  | Some c => differs h c n
  | None => True
  end ->
  h !! w = Some wd ->
  Node.value wd = LIST (mpre ++ n :: mpost) ->
  Forall (fun x => differs h x n) mpre ->
  Forall (fun kv => passed_over h n (snd kv)) pre ->
  let t' := new_text op s in
  let nn := length h in
  exists h',
    run_text_op op n rn h = Ok (if rn then Some nn else None) h'
    /\ h' !! nn = Some (Node.mk (Node.tag nd) k (Node.xml_attrs nd) t' (Some w)
                          None (CDATA t'))
    /\ h' !! w = Some (Node.set_value (LIST (mpre ++ nn :: mpost)) wd)
    /\ h' !! n = Some (Node.set_replacement (Some (VRef nn)) nd)
    /\ length h' = S (length h)
    /\ forall x, x <> n -> x <> w -> x < length h -> h' !! x = h !! x.
Proof.
  intros Hn Hv Hr Hp Hd Hdv Hplan Hw Hwv Hmpre Hpre t' nn.
  pose proof (lookup_lt_Some _ _ _ Hn) as Hnl.
  pose proof (lookup_lt_Some _ _ _ Hw) as Hwl.
  assert (Hnw : n <> w).
  { intros ->. rewrite Hn in Hw. injection Hw as ->. congruence. }
  rewrite (text_op_leaf h n nd s op rn Hn Hv Hr). fold t'.
  unfold XMLCDATANode.set_cdata.
  rewrite (bind_eval _ _ _ _ _ (check_replacement_unset _ _ _ Hn Hr)).
  rewrite !(bind_eval _ _ _ _ _ (rd_eval _ _ _ _ Hn)).
  unfold XMLCDATANode.__init__, XMLNodeBase.__init__. rewrite alloc_eval, Hp.
  set (new := Node.mk _ _ _ _ _ _ _). fold nn.
  set (h0 := h ++ [new]).
  assert (Hsv : same_values h h0) by apply same_values_app.
  assert (Hn0 : h0 !! n = Some nd) by (apply lookup_app_l_Some; exact Hn).
  assert (Hd0 : h0 !! d = Some dd) by (apply lookup_app_l_Some; exact Hd).
  assert (Hw0 : h0 !! w = Some wd) by (apply lookup_app_l_Some; exact Hw).
  assert (Hnn0 : h0 !! nn = Some new) by apply lookup_snoc_new.
  assert (Hplan0 : match OrderedDict.get (Node.key nd) (pre ++ (k, w) :: post) with
                   | Some c => differs h0 c n
                   | None => True
                   end).
  { destruct (OrderedDict.get (Node.key nd) (pre ++ (k, w) :: post));
      [exact (differs_same_values _ _ _ _ Hsv Hplan)|exact I]. }
  rewrite (bind_eval _ _ _ _ _
             (replace_node_by_search h0 n nd d dd ign pre k w wd mpre mpost post
                nn new Hn0 Hr Hp Hd0 Hdv Hplan0 Hw0 Hwv Hnn0
                ltac:(subst nn; lia)
                (list_differs_leaf h0 w wd _ n nd s Hw0 Hwv Hn0 Hv)
                (Forall_impl _ _ _ Hmpre
                   (fun x Hx => differs_same_values _ _ _ _ Hsv Hx))
                (Forall_impl _ _ _ Hpre
                   (fun kv Hkv => passed_over_same_values _ _ _ _ Hsv Hkv)))).
  eexists. split; [reflexivity|]. subst h0 nn.
  split; [lk; reflexivity|].
  split.
  { lk. rewrite Hw. cbn. rewrite Hwv, insert_middle. reflexivity. }
  split; [lk; rewrite Hn; reflexivity|].
  split; [len|].
  intros x Hxn Hxw Hxl. lk. reflexivity.
Qed.

Lemma leaf_text_change_by_search_witness :
  let h := [Node.mk None Py.KNone [] "" None None
              (DICT [(Py.KStr "c", 1); (Py.KStr "a", 2)] false);
            Node.mk (Some "c") (Py.KStr "c") [] "q" (Some 0) None (CDATA "q");
            Node.mk (Some "a") (Py.KStr "a") [] "" (Some 0) None (LIST [3; 4]);
            Node.mk (Some "a") (Py.KStr "a") [] "x" (Some 0) None (CDATA "x");
            Node.mk (Some "a") (Py.KStr "a") [] "y" None None (CDATA "y")] in
  exists h',
    run_text_op (Set_text "z") 3 true h = Ok (Some 5) h'
    /\ h' !! 5 = Some (Node.mk (Some "a") (Py.KStr "a") [] "z" (Some 2) None
                         (CDATA "z"))
    /\ members_of h' 2 = Some [5; 4].
Proof.
  intros h.
  assert (H21 : differs h 2 3) by (vm_compute; reflexivity).
  assert (H13 : passed_over h 3 1).
  { split; [vm_compute; reflexivity|]. intros ms Hms. discriminate Hms. }
  destruct (leaf_text_change_by_search h 3 _ "x" 0 _ false [(Py.KStr "c", 1)] []
              (Py.KStr "a") 2 _ [] [4] (Set_text "z") true
              eq_refl eq_refl eq_refl eq_refl eq_refl eq_refl H21 eq_refl eq_refl
              (Forall_nil_2 _)
              (Forall_cons_2 (fun kv => passed_over h 3 (snd kv))
                 (Py.KStr "c", 1) [] H13 (Forall_nil_2 _)))
    as (h' & E & N & W & _).
  exists h'. split; [exact E|]. split; [exact N|].
  unfold members_of, value_of. rewrite W. reflexivity.
Defined.
